(** * Process/thread lifecycle of the xv6-based kernel with clone/join

    A shallow embedding of [proc.c], [sysproc.c], [ulib.c] and [thread.h]:
    the process table, allocation, clone/join, exit/wait, sleep/wakeup,
    kill, and the user-level ticket lock.

    Conventions.
    - [uint] values and pointers are [Z] in [0, 2^32); arithmetic on them
      wraps with [wrap32].
    - A [struct proc *] is a [ptr]: [Slot i] is [&ptable.proc[i]].
    - Loops [for(p = ptable.proc; p < &ptable.proc[NPROC]; p++)] run over
      the slot indices [0 .. length ptable - 1]; [NPROC] is the length of
      the table.
    - The running unit ([myproc()]) is passed as its slot index [cur]. *)

From Stdlib Require Import ZArith Lia String.
From stdpp Require Import base decidable option list.

Local Open Scope Z_scope.

(** ** Machine integers *)

Definition wrap32 (x : Z) : Z := x mod 2 ^ 32.

(** ** Data model (proc.h as used by proc.c) *)

Inductive procstate : Type :=
  UNUSED | EMBRYO | SLEEPING | RUNNABLE | RUNNING | ZOMBIE.

#[global] Instance procstate_eq_dec : EqDecision procstate.
Proof. solve_decision. Defined.

(** Kernel pointers that are compared but never dereferenced as data:
    [Null] is [0], [Slot i] is [&ptable.proc[i]], [Addr a] is any other
    kernel address used as a sleep channel. *)
Inductive ptr : Type :=
| Null
| Slot (i : nat)
| Addr (a : Z).

#[global] Instance ptr_eq_dec : EqDecision ptr.
Proof. solve_decision. Defined.

(** The part of [struct trapframe] that proc.c touches by name, and the
    remaining saved registers as one opaque block. *)
Record trapframe : Type := mkTf {
  eax : Z;
  eip : Z;
  esp : Z;
  tf_rest : list Z
}.

(** Kernel text addresses that allocproc stores into a fresh kernel stack. *)
Inductive text_addr : Type := No_addr | Forkret | Trapret.

(** [struct context]: the callee-saved registers (one block) and the
    resumption address. *)
Record context_t : Type := mkCtx {
  ctx_regs : Z;
  ctx_eip : text_addr
}.

Record proc : Type := mkProc {
  sz : Z;                (* size of process memory (bytes) *)
  pgdir : Z;             (* page table handle, 0 = none *)
  kstack : Z;            (* bottom of kernel stack, 0 = none *)
  state : procstate;
  pid : Z;
  parent : ptr;
  tf : trapframe;        (* contents of *p->tf *)
  kret : text_addr;      (* return address stored below the trap frame *)
  context : context_t;   (* contents of *p->context *)
  chan : ptr;            (* if not Null, sleeping on chan *)
  killed : Z;
  ofile : list Z;        (* open files, 0 = closed entry *)
  cwd : Z;
  name : string;
  is_thread : Z;
  user_stack : Z
}.

Definition tf0 : trapframe := mkTf 0 0 0 [].
Definition proc0 : proc :=
  mkProc 0 0 0 UNUSED 0 Null tf0 No_addr (mkCtx 0 No_addr) Null 0 [] 0
         EmptyString 0 0.

#[global] Instance proc_inhabited : Inhabited proc := populate proc0.

(** Field updates [p->f = v]. *)
Definition set_sz (v : Z) (p : proc) : proc :=
  mkProc v (pgdir p) (kstack p) (state p) (pid p) (parent p) (tf p) (kret p)
         (context p) (chan p) (killed p) (ofile p) (cwd p) (name p)
         (is_thread p) (user_stack p).
Definition set_pgdir (v : Z) (p : proc) : proc :=
  mkProc (sz p) v (kstack p) (state p) (pid p) (parent p) (tf p) (kret p)
         (context p) (chan p) (killed p) (ofile p) (cwd p) (name p)
         (is_thread p) (user_stack p).
Definition set_kstack (v : Z) (p : proc) : proc :=
  mkProc (sz p) (pgdir p) v (state p) (pid p) (parent p) (tf p) (kret p)
         (context p) (chan p) (killed p) (ofile p) (cwd p) (name p)
         (is_thread p) (user_stack p).
Definition set_state (v : procstate) (p : proc) : proc :=
  mkProc (sz p) (pgdir p) (kstack p) v (pid p) (parent p) (tf p) (kret p)
         (context p) (chan p) (killed p) (ofile p) (cwd p) (name p)
         (is_thread p) (user_stack p).
Definition set_pid (v : Z) (p : proc) : proc :=
  mkProc (sz p) (pgdir p) (kstack p) (state p) v (parent p) (tf p) (kret p)
         (context p) (chan p) (killed p) (ofile p) (cwd p) (name p)
         (is_thread p) (user_stack p).
Definition set_parent (v : ptr) (p : proc) : proc :=
  mkProc (sz p) (pgdir p) (kstack p) (state p) (pid p) v (tf p) (kret p)
         (context p) (chan p) (killed p) (ofile p) (cwd p) (name p)
         (is_thread p) (user_stack p).
Definition set_tf (v : trapframe) (p : proc) : proc :=
  mkProc (sz p) (pgdir p) (kstack p) (state p) (pid p) (parent p) v (kret p)
         (context p) (chan p) (killed p) (ofile p) (cwd p) (name p)
         (is_thread p) (user_stack p).
Definition set_kret (v : text_addr) (p : proc) : proc :=
  mkProc (sz p) (pgdir p) (kstack p) (state p) (pid p) (parent p) (tf p) v
         (context p) (chan p) (killed p) (ofile p) (cwd p) (name p)
         (is_thread p) (user_stack p).
Definition set_context (v : context_t) (p : proc) : proc :=
  mkProc (sz p) (pgdir p) (kstack p) (state p) (pid p) (parent p) (tf p)
         (kret p) v (chan p) (killed p) (ofile p) (cwd p) (name p)
         (is_thread p) (user_stack p).
Definition set_chan (v : ptr) (p : proc) : proc :=
  mkProc (sz p) (pgdir p) (kstack p) (state p) (pid p) (parent p) (tf p)
         (kret p) (context p) v (killed p) (ofile p) (cwd p) (name p)
         (is_thread p) (user_stack p).
Definition set_killed (v : Z) (p : proc) : proc :=
  mkProc (sz p) (pgdir p) (kstack p) (state p) (pid p) (parent p) (tf p)
         (kret p) (context p) (chan p) v (ofile p) (cwd p) (name p)
         (is_thread p) (user_stack p).
Definition set_ofile (v : list Z) (p : proc) : proc :=
  mkProc (sz p) (pgdir p) (kstack p) (state p) (pid p) (parent p) (tf p)
         (kret p) (context p) (chan p) (killed p) v (cwd p) (name p)
         (is_thread p) (user_stack p).
Definition set_cwd (v : Z) (p : proc) : proc :=
  mkProc (sz p) (pgdir p) (kstack p) (state p) (pid p) (parent p) (tf p)
         (kret p) (context p) (chan p) (killed p) (ofile p) v (name p)
         (is_thread p) (user_stack p).
Definition set_name (v : string) (p : proc) : proc :=
  mkProc (sz p) (pgdir p) (kstack p) (state p) (pid p) (parent p) (tf p)
         (kret p) (context p) (chan p) (killed p) (ofile p) (cwd p) v
         (is_thread p) (user_stack p).
Definition set_is_thread (v : Z) (p : proc) : proc :=
  mkProc (sz p) (pgdir p) (kstack p) (state p) (pid p) (parent p) (tf p)
         (kret p) (context p) (chan p) (killed p) (ofile p) (cwd p) (name p)
         v (user_stack p).
Definition set_user_stack (v : Z) (p : proc) : proc :=
  mkProc (sz p) (pgdir p) (kstack p) (state p) (pid p) (parent p) (tf p)
         (kret p) (context p) (chan p) (killed p) (ofile p) (cwd p) (name p)
         (is_thread p) v.

(** Calls into the file system made by clone and exit, in call order. *)
Inductive fs_call : Type :=
| Filedup (f : Z)
| Fileclose (f : Z)
| Idup (ip : Z)
| Iput (ip : Z)
| Begin_op
| End_op.

(** One [copyout] of a 32-bit word into a user address space. *)
Record uwrite : Type := mkUwrite {
  uw_pgdir : Z;
  uw_va : Z;
  uw_val : Z
}.

(** One assignment to [p->state]: the slot, the value written, and whether
    [ptable.lock] was held at that moment. *)
Record state_write : Type := mkStateWrite {
  sw_slot : nat;
  sw_state : procstate;
  sw_locked : bool
}.

(** One assignment to [p->parent]: the slot, the value written, and whether
    [ptable.lock] was held at that moment. *)
Record parent_write : Type := mkParentWrite {
  pw_slot : nat;
  pw_parent : ptr;
  pw_locked : bool
}.

(** The kernel state proc.c works on.  The histories ([vm_freed],
    [uwrites], [state_writes], [fs_calls], [console], [parent_writes]) list
    the calls into the collaborators and the logged assignments, most
    recent first. *)
Record kernel : Type := mkKernel {
  ptable : list proc;          (* ptable.proc *)
  ptable_lock : bool;          (* ptable.lock is held *)
  nextpid : Z;
  initproc : ptr;
  kmem : list Z;               (* free pages handed out by kalloc *)
  vm_freed : list Z;           (* freevm(pgdir) calls *)
  uwrites : list uwrite;       (* successful copyout calls *)
  state_writes : list state_write;
  fs_calls : list fs_call;
  console : list string;       (* cprintf format strings *)
  parent_writes : list parent_write
}.

Definition with_ptable (v : list proc) (k : kernel) : kernel :=
  mkKernel v (ptable_lock k) (nextpid k) (initproc k) (kmem k) (vm_freed k)
           (uwrites k) (state_writes k) (fs_calls k) (console k)
           (parent_writes k).
Definition with_lock (v : bool) (k : kernel) : kernel :=
  mkKernel (ptable k) v (nextpid k) (initproc k) (kmem k) (vm_freed k)
           (uwrites k) (state_writes k) (fs_calls k) (console k)
           (parent_writes k).
Definition with_nextpid (v : Z) (k : kernel) : kernel :=
  mkKernel (ptable k) (ptable_lock k) v (initproc k) (kmem k) (vm_freed k)
           (uwrites k) (state_writes k) (fs_calls k) (console k)
           (parent_writes k).
Definition with_kmem (v : list Z) (k : kernel) : kernel :=
  mkKernel (ptable k) (ptable_lock k) (nextpid k) (initproc k) v (vm_freed k)
           (uwrites k) (state_writes k) (fs_calls k) (console k)
           (parent_writes k).
Definition with_vm_freed (v : list Z) (k : kernel) : kernel :=
  mkKernel (ptable k) (ptable_lock k) (nextpid k) (initproc k) (kmem k) v
           (uwrites k) (state_writes k) (fs_calls k) (console k)
           (parent_writes k).
Definition with_uwrites (v : list uwrite) (k : kernel) : kernel :=
  mkKernel (ptable k) (ptable_lock k) (nextpid k) (initproc k) (kmem k)
           (vm_freed k) v (state_writes k) (fs_calls k) (console k)
           (parent_writes k).
Definition with_state_writes (v : list state_write) (k : kernel) : kernel :=
  mkKernel (ptable k) (ptable_lock k) (nextpid k) (initproc k) (kmem k)
           (vm_freed k) (uwrites k) v (fs_calls k) (console k)
           (parent_writes k).
Definition with_fs_calls (v : list fs_call) (k : kernel) : kernel :=
  mkKernel (ptable k) (ptable_lock k) (nextpid k) (initproc k) (kmem k)
           (vm_freed k) (uwrites k) (state_writes k) v (console k)
           (parent_writes k).
Definition with_console (v : list string) (k : kernel) : kernel :=
  mkKernel (ptable k) (ptable_lock k) (nextpid k) (initproc k) (kmem k)
           (vm_freed k) (uwrites k) (state_writes k) (fs_calls k) v
           (parent_writes k).
Definition with_parent_writes (v : list parent_write) (k : kernel) : kernel :=
  mkKernel (ptable k) (ptable_lock k) (nextpid k) (initproc k) (kmem k)
           (vm_freed k) (uwrites k) (state_writes k) (fs_calls k) (console k)
           v.

(** [NPROC] and [ptable.proc[i]]. *)
Definition NPROC (k : kernel) : nat := length (ptable k).
Definition slot (k : kernel) (i : nat) : proc := ptable k !!! i.

(** [p->f = v] for the slot [i], any field but [state] and [parent]. *)
Definition upd (i : nat) (f : proc -> proc) (k : kernel) : kernel :=
  with_ptable (alter f i (ptable k)) k.

(** [p->state = s] for the slot [i]. *)
Definition write_state (i : nat) (s : procstate) (k : kernel) : kernel :=
  with_state_writes
    (mkStateWrite i s (ptable_lock k) :: state_writes k)
    (upd i (set_state s) k).

(** [p->parent = v] for the slot [i]. *)
Definition write_parent (i : nat) (v : ptr) (k : kernel) : kernel :=
  with_parent_writes
    (mkParentWrite i v (ptable_lock k) :: parent_writes k)
    (upd i (set_parent v) k).

(** ** Collaborators: spinlock, allocator, console *)

Definition acquire (k : kernel) : kernel := with_lock true k.
Definition release (k : kernel) : kernel := with_lock false k.

Definition cprintf (msg : string) (k : kernel) : kernel :=
  with_console (msg :: console k) k.

(** Modelled from the spec: the page allocator (kalloc.c) is not part of the
    sources.  "Acquire a kernel stack" takes a page from the free pages and
    fails (returns 0) when there is none; releasing a kernel stack gives the
    page back. *)
Definition kalloc (k : kernel) : Z * kernel :=
  match kmem k with
  | [] => (0, k)
  | pg :: rest => (pg, with_kmem rest k)
  end.

Definition kfree (pg : Z) (k : kernel) : kernel :=
  with_kmem (pg :: kmem k) k.

(** Modelled from the spec: [freevm] (vm.c) is the address-space
    collaborator's [destroy_address_space(handle)]; each call is recorded. *)
Definition freevm (pd : Z) (k : kernel) : kernel :=
  with_vm_freed (pd :: vm_freed k) k.

(** ** Sleep / wakeup *)

(** [wakeup1]: wake up all processes sleeping on [c].  The loop visits the
    slots [i, i+1, ..] for [n] steps. *)
Fixpoint wakeup1_from (n i : nat) (c : ptr) (k : kernel) : kernel :=
  match n with
  | O => k
  | S n' =>
      let p := slot k i in
      let k' :=
        if bool_decide (state p = SLEEPING) && bool_decide (chan p = c)
        then write_state i RUNNABLE k
        else k in
      wakeup1_from n' (S i) c k'
  end.

Definition wakeup1 (c : ptr) (k : kernel) : kernel :=
  wakeup1_from (NPROC k) 0 c k.

Definition wakeup (c : ptr) (k : kernel) : kernel :=
  release (wakeup1 c (acquire k)).

(** ** kill *)

(** The scan of [kill]: [Some k'] when a slot with the given pid was found
    (the function returns 0 from inside the loop), [None] when the loop ran
    to the end. *)
Fixpoint kill_from (n i : nat) (id : Z) (k : kernel) : option kernel :=
  match n with
  | O => None
  | S n' =>
      let p := slot k i in
      if bool_decide (pid p = id) then
        let k1 := upd i (set_killed 1) k in
        let k2 := if bool_decide (state p = SLEEPING)
                  then write_state i RUNNABLE k1 else k1 in
        Some (release k2)
      else kill_from n' (S i) id k
  end.

Definition kill (id : Z) (k : kernel) : Z * kernel :=
  let k0 := acquire k in
  match kill_from (NPROC k0) 0 id k0 with
  | Some k' => (0, k')
  | None => (-1, release k0)
  end.

(** ** Allocation *)

(** [int] arithmetic: [nextpid++]. *)
Definition wrap_int (x : Z) : Z := (x + 2 ^ 31) mod 2 ^ 32 - 2 ^ 31.

(** First slot at or after [i] (within [n] steps) whose state is UNUSED. *)
Fixpoint find_unused_from (n i : nat) (k : kernel) : option nat :=
  match n with
  | O => None
  | S n' =>
      if bool_decide (state (slot k i) = UNUSED) then Some i
      else find_unused_from n' (S i) k
  end.

(** [allocproc]: [Some i] is [&ptable.proc[i]], [None] is the null return.
    The saved context is modelled by its contents: all registers zeroed by
    [memset], then [eip = forkret]; [kret] is the word holding [trapret].
    The trap frame area is left as it is (it is not initialised here). *)
Definition allocproc (k : kernel) : option nat * kernel :=
  let k := acquire k in
  match find_unused_from (NPROC k) 0 k with
  | None => (None, release k)
  | Some i =>
      (* found: *)
      let k := write_state i EMBRYO k in
      let k := with_nextpid (wrap_int (nextpid k + 1))
                 (upd i (set_pid (nextpid k)) k) in
      let k := upd i (set_is_thread 0) k in
      let k := upd i (set_user_stack 0) k in
      let k := release k in
      (* Allocate kernel stack. *)
      let '(pg, k) := kalloc k in
      let k := upd i (set_kstack pg) k in
      if bool_decide (pg = 0) then
        (None, write_state i UNUSED k)
      else
        let k := upd i (set_kret Trapret) k in
        let k := upd i (set_context (mkCtx 0 Forkret)) k in
        (Some i, k)
  end.

(** ** Address-space collaborator *)

(** Modelled from the spec: [copyout] (vm.c) is not part of the sources.  It
    writes to the user address [va] of the address space [pd] when the
    collaborator's [validate_region(handle, addr, len)] accepts the region
    (answer [0]) and fails otherwise (answer [-1]) without writing.  All
    uses here copy one 32-bit word.  The validity of user regions is the
    parameter [uvm_ok pd va len]. *)
Definition copyout (uvm_ok : Z -> Z -> Z -> bool)
    (pd va val : Z) (k : kernel) : Z * kernel :=
  if uvm_ok pd va 4
  then (0, with_uwrites (mkUwrite pd va val :: uwrites k) k)
  else (-1, k).

(** Modelled from the spec: [filedup] and [idup] (file.c, fs.c) duplicate a
    reference and return the same handle; [fileclose], [iput], [begin_op]
    and [end_op] are recorded as calls. *)
Definition fs (c : fs_call) (k : kernel) : kernel :=
  with_fs_calls (c :: fs_calls k) k.

(** ** clone *)

(** [for(i = 0; i < NOFILE; i++) if(curproc->ofile[i])
      np->ofile[i] = filedup(curproc->ofile[i]);]
    over the entries [i, i+1, ..] of the caller's open files. *)
Fixpoint dup_files_from (n i : nat) (cur np : nat) (k : kernel) : kernel :=
  match n with
  | O => k
  | S n' =>
      let f := ofile (slot k cur) !!! i in
      let k' :=
        if bool_decide (f ≠ 0)
        then upd np (fun p => set_ofile (<[i := f]> (ofile p)) p)
                 (fs (Filedup f) k)
        else k in
      dup_files_from n' (S i) cur np k'
  end.

(** The error exit shared by the three failed [copyout]s. *)
Definition clone_abort (np : nat) (msg : string) (k : kernel) : Z * kernel :=
  let k := cprintf msg k in
  let k := kfree (kstack (slot k np)) k in
  let k := upd np (set_kstack 0) k in
  let k := write_state np UNUSED k in
  let k := upd np (set_is_thread 0) k in
  let k := upd np (set_user_stack 0) k in
  (-1, k).

(** The first block of [clone] after the allocation: share the caller's
    address space, record the parent, copy the trap frame. *)
Definition clone_share (cur np : nat) (k : kernel) : kernel :=
  let curproc := slot k cur in
  (* Share address space. *)
  let k := upd np (set_pgdir (pgdir curproc)) k in
  let k := upd np (set_sz (sz curproc)) k in
  let k := write_parent np (Slot cur) k in
  upd np (set_tf (tf curproc)) k.

(** The last block of [clone], after the three words have been pushed. *)
Definition clone_finish (fcn stack ustack_ptr : Z) (cur np : nat) (k : kernel)
    : Z * kernel :=
  let k := upd np (fun p =>
             set_tf (mkTf (eax (tf p)) (eip (tf p)) ustack_ptr
                          (tf_rest (tf p))) p) k in
  let k := upd np (fun p =>
             set_tf (mkTf (eax (tf p)) fcn (esp (tf p))
                          (tf_rest (tf p))) p) k in
  (* Set return value for child thread to 0 *)
  let k := upd np (fun p =>
             set_tf (mkTf 0 (eip (tf p)) (esp (tf p))
                          (tf_rest (tf p))) p) k in
  (* Mark as a thread and store its user stack base (for join) *)
  let k := upd np (set_is_thread 1) k in
  let k := upd np (set_user_stack stack) k in
  (* Copy open files. *)
  let k := dup_files_from (length (ofile (slot k cur))) 0 cur np k in
  let k := upd np (set_cwd (cwd (slot k cur))) (fs (Idup (cwd (slot k cur))) k) in
  let k := upd np (set_name (name (slot k cur))) k in
  let pid := pid (slot k np) in
  let k := acquire k in
  let k := write_state np RUNNABLE k in
  let k := release k in
  let k := cprintf "kernel clone: success for pid %d, child of %d" k in
  (pid, k).

Definition clone (PGSIZE : Z) (uvm_ok : Z -> Z -> Z -> bool)
    (fcn arg1 arg2 stack : Z) (cur : nat) (k : kernel) : Z * kernel :=
  let k := cprintf "kernel clone: called with stack=0x%x, fcn=0x%x" k in
  (* Allocate process. *)
  match allocproc k with
  | (None, k) => (-1, cprintf "kernel clone: allocproc failed" k)
  | (Some np, k) =>
      let k := clone_share cur np k in
      let ustack_ptr := wrap32 (stack + PGSIZE) in
      let fake_ret_pc_val := 4294967295 in
      (* Fake return PC *)
      let ustack_ptr := wrap32 (ustack_ptr - 4) in
      let '(r, k) := copyout uvm_ok (pgdir (slot k np)) ustack_ptr
                             fake_ret_pc_val k in
      if bool_decide (r < 0) then
        clone_abort np "kernel clone: copyout fake_ret_pc failed" k
      else
      (* Push arg2 *)
      let ustack_ptr := wrap32 (ustack_ptr - 4) in
      let '(r, k) := copyout uvm_ok (pgdir (slot k np)) ustack_ptr arg2 k in
      if bool_decide (r < 0) then
        clone_abort np "kernel clone: copyout arg2 failed" k
      else
      (* Push arg1 *)
      let ustack_ptr := wrap32 (ustack_ptr - 4) in
      let '(r, k) := copyout uvm_ok (pgdir (slot k np)) ustack_ptr arg1 k in
      if bool_decide (r < 0) then
        clone_abort np "kernel clone: copyout arg1 failed" k
      else
        clone_finish fcn stack ustack_ptr cur np k
  end.

(** [sys_clone].  [argptr n size] is the collaborator that fetches the
    [n]-th system-call argument as a user pointer ([None] when it answers
    [< 0]). *)
Definition sys_clone (PGSIZE : Z) (uvm_ok : Z -> Z -> Z -> bool)
    (argptr : nat -> Z -> option Z) (cur : nat) (k : kernel) : Z * kernel :=
  match argptr 0%nat 4, argptr 1%nat 4, argptr 2%nat 4, argptr 3%nat 4 with
  | Some fcn, Some arg1, Some arg2, Some stack =>
      let curproc := slot k cur in
      if bool_decide (stack >= sz curproc)
         || bool_decide (wrap32 (stack + PGSIZE) > sz curproc)
         || bool_decide (wrap32 (stack + PGSIZE) < stack)
      then
        (-1, cprintf "clone: stack invalid (outside user space or wraps around)" k)
      else clone PGSIZE uvm_ok fcn arg1 arg2 stack cur k
  | _, _, _, _ => (-1, k)
  end.

(** ** Scheduler handoff *)

(** What a call that may block can do: return a value, stay switched out
    inside [sched()] (the unit has not been resumed), or panic. *)
Inductive outcome : Type :=
| Ret (v : Z) (k : kernel)
| Switched (k : kernel)
| Panic (msg : string) (k : kernel).

(** The rest of the system, as seen by a unit that calls [sched()]: the
    [n]-th element is what the other units and cores did to the kernel
    state between the [n]-th switch away from this unit and its resumption.
    When the list is used up the unit is not resumed any more. *)
Definition environment : Type := list (kernel -> kernel).

(** The checks at the head of [sched()] that concern the process table:
    the table lock must be held and the caller must have left RUNNING.
    (The checks on [mycpu()->ncli] and on the interrupt flag concern the
    per-CPU state, which is outside this model.) *)
Definition sched_check (cur : nat) (k : kernel) : option string :=
  if negb (ptable_lock k) then Some "sched ptable.lock"%string
  else if bool_decide (state (slot k cur) = RUNNING) then Some "sched running"%string
  else None.

(** [sleep(chan, &ptable.lock)] up to its call of [sched()], and after it.
    With [lk == &ptable.lock] no lock is taken or released. *)
Definition sleep_enter (c : ptr) (cur : nat) (k : kernel) : kernel :=
  write_state cur SLEEPING (upd cur (set_chan c) k).

Definition sleep_leave (cur : nat) (k : kernel) : kernel :=
  upd cur (set_chan Null) k.

(** ** Address-space teardown *)

(** The counting loop of [check_and_free_shared_pgdir]. *)
Fixpoint shared_pgdir_users_from (n i : nat) (dying : nat) (k : kernel)
    (users : Z) : Z :=
  match n with
  | O => users
  | S n' =>
      let p := slot k i in
      let users' :=
        if bool_decide (i ≠ dying)
           && bool_decide (pgdir p = pgdir (slot k dying))
           && bool_decide (state p ≠ UNUSED)
           && bool_decide (state p ≠ ZOMBIE)
        then users + 1 else users in
      shared_pgdir_users_from n' (S i) dying k users'
  end.

Definition check_and_free_shared_pgdir (dying : nat) (k : kernel) : kernel :=
  if bool_decide (pgdir (slot k dying) = 0) then k
  else
    let shared_pgdir_users := shared_pgdir_users_from (NPROC k) 0 dying k 0 in
    if bool_decide (shared_pgdir_users = 0)
    then freevm (pgdir (slot k dying)) k
    else k.

(** ** wait *)

(** Result of one scan of the table by [wait] or [join]: the function
    returned from inside the loop, or the loop ended with [havekids]. *)
Inductive scan_result : Type :=
| Scan_return (v : Z) (k : kernel)
| Scan_end (havekids : bool).

(** The body of [if(p->state == ZOMBIE){ .. }] in [wait], for the slot [i]. *)
Definition wait_reap (i : nat) (k : kernel) : Z * kernel :=
  let pid := pid (slot k i) in
  let k := kfree (kstack (slot k i)) k in
  let k := upd i (set_kstack 0) k in
  let k := check_and_free_shared_pgdir i k in
  let k := upd i (set_pid 0) k in
  let k := write_parent i Null k in
  let k := upd i (set_name EmptyString) k in
  let k := upd i (set_killed 0) k in
  let k := write_state i UNUSED k in
  let k := release k in
  (pid, k).

Fixpoint wait_scan (n i : nat) (cur : nat) (havekids : bool) (k : kernel)
    : scan_result :=
  match n with
  | O => Scan_end havekids
  | S n' =>
      let p := slot k i in
      if bool_decide (parent p ≠ Slot cur) || bool_decide (is_thread p ≠ 0)
      then wait_scan n' (S i) cur havekids k
      else if bool_decide (state p = ZOMBIE)
           then let '(pid, k') := wait_reap i k in Scan_return pid k'
           else wait_scan n' (S i) cur true k
  end.

(** The [for(;;)] loop of [wait], entered with the table lock held. *)
Fixpoint wait_loop (env : environment) (cur : nat) (k : kernel) : outcome :=
  match wait_scan (NPROC k) 0 cur false k with
  | Scan_return v k' => Ret v k'
  | Scan_end havekids =>
      if negb havekids || bool_decide (killed (slot k cur) ≠ 0)
      then Ret (-1) (release k)
      else
        (* sleep(curproc, &ptable.lock) *)
        let k := sleep_enter (Slot cur) cur k in
        match sched_check cur k with
        | Some msg => Panic msg k
        | None =>
            match env with
            | [] => Switched k
            | others :: env' => wait_loop env' cur (sleep_leave cur (others k))
            end
        end
  end.

Definition wait (env : environment) (cur : nat) (k : kernel) : outcome :=
  wait_loop env cur (acquire k).

(** ** join *)

(** The body of [if(p->state == ZOMBIE){ .. }] in [join], for the slot [i]. *)
Definition join_reap (uvm_ok : Z -> Z -> Z -> bool) (stack_ptr_user : Z)
    (i cur : nat) (k : kernel) : Z * kernel :=
  let pid := pid (slot k i) in
  let '(r, k) := copyout uvm_ok (pgdir (slot k cur)) stack_ptr_user
                         (user_stack (slot k i)) k in
  if bool_decide (r < 0) then (-2, release k)
  else
    let k := kfree (kstack (slot k i)) k in
    let k := upd i (set_kstack 0) k in
    let k := upd i (set_pid 0) k in
    let k := write_parent i Null k in
    let k := upd i (set_name EmptyString) k in
    let k := upd i (set_killed 0) k in
    let k := write_state i UNUSED k in
    let k := upd i (set_is_thread 0) k in
    let k := upd i (set_user_stack 0) k in
    let k := release k in
    (pid, k).

Fixpoint join_scan (uvm_ok : Z -> Z -> Z -> bool) (stack_ptr_user : Z)
    (n i : nat) (cur : nat) (havekids : bool) (k : kernel) : scan_result :=
  match n with
  | O => Scan_end havekids
  | S n' =>
      let p := slot k i in
      if bool_decide (parent p ≠ Slot cur) || bool_decide (is_thread p = 0)
      then join_scan uvm_ok stack_ptr_user n' (S i) cur havekids k
      else if bool_decide (state p = ZOMBIE)
           then let '(v, k') := join_reap uvm_ok stack_ptr_user i cur k in
                Scan_return v k'
           else join_scan uvm_ok stack_ptr_user n' (S i) cur true k
  end.

Fixpoint join_loop (uvm_ok : Z -> Z -> Z -> bool) (stack_ptr_user : Z)
    (env : environment) (cur : nat) (k : kernel) : outcome :=
  match join_scan uvm_ok stack_ptr_user (NPROC k) 0 cur false k with
  | Scan_return v k' => Ret v k'
  | Scan_end havekids =>
      if negb havekids || bool_decide (killed (slot k cur) ≠ 0)
      then Ret (-1) (release k)
      else
        let k := sleep_enter (Slot cur) cur k in
        match sched_check cur k with
        | Some msg => Panic msg k
        | None =>
            match env with
            | [] => Switched k
            | others :: env' =>
                join_loop uvm_ok stack_ptr_user env' cur
                          (sleep_leave cur (others k))
            end
        end
  end.

Definition join (uvm_ok : Z -> Z -> Z -> bool) (stack_ptr_user : Z)
    (env : environment) (cur : nat) (k : kernel) : outcome :=
  join_loop uvm_ok stack_ptr_user env cur (acquire k).

(** ** exit *)

(** Close all open files: [fileclose] each open entry and clear it. *)
Fixpoint close_files_from (n fd : nat) (cur : nat) (k : kernel) : kernel :=
  match n with
  | O => k
  | S n' =>
      let f := ofile (slot k cur) !!! fd in
      let k' :=
        if bool_decide (f ≠ 0)
        then upd cur (fun p => set_ofile (<[fd := 0]> (ofile p)) p)
                 (fs (Fileclose f) k)
        else k in
      close_files_from n' (S fd) cur k'
  end.

(** Pass abandoned children to init. *)
Fixpoint reparent_from (n i : nat) (cur : nat) (k : kernel) : kernel :=
  match n with
  | O => k
  | S n' =>
      let p := slot k i in
      let k' :=
        if bool_decide (parent p = Slot cur) then
          let k1 := write_parent i (initproc k) k in
          if bool_decide (state p = ZOMBIE)
          then wakeup1 (initproc k1) k1
          else k1
        else k in
      reparent_from n' (S i) cur k'
  end.

Definition exit (env : environment) (cur : nat) (k : kernel) : outcome :=
  if bool_decide (Slot cur = initproc k) then Panic "init exiting" k
  else
    let k := close_files_from (length (ofile (slot k cur))) 0 cur k in
    let k := fs Begin_op k in
    let k := fs (Iput (cwd (slot k cur))) k in
    let k := fs End_op k in
    let k := upd cur (set_cwd 0) k in
    let k := acquire k in
    (* Parent might be sleeping in wait(). *)
    let k := wakeup1 (parent (slot k cur)) k in
    let k := reparent_from (NPROC k) 0 cur k in
    (* Jump into the scheduler, never to return. *)
    let k := write_state cur ZOMBIE k in
    match sched_check cur k with
    | Some msg => Panic msg k
    | None =>
        match env with
        | [] => Switched k
        | others :: _ => Panic "zombie exit" (others k)
        end
    end.

(** ** Ticket lock (thread.h, ulib.c) *)

Record ticket_lock_t : Type := mkTicketLock {
  ticket : Z;
  turn : Z
}.

(** [xadd(addr, val)]: one atomic step that adds [val] to the [uint] cell
    and returns the cell's original value.  The result is the pair of the
    value returned and the new contents of the cell. *)
Definition xadd (cell val : Z) : Z * Z := (cell, wrap32 (cell + val)).

Definition ticket_lock_init : ticket_lock_t := mkTicketLock 0 0.

(** [ticket_lock_acquire] is two kinds of atomic steps: the [xadd] that
    draws [my_ticket], and one evaluation of the loop test
    [lk->turn != my_ticket] ([true]: keep spinning). *)
Definition ticket_lock_acquire_draw (lk : ticket_lock_t) : Z * ticket_lock_t :=
  let '(my_ticket, cell) := xadd (ticket lk) 1 in
  (my_ticket, mkTicketLock cell (turn lk)).

Definition ticket_lock_acquire_spin (lk : ticket_lock_t) (my_ticket : Z) : bool :=
  negb (bool_decide (turn lk = my_ticket)).

Definition ticket_lock_release (lk : ticket_lock_t) : ticket_lock_t :=
  let '(_, cell) := xadd (turn lk) 1 in
  mkTicketLock (ticket lk) cell.

(** Where a thread that runs [acquire; critical section; release] in a loop
    (as [incrementer_thread] does) stands. *)
Inductive tstate : Type :=
| Idle                        (* outside acquire and release *)
| Spinning (my_ticket : Z)    (* inside the loop of ticket_lock_acquire *)
| Holding.                    (* acquire has returned, release not yet run *)

#[global] Instance tstate_eq_dec : EqDecision tstate.
Proof. solve_decision. Defined.

Record lock_sys : Type := mkLockSys {
  lk : ticket_lock_t;
  thr : list tstate
}.

Inductive lock_event : Type :=
| Ev_draw (i : nat)       (* thread i executed the xadd of acquire *)
| Ev_spin (i : nat)       (* thread i found turn != my_ticket *)
| Ev_enter (i : nat)      (* thread i left the loop: acquire completed *)
| Ev_release (i : nat).   (* thread i executed the xadd of release *)

(** Thread [i] runs its next atomic step. *)
Definition lock_step (i : nat) (s : lock_sys) : lock_sys * list lock_event :=
  match thr s !! i with
  | None => (s, [])
  | Some Idle =>
      let '(my_ticket, l) := ticket_lock_acquire_draw (lk s) in
      (mkLockSys l (<[i := Spinning my_ticket]> (thr s)), [Ev_draw i])
  | Some (Spinning my_ticket) =>
      if ticket_lock_acquire_spin (lk s) my_ticket
      then (s, [Ev_spin i])
      else (mkLockSys (lk s) (<[i := Holding]> (thr s)), [Ev_enter i])
  | Some Holding =>
      (mkLockSys (ticket_lock_release (lk s)) (<[i := Idle]> (thr s)),
       [Ev_release i])
  end.

(** An interleaving: the threads take steps in the order given. *)
Fixpoint lock_run (schedule : list nat) (s : lock_sys)
    : lock_sys * list lock_event :=
  match schedule with
  | [] => (s, [])
  | i :: rest =>
      let '(s1, e1) := lock_step i s in
      let '(s2, e2) := lock_run rest s1 in
      (s2, e1 ++ e2)
  end.

Definition lock_start (nthreads : nat) : lock_sys :=
  mkLockSys ticket_lock_init (replicate nthreads Idle).

(** The threads that drew a ticket, completed an acquire, and released, each
    in the order in which it happened. *)
Definition drew (tr : list lock_event) : list nat :=
  omap (fun e => match e with Ev_draw i => Some i | _ => None end) tr.
Definition entered (tr : list lock_event) : list nat :=
  omap (fun e => match e with Ev_enter i => Some i | _ => None end) tr.
Definition released (tr : list lock_event) : list nat :=
  omap (fun e => match e with Ev_release i => Some i | _ => None end) tr.

Definition quiescent (s : lock_sys) : Prop :=
  Forall (fun t => t = Idle) (thr s).

(** ** Sample tables *)

(** A unit with the given scheduling fields and an empty trap frame. *)
Definition unit_of (st : procstate) (id : Z) (par : ptr) (pd kst : Z)
    (thread ustack : Z) (c : ptr) (kill_flag : Z) : proc :=
  mkProc 16384 pd kst st id par tf0 Trapret (mkCtx 0 Forkret) c kill_flag
         [0; 0] 0 "unit" thread ustack.

(** init asleep in wait, a running process with one zombie thread and one
    zombie child process, and a free slot. *)
Definition sample_table : list proc :=
  [ unit_of SLEEPING 1 Null 100 5000 0 0 (Slot 0) 0;
    unit_of RUNNING 2 (Slot 0) 200 6000 0 0 Null 0;
    unit_of ZOMBIE 3 (Slot 1) 200 7000 1 12288 Null 0;
    unit_of ZOMBIE 4 (Slot 1) 300 8000 0 0 Null 0;
    proc0 ].

Definition sample_kernel : kernel :=
  mkKernel sample_table false 5 (Slot 0) [9000; 9001] [] [] [] [] [] [].

(** The same with no free page left. *)
Definition sample_kernel_nomem : kernel := with_kmem [] sample_kernel.

(** The same with the running process kill-flagged. *)
Definition sample_kernel_killed : kernel :=
  upd 1 (set_killed 1) sample_kernel.

(** Every user region is writable / none is. *)
Definition uvm_all : Z -> Z -> Z -> bool := fun _ _ _ => true.
Definition uvm_none : Z -> Z -> Z -> bool := fun _ _ _ => false.

(** init running, a zombie process and its still running thread (already
    passed to init), both on page directory 200. *)
Definition shared_table : list proc :=
  [ unit_of RUNNING 1 Null 100 5000 0 0 Null 0;
    unit_of ZOMBIE 2 (Slot 0) 200 6000 0 0 Null 0;
    unit_of RUNNING 3 (Slot 0) 200 7000 1 12288 Null 0 ].

Definition shared_kernel : kernel :=
  mkKernel shared_table false 4 (Slot 0) [] [] [] [] [] [] [].

(** ** Definitions used to state the properties *)

(** What [wakeup1] does to one slot. *)
Definition woken (c : ptr) (p : proc) : proc :=
  if bool_decide (state p = SLEEPING) && bool_decide (chan p = c)
  then set_state RUNNABLE p else p.

(** What [kill] does to the slot it finds. *)
Definition kill_mark (p : proc) : proc :=
  if bool_decide (state p = SLEEPING)
  then set_state RUNNABLE (set_killed 1 p) else set_killed 1 p.

(** The slot that allocproc hands out, before the kernel stack is set up. *)
Definition embryo (id : Z) (p : proc) : proc :=
  set_user_stack 0 (set_is_thread 0 (set_pid id (set_state EMBRYO p))).

(** The new unit's open files after the file-duplication loop, and the
    file-system calls the loop has made: [src] is the caller's table,
    [dst] the new unit's. *)
Fixpoint dup_ofile (n i : nat) (src dst : list Z) : list Z :=
  match n with
  | O => dst
  | S n' =>
      dup_ofile n' (S i) src
        (if bool_decide (src !!! i ≠ 0) then <[i := src !!! i]> dst else dst)
  end.

Fixpoint dup_calls (n i : nat) (src : list Z) (acc : list fs_call)
    : list fs_call :=
  match n with
  | O => acc
  | S n' =>
      dup_calls n' (S i) src
        (if bool_decide (src !!! i ≠ 0) then Filedup (src !!! i) :: acc else acc)
  end.

(** The unit [clone] leaves in the new slot. *)
Definition cloned (PGSIZE fcn stack : Z) (cur : nat) (c p0 : proc) (pg id : Z)
    : proc :=
  set_state RUNNABLE
    (set_name (name c)
       (set_cwd (cwd c)
          (set_ofile (dup_ofile (length (ofile c)) 0 (ofile c) (ofile p0))
             (set_user_stack stack
                (set_is_thread 1
                   (set_tf (mkTf 0 fcn (stack + PGSIZE - 12) (tf_rest (tf c)))
                      (set_parent (Slot cur)
                         (set_sz (sz c)
                            (set_pgdir (pgdir c)
                               (set_context (mkCtx 0 Forkret)
                                  (set_kret Trapret
                                     (set_kstack pg (embryo id p0))))))))))))).

(** Both scans have one shape: skip the slots that are not selected, note
    that a selected slot exists, and reap the first selected ZOMBIE. *)
Fixpoint scan_from (sel : proc -> bool) (reap : nat -> kernel -> Z * kernel)
    (n i : nat) (havekids : bool) (k : kernel) : scan_result :=
  match n with
  | O => Scan_end havekids
  | S n' =>
      let p := slot k i in
      if negb (sel p) then scan_from sel reap n' (S i) havekids k
      else if bool_decide (state p = ZOMBIE)
           then let '(v, k') := reap i k in Scan_return v k'
           else scan_from sel reap n' (S i) true k
  end.

(** The children [wait] looks at, and those [join] looks at. *)
Definition wait_sel (cur : nat) (p : proc) : bool :=
  bool_decide (parent p = Slot cur) && bool_decide (is_thread p = 0).

Definition join_sel (cur : nat) (p : proc) : bool :=
  bool_decide (parent p = Slot cur) && bool_decide (is_thread p <> 0).

(** Slot [j] holds another live user of slot [i]'s page directory. *)
Definition live_sharer (k : kernel) (i j : nat) : Prop :=
  j <> i /\ (j < NPROC k)%nat /\ pgdir (slot k j) = pgdir (slot k i) /\
  state (slot k j) <> UNUSED /\ state (slot k j) <> ZOMBIE.

(** The unit left in the slot by a reap in [wait], and by one in [join]. *)
Definition reaped_by_wait (p : proc) : proc :=
  set_state UNUSED
    (set_killed 0 (set_name EmptyString (set_parent Null (set_pid 0
       (set_kstack 0 p))))).

Definition reaped_by_join (p : proc) : proc :=
  set_user_stack 0 (set_is_thread 0 (reaped_by_wait p)).

(** The units [wait] and [join] reap: a Zombie child of [cur] that is not a
    thread, and one that is. *)
Definition zombie_child (cur : nat) (q : proc) : Prop :=
  parent q = Slot cur /\ is_thread q = 0 /\ state q = ZOMBIE.

Definition zombie_thread_child (cur : nat) (q : proc) : Prop :=
  parent q = Slot cur /\ is_thread q <> 0 /\ state q = ZOMBIE.

#[global] Instance zombie_child_dec cur q : Decision (zombie_child cur q).
Proof. unfold zombie_child. apply _. Defined.

#[global] Instance zombie_thread_child_dec cur q :
  Decision (zombie_thread_child cur q).
Proof. unfold zombie_thread_child. apply _. Defined.

(** The kernel state an outcome carries. *)
Definition outcome_kernel (o : outcome) : kernel :=
  match o with
  | Ret _ k => k
  | Switched k => k
  | Panic _ k => k
  end.

(** The caller has a child that is not a thread: a slot in use whose
    parent is the caller and that is not marked as a thread. *)
Definition has_child (cur : nat) (k : kernel) : Prop :=
  exists q, q ∈ ptable k /\ state q <> UNUSED /\
            parent q = Slot cur /\ is_thread q = 0.

(** A free slot whose parent field still names the caller.  The error
    exits of [clone] put the slot back to UNUSED without clearing
    [np->parent]; the scan of [wait] tests the parent before the state. *)
Definition stale_child (cur : nat) (k : kernel) : Prop :=
  exists q, q ∈ ptable k /\ state q = UNUSED /\
            parent q = Slot cur /\ is_thread q = 0.

(** The situation in which [wait] goes to sleep: children, none of them a
    Zombie, and the caller not kill-flagged. *)
Definition must_wait (cur : nat) (k : kernel) : Prop :=
  list_find (zombie_child cur) (ptable k) = None /\
  has_child cur k /\ killed (slot k cur) = 0.

(** The rest of the system resumes the sleeping caller with the table lock
    held and leaves it in the same situation. *)
Definition keeps_waiting (cur : nat) (others : kernel -> kernel) : Prop :=
  forall k, ptable_lock k = true -> must_wait cur k ->
    ptable_lock (sleep_leave cur (others (sleep_enter (Slot cur) cur k))) = true /\
    must_wait cur (sleep_leave cur (others (sleep_enter (Slot cur) cur k))).

(** A unit abandoned by [cur] that is already a Zombie. *)
Definition orphan_zombie (cur : nat) (p : proc) : bool :=
  bool_decide (parent p = Slot cur) && bool_decide (state p = ZOMBIE).

(** Some slot among [i, i+1, ..] ([n] of them) holds such a unit. *)
Fixpoint orphan_zombie_from (n i : nat) (cur : nat) (k : kernel) : bool :=
  match n with
  | O => false
  | S n' => orphan_zombie cur (slot k i) || orphan_zombie_from n' (S i) cur k
  end.

(** What the reparenting loop does to one unit: [wake] tells whether
    [wakeup1(initproc)] was called. *)
Definition reparented (cur : nat) (init : ptr) (wake : bool) (p : proc) : proc :=
  let p1 := if bool_decide (parent p = Slot cur) then set_parent init p else p in
  if wake then woken init p1 else p1.

(** The caller's open files after the closing loop, and the calls made. *)
Fixpoint close_ofile (n fd : nat) (fl : list Z) : list Z :=
  match n with
  | O => fl
  | S n' =>
      close_ofile n' (S fd)
        (if bool_decide (fl !!! fd ≠ 0) then <[fd := 0]> fl else fl)
  end.

Fixpoint close_calls (n fd : nat) (fl : list Z) (acc : list fs_call)
    : list fs_call :=
  match n with
  | O => acc
  | S n' =>
      close_calls n' (S fd)
        (if bool_decide (fl !!! fd ≠ 0) then <[fd := 0]> fl else fl)
        (if bool_decide (fl !!! fd ≠ 0) then Fileclose (fl !!! fd) :: acc else acc)
  end.

(** The caller as [exit] leaves it before taking the table lock. *)
Definition closed (c : proc) : proc :=
  set_cwd 0 (set_ofile (close_ofile (length (ofile c)) 0 (ofile c)) c).

(** [exit] up to the acquisition of the table lock. *)
Definition exit_prepare (cur : nat) (k : kernel) : kernel :=
  let k := close_files_from (length (ofile (slot k cur))) 0 cur k in
  let k := fs Begin_op k in
  let k := fs (Iput (cwd (slot k cur))) k in
  let k := fs End_op k in
  let k := upd cur (set_cwd 0) k in
  acquire k.

(** The state in which [exit] calls [sched()]. *)
Definition exit_handoff (cur : nat) (k : kernel) : kernel :=
  let k := exit_prepare cur k in
  let k := wakeup1 (parent (slot k cur)) k in
  let k := reparent_from (NPROC k) 0 cur k in
  write_state cur ZOMBIE k.

(** The slots whose parent is [cur], in table order. *)
Definition abandoned (cur : nat) (k : kernel) : list nat :=
  filter (fun j => parent (slot k j) = Slot cur) (seq 0 (NPROC k)).

(** Units abandoned by [cur] that are already Zombies. *)
Definition leaves_zombie (cur : nat) (k : kernel) : Prop :=
  Exists (fun q => parent q = Slot cur /\ state q = ZOMBIE) (ptable k).

(** What holds of the lock, the threads and the history after any
    interleaving: [N] tickets drawn, [E] acquires completed, [R] releases. *)
Record lock_inv (s : lock_sys) (tr : list lock_event) : Prop := mkLockInv {
  inv_ticket : ticket (lk s) = wrap32 (Z.of_nat (length (drew tr)));
  inv_turn : turn (lk s) = wrap32 (Z.of_nat (length (released tr)));
  inv_fifo : entered tr = take (length (entered tr)) (drew tr);
  inv_RE : (length (released tr) <= length (entered tr))%nat;
  inv_ER : (length (entered tr) <= S (length (released tr)))%nat;
  inv_EN : (length (entered tr) <= length (drew tr))%nat;
  inv_nodup : NoDup (drop (length (released tr)) (drew tr));
  inv_ids : forall p i, drew tr !! p = Some i -> (i < length (thr s))%nat;
  inv_queue : forall p,
    (length (entered tr) <= p < length (drew tr))%nat ->
    exists i, drew tr !! p = Some i /\
              thr s !! i = Some (Spinning (wrap32 (Z.of_nat p)));
  inv_spinning : forall i t,
    thr s !! i = Some (Spinning t) ->
    exists p, (length (entered tr) <= p < length (drew tr))%nat /\
              drew tr !! p = Some i;
  inv_holding : forall i,
    thr s !! i = Some Holding ->
    length (entered tr) = S (length (released tr)) /\
    drew tr !! length (released tr) = Some i;
  inv_holder : length (entered tr) = S (length (released tr)) ->
    exists i, drew tr !! length (released tr) = Some i /\
              thr s !! i = Some Holding
}.

(** * The rest of proc.c, sysproc.c and ulib.c *)

(** ** fork *)

(** The error exit of [fork] when the address space cannot be copied. *)
Definition fork_abort (np : nat) (k : kernel) : Z * kernel :=
  let k := kfree (kstack (slot k np)) k in
  let k := upd np (set_kstack 0) k in
  let k := write_state np UNUSED k in
  (-1, k).

(** The last block of [fork], once the address space has been copied. *)
Definition fork_finish (cur np : nat) (k : kernel) : Z * kernel :=
  let k := upd np (set_sz (sz (slot k cur))) k in
  let k := write_parent np (Slot cur) k in
  let k := upd np (set_tf (tf (slot k cur))) k in
  (* Clear %eax so that fork returns 0 in the child. *)
  let k := upd np (fun p =>
             set_tf (mkTf 0 (eip (tf p)) (esp (tf p)) (tf_rest (tf p))) p) k in
  let k := dup_files_from (length (ofile (slot k cur))) 0 cur np k in
  let k := upd np (set_cwd (cwd (slot k cur))) (fs (Idup (cwd (slot k cur))) k) in
  let k := upd np (set_name (name (slot k cur))) k in
  let pid := pid (slot k np) in
  let k := acquire k in
  let k := write_state np RUNNABLE k in
  let k := release k in
  (pid, k).

(** [fork].  [copyuvm pgdir sz] is the address-space collaborator's
    [duplicate_address_space]: the handle of the copy, or [0] when the copy
    cannot be made. *)
Definition fork (copyuvm : Z -> Z -> Z) (cur : nat) (k : kernel) : Z * kernel :=
  (* Allocate process. *)
  match allocproc k with
  | (None, k) => (-1, k)
  | (Some np, k) =>
      (* Copy process state from proc. *)
      let pd := copyuvm (pgdir (slot k cur)) (sz (slot k cur)) in
      let k := upd np (set_pgdir pd) k in
      if bool_decide (pd = 0) then fork_abort np k
      else fork_finish cur np k
  end.

(** The unit [fork] leaves in the new slot: [c] is the caller, [p0] the
    slot's previous contents, [pd] the copied address space. *)
Definition forked (cur : nat) (c p0 : proc) (pg id pd : Z) : proc :=
  set_state RUNNABLE
    (set_name (name c)
       (set_cwd (cwd c)
          (set_ofile (dup_ofile (length (ofile c)) 0 (ofile c) (ofile p0))
             (set_tf (mkTf 0 (eip (tf c)) (esp (tf c)) (tf_rest (tf c)))
                (set_parent (Slot cur)
                   (set_sz (sz c)
                      (set_pgdir pd
                         (set_context (mkCtx 0 Forkret)
                            (set_kret Trapret
                               (set_kstack pg (embryo id p0))))))))))).

(** The slot after a failed [fork] or [clone]: back to UNUSED, with the pid
    it had been given. *)
Definition rolled_back (id pd : Z) (p0 : proc) : proc :=
  set_state UNUSED
    (set_kstack 0
       (set_pgdir pd
          (set_context (mkCtx 0 Forkret)
             (set_kret Trapret (embryo id p0))))).

(** The sample table without its free slot: every slot is in use. *)
Definition full_kernel : kernel :=
  mkKernel (take 4 sample_table) false 5 (Slot 0) [9000; 9001] [] [] [] [] [] [].

(** The sample kernel with a second free slot. *)
Definition two_free_kernel : kernel :=
  mkKernel (sample_table ++ [proc0]) false 5 (Slot 0) [9000; 9001] [] [] [] [] [] [].

(** ** Scheduler *)

(** The body of the scheduler's loop for the slot [i]: a slot that is not
    RUNNABLE is skipped, a RUNNABLE one is marked RUNNING and switched to.
    [run i] is what that unit does to the kernel state from the [swtch]
    into it until it switches back to the scheduler. *)
Definition scheduler_visit (run : nat -> kernel -> kernel) (i : nat)
    (k : kernel) : kernel :=
  if bool_decide (state (slot k i) ≠ RUNNABLE) then k
  else run i (write_state i RUNNING k).

(** The loop over the process table, for the slots [i, i+1, ..]. *)
Fixpoint scheduler_from (run : nat -> kernel -> kernel) (n i : nat)
    (k : kernel) : kernel :=
  match n with
  | O => k
  | S n' => scheduler_from run n' (S i) (scheduler_visit run i k)
  end.

(** One round of the scheduler's [for(;;)]. *)
Definition scheduler_pass (run : nat -> kernel -> kernel) (k : kernel)
    : kernel :=
  release (scheduler_from run (NPROC k) 0 (acquire k)).

(** The scheduler's visit of the slot [i] up to the [swtch] into it. *)
Definition dispatch (i : nat) (k : kernel) : kernel :=
  scheduler_visit (fun _ k0 => k0) i k.

(** [yield]: give up the CPU for one scheduling round.  The caller is
    resumed by the scheduler with the table lock held. *)
Definition yield (env : environment) (cur : nat) (k : kernel) : outcome :=
  let k := acquire k in
  let k := write_state cur RUNNABLE k in
  match sched_check cur k with
  | Some msg => Panic msg k
  | None =>
      match env with
      | [] => Switched k
      | others :: _ => Ret 0 (release (others k))
      end
  end.

(** [forkret]: where a new unit starts when it is first scheduled; it
    still holds the table lock taken by the scheduler and releases it.  (The
    one-time initialisation of the file system is outside this model.) *)
Definition forkret (k : kernel) : kernel := release k.

(** A unit that has just been switched to, coming back from [yield] or
    starting at [forkret], releases the table lock and calls [exit]. *)
Definition runs_to_exit (i : nat) (k : kernel) : kernel :=
  outcome_kernel (exit [] i (release k)).

(** A unit that, once switched to, releases the table lock and calls
    [yield] again. *)
Definition runs_to_yield (i : nat) (k : kernel) : kernel :=
  outcome_kernel (yield [] i (release k)).

(** A small family: init sleeps in [wait]; the process in slot 1 runs and
    has two children that are ready to run, a process in slot 2 and a
    thread in slot 3 that shares its address space. *)
Definition family_table : list proc :=
  [ unit_of SLEEPING 1 (Slot 0) 100 5000 0 0 (Slot 0) 0;
    unit_of RUNNING 2 (Slot 0) 200 6000 0 0 Null 0;
    unit_of RUNNABLE 3 (Slot 1) 300 7000 0 0 Null 0;
    unit_of RUNNABLE 4 (Slot 1) 200 8000 1 12288 Null 0;
    proc0 ].

Definition family_kernel : kernel :=
  mkKernel family_table false 5 (Slot 0) [9000; 9001] [] [] [] [] [] [].

(** Init asleep, one running process without children, one free slot. *)
Definition lone_table : list proc :=
  [ unit_of SLEEPING 1 (Slot 0) 100 5000 0 0 (Slot 0) 0;
    unit_of RUNNING 2 (Slot 0) 200 6000 0 0 Null 0;
    proc0 ].

Definition lone_kernel : kernel :=
  mkKernel lone_table false 3 (Slot 0) [9000; 9001] [] [] [] [] [] [].

(** The slots that are RUNNABLE, in table order, and the two state writes
    that one scheduling of a yielding unit leaves in the history. *)
Definition runnable_slots (k : kernel) : list nat :=
  filter (fun i => state (slot k i) = RUNNABLE) (seq 0 (NPROC k)).

Definition ran_and_yielded (i : nat) : list state_write :=
  [mkStateWrite i RUNNING true; mkStateWrite i RUNNABLE true].

(** ** growproc and the system calls around it (sysproc.c) *)

(** [growproc]: grow the caller's memory by [n] bytes.  [allocuvm] and
    [deallocuvm] are the address-space collaborator's calls
    [(pgdir, oldsz, newsz)], which answer the new size, or [0] on failure;
    [sz + n] is [uint] arithmetic.  ([switchuvm] reloads the CPU's page
    table register, which is outside this model.) *)
Definition growproc (allocuvm deallocuvm : Z -> Z -> Z -> Z) (n : Z)
    (cur : nat) (k : kernel) : Z * kernel :=
  let sz0 := sz (slot k cur) in
  if bool_decide (n > 0) then
    let sz1 := allocuvm (pgdir (slot k cur)) sz0 (wrap32 (sz0 + n)) in
    if bool_decide (sz1 = 0) then (-1, k)
    else (0, upd cur (set_sz sz1) k)
  else if bool_decide (n < 0) then
    let sz1 := deallocuvm (pgdir (slot k cur)) sz0 (wrap32 (sz0 + n)) in
    if bool_decide (sz1 = 0) then (-1, k)
    else (0, upd cur (set_sz sz1) k)
  else (0, upd cur (set_sz sz0) k).

(** [sys_sbrk].  [argint n] fetches the [n]-th system-call argument as an
    [int] ([None] when it answers [< 0]); the old size is returned as an
    [int]. *)
Definition sys_sbrk (allocuvm deallocuvm : Z -> Z -> Z -> Z)
    (argint : nat -> option Z) (cur : nat) (k : kernel) : Z * kernel :=
  match argint 0%nat with
  | None => (-1, k)
  | Some n =>
      let addr := wrap_int (sz (slot k cur)) in
      let '(r, k) := growproc allocuvm deallocuvm n cur k in
      if bool_decide (r < 0) then (-1, k) else (addr, k)
  end.

Definition sys_fork (copyuvm : Z -> Z -> Z) (cur : nat) (k : kernel)
    : Z * kernel :=
  fork copyuvm cur k.

Definition sys_exit (env : environment) (cur : nat) (k : kernel) : outcome :=
  exit env cur k.

Definition sys_wait (env : environment) (cur : nat) (k : kernel) : outcome :=
  wait env cur k.

Definition sys_kill (argint : nat -> option Z) (k : kernel) : Z * kernel :=
  match argint 0%nat with
  | None => (-1, k)
  | Some id => kill id k
  end.

Definition sys_getpid (cur : nat) (k : kernel) : Z := pid (slot k cur).

Definition sys_join (uvm_ok : Z -> Z -> Z -> bool)
    (argptr : nat -> Z -> option Z) (env : environment) (cur : nat)
    (k : kernel) : outcome :=
  match argptr 0%nat 4 with
  | None => Ret (-1) k
  | Some stack_ptr_user => join uvm_ok stack_ptr_user env cur k
  end.

(** ** String and memory functions (ulib.c) *)

(** User memory is a list of bytes (values 0..255); a pointer is an offset
    into it.  A read or write outside the memory is a fault: the function
    gives [None].  Loops that run until they meet a NUL byte take the size
    of the memory as fuel, which is enough since each round moves to the
    next address.  User addresses lie below [KERNBASE = 2^31], so the [int]
    counters of these functions cannot overflow. *)

(** [for(n = 0; s[n]; n++) ;] *)
Fixpoint strlen_from (fuel : nat) (m : list Z) (s n : nat) : option nat :=
  match fuel with
  | O => None
  | S fuel' =>
      match m !! (s + n)%nat with
      | None => None
      | Some b =>
          if bool_decide (b = 0) then Some n
          else strlen_from fuel' m s (S n)
      end
  end.

Definition strlen (m : list Z) (s : nat) : option nat :=
  strlen_from (S (length m)) m s 0.

(** [while(( *s++ = *t++) != 0) ;] gives the memory after the copy. *)
Fixpoint strcpy_from (fuel : nat) (m : list Z) (s t : nat)
    : option (list Z) :=
  match fuel with
  | O => None
  | S fuel' =>
      match m !! t with
      | None => None
      | Some b =>
          if bool_decide (s < length m)%nat then
            if bool_decide (b = 0) then Some (<[s := b]> m)
            else strcpy_from fuel' (<[s := b]> m) (S s) (S t)
          else None
      end
  end.

Definition strcpy (m : list Z) (s t : nat) : option (list Z) :=
  strcpy_from (S (length m)) m s t.

(** [while( *p && *p == *q) p++, q++; return (uchar)*p - (uchar)*q;] *)
Fixpoint strcmp_from (fuel : nat) (m : list Z) (p q : nat) : option Z :=
  match fuel with
  | O => None
  | S fuel' =>
      match m !! p, m !! q with
      | Some a, Some b =>
          if bool_decide (a ≠ 0) && bool_decide (a = b)
          then strcmp_from fuel' m (S p) (S q)
          else Some (a - b)
      | _, _ => None
      end
  end.

Definition strcmp (m : list Z) (p q : nat) : option Z :=
  strcmp_from (S (length m)) m p q.

(** [for(; *s; s++) if( *s == c) return (char* )s; return 0;]:
    [Some (Some a)] is the pointer [a], [Some None] the null pointer. *)
Fixpoint strchr_from (fuel : nat) (m : list Z) (s : nat) (c : Z)
    : option (option nat) :=
  match fuel with
  | O => None
  | S fuel' =>
      match m !! s with
      | None => None
      | Some b =>
          if bool_decide (b = 0) then Some None
          else if bool_decide (b = c) then Some (Some s)
          else strchr_from fuel' m (S s) c
      end
  end.

Definition strchr (m : list Z) (s : nat) (c : Z) : option (option nat) :=
  strchr_from (S (length m)) m s c.

(** [for(i = 0; i < n; i++) cdst[i] = (char)c;] *)
Fixpoint memset_from (n : nat) (m : list Z) (dst : nat) (c : Z)
    : option (list Z) :=
  match n with
  | O => Some m
  | S n' =>
      if bool_decide (dst < length m)%nat
      then memset_from n' (<[dst := c mod 256]> m) (S dst) c
      else None
  end.

Definition memset (m : list Z) (dst : nat) (c : Z) (n : Z) : option (list Z) :=
  memset_from (Z.to_nat n) m dst c.

(** [while(n-- > 0) *dst++ = *src++;] *)
Fixpoint memmove_from (n : nat) (m : list Z) (dst src : nat)
    : option (list Z) :=
  match n with
  | O => Some m
  | S n' =>
      match m !! src with
      | None => None
      | Some b =>
          if bool_decide (dst < length m)%nat
          then memmove_from n' (<[dst := b]> m) (S dst) (S src)
          else None
      end
  end.

Definition memmove (m : list Z) (vdst vsrc : nat) (n : Z) : option (list Z) :=
  memmove_from (Z.to_nat n) m vdst vsrc.

(** [n = 0; while('0' <= *s && *s <= '9') n = n*10 + *s++ - '0';] in [int]
    arithmetic. *)
Fixpoint atoi_from (fuel : nat) (m : list Z) (s : nat) (n : Z) : option Z :=
  match fuel with
  | O => None
  | S fuel' =>
      match m !! s with
      | None => None
      | Some b =>
          if bool_decide (48 <= b) && bool_decide (b <= 57)
          then atoi_from fuel' m (S s) (wrap_int (n * 10 + b - 48))
          else Some n
      end
  end.

Definition atoi (m : list Z) (s : nat) : option Z :=
  atoi_from (S (length m)) m s 0.

(** The loop of [gets]: [input] is what [read(0, &c, 1)] will deliver, one
    byte per call, and an empty [input] makes [read] answer [0].  The
    result is the memory, the input left and the final [i]. *)
Fixpoint gets_loop (fuel : nat) (m input : list Z) (buf i : nat) (max : Z)
    : option (list Z * list Z * nat) :=
  match fuel with
  | O => Some (m, input, i)
  | S fuel' =>
      if bool_decide (Z.of_nat i + 1 < max) then
        match input with
        | [] => Some (m, input, i)
        | c :: rest =>
            if bool_decide (buf + i < length m)%nat then
              if bool_decide (c = 10) || bool_decide (c = 13)
              then Some (<[(buf + i)%nat := c]> m, rest, S i)
              else gets_loop fuel' (<[(buf + i)%nat := c]> m) rest buf (S i) max
            else None
        end
      else Some (m, input, i)
  end.

(** [gets]: the loop runs at most [max] times; then [buf[i] = '\0']. *)
Definition gets (m input : list Z) (buf : nat) (max : Z)
    : option (list Z * list Z) :=
  match gets_loop (Z.to_nat max) m input buf 0 max with
  | None => None
  | Some (m', rest, i) =>
      if bool_decide (buf + i < length m')%nat
      then Some (<[(buf + i)%nat := 0]> m', rest)
      else None
  end.

(** The memory holds at [s] the string with the bytes [bs], none of them
    NUL, followed by the terminator. *)
Definition string_at (m : list Z) (s : nat) (bs : list Z) : Prop :=
  (forall j b, bs !! j = Some b -> m !! (s + j)%nat = Some b /\ b <> 0) /\
  m !! (s + length bs)%nat = Some 0.

(** The value of a list of decimal digits, most significant first. *)
Definition decimal (ds : list Z) : Z :=
  fold_left (fun n d => n * 10 + d) ds 0.

(** The line [gets] takes from the input: up to [n] bytes, ending after the
    first newline or carriage return. *)
Fixpoint take_line (n : nat) (input : list Z) : list Z :=
  match n, input with
  | S n', c :: rest =>
      c :: (if bool_decide (c = 10) || bool_decide (c = 13) then []
            else take_line n' rest)
  | _, _ => []
  end.

(** ** Waiting at the ticket lock *)

(** Each element twice: a completed acquire and a release. *)
Fixpoint twice_each (l : list nat) : list nat :=
  match l with
  | [] => []
  | j :: l' => j :: j :: twice_each l'
  end.

(** The steps that a thread spinning with the ticket at position [p] of
    the tickets drawn waits for, in order: the release by the holder if
    the lock is held, then the loop test and the release of each thread
    whose ticket lies between the last one served and [p], then its own
    loop test. *)
Definition awaits (tr : list lock_event) (p : nat) : list nat :=
  (if decide (length (entered tr) = length (released tr)) then []
   else option_list (drew tr !! length (released tr)))
  ++ twice_each (drop (length (entered tr)) (take p (drew tr)))
  ++ option_list (drew tr !! p).

(** ** The shared counter of threadtest.c *)

(** Where a thread of [incrementer_thread] stands in
    [for (i = 0; i < NUM_INCREMENTS; i++) { ticket_lock_acquire(&counter_lock);
       shared_counter++; ticket_lock_release(&counter_lock); }].
    The increment of the [volatile int] is a load followed by a store. *)
Inductive tpc : Type :=
| At_acquire                (* at the loop test, before ticket_lock_acquire *)
| At_spin (my_ticket : Z)   (* in the loop of ticket_lock_acquire *)
| At_load                   (* lock held, shared_counter not yet read *)
| At_store (v : Z)          (* shared_counter read as [v], not yet written *)
| At_release                (* shared_counter written, lock not yet released *)
| Finished.                 (* the for loop has ended *)

Record worker : Type := mkWorker {
  pc : tpc;
  i_loop : nat               (* the loop variable [i] *)
}.

Record test_sys : Type := mkTest {
  counter_lock : ticket_lock_t;
  shared_counter : Z;
  workers : list worker
}.

(** Thread [w] runs its next atomic step; [NUM] is [NUM_INCREMENTS]. *)
Definition test_step (NUM : nat) (w : nat) (s : test_sys) : test_sys :=
  match workers s !! w with
  | None => s
  | Some (mkWorker At_acquire i) =>
      if bool_decide (i < NUM)%nat then
        let '(my_ticket, l) := ticket_lock_acquire_draw (counter_lock s) in
        mkTest l (shared_counter s)
               (<[w := mkWorker (At_spin my_ticket) i]> (workers s))
      else
        mkTest (counter_lock s) (shared_counter s)
               (<[w := mkWorker Finished i]> (workers s))
  | Some (mkWorker (At_spin my_ticket) i) =>
      if ticket_lock_acquire_spin (counter_lock s) my_ticket then s
      else mkTest (counter_lock s) (shared_counter s)
                  (<[w := mkWorker At_load i]> (workers s))
  | Some (mkWorker At_load i) =>
      mkTest (counter_lock s) (shared_counter s)
             (<[w := mkWorker (At_store (shared_counter s)) i]> (workers s))
  | Some (mkWorker (At_store v) i) =>
      mkTest (counter_lock s) (wrap_int (v + 1))
             (<[w := mkWorker At_release i]> (workers s))
  | Some (mkWorker At_release i) =>
      mkTest (ticket_lock_release (counter_lock s)) (shared_counter s)
             (<[w := mkWorker At_acquire (S i)]> (workers s))
  | Some (mkWorker Finished i) => s
  end.

(** An interleaving of the threads' steps. *)
Fixpoint test_run (NUM : nat) (schedule : list nat) (s : test_sys)
    : test_sys :=
  match schedule with
  | [] => s
  | w :: rest => test_run NUM rest (test_step NUM w s)
  end.

(** [main] has run [ticket_lock_init] and created the threads. *)
Definition test_start (nthreads : nat) : test_sys :=
  mkTest ticket_lock_init 0 (replicate nthreads (mkWorker At_acquire 0)).

(** The increments a thread has stored so far, and their total. *)
Definition stored (x : worker) : Z :=
  Z.of_nat (i_loop x) + (match pc x with At_release => 1 | _ => 0 end).

Fixpoint total_stored (ws : list worker) : Z :=
  match ws with
  | [] => 0
  | x :: rest => stored x + total_stored rest
  end.

(** The lock and the threads as the ticket-lock system sees them. *)
Definition lock_view (x : worker) : tstate :=
  match pc x with
  | At_acquire | Finished => Idle
  | At_spin t => Spinning t
  | At_load | At_store _ | At_release => Holding
  end.

Definition lock_of (s : test_sys) : lock_sys :=
  mkLockSys (counter_lock s) (lock_view <$> workers s).

(** What holds of the test in every state it can reach. *)
Record test_inv (NUM : nat) (s : test_sys) : Prop := mkTestInv {
  tinv_lock : exists tr, lock_inv (lock_of s) tr;
  tinv_counter : shared_counter s = wrap_int (total_stored (workers s));
  tinv_loaded : forall w v i,
    workers s !! w = Some (mkWorker (At_store v) i) -> v = shared_counter s;
  tinv_bound : forall w x, workers s !! w = Some x -> (i_loop x <= NUM)%nat;
  tinv_inside : forall w x, workers s !! w = Some x ->
    lock_view x <> Idle -> (i_loop x < NUM)%nat;
  tinv_finished : forall w i,
    workers s !! w = Some (mkWorker Finished i) -> i = NUM
}.

(** ** The thread library (ulib.c) *)

(** The user side of the calling process: the blocks handed out by
    [malloc] and not yet freed (most recent first), the words it has stored
    through pointers, and what it has printed. *)
Record user : Type := mkUser {
  heap : list Z;
  ustores : list (Z * Z);
  uconsole : list string
}.

Definition uprintf (msg : string) (u : user) : user :=
  mkUser (heap u) (ustores u) (msg :: uconsole u).

(** Modelled from their use: [malloc] and [free] (umalloc.c) are not part
    of the sources.  A successful [malloc] makes a block live and [free]
    ends the life of the block at the given address. *)
Fixpoint heap_remove (a : Z) (h : list Z) : list Z :=
  match h with
  | [] => []
  | b :: rest => if bool_decide (b = a) then rest else b :: heap_remove a rest
  end.

Definition ufree (a : Z) (u : user) : user :=
  mkUser (heap_remove a (heap u)) (ustores u) (uconsole u).

Definition USER_THREAD_STACK_SIZE : Z := 4096.

(** [thread_create].  [malloc heap nbytes] is the allocator's answer (the
    address of the new block, or 0); [argptr args] is the kernel's fetch of
    the system-call arguments [args] that the [clone] call puts on the
    user stack. *)
Definition thread_create (malloc : list Z -> Z -> Z)
    (argptr : list Z -> nat -> Z -> option Z)
    (PGSIZE : Z) (uvm_ok : Z -> Z -> Z -> bool)
    (tid start_routine arg1 arg2 : Z) (cur : nat) (u : user) (k : kernel)
    : Z * user * kernel :=
  let stack := malloc (heap u) USER_THREAD_STACK_SIZE in
  if bool_decide (stack = 0) then
    (-1, uprintf "thread_create: unable to allocate stack using malloc." u, k)
  else
    let u := mkUser (stack :: heap u) (ustores u) (uconsole u) in
    let '(pid, k) :=
      sys_clone PGSIZE uvm_ok (argptr [start_routine; arg1; arg2; stack])
                cur k in
    if bool_decide (pid < 0) then
      (-1, ufree stack (uprintf "thread_create: clone failed" u), k)
    else
      let u :=
        if bool_decide (pid > 0) && bool_decide (tid ≠ 0)
        then mkUser (heap u) ((tid, pid) :: ustores u) (uconsole u)
        else u in
      (pid, u, k).

(** The word at [va] in the address space [pd]: the last one the kernel
    copied out there, or else what was there before, [old]. *)
Fixpoint uread (pd va : Z) (old : Z) (uw : list uwrite) : Z :=
  match uw with
  | [] => old
  | w :: rest =>
      if bool_decide (uw_pgdir w = pd) && bool_decide (uw_va w = va)
      then uw_val w else uread pd va old rest
  end.

(** [thread_join].  [child_stack_addr] is the address of the local
    variable [child_stack] and [old] its contents before the call. *)
Definition thread_join (argptr : list Z -> nat -> Z -> option Z)
    (uvm_ok : Z -> Z -> Z -> bool) (child_stack_addr old : Z)
    (env : environment) (cur : nat) (u : user) (k : kernel)
    : outcome * user :=
  match sys_join uvm_ok (argptr [child_stack_addr]) env cur k with
  | Ret pid k' =>
      let child_stack :=
        uread (pgdir (slot k' cur)) child_stack_addr old (uwrites k') in
      if bool_decide (pid > 0) && bool_decide (child_stack ≠ 0) then
        (Ret pid k', ufree child_stack u)
      else if bool_decide (pid > 0) && bool_decide (child_stack = 0) then
        (Ret pid k',
         uprintf "thread_join: Null Stack! on joining thread PID %d" u)
      else (Ret pid k', u)
  | o => (o, u)
  end.

(** Three generations: init asleep in [wait], its child in slot 1, that
    child's child in slot 2, and in slot 3 a Zombie process whose parent is
    the process of slot 2. *)
Definition orphan_table : list proc :=
  [ unit_of SLEEPING 1 (Slot 0) 100 5000 0 0 (Slot 0) 0;
    unit_of RUNNABLE 2 (Slot 0) 200 6000 0 0 Null 0;
    unit_of RUNNING 3 (Slot 1) 300 7000 0 0 Null 0;
    unit_of ZOMBIE 4 (Slot 2) 400 8000 0 0 Null 0;
    proc0 ].

Definition orphan_kernel : kernel :=
  mkKernel orphan_table false 5 (Slot 0) [9000; 9001] [] [] [] [] [] [].

(** * Properties *)

(** ** Table access *)

Lemma slot_lookup (k : kernel) (i : nat) (p : proc) :
  ptable k !! i = Some p -> slot k i = p.
Proof. intros H. unfold slot. by apply list_lookup_total_correct. Qed.

Lemma lookup_upd (i j : nat) (f : proc -> proc) (k : kernel) :
  ptable (upd i f k) !! j =
  if decide (i = j) then f <$> ptable k !! j else ptable k !! j.
Proof.
  unfold upd; cbn. destruct (decide (i = j)) as [->|Hne].
  - apply list_lookup_alter_eq.
  - by apply list_lookup_alter_ne.
Qed.

Lemma lookup_write_state (i j : nat) (s : procstate) (k : kernel) :
  ptable (write_state i s k) !! j =
  if decide (i = j) then set_state s <$> ptable k !! j else ptable k !! j.
Proof. unfold write_state; cbn. apply (lookup_upd i j (set_state s) k). Qed.

Lemma NPROC_upd (i : nat) (f : proc -> proc) (k : kernel) :
  NPROC (upd i f k) = NPROC k.
Proof. unfold NPROC, upd; cbn. apply length_alter. Qed.

Lemma NPROC_write_state (i : nat) (s : procstate) (k : kernel) :
  NPROC (write_state i s k) = NPROC k.
Proof. unfold write_state, NPROC; cbn. apply length_alter. Qed.

(** ** wakeup *)

Lemma wakeup1_from_lookup (n : nat) : forall (i : nat) (c : ptr) (k : kernel) (j : nat),
  ptable (wakeup1_from n i c k) !! j =
  if bool_decide (i <= j < i + n)%nat
  then woken c <$> ptable k !! j else ptable k !! j.
Proof.
  induction n as [|n IH]; intros i c k j; cbn [wakeup1_from].
  - rewrite bool_decide_eq_false_2 by lia. done.
  - rewrite IH. clear IH.
    set (hit := bool_decide (state (slot k i) = SLEEPING)
                && bool_decide (chan (slot k i) = c)).
    assert (Hk : ptable (if hit then write_state i RUNNABLE k else k) !! j =
                 if decide (i = j) then woken c <$> ptable k !! j
                 else ptable k !! j).
    { subst hit. destruct (decide (i = j)) as [<-|Hne].
      - destruct (ptable k !! i) as [p|] eqn:Hp.
        + rewrite (slot_lookup k i p Hp). cbn. unfold woken.
          destruct (_ && _); [|done].
          by rewrite lookup_write_state, decide_True, Hp.
        + destruct (_ && _); [|done].
          by rewrite lookup_write_state, decide_True, Hp.
      - destruct (_ && _); [|done].
        by rewrite lookup_write_state, decide_False. }
    rewrite Hk.
    destruct (decide (i = j)) as [<-|Hne].
    + rewrite bool_decide_eq_false_2, bool_decide_eq_true_2 by lia. done.
    + destruct (bool_decide (S i <= j < S i + n)%nat) eqn:Hin.
      * apply bool_decide_eq_true_1 in Hin.
        rewrite bool_decide_eq_true_2 by lia. done.
      * apply bool_decide_eq_false_1 in Hin.
        rewrite bool_decide_eq_false_2 by lia. done.
Qed.

Lemma wakeup1_from_frame (n : nat) : forall (i : nat) (c : ptr) (k : kernel),
  let k' := wakeup1_from n i c k in
  NPROC k' = NPROC k /\ ptable_lock k' = ptable_lock k /\
  nextpid k' = nextpid k /\ initproc k' = initproc k /\ kmem k' = kmem k /\
  vm_freed k' = vm_freed k /\ uwrites k' = uwrites k /\
  fs_calls k' = fs_calls k /\ console k' = console k.
Proof.
  induction n as [|n IH]; intros i c k; cbn [wakeup1_from]; [done|].
  specialize (IH (S i) c
    (if bool_decide (state (slot k i) = SLEEPING)
        && bool_decide (chan (slot k i) = c)
     then write_state i RUNNABLE k else k)).
  cbv zeta in IH |- *.
  destruct (_ && _); [|exact IH].
  rewrite NPROC_write_state in IH. exact IH.
Qed.

Lemma wakeup1_ptable (c : ptr) (k : kernel) :
  ptable (wakeup1 c k) = woken c <$> ptable k.
Proof.
  apply list_eq; intros j. unfold wakeup1.
  rewrite wakeup1_from_lookup, list_lookup_fmap. unfold NPROC.
  destruct (bool_decide (0 <= j < 0 + length (ptable k))%nat) eqn:Hin; [done|].
  apply bool_decide_eq_false_1 in Hin.
  rewrite lookup_ge_None_2 by lia. done.
Qed.

Lemma wakeup1_from_no_sleeper (n : nat) : forall (i : nat) (c : ptr) (k : kernel),
  (forall p, p ∈ ptable k -> ~ (state p = SLEEPING /\ chan p = c)) ->
  (i + n <= NPROC k)%nat ->
  wakeup1_from n i c k = k.
Proof.
  induction n as [|n IH]; intros i c k Hno Hlen; cbn [wakeup1_from]; [done|].
  destruct (lookup_lt_is_Some_2 (ptable k) i) as [p Hp]; [unfold NPROC in Hlen; lia|].
  rewrite (slot_lookup k i p Hp).
  assert (Hf : bool_decide (state p = SLEEPING) && bool_decide (chan p = c) = false).
  { apply andb_false_iff.
    destruct (decide (state p = SLEEPING)) as [Hs|Hs];
      [right|left; by apply bool_decide_eq_false_2].
    apply bool_decide_eq_false_2. intros Hc.
    apply (Hno p); [by eapply list_elem_of_lookup_2|done]. }
  rewrite Hf. apply IH; [done|lia].
Qed.

(** C7.  [wakeup1(chan)] sets to RUNNABLE exactly the units that are
    SLEEPING with [p->chan == chan], all of them, and changes nothing else
    of those units (only [state] is assigned); every other unit is left as it
    was, nothing is allocated, freed or written besides; with no matching
    sleeper the whole kernel state is unchanged.  The locked entry point
    [wakeup] changes the table in the same way. *)
Theorem wakeup1_broadcast (c : ptr) (k : kernel) :
  (forall i p, ptable k !! i = Some p ->
     ptable (wakeup1 c k) !! i =
     Some (if bool_decide (state p = SLEEPING /\ chan p = c)
           then set_state RUNNABLE p else p)) /\
  length (ptable (wakeup1 c k)) = length (ptable k) /\
  (nextpid (wakeup1 c k) = nextpid k /\ initproc (wakeup1 c k) = initproc k /\
   kmem (wakeup1 c k) = kmem k /\ vm_freed (wakeup1 c k) = vm_freed k /\
   uwrites (wakeup1 c k) = uwrites k /\ fs_calls (wakeup1 c k) = fs_calls k) /\
  ((forall p, p ∈ ptable k -> ~ (state p = SLEEPING /\ chan p = c)) ->
     wakeup1 c k = k) /\
  ptable (wakeup c k) = ptable (wakeup1 c k).
Proof.
  repeat split.
  - intros i p Hp. rewrite wakeup1_ptable, list_lookup_fmap, Hp. cbn.
    f_equal. unfold woken.
    destruct (decide (state p = SLEEPING)) as [Hs|Hs];
      destruct (decide (chan p = c)) as [Hc|Hc].
    + rewrite !bool_decide_eq_true_2; done.
    + rewrite (bool_decide_eq_false_2 (chan p = c)) by done.
      rewrite (bool_decide_eq_false_2 (_ /\ _)) by tauto.
      by rewrite andb_false_r.
    + rewrite (bool_decide_eq_false_2 (state p = SLEEPING)) by done.
      rewrite (bool_decide_eq_false_2 (_ /\ _)) by tauto. done.
    + rewrite (bool_decide_eq_false_2 (state p = SLEEPING)) by done.
      rewrite (bool_decide_eq_false_2 (_ /\ _)) by tauto. done.
  - rewrite wakeup1_ptable. apply length_fmap.
  - apply (wakeup1_from_frame (NPROC k) 0 c k).
  - apply (wakeup1_from_frame (NPROC k) 0 c k).
  - apply (wakeup1_from_frame (NPROC k) 0 c k).
  - apply (wakeup1_from_frame (NPROC k) 0 c k).
  - apply (wakeup1_from_frame (NPROC k) 0 c k).
  - apply (wakeup1_from_frame (NPROC k) 0 c k).
  - intros Hno. apply wakeup1_from_no_sleeper; [done|lia].
  - unfold wakeup. rewrite wakeup1_ptable.
    change (ptable (release (wakeup1 c (acquire k))))
      with (ptable (wakeup1 c (acquire k))).
    by rewrite wakeup1_ptable.
Qed.

(** ** kill *)

Lemma alter_insert (f : proc -> proc) (l : list proc) (i : nat) (p : proc) :
  l !! i = Some p -> alter f i l = <[i := f p]> l.
Proof.
  intros Hp. apply list_eq; intros m.
  destruct (decide (i = m)) as [<-|Hne].
  - rewrite list_lookup_alter_eq, Hp, list_lookup_insert_eq; [done|].
    by eapply lookup_lt_Some.
  - by rewrite list_lookup_alter_ne, list_lookup_insert_ne.
Qed.

Lemma kill_from_found (n : nat) : forall (i : nat) (id : Z) (k : kernel) (j : nat) (p : proc),
  (i <= j < i + n)%nat ->
  ptable k !! j = Some p -> pid p = id ->
  (forall j' q, (i <= j' < j)%nat -> ptable k !! j' = Some q -> pid q <> id) ->
  exists k', kill_from n i id k = Some k' /\
             ptable k' = <[j := kill_mark p]> (ptable k) /\
             ptable_lock k' = false /\ nextpid k' = nextpid k /\
             kmem k' = kmem k /\ vm_freed k' = vm_freed k /\
             uwrites k' = uwrites k.
Proof.
  induction n as [|n IH]; intros i id k j p Hj Hp Hid Hfirst; [lia|].
  cbn [kill_from].
  destruct (decide (i = j)) as [->|Hne].
  - rewrite (slot_lookup k j p Hp), bool_decide_eq_true_2 by done.
    eexists; split; [reflexivity|].
    split; [|by destruct (bool_decide (state p = SLEEPING))].
    unfold kill_mark.
    destruct (bool_decide (state p = SLEEPING)); cbn.
    + rewrite (alter_insert _ _ _ p Hp).
      rewrite (alter_insert _ _ _ (set_killed 1 p)); [apply list_insert_insert_eq|].
      apply list_lookup_insert_eq. by eapply lookup_lt_Some.
    + apply (alter_insert _ _ _ p Hp).
  - destruct (lookup_lt_is_Some_2 (ptable k) i) as [q Hq].
    { apply lookup_lt_Some in Hp. lia. }
    rewrite (slot_lookup k i q Hq).
    rewrite bool_decide_eq_false_2 by (apply (Hfirst i q); [lia|done]).
    apply (IH (S i) id k j p); [lia|done|done|].
    intros j' q' Hj'. apply Hfirst. lia.
Qed.

Lemma kill_from_none (n : nat) : forall (i : nat) (id : Z) (k : kernel),
  (forall j q, (i <= j < i + n)%nat -> ptable k !! j = Some q -> pid q <> id) ->
  (i + n <= NPROC k)%nat ->
  kill_from n i id k = None.
Proof.
  induction n as [|n IH]; intros i id k Hno Hlen; [done|].
  cbn [kill_from].
  destruct (lookup_lt_is_Some_2 (ptable k) i) as [q Hq]; [unfold NPROC in Hlen; lia|].
  rewrite (slot_lookup k i q Hq).
  rewrite bool_decide_eq_false_2 by (apply (Hno i q); [lia|done]).
  apply IH; [|lia]. intros j q' Hj. apply Hno. lia.
Qed.

(** C10.  For every id, [kill] takes the first slot of the table whose pid
    is the id.  If there is one, it sets that unit's [killed] to 1, makes it
    RUNNABLE when it was SLEEPING, and returns 0; every other slot is as
    before.  If there is none it returns -1 and the table is as before.  In
    both cases the table lock is released and nothing is allocated, freed or
    written to user memory. *)
Theorem kill_spec (id : Z) (k : kernel) :
  match list_find (fun p => pid p = id) (ptable k) with
  | Some (i, p) =>
      fst (kill id k) = 0 /\
      ptable (snd (kill id k)) =
        <[i := if bool_decide (state p = SLEEPING)
               then set_state RUNNABLE (set_killed 1 p)
               else set_killed 1 p]> (ptable k)
  | None =>
      fst (kill id k) = -1 /\ ptable (snd (kill id k)) = ptable k
  end /\
  ptable_lock (snd (kill id k)) = false /\
  nextpid (snd (kill id k)) = nextpid k /\
  kmem (snd (kill id k)) = kmem k /\
  vm_freed (snd (kill id k)) = vm_freed k /\
  uwrites (snd (kill id k)) = uwrites k.
Proof.
  unfold kill.
  destruct (list_find (fun p => pid p = id) (ptable k)) as [[i p]|] eqn:Hfind.
  - apply list_find_Some in Hfind as (Hp & Hid & Hfirst).
    destruct (kill_from_found (NPROC (acquire k)) 0 id (acquire k) i p)
      as (k' & Hk' & Htab & Hrest); [| done | done | |].
    + apply lookup_lt_Some in Hp. unfold NPROC; cbn. lia.
    + intros j' q Hj' Hq. apply (Hfirst j' q); [done|lia].
    + rewrite Hk'. cbn [fst snd]. rewrite Htab. unfold kill_mark.
      split; [done|]. exact Hrest.
  - rewrite kill_from_none; [done| |unfold NPROC; cbn; lia].
    intros j q _ Hq Hpid.
    apply list_find_None in Hfind.
    rewrite Forall_forall in Hfind.
    apply (Hfind q); [|done]. by eapply list_elem_of_lookup_2.
Qed.

(** ** allocproc *)

(** Unfolds the kernel-state operations down to the record fields. *)
Ltac ksimp :=
  cbv beta iota zeta delta
      [NPROC slot upd write_state acquire release cprintf kfree freevm fs
       kalloc copyout
       ptable ptable_lock nextpid initproc kmem vm_freed uwrites state_writes
       fs_calls console parent_writes with_ptable with_lock with_nextpid with_kmem
       with_vm_freed with_uwrites with_state_writes with_fs_calls with_console
       fst snd] in *.

Lemma alter_insert_eq (f : proc -> proc) (l : list proc) (i : nat) (p : proc) :
  (i < length l)%nat -> alter f i (<[i := p]> l) = <[i := f p]> l.
Proof.
  intros Hi. rewrite (alter_insert f _ i p).
  - apply list_insert_insert_eq.
  - by apply list_lookup_insert_eq.
Qed.

Lemma lookup_total_insert_eq (l : list proc) (i : nat) (p : proc) :
  (i < length l)%nat -> <[i := p]> l !!! i = p.
Proof.
  intros Hi. apply list_lookup_total_correct. by apply list_lookup_insert_eq.
Qed.

Lemma lookup_total_insert_ne (l : list proc) (i j : nat) (p : proc) :
  i <> j -> <[i := p]> l !!! j = l !!! j.
Proof.
  intros Hne. rewrite !list_lookup_total_alt.
  by rewrite list_lookup_insert_ne.
Qed.

Lemma find_unused_from_found (n : nat) : forall (i : nat) (k : kernel) (j : nat) (p : proc),
  (i <= j < i + n)%nat ->
  ptable k !! j = Some p -> state p = UNUSED ->
  (forall j' q, (i <= j' < j)%nat -> ptable k !! j' = Some q -> state q <> UNUSED) ->
  find_unused_from n i k = Some j.
Proof.
  induction n as [|n IH]; intros i k j p Hj Hp Hst Hfirst; [lia|].
  cbn [find_unused_from].
  destruct (decide (i = j)) as [->|Hne].
  - by rewrite (slot_lookup k j p Hp), bool_decide_eq_true_2.
  - destruct (lookup_lt_is_Some_2 (ptable k) i) as [q Hq].
    { apply lookup_lt_Some in Hp. lia. }
    rewrite (slot_lookup k i q Hq).
    rewrite bool_decide_eq_false_2 by (apply (Hfirst i q); [lia|done]).
    apply (IH (S i) k j p); [lia|done|done|].
    intros j' q' Hj'. apply Hfirst. lia.
Qed.

Lemma find_unused_from_none (n : nat) : forall (i : nat) (k : kernel),
  (forall j q, (i <= j < i + n)%nat -> ptable k !! j = Some q -> state q <> UNUSED) ->
  (i + n <= NPROC k)%nat ->
  find_unused_from n i k = None.
Proof.
  induction n as [|n IH]; intros i k Hno Hlen; [done|].
  cbn [find_unused_from].
  destruct (lookup_lt_is_Some_2 (ptable k) i) as [q Hq]; [unfold NPROC in Hlen; lia|].
  rewrite (slot_lookup k i q Hq).
  rewrite bool_decide_eq_false_2 by (apply (Hno i q); [lia|done]).
  apply IH; [|lia]. intros j q' Hj. apply Hno. lia.
Qed.

Lemma find_unused_first (k : kernel) (i : nat) (p : proc) :
  list_find (fun q => state q = UNUSED) (ptable k) = Some (i, p) ->
  find_unused_from (NPROC (acquire k)) 0 (acquire k) = Some i.
Proof.
  intros Hfind. apply list_find_Some in Hfind as (Hp & Hst & Hfirst).
  apply (find_unused_from_found _ 0 (acquire k) i p); [|done|done|].
  - apply lookup_lt_Some in Hp. ksimp. lia.
  - intros j' q Hj' Hq. apply (Hfirst j' q); [done|lia].
Qed.

Lemma find_unused_full (k : kernel) :
  list_find (fun q => state q = UNUSED) (ptable k) = None ->
  find_unused_from (NPROC (acquire k)) 0 (acquire k) = None.
Proof.
  intros Hfind. apply list_find_None in Hfind. rewrite Forall_forall in Hfind.
  apply find_unused_from_none; [|ksimp; lia].
  intros j q _ Hq. apply Hfind. by eapply list_elem_of_lookup_2.
Qed.

(** allocproc when a slot is free and a page is available. *)
Lemma allocproc_ok (k : kernel) (i : nat) (p : proc) (pg : Z) (rest : list Z) :
  list_find (fun q => state q = UNUSED) (ptable k) = Some (i, p) ->
  kmem k = pg :: rest -> pg <> 0 ->
  allocproc k =
    (Some i,
     mkKernel (<[i := set_context (mkCtx 0 Forkret)
                        (set_kret Trapret
                           (set_kstack pg (embryo (nextpid k) p)))]> (ptable k))
              false (wrap_int (nextpid k + 1)) (initproc k) rest (vm_freed k)
              (uwrites k) (mkStateWrite i EMBRYO true :: state_writes k)
              (fs_calls k) (console k) (parent_writes k)).
Proof.
  intros Hfind Hmem Hpg. unfold allocproc.
  rewrite (find_unused_first k i p Hfind).
  apply list_find_Some in Hfind as (Hp & _ & _).
  assert (Hi : (i < length (ptable k))%nat) by (by eapply lookup_lt_Some).
  destruct k as [l lck npid init km vm uw sw fsc con pw].
  ksimp. subst km. ksimp.
  rewrite bool_decide_eq_false_2 by done.
  rewrite (alter_insert _ _ _ p Hp).
  rewrite !alter_insert_eq by done. done.
Qed.

(** allocproc when a slot is free and [kalloc] fails. *)
Lemma allocproc_nomem (k : kernel) (i : nat) (p : proc) :
  list_find (fun q => state q = UNUSED) (ptable k) = Some (i, p) ->
  fst (kalloc k) = 0 ->
  allocproc k =
    (None,
     mkKernel (<[i := set_state UNUSED
                        (set_kstack 0 (embryo (nextpid k) p))]> (ptable k))
              false (wrap_int (nextpid k + 1)) (initproc k)
              (kmem (snd (kalloc k))) (vm_freed k)
              (uwrites k)
              (mkStateWrite i UNUSED false :: mkStateWrite i EMBRYO true
                 :: state_writes k)
              (fs_calls k) (console k) (parent_writes k)).
Proof.
  intros Hfind Hmem. unfold allocproc.
  rewrite (find_unused_first k i p Hfind).
  apply list_find_Some in Hfind as (Hp & _ & _).
  assert (Hi : (i < length (ptable k))%nat) by (by eapply lookup_lt_Some).
  destruct k as [l lck npid init km vm uw sw fsc con pw].
  destruct km as [|pg rest]; ksimp; [|subst pg];
    rewrite bool_decide_eq_true_2 by done;
    rewrite (alter_insert _ _ _ p Hp);
    rewrite !alter_insert_eq by done; done.
Qed.

(** allocproc when the table is full. *)
Lemma allocproc_full (k : kernel) :
  list_find (fun q => state q = UNUSED) (ptable k) = None ->
  allocproc k = (None, release (acquire k)).
Proof.
  intros Hfind. unfold allocproc. by rewrite (find_unused_full k Hfind).
Qed.

(** C9 (as amended).  When a slot is free and the kernel stack cannot be
    acquired, allocproc returns no unit; it has marked the first free slot
    EMBRYO and given it the next id while holding the table lock, and it
    has put the slot back to UNUSED after releasing the lock, that is,
    without holding it.  These are its only two writes to a state; the id
    counter stays advanced; no other slot changes. *)
Theorem allocproc_stack_failure (k : kernel) (i : nat) (p : proc) :
  list_find (fun q => state q = UNUSED) (ptable k) = Some (i, p) ->
  fst (kalloc k) = 0 ->
  fst (allocproc k) = None /\
  state_writes (snd (allocproc k)) =
    mkStateWrite i UNUSED false :: mkStateWrite i EMBRYO true
      :: state_writes k /\
  ptable (snd (allocproc k)) !! i =
    Some (set_state UNUSED (set_kstack 0 (embryo (nextpid k) p))) /\
  state (slot (snd (allocproc k)) i) = UNUSED /\
  pid (slot (snd (allocproc k)) i) = nextpid k /\
  (forall j, j <> i -> ptable (snd (allocproc k)) !! j = ptable k !! j) /\
  ptable_lock (snd (allocproc k)) = false /\
  nextpid (snd (allocproc k)) = wrap_int (nextpid k + 1).
Proof.
  intros Hfind Hmem. rewrite (allocproc_nomem k i p Hfind Hmem).
  apply list_find_Some in Hfind as (Hp & _ & _).
  assert (Hi : (i < length (ptable k))%nat) by (by eapply lookup_lt_Some).
  ksimp. repeat split.
  - by apply list_lookup_insert_eq.
  - by rewrite lookup_total_insert_eq.
  - by rewrite lookup_total_insert_eq.
  - intros j Hj. by apply list_lookup_insert_ne.
Qed.

(** The amended C9 on the sample kernel without free pages. *)
Lemma allocproc_stack_failure_witness :
  fst (allocproc sample_kernel_nomem) = None /\
  state_writes (snd (allocproc sample_kernel_nomem)) =
    [mkStateWrite 4 UNUSED false; mkStateWrite 4 EMBRYO true] /\
  state (slot (snd (allocproc sample_kernel_nomem)) 4) = UNUSED.
Proof.
  destruct (allocproc_stack_failure sample_kernel_nomem 4 proc0)
    as (H1 & H2 & _ & H4 & _); [reflexivity | reflexivity |].
  exact (conj H1 (conj H2 H4)).
Defined.

(** C9 as stated fails: on the sample kernel without free pages the write
    that returns the slot to UNUSED is made while the table lock is not
    held. *)
Lemma allocproc_rollback_not_under_lock :
  ~ (forall w, w ∈ state_writes (snd (allocproc sample_kernel_nomem)) ->
               sw_state w = UNUSED -> sw_locked w = true).
Proof.
  intros H.
  specialize (H (mkStateWrite 4 UNUSED false)).
  assert (Hin : mkStateWrite 4 UNUSED false
                ∈ state_writes (snd (allocproc sample_kernel_nomem))).
  { vm_compute. apply list_elem_of_here. }
  specialize (H Hin eq_refl). discriminate H.
Qed.

(** ** The table operations on a kernel state given field by field *)

Section Explicit.
Variables (l : list proc) (lck : bool) (npid : Z) (init : ptr)
          (km vm : list Z) (uw : list uwrite) (sw : list state_write)
          (fsc : list fs_call) (con : list string)
          (pw : list parent_write).

Lemma upd_mk (i : nat) (f : proc -> proc) :
  upd i f (mkKernel l lck npid init km vm uw sw fsc con pw) =
  mkKernel (alter f i l) lck npid init km vm uw sw fsc con pw.
Proof. reflexivity. Qed.

Lemma write_state_mk (i : nat) (s : procstate) :
  write_state i s (mkKernel l lck npid init km vm uw sw fsc con pw) =
  mkKernel (alter (set_state s) i l) lck npid init km vm uw
           (mkStateWrite i s lck :: sw) fsc con pw.
Proof. reflexivity. Qed.

Lemma write_parent_mk (i : nat) (v : ptr) :
  write_parent i v (mkKernel l lck npid init km vm uw sw fsc con pw) =
  mkKernel (alter (set_parent v) i l) lck npid init km vm uw sw fsc con
           (mkParentWrite i v lck :: pw).
Proof. reflexivity. Qed.

Lemma acquire_mk :
  acquire (mkKernel l lck npid init km vm uw sw fsc con pw) =
  mkKernel l true npid init km vm uw sw fsc con pw.
Proof. reflexivity. Qed.

Lemma release_mk :
  release (mkKernel l lck npid init km vm uw sw fsc con pw) =
  mkKernel l false npid init km vm uw sw fsc con pw.
Proof. reflexivity. Qed.

Lemma cprintf_mk (msg : string) :
  cprintf msg (mkKernel l lck npid init km vm uw sw fsc con pw) =
  mkKernel l lck npid init km vm uw sw fsc (msg :: con) pw.
Proof. reflexivity. Qed.

Lemma kfree_mk (pg : Z) :
  kfree pg (mkKernel l lck npid init km vm uw sw fsc con pw) =
  mkKernel l lck npid init (pg :: km) vm uw sw fsc con pw.
Proof. reflexivity. Qed.

Lemma freevm_mk (pd : Z) :
  freevm pd (mkKernel l lck npid init km vm uw sw fsc con pw) =
  mkKernel l lck npid init km (pd :: vm) uw sw fsc con pw.
Proof. reflexivity. Qed.

Lemma fs_mk (c : fs_call) :
  fs c (mkKernel l lck npid init km vm uw sw fsc con pw) =
  mkKernel l lck npid init km vm uw sw (c :: fsc) con pw.
Proof. reflexivity. Qed.

Lemma with_vm_freed_mk (v : list Z) :
  with_vm_freed v (mkKernel l lck npid init km vm uw sw fsc con pw) =
  mkKernel l lck npid init km v uw sw fsc con pw.
Proof. reflexivity. Qed.

Lemma copyout_mk (uvm_ok : Z -> Z -> Z -> bool) (pd va val : Z) :
  copyout uvm_ok pd va val (mkKernel l lck npid init km vm uw sw fsc con pw) =
  if uvm_ok pd va 4
  then (0, mkKernel l lck npid init km vm (mkUwrite pd va val :: uw) sw fsc con pw)
  else (-1, mkKernel l lck npid init km vm uw sw fsc con pw).
Proof. reflexivity. Qed.

Lemma slot_mk (i : nat) :
  slot (mkKernel l lck npid init km vm uw sw fsc con pw) i = l !!! i.
Proof. reflexivity. Qed.

Lemma NPROC_mk :
  NPROC (mkKernel l lck npid init km vm uw sw fsc con pw) = length l.
Proof. reflexivity. Qed.
End Explicit.

(** Rewrites the table operations applied to explicit states, innermost
    first, and the reads and writes of one slot. *)
Ltac keval :=
  repeat first
    [ rewrite upd_mk | rewrite write_state_mk | rewrite write_parent_mk
    | rewrite acquire_mk
    | rewrite release_mk | rewrite cprintf_mk | rewrite kfree_mk
    | rewrite freevm_mk | rewrite fs_mk | rewrite with_vm_freed_mk
    | rewrite copyout_mk | rewrite slot_mk | rewrite NPROC_mk
    | rewrite alter_insert_eq by done
    | rewrite lookup_total_insert_eq by done
    | rewrite lookup_total_insert_ne by done ].

(** Field reads of updated units. *)
Ltac peval :=
  cbn [sz pgdir kstack state pid parent tf kret context chan killed ofile cwd
       name is_thread user_stack set_sz set_pgdir set_kstack set_state set_pid
       set_parent set_tf set_kret set_context set_chan set_killed set_ofile
       set_cwd set_name set_is_thread set_user_stack
       eax eip esp tf_rest].
(** ** clone *)

Lemma dup_files_from_mk (n : nat) :
  forall (i cur np : nat) (l : list proc) (P c : proc) lck npid init km vm uw sw
         fsc con pw,
  (np < length l)%nat -> np <> cur -> l !! cur = Some c ->
  dup_files_from n i cur np
    (mkKernel (<[np := P]> l) lck npid init km vm uw sw fsc con pw) =
  mkKernel (<[np := set_ofile (dup_ofile n i (ofile c) (ofile P)) P]> l)
           lck npid init km vm uw sw (dup_calls n i (ofile c) fsc) con pw.
Proof.
  induction n as [|n IH];
    intros i cur np l P c lck npid init km vm uw sw fsc con pw Hnp Hne Hc.
  - cbn [dup_files_from dup_ofile dup_calls]. by destruct P.
  - cbn [dup_files_from dup_ofile dup_calls]. keval.
    rewrite (list_lookup_total_correct l cur c Hc).
    destruct (bool_decide (ofile c !!! i ≠ 0)).
    + keval. rewrite (IH (S i) cur np l _ c) by done. by destruct P.
    + by apply IH.
Qed.

Lemma wrap32_small (x : Z) : 0 <= x < 2 ^ 32 -> wrap32 x = x.
Proof. intros H. unfold wrap32. by apply Z.mod_small. Qed.

Lemma clone_frame_addresses (PGSIZE stack : Z) :
  12 <= PGSIZE -> 0 <= stack -> stack + PGSIZE <= 2 ^ 32 ->
  wrap32 (wrap32 (stack + PGSIZE) - 4) = stack + PGSIZE - 4 /\
  wrap32 (stack + PGSIZE - 4 - 4) = stack + PGSIZE - 8 /\
  wrap32 (stack + PGSIZE - 8 - 4) = stack + PGSIZE - 12.
Proof.
  intros HP Hs Htop. split; [|split].
  - destruct (decide (stack + PGSIZE = 2 ^ 32)) as [Heq|Hne].
    + rewrite Heq. unfold wrap32. rewrite Z.mod_same by lia.
      change (0 - 4) with (-4). reflexivity.
    + rewrite (wrap32_small (stack + PGSIZE)) by lia.
      apply wrap32_small. lia.
  - rewrite wrap32_small; lia.
  - rewrite wrap32_small; lia.
Qed.

Lemma clone_share_mk (cur np : nat) (l : list proc) (P c : proc)
    lck npid init km vm uw sw fsc con pw :
  (np < length l)%nat -> np <> cur -> l !! cur = Some c ->
  clone_share cur np (mkKernel (<[np := P]> l) lck npid init km vm uw sw fsc con pw) =
  mkKernel (<[np := set_tf (tf c) (set_parent (Slot cur) (set_sz (sz c)
                      (set_pgdir (pgdir c) P)))]> l)
           lck npid init km vm uw sw fsc con
           (mkParentWrite np (Slot cur) lck :: pw).
Proof.
  intros Hnp Hne Hc. unfold clone_share. cbv zeta. keval.
  rewrite (list_lookup_total_correct l cur c Hc). reflexivity.
Qed.

Lemma clone_finish_mk (fcn stack ustack_ptr : Z) (cur np : nat)
    (l : list proc) (P c : proc) lck npid init km vm uw sw fsc con pw :
  (np < length l)%nat -> np <> cur -> l !! cur = Some c ->
  clone_finish fcn stack ustack_ptr cur np
    (mkKernel (<[np := P]> l) lck npid init km vm uw sw fsc con pw) =
  (pid P,
   mkKernel
     (<[np := set_state RUNNABLE
               (set_name (name c)
                  (set_cwd (cwd c)
                     (set_ofile (dup_ofile (length (ofile c)) 0 (ofile c) (ofile P))
                        (set_user_stack stack
                           (set_is_thread 1
                              (set_tf (mkTf 0 fcn ustack_ptr (tf_rest (tf P)))
                                 P))))))]> l)
     false npid init km vm uw (mkStateWrite np RUNNABLE true :: sw)
     (Idup (cwd c) :: dup_calls (length (ofile c)) 0 (ofile c) fsc)
     ("kernel clone: success for pid %d, child of %d"%string :: con) pw).
Proof.
  intros Hnp Hne Hc. unfold clone_finish. cbv zeta. keval.
  rewrite !(list_lookup_total_correct l cur c Hc).
  rewrite (dup_files_from_mk _ 0 cur np l _ c) by done.
  keval. rewrite !(list_lookup_total_correct l cur c Hc).
  destruct P. reflexivity.
Qed.

(** The whole of [clone] on its success path. *)
Lemma clone_eval (PGSIZE : Z) (uvm_ok : Z -> Z -> Z -> bool)
    (fcn arg1 arg2 stack : Z) (cur : nat) (k : kernel)
    (np : nat) (p0 c : proc) (pg : Z) (rest : list Z) :
  list_find (fun q => state q = UNUSED) (ptable k) = Some (np, p0) ->
  kmem k = pg :: rest -> pg <> 0 ->
  ptable k !! cur = Some c -> state c <> UNUSED ->
  12 <= PGSIZE -> 0 <= stack -> stack + PGSIZE <= 2 ^ 32 ->
  uvm_ok (pgdir c) (stack + PGSIZE - 4) 4 = true ->
  uvm_ok (pgdir c) (stack + PGSIZE - 8) 4 = true ->
  uvm_ok (pgdir c) (stack + PGSIZE - 12) 4 = true ->
  clone PGSIZE uvm_ok fcn arg1 arg2 stack cur k =
    (nextpid k,
     mkKernel
       (<[np := cloned PGSIZE fcn stack cur c p0 pg (nextpid k)]> (ptable k))
       false (wrap_int (nextpid k + 1)) (initproc k) rest (vm_freed k)
       (mkUwrite (pgdir c) (stack + PGSIZE - 12) arg1
          :: mkUwrite (pgdir c) (stack + PGSIZE - 8) arg2
          :: mkUwrite (pgdir c) (stack + PGSIZE - 4) 4294967295
          :: uwrites k)
       (mkStateWrite np RUNNABLE true :: mkStateWrite np EMBRYO true
          :: state_writes k)
       (Idup (cwd c)
          :: dup_calls (length (ofile c)) 0 (ofile c) (fs_calls k))
       ("kernel clone: success for pid %d, child of %d"%string
          :: "kernel clone: called with stack=0x%x, fcn=0x%x"%string
          :: console k)
       (mkParentWrite np (Slot cur) false :: parent_writes k)).
Proof.
  intros Hfind Hmem Hpg Hc Hst HP Hs Htop Hok1 Hok2 Hok3.
  destruct (clone_frame_addresses PGSIZE stack HP Hs Htop) as (Ha1 & Ha2 & Ha3).
  unfold clone.
  assert (Hfind' := Hfind).
  apply list_find_Some in Hfind' as (Hp0 & Hp0st & _).
  assert (Hnp : (np < length (ptable k))%nat) by (by eapply lookup_lt_Some).
  assert (Hne : np <> cur) by (intros ->; congruence).
  rewrite (allocproc_ok (cprintf _ k) np p0 pg rest) by done.
  destruct k as [l lck npid init km vm uw sw fsc con pw].
  cbn [ptable ptable_lock nextpid initproc kmem vm_freed uwrites state_writes
       fs_calls console parent_writes cprintf with_console] in *.
  rewrite (clone_share_mk cur np l _ c) by done.
  cbv beta iota zeta.
  rewrite slot_mk, lookup_total_insert_eq by done. peval.
  rewrite Ha1, copyout_mk, Hok1. cbv beta iota.
  rewrite (bool_decide_eq_false_2 (0 < 0)) by lia.
  rewrite slot_mk, lookup_total_insert_eq by done. peval.
  rewrite Ha2, copyout_mk, Hok2. cbv beta iota.
  rewrite (bool_decide_eq_false_2 (0 < 0)) by lia.
  rewrite slot_mk, lookup_total_insert_eq by done. peval.
  rewrite Ha3, copyout_mk, Hok3. cbv beta iota.
  rewrite (bool_decide_eq_false_2 (0 < 0)) by lia.
  rewrite (clone_finish_mk fcn stack _ cur np l _ c) by done.
  unfold cloned, embryo. destruct p0. reflexivity.
Qed.

(** C4.  When a slot is free, a kernel stack is available and the three
    words below the top of the stack region are writable, [clone] writes,
    in this order, the sentinel [0xffffffff] at [stack + PGSIZE - 4], [arg2]
    at [stack + PGSIZE - 8] and [arg1] at [stack + PGSIZE - 12] in the
    caller's address space; the new unit has [esp] at the last address
    written, [eip = fcn] and [eax = 0] (the other registers are the
    caller's), the caller's [pgdir] and [sz] (nothing is copied or freed),
    [is_thread = 1], [user_stack = stack], the caller as parent, and state
    RUNNABLE, set under the table lock; the call returns the new unit's pid
    and no other slot changes. *)
Theorem clone_builds_thread (PGSIZE : Z) (uvm_ok : Z -> Z -> Z -> bool)
    (fcn arg1 arg2 stack : Z) (cur : nat) (k : kernel)
    (np : nat) (p0 c : proc) (pg : Z) (rest : list Z) (r : Z) (k' : kernel) :
  list_find (fun q => state q = UNUSED) (ptable k) = Some (np, p0) ->
  kmem k = pg :: rest -> pg <> 0 ->
  ptable k !! cur = Some c -> state c <> UNUSED ->
  12 <= PGSIZE -> 0 <= stack -> stack + PGSIZE <= 2 ^ 32 ->
  uvm_ok (pgdir c) (stack + PGSIZE - 4) 4 = true ->
  uvm_ok (pgdir c) (stack + PGSIZE - 8) 4 = true ->
  uvm_ok (pgdir c) (stack + PGSIZE - 12) 4 = true ->
  clone PGSIZE uvm_ok fcn arg1 arg2 stack cur k = (r, k') ->
  r = nextpid k /\ r = pid (slot k' np) /\
  uwrites k' =
    mkUwrite (pgdir c) (stack + PGSIZE - 12) arg1
      :: mkUwrite (pgdir c) (stack + PGSIZE - 8) arg2
      :: mkUwrite (pgdir c) (stack + PGSIZE - 4) 4294967295
      :: uwrites k /\
  tf (slot k' np) = mkTf 0 fcn (stack + PGSIZE - 12) (tf_rest (tf c)) /\
  pgdir (slot k' np) = pgdir c /\ sz (slot k' np) = sz c /\
  is_thread (slot k' np) = 1 /\ user_stack (slot k' np) = stack /\
  state (slot k' np) = RUNNABLE /\ parent (slot k' np) = Slot cur /\
  kstack (slot k' np) = pg /\
  state_writes k' =
    mkStateWrite np RUNNABLE true :: mkStateWrite np EMBRYO true
      :: state_writes k /\
  (forall j, j <> np -> ptable k' !! j = ptable k !! j) /\
  length (ptable k') = length (ptable k) /\
  vm_freed k' = vm_freed k /\ kmem k' = rest /\ ptable_lock k' = false.
Proof.
  intros Hfind Hmem Hpg Hc Hst HP Hs Htop Hok1 Hok2 Hok3 Hclone.
  rewrite (clone_eval PGSIZE uvm_ok fcn arg1 arg2 stack cur k np p0 c pg rest)
    in Hclone by done.
  injection Hclone as <- <-.
  apply list_find_Some in Hfind as (Hp0 & _ & _).
  assert (Hnp : (np < length (ptable k))%nat) by (by eapply lookup_lt_Some).
  rewrite slot_mk, lookup_total_insert_eq by done.
  cbn [ptable ptable_lock nextpid kmem vm_freed uwrites state_writes].
  rewrite length_insert. unfold cloned, embryo. peval.
  repeat split; try done.
  intros j Hj. by rewrite list_lookup_insert_ne.
Qed.

(** C4 on the sample kernel: the running process in slot 1 clones onto the
    stack region at 8192. *)
Lemma clone_builds_thread_witness :
  fst (clone 4096 uvm_all 1000 11 22 8192 1 sample_kernel) = 5 /\
  uwrites (snd (clone 4096 uvm_all 1000 11 22 8192 1 sample_kernel)) =
    [mkUwrite 200 12276 11; mkUwrite 200 12280 22;
     mkUwrite 200 12284 4294967295] /\
  tf (slot (snd (clone 4096 uvm_all 1000 11 22 8192 1 sample_kernel)) 4) =
    mkTf 0 1000 12276 [].
Proof.
  destruct (clone_builds_thread 4096 uvm_all 1000 11 22 8192 1 sample_kernel
              4%nat proc0 (unit_of RUNNING 2 (Slot 0) 200 6000 0 0 Null 0)
              9000 [9001]
              (fst (clone 4096 uvm_all 1000 11 22 8192 1 sample_kernel))
              (snd (clone 4096 uvm_all 1000 11 22 8192 1 sample_kernel)))
    as (H1 & _ & H3 & H4 & _);
    [reflexivity | reflexivity | discriminate | reflexivity | discriminate
    | lia | lia | lia | reflexivity | reflexivity | reflexivity
    | apply surjective_pairing |].
  exact (conj H1 (conj H3 H4)).
Defined.

(** ** sys_clone *)

(** C6.  When the stack argument does not lie inside the caller's address
    space (its base is at or beyond [sz], its end [stack + PGSIZE] is beyond
    [sz], or the end is beyond the 32-bit address range), [sys_clone]
    returns -1 without calling [clone]: no slot is allocated or changes
    state, the id counter is unchanged, nothing is written to any address
    space, allocated or freed.  (It only prints a message.) *)
Theorem sys_clone_rejects_bad_stack (PGSIZE : Z) (uvm_ok : Z -> Z -> Z -> bool)
    (argptr : nat -> Z -> option Z) (cur : nat) (k : kernel) (stack : Z) :
  argptr 3%nat 4 = Some stack ->
  0 <= stack < 2 ^ 32 -> 0 < PGSIZE < 2 ^ 32 ->
  stack >= sz (slot k cur) \/ stack + PGSIZE > sz (slot k cur)
    \/ stack + PGSIZE >= 2 ^ 32 ->
  fst (sys_clone PGSIZE uvm_ok argptr cur k) = -1 /\
  ptable (snd (sys_clone PGSIZE uvm_ok argptr cur k)) = ptable k /\
  nextpid (snd (sys_clone PGSIZE uvm_ok argptr cur k)) = nextpid k /\
  state_writes (snd (sys_clone PGSIZE uvm_ok argptr cur k)) = state_writes k /\
  uwrites (snd (sys_clone PGSIZE uvm_ok argptr cur k)) = uwrites k /\
  kmem (snd (sys_clone PGSIZE uvm_ok argptr cur k)) = kmem k /\
  vm_freed (snd (sys_clone PGSIZE uvm_ok argptr cur k)) = vm_freed k /\
  fs_calls (snd (sys_clone PGSIZE uvm_ok argptr cur k)) = fs_calls k /\
  ptable_lock (snd (sys_clone PGSIZE uvm_ok argptr cur k)) = ptable_lock k.
Proof.
  intros Harg Hs HP Hbad. unfold sys_clone. rewrite Harg.
  destruct (argptr 0%nat 4); [|done].
  destruct (argptr 1%nat 4); [|done].
  destruct (argptr 2%nat 4); [|done].
  assert (Hcond : bool_decide (stack >= sz (slot k cur))
                  || bool_decide (wrap32 (stack + PGSIZE) > sz (slot k cur))
                  || bool_decide (wrap32 (stack + PGSIZE) < stack) = true).
  { destruct (decide (stack + PGSIZE >= 2 ^ 32)) as [Hwrap|Hnowrap].
    - assert (wrap32 (stack + PGSIZE) = stack + PGSIZE - 2 ^ 32) as ->.
      { unfold wrap32. symmetry. apply (Z.mod_unique _ _ 1); lia. }
      rewrite (bool_decide_eq_true_2 (_ < stack)) by lia.
      by rewrite orb_true_r.
    - rewrite (wrap32_small (stack + PGSIZE)) by lia.
      destruct Hbad as [Hb|[Hb|Hb]]; [| |lia].
      + by rewrite (bool_decide_eq_true_2 (stack >= _)).
      + rewrite (bool_decide_eq_true_2 (_ > _)) by done.
        by rewrite orb_true_r. }
  rewrite Hcond. done.
Qed.

(** C6 on the sample kernel: a stack region that ends beyond the caller's
    16384 bytes. *)
Lemma sys_clone_rejects_bad_stack_witness :
  fst (sys_clone 4096 uvm_all (fun _ _ => Some 16000) 1 sample_kernel) = -1 /\
  ptable (snd (sys_clone 4096 uvm_all (fun _ _ => Some 16000) 1 sample_kernel))
    = ptable sample_kernel /\
  nextpid (snd (sys_clone 4096 uvm_all (fun _ _ => Some 16000) 1 sample_kernel))
    = nextpid sample_kernel.
Proof.
  destruct (sys_clone_rejects_bad_stack 4096 uvm_all (fun _ _ => Some 16000)
              1 sample_kernel 16000)
    as (H1 & H2 & H3 & _); [reflexivity | lia | lia | | ].
  - right; left. vm_compute. reflexivity.
  - exact (conj H1 (conj H2 H3)).
Defined.

(** ** The reaping scans of wait and join *)

Lemma wait_scan_scan_from (n : nat) : forall i cur havekids k,
  wait_scan n i cur havekids k =
  scan_from (wait_sel cur) wait_reap n i havekids k.
Proof.
  induction n as [|n IH]; intros i cur havekids k; [done|].
  cbn [wait_scan scan_from]. rewrite !IH.
  assert (Hsel : bool_decide (parent (slot k i) ≠ Slot cur)
                 || bool_decide (is_thread (slot k i) ≠ 0)
                 = negb (wait_sel cur (slot k i))).
  { unfold wait_sel. rewrite !bool_decide_not. by rewrite negb_andb. }
  rewrite Hsel. done.
Qed.

Lemma join_scan_scan_from (uvm_ok : Z -> Z -> Z -> bool) (dst : Z) (n : nat) :
  forall i cur havekids k,
  join_scan uvm_ok dst n i cur havekids k =
  scan_from (join_sel cur) (fun j k0 => join_reap uvm_ok dst j cur k0)
            n i havekids k.
Proof.
  induction n as [|n IH]; intros i cur havekids k; [done|].
  cbn [join_scan scan_from]. rewrite !IH.
  assert (Hsel : bool_decide (parent (slot k i) ≠ Slot cur)
                 || bool_decide (is_thread (slot k i) = 0)
                 = negb (join_sel cur (slot k i))).
  { unfold join_sel. rewrite !bool_decide_not.
    by rewrite negb_andb, negb_involutive. }
  rewrite Hsel. done.
Qed.

Lemma scan_from_found sel reap (n : nat) : forall i havekids k j p,
  (i <= j < i + n)%nat ->
  ptable k !! j = Some p -> sel p = true -> state p = ZOMBIE ->
  (forall j' q, (i <= j' < j)%nat -> ptable k !! j' = Some q ->
                ~ (sel q = true /\ state q = ZOMBIE)) ->
  scan_from sel reap n i havekids k =
  Scan_return (fst (reap j k)) (snd (reap j k)).
Proof.
  induction n as [|n IH]; intros i havekids k j p Hj Hp Hsel Hz Hfirst; [lia|].
  cbn [scan_from].
  destruct (decide (i = j)) as [->|Hne].
  - rewrite (slot_lookup k j p Hp), Hsel, bool_decide_eq_true_2 by done.
    cbn. by destruct (reap j k).
  - destruct (lookup_lt_is_Some_2 (ptable k) i) as [q Hq].
    { apply lookup_lt_Some in Hp. lia. }
    rewrite (slot_lookup k i q Hq).
    assert (Hnext : forall j' q', (S i <= j' < j)%nat ->
              ptable k !! j' = Some q' -> ~ (sel q' = true /\ state q' = ZOMBIE)).
    { intros j' q' Hj'. apply Hfirst. lia. }
    destruct (sel q) eqn:Hsq; cbn [negb].
    + rewrite bool_decide_eq_false_2.
      * apply (IH (S i) true k j p); [lia|done..].
      * intros Hzq. apply (Hfirst i q); [lia|done|done].
    + apply (IH (S i) havekids k j p); [lia|done..].
Qed.

Lemma scan_from_none sel reap (n : nat) : forall i havekids k,
  (forall j q, (i <= j < i + n)%nat -> ptable k !! j = Some q ->
               ~ (sel q = true /\ state q = ZOMBIE)) ->
  (i + n <= NPROC k)%nat ->
  exists hk,
    scan_from sel reap n i havekids k = Scan_end hk /\
    (hk = true <->
     havekids = true \/
     exists j q, (i <= j < i + n)%nat /\ ptable k !! j = Some q /\ sel q = true).
Proof.
  induction n as [|n IH]; intros i havekids k Hno Hlen.
  - exists havekids. split; [done|]. split; [tauto|].
    intros [H|(j & q & Hj & _)]; [done|lia].
  - cbn [scan_from].
    destruct (lookup_lt_is_Some_2 (ptable k) i) as [q Hq];
      [unfold NPROC in Hlen; lia|].
    rewrite (slot_lookup k i q Hq).
    assert (Hnext : forall j q', (S i <= j < S i + n)%nat ->
              ptable k !! j = Some q' -> ~ (sel q' = true /\ state q' = ZOMBIE)).
    { intros j q' Hj. apply Hno. lia. }
    destruct (sel q) eqn:Hsq; cbn [negb].
    + rewrite bool_decide_eq_false_2
        by (intros Hzq; apply (Hno i q); [lia|done|done]).
      destruct (IH (S i) true k Hnext) as (hk & Heq & Hiff); [lia|].
      exists hk. split; [done|]. split.
      * intros _. right. exists i, q. split; [lia|done].
      * intros _. apply Hiff. by left.
    + destruct (IH (S i) havekids k Hnext) as (hk & Heq & Hiff); [lia|].
      exists hk. split; [done|]. rewrite Hiff. split.
      * intros [H|(j & q' & Hj & Hq' & Hs)]; [by left|].
        right. exists j, q'. split; [lia|done].
      * intros [H|(j & q' & Hj & Hq' & Hs)]; [by left|].
        destruct (decide (j = i)) as [->|Hji]; [congruence|].
        right. exists j, q'. split; [lia|done].
Qed.

(** The two scans over the whole table, in terms of the first selected
    ZOMBIE. *)
Lemma scan_table_found sel reap (k : kernel) (j : nat) (p : proc) :
  list_find (fun q => sel q = true /\ state q = ZOMBIE) (ptable k) = Some (j, p) ->
  scan_from sel reap (NPROC k) 0 false k =
  Scan_return (fst (reap j k)) (snd (reap j k)).
Proof.
  intros Hfind. apply list_find_Some in Hfind as (Hp & [Hs Hz] & Hfirst).
  apply (scan_from_found sel reap _ 0 false k j p); [|done..|].
  - apply lookup_lt_Some in Hp. unfold NPROC. lia.
  - intros j' q Hj' Hq. apply (Hfirst j' q); [done|lia].
Qed.

Lemma scan_table_none sel reap (k : kernel) :
  list_find (fun q => sel q = true /\ state q = ZOMBIE) (ptable k) = None ->
  exists hk,
    scan_from sel reap (NPROC k) 0 false k = Scan_end hk /\
    (hk = true <-> exists q, q ∈ ptable k /\ sel q = true).
Proof.
  intros Hfind. apply list_find_None in Hfind. rewrite Forall_forall in Hfind.
  destruct (scan_from_none sel reap (NPROC k) 0 false k) as (hk & Heq & Hiff).
  - intros j q _ Hq. apply Hfind. by eapply list_elem_of_lookup_2.
  - lia.
  - exists hk. split; [done|]. rewrite Hiff. split.
    + intros [H|(j & q & _ & Hq & Hs)]; [done|].
      exists q. split; [by eapply list_elem_of_lookup_2|done].
    + intros (q & Hq & Hs). right.
      apply list_elem_of_lookup in Hq as [j Hj].
      exists j, q. split; [|done].
      apply lookup_lt_Some in Hj. unfold NPROC. lia.
Qed.

(** ** Address-space teardown at reap time *)

Lemma shared_pgdir_users_from_ge (n : nat) : forall i d k u,
  u <= shared_pgdir_users_from n i d k u.
Proof.
  induction n as [|n IH]; intros i d k u; cbn [shared_pgdir_users_from]; [lia|].
  destruct (_ && _); [|apply IH].
  etrans; [|apply IH]. lia.
Qed.

Lemma shared_pgdir_users_from_none (n : nat) : forall i d k u,
  (forall j, (i <= j < i + n)%nat -> ~ live_sharer k d j) ->
  (i + n <= NPROC k)%nat ->
  shared_pgdir_users_from n i d k u = u.
Proof.
  induction n as [|n IH]; intros i d k u Hno Hlen; cbn [shared_pgdir_users_from]; [done|].
  assert (Hf : bool_decide (i ≠ d)
               && bool_decide (pgdir (slot k i) = pgdir (slot k d))
               && bool_decide (state (slot k i) ≠ UNUSED)
               && bool_decide (state (slot k i) ≠ ZOMBIE) = false).
  { apply not_true_is_false. intros Ht.
    apply andb_prop in Ht as [Ht H4]. apply andb_prop in Ht as [Ht H3].
    apply andb_prop in Ht as [H1 H2].
    apply bool_decide_eq_true_1 in H1, H2, H3, H4.
    apply (Hno i); [lia|]. unfold live_sharer. repeat split; [done|lia|done..]. }
  rewrite Hf. apply IH; [|lia]. intros j Hj. apply Hno. lia.
Qed.

Lemma shared_pgdir_users_from_some (n : nat) : forall i d k u j,
  (i <= j < i + n)%nat -> live_sharer k d j ->
  u < shared_pgdir_users_from n i d k u.
Proof.
  induction n as [|n IH]; intros i d k u j Hj Hlive; [lia|].
  cbn [shared_pgdir_users_from].
  destruct (decide (i = j)) as [->|Hne].
  - destruct Hlive as (H1 & _ & H2 & H3 & H4).
    rewrite !bool_decide_eq_true_2 by done. cbn [andb].
    pose proof (shared_pgdir_users_from_ge n (S j) d k (u + 1)). lia.
  - destruct (_ && _).
    + pose proof (IH (S i) d k (u + 1) j ltac:(lia) Hlive). lia.
    + apply (IH (S i) d k u j); [lia|done].
Qed.

(** The count is zero exactly when no other live unit shares the handle. *)
Lemma shared_pgdir_users_zero (d : nat) (k : kernel) :
  shared_pgdir_users_from (NPROC k) 0 d k 0 = 0 <->
  ~ exists j, live_sharer k d j.
Proof.
  split.
  - intros Hz (j & Hlive).
    assert (Hj : (0 <= j < 0 + NPROC k)%nat) by (destruct Hlive as (_ & ? & _); lia).
    pose proof (shared_pgdir_users_from_some (NPROC k) 0 d k 0 j Hj Hlive). lia.
  - intros Hno. apply shared_pgdir_users_from_none; [|lia].
    intros j _ Hlive. apply Hno. by exists j.
Qed.

(** [check_and_free_shared_pgdir] calls [freevm] on the dying unit's handle
    exactly when the handle is not null and no other live unit shares it,
    and does nothing else. *)
Lemma check_and_free_torn (d : nat) (k : kernel) :
  pgdir (slot k d) <> 0 -> ~ (exists j, live_sharer k d j) ->
  check_and_free_shared_pgdir d k = freevm (pgdir (slot k d)) k.
Proof.
  intros Hpd Hno. unfold check_and_free_shared_pgdir.
  rewrite bool_decide_eq_false_2 by done.
  rewrite bool_decide_eq_true_2; [done|]. by apply shared_pgdir_users_zero.
Qed.

Lemma check_and_free_kept (d : nat) (k : kernel) :
  pgdir (slot k d) = 0 \/ (exists j, live_sharer k d j) ->
  check_and_free_shared_pgdir d k = k.
Proof.
  intros Hcase. unfold check_and_free_shared_pgdir.
  destruct (decide (pgdir (slot k d) = 0)) as [Hz|Hnz].
  - by rewrite bool_decide_eq_true_2.
  - rewrite bool_decide_eq_false_2 by done.
    destruct Hcase as [Hz|Hlive]; [done|].
    rewrite bool_decide_eq_false_2; [done|].
    intros Hzero. by apply shared_pgdir_users_zero in Hzero.
Qed.

Lemma check_and_free_frame (d : nat) (k : kernel) :
  check_and_free_shared_pgdir d k =
  with_vm_freed (vm_freed (check_and_free_shared_pgdir d k)) k.
Proof.
  unfold check_and_free_shared_pgdir.
  destruct (bool_decide _); [by destruct k|].
  destruct (bool_decide _); by destruct k.
Qed.

(** The count reads only the [pgdir] and [state] fields. *)
Lemma shared_pgdir_users_from_ext (n : nat) : forall i d k k' u,
  (forall m, pgdir (slot k m) = pgdir (slot k' m) /\
             state (slot k m) = state (slot k' m)) ->
  shared_pgdir_users_from n i d k u = shared_pgdir_users_from n i d k' u.
Proof.
  induction n as [|n IH]; intros i d k k' u Hext; cbn [shared_pgdir_users_from]; [done|].
  destruct (Hext i) as [-> ->]. destruct (Hext d) as [-> _].
  destruct (_ && _); by apply IH.
Qed.

Lemma slot_alter_fields (f : proc -> proc) (l : list proc) (i m : nat) :
  (forall q, pgdir (f q) = pgdir q /\ state (f q) = state q) ->
  pgdir (alter f i l !!! m) = pgdir (l !!! m) /\
  state (alter f i l !!! m) = state (l !!! m).
Proof.
  intros Hf. destruct (decide (i = m)) as [->|Hne].
  - destruct (decide (m < length l)%nat) as [Hlt|Hge].
    + rewrite list_lookup_total_alter_eq by done. apply Hf.
    + rewrite !list_lookup_total_alt.
      rewrite list_lookup_alter_eq, lookup_ge_None_2 by lia. done.
  - by rewrite list_lookup_total_alter_ne.
Qed.

Lemma check_and_free_kstack (i : nat) (k : kernel) :
  vm_freed (check_and_free_shared_pgdir i
              (upd i (set_kstack 0) (kfree (kstack (slot k i)) k))) =
  vm_freed (check_and_free_shared_pgdir i k).
Proof.
  assert (Hext : forall m,
    pgdir (slot (upd i (set_kstack 0) (kfree (kstack (slot k i)) k)) m)
      = pgdir (slot k m) /\
    state (slot (upd i (set_kstack 0) (kfree (kstack (slot k i)) k)) m)
      = state (slot k m)).
  { intros m. unfold slot, upd, kfree. cbn.
    apply slot_alter_fields. by intros q. }
  unfold check_and_free_shared_pgdir.
  rewrite (proj1 (Hext i)).
  rewrite (shared_pgdir_users_from_ext _ 0 i _ k 0 Hext).
  replace (NPROC (upd i (set_kstack 0) (kfree (kstack (slot k i)) k)))
    with (NPROC k) by (unfold NPROC, upd, kfree; cbn; by rewrite length_alter).
  destruct (bool_decide _); [done|].
  destruct (bool_decide _); done.
Qed.

Lemma wait_reap_eval (i : nat) (k : kernel) (p : proc) :
  ptable k !! i = Some p ->
  wait_reap i k =
    (pid p,
     mkKernel (<[i := reaped_by_wait p]> (ptable k)) false (nextpid k)
              (initproc k) (kstack p :: kmem k)
              (vm_freed (check_and_free_shared_pgdir i k)) (uwrites k)
              (mkStateWrite i UNUSED (ptable_lock k) :: state_writes k)
              (fs_calls k) (console k)
              (mkParentWrite i Null (ptable_lock k) :: parent_writes k)).
Proof.
  intros Hp. unfold wait_reap. cbv zeta.
  rewrite (check_and_free_frame i (upd i _ _)).
  rewrite check_and_free_kstack.
  assert (Hi : (i < length (ptable k))%nat) by (by eapply lookup_lt_Some).
  set (V := vm_freed (check_and_free_shared_pgdir i k)). clearbody V.
  destruct k as [l lck npid init km vm uw sw fsc con pw].
  cbn [ptable ptable_lock nextpid initproc kmem vm_freed uwrites state_writes
       fs_calls console parent_writes] in *.
  keval. rewrite (list_lookup_total_correct l i p Hp).
  rewrite (alter_insert _ _ _ p Hp). keval. reflexivity.
Qed.

Lemma join_reap_eval (uvm_ok : Z -> Z -> Z -> bool) (dst : Z) (i cur : nat)
    (k : kernel) (p c : proc) :
  ptable k !! i = Some p -> ptable k !! cur = Some c ->
  join_reap uvm_ok dst i cur k =
    if uvm_ok (pgdir c) dst 4 then
      (pid p,
       mkKernel (<[i := reaped_by_join p]> (ptable k)) false (nextpid k)
                (initproc k) (kstack p :: kmem k) (vm_freed k)
                (mkUwrite (pgdir c) dst (user_stack p) :: uwrites k)
                (mkStateWrite i UNUSED (ptable_lock k) :: state_writes k)
                (fs_calls k) (console k)
                (mkParentWrite i Null (ptable_lock k) :: parent_writes k))
    else (-2, release k).
Proof.
  intros Hp Hc. unfold join_reap.
  assert (Hi : (i < length (ptable k))%nat) by (by eapply lookup_lt_Some).
  destruct k as [l lck npid init km vm uw sw fsc con pw].
  cbn [ptable ptable_lock nextpid initproc kmem vm_freed uwrites state_writes
       fs_calls console parent_writes] in *.
  keval.
  rewrite (list_lookup_total_correct l cur c Hc).
  rewrite (list_lookup_total_correct l i p Hp).
  destruct (uvm_ok (pgdir c) dst 4).
  - rewrite (bool_decide_eq_false_2 (0 < 0)) by lia.
    keval. rewrite (list_lookup_total_correct l i p Hp).
    rewrite (alter_insert _ _ _ p Hp). keval. reflexivity.
  - rewrite (bool_decide_eq_true_2 (-1 < 0)) by lia. keval. reflexivity.
Qed.

(** ** join *)

Lemma wait_sel_true (cur : nat) (q : proc) :
  wait_sel cur q = true <-> parent q = Slot cur /\ is_thread q = 0.
Proof.
  unfold wait_sel. rewrite andb_true_iff, !bool_decide_eq_true. done.
Qed.

Lemma join_sel_true (cur : nat) (q : proc) :
  join_sel cur q = true <-> parent q = Slot cur /\ is_thread q <> 0.
Proof.
  unfold join_sel. rewrite andb_true_iff, !bool_decide_eq_true. done.
Qed.

Lemma wait_scan_first (cur : nat) (k : kernel) (i : nat) (p : proc) :
  list_find (zombie_child cur) (ptable k) = Some (i, p) ->
  wait_scan (NPROC k) 0 cur false k =
  Scan_return (fst (wait_reap i k)) (snd (wait_reap i k)).
Proof.
  intros Hfind. apply list_find_Some in Hfind as (Hp & (H1 & H2 & H3) & Hfirst).
  rewrite wait_scan_scan_from.
  apply (scan_from_found _ _ _ 0 false k i p); [|done| |done|].
  - apply lookup_lt_Some in Hp. unfold NPROC. lia.
  - by apply wait_sel_true.
  - intros j' q Hj' Hq [Hs Hz]. apply wait_sel_true in Hs as [? ?].
    apply (Hfirst j' q); [done|lia|done].
Qed.

Lemma wait_scan_no_zombie (cur : nat) (k : kernel) :
  list_find (zombie_child cur) (ptable k) = None ->
  exists hk,
    wait_scan (NPROC k) 0 cur false k = Scan_end hk /\
    (hk = true <->
     exists q, q ∈ ptable k /\ parent q = Slot cur /\ is_thread q = 0).
Proof.
  intros Hfind. apply list_find_None in Hfind. rewrite Forall_forall in Hfind.
  rewrite wait_scan_scan_from.
  destruct (scan_from_none (wait_sel cur) wait_reap (NPROC k) 0 false k)
    as (hk & Heq & Hiff).
  - intros j q _ Hq [Hs Hz]. apply wait_sel_true in Hs as [? ?].
    apply (Hfind q); [by eapply list_elem_of_lookup_2|done].
  - lia.
  - exists hk. split; [done|]. rewrite Hiff. split.
    + intros [H|(j & q & _ & Hq & Hs)]; [done|].
      exists q. split; [by eapply list_elem_of_lookup_2|by apply wait_sel_true].
    + intros (q & Hq & Hs). right.
      apply list_elem_of_lookup in Hq as [j Hj].
      exists j, q. split; [|split; [done|by apply wait_sel_true]].
      apply lookup_lt_Some in Hj. unfold NPROC. lia.
Qed.

Lemma join_scan_first (uvm_ok : Z -> Z -> Z -> bool) (dst : Z) (cur : nat)
    (k : kernel) (i : nat) (p : proc) :
  list_find (zombie_thread_child cur) (ptable k) = Some (i, p) ->
  join_scan uvm_ok dst (NPROC k) 0 cur false k =
  Scan_return (fst (join_reap uvm_ok dst i cur k))
              (snd (join_reap uvm_ok dst i cur k)).
Proof.
  intros Hfind. apply list_find_Some in Hfind as (Hp & (H1 & H2 & H3) & Hfirst).
  rewrite join_scan_scan_from.
  apply (scan_from_found (join_sel cur)
           (fun j k0 => join_reap uvm_ok dst j cur k0) _ 0 false k i p);
    [|done| |done|].
  - apply lookup_lt_Some in Hp. unfold NPROC. lia.
  - by apply join_sel_true.
  - intros j' q Hj' Hq [Hs Hz]. apply join_sel_true in Hs as [? ?].
    apply (Hfirst j' q); [done|lia|done].
Qed.

Lemma join_loop_unfold (uvm_ok : Z -> Z -> Z -> bool) (dst : Z)
    (env : environment) (cur : nat) (k : kernel) :
  join_loop uvm_ok dst env cur k =
  match join_scan uvm_ok dst (NPROC k) 0 cur false k with
  | Scan_return v k' => Ret v k'
  | Scan_end havekids =>
      if negb havekids || bool_decide (killed (slot k cur) ≠ 0)
      then Ret (-1) (release k)
      else
        match sched_check cur (sleep_enter (Slot cur) cur k) with
        | Some msg => Panic msg (sleep_enter (Slot cur) cur k)
        | None =>
            match env with
            | [] => Switched (sleep_enter (Slot cur) cur k)
            | others :: env' =>
                join_loop uvm_ok dst env' cur
                  (sleep_leave cur (others (sleep_enter (Slot cur) cur k)))
            end
        end
  end.
Proof. by destruct env. Qed.

Lemma wait_loop_unfold (env : environment) (cur : nat) (k : kernel) :
  wait_loop env cur k =
  match wait_scan (NPROC k) 0 cur false k with
  | Scan_return v k' => Ret v k'
  | Scan_end havekids =>
      if negb havekids || bool_decide (killed (slot k cur) ≠ 0)
      then Ret (-1) (release k)
      else
        match sched_check cur (sleep_enter (Slot cur) cur k) with
        | Some msg => Panic msg (sleep_enter (Slot cur) cur k)
        | None =>
            match env with
            | [] => Switched (sleep_enter (Slot cur) cur k)
            | others :: env' =>
                wait_loop env' cur
                  (sleep_leave cur (others (sleep_enter (Slot cur) cur k)))
            end
        end
  end.
Proof. by destruct env. Qed.

(** [join] contains no call of [freevm]. *)
Lemma join_scan_vm_freed (uvm_ok : Z -> Z -> Z -> bool) (dst : Z) (n : nat) :
  forall i cur havekids k v k',
  join_scan uvm_ok dst n i cur havekids k = Scan_return v k' ->
  vm_freed k' = vm_freed k.
Proof.
  induction n as [|n IH]; intros i cur havekids k v k' Hscan; [done|].
  cbn [join_scan] in Hscan.
  destruct (_ || _); [by eapply IH|].
  destruct (bool_decide _); [|by eapply IH].
  unfold join_reap, copyout in Hscan.
  destruct (uvm_ok _ _ _).
  - rewrite (bool_decide_eq_false_2 (0 < 0)) in Hscan by lia.
    by injection Hscan as _ <-.
  - rewrite (bool_decide_eq_true_2 (-1 < 0)) in Hscan by lia.
    by injection Hscan as _ <-.
Qed.

Lemma join_never_frees (uvm_ok : Z -> Z -> Z -> bool) (dst : Z)
    (env : environment) : forall (cur : nat) (k : kernel),
  Forall (fun others => forall k0, vm_freed (others k0) = vm_freed k0) env ->
  vm_freed (outcome_kernel (join_loop uvm_ok dst env cur k)) = vm_freed k.
Proof.
  induction env as [|others env IH]; intros cur k Henv;
    rewrite join_loop_unfold;
    destruct (join_scan _ _ _ _ _ _ _) as [v k'|hk] eqn:Hscan;
    try (cbn; by eapply join_scan_vm_freed);
    destruct (_ || _); try done;
    destruct (sched_check _ _); try done.
  apply Forall_cons in Henv as [Ho Henv].
  rewrite IH by done. cbn. by rewrite Ho.
Qed.

(** What [join] returns when it finds a Zombie thread child. *)
Lemma join_found_eval (uvm_ok : Z -> Z -> Z -> bool) (dst : Z)
    (env : environment) (cur : nat) (k : kernel) (c : proc)
    (i : nat) (p : proc) :
  ptable k !! cur = Some c ->
  list_find (zombie_thread_child cur) (ptable k) = Some (i, p) ->
  join uvm_ok dst env cur k =
    if uvm_ok (pgdir c) dst 4 then
      Ret (pid p)
        (mkKernel (<[i := reaped_by_join p]> (ptable k)) false (nextpid k)
                  (initproc k) (kstack p :: kmem k) (vm_freed k)
                  (mkUwrite (pgdir c) dst (user_stack p) :: uwrites k)
                  (mkStateWrite i UNUSED true :: state_writes k)
                  (fs_calls k) (console k)
                  (mkParentWrite i Null true :: parent_writes k))
    else Ret (-2) (release k).
Proof.
  intros Hc Hfind. unfold join. rewrite join_loop_unfold.
  rewrite (join_scan_first uvm_ok dst cur (acquire k) i p Hfind).
  apply list_find_Some in Hfind as (Hp & _ & _).
  rewrite (join_reap_eval uvm_ok dst i cur (acquire k) p c Hp Hc).
  by destruct (uvm_ok (pgdir c) dst 4).
Qed.

Lemma join_found_cases (uvm_ok : Z -> Z -> Z -> bool) (dst : Z)
    (env : environment) (cur : nat) (k : kernel) (c : proc)
    (i : nat) (p : proc) :
  ptable k !! cur = Some c ->
  list_find (zombie_thread_child cur) (ptable k) = Some (i, p) ->
  exists v k', join uvm_ok dst env cur k = Ret v k' /\
               vm_freed k' = vm_freed k.
Proof.
  intros Hc Hfind. rewrite (join_found_eval uvm_ok dst env cur k c i p Hc Hfind).
  destruct (uvm_ok (pgdir c) dst 4); by eexists _, _.
Qed.

(** C5.  When [join] finds a Zombie thread child (the first one in table
    order), it first tries to write the child's [user_stack] to the
    caller's location [dst].  If that write fails it returns -2 (which is
    not the -1 of "no children") and leaves the whole table as it was: the
    child keeps its kernel stack and stays ZOMBIE.  Only if the write
    succeeds does it free the kernel stack, reset the slot and mark it
    UNUSED, and return the child's pid.  In neither case, nor in any other
    run of [join], is [freevm] called. *)
Theorem join_reaps_or_aborts (uvm_ok : Z -> Z -> Z -> bool) (dst : Z)
    (env : environment) (cur : nat) (k : kernel) (c : proc)
    (i : nat) (p : proc) :
  ptable k !! cur = Some c ->
  list_find (zombie_thread_child cur) (ptable k) = Some (i, p) ->
  (uvm_ok (pgdir c) dst 4 = false ->
     exists k', join uvm_ok dst env cur k = Ret (-2) k' /\
       -2 <> -1 /\
       ptable k' = ptable k /\ ptable k' !! i = Some p /\
       state p = ZOMBIE /\
       kmem k' = kmem k /\ uwrites k' = uwrites k /\
       state_writes k' = state_writes k /\ vm_freed k' = vm_freed k /\
       ptable_lock k' = false) /\
  (uvm_ok (pgdir c) dst 4 = true ->
     exists k', join uvm_ok dst env cur k = Ret (pid p) k' /\
       uwrites k' = mkUwrite (pgdir c) dst (user_stack p) :: uwrites k /\
       kmem k' = kstack p :: kmem k /\
       ptable k' = <[i := reaped_by_join p]> (ptable k) /\
       state (reaped_by_join p) = UNUSED /\
       state_writes k' = mkStateWrite i UNUSED true :: state_writes k /\
       vm_freed k' = vm_freed k /\
       ptable_lock k' = false) /\
  (forall env' cur' k0 dst',
     Forall (fun others => forall k1, vm_freed (others k1) = vm_freed k1) env' ->
     vm_freed (outcome_kernel (join uvm_ok dst' env' cur' k0)) = vm_freed k0).
Proof.
  intros Hc Hfind.
  assert (Hjoin : join uvm_ok dst env cur k =
                  Ret (fst (join_reap uvm_ok dst i cur (acquire k)))
                      (snd (join_reap uvm_ok dst i cur (acquire k)))).
  { unfold join. rewrite join_loop_unfold.
    by rewrite (join_scan_first uvm_ok dst cur (acquire k) i p Hfind). }
  assert (Hfind' := Hfind).
  apply list_find_Some in Hfind' as (Hp & (_ & _ & Hz) & _).
  rewrite (join_reap_eval uvm_ok dst i cur (acquire k) p c Hp Hc) in Hjoin.
  split; [|split].
  - intros Hbad. rewrite Hbad in Hjoin. eexists; split; [exact Hjoin|].
    cbn. repeat split; done.
  - intros Hok. rewrite Hok in Hjoin. eexists; split; [exact Hjoin|].
    cbn. repeat split; done.
  - intros env' cur' k0 dst' Henv. unfold join.
    by rewrite join_never_frees.
Qed.

(** C5 on the sample kernel: the process in slot 1 joins its zombie thread
    in slot 2; the destination is not writable. *)
Lemma join_reaps_or_aborts_witness :
  exists k', join uvm_none 40 [] 1 sample_kernel = Ret (-2) k' /\
             ptable k' = ptable sample_kernel /\
             kmem k' = kmem sample_kernel /\
             vm_freed k' = vm_freed sample_kernel.
Proof.
  destruct (join_reaps_or_aborts uvm_none 40 [] 1 sample_kernel
              (unit_of RUNNING 2 (Slot 0) 200 6000 0 0 Null 0)
              2 (unit_of ZOMBIE 3 (Slot 1) 200 7000 1 12288 Null 0))
    as (Hfail & _ & _); [reflexivity | reflexivity |].
  destruct (Hfail eq_refl) as (k' & H1 & _ & H2 & _ & _ & H3 & _ & _ & H4 & _).
  exists k'. exact (conj H1 (conj H2 (conj H3 H4))).
Defined.

(** ** wait *)

Lemma sleep_enter_slot (c : ptr) (cur : nat) (k : kernel) (p : proc) :
  ptable k !! cur = Some p ->
  slot (sleep_enter c cur k) cur = set_state SLEEPING (set_chan c p).
Proof.
  intros Hp. unfold sleep_enter.
  assert (Hi : (cur < length (ptable k))%nat) by (by eapply lookup_lt_Some).
  destruct k as [l lck npid init km vm uw sw fsc con pw].
  cbn [ptable] in *.
  keval. rewrite (alter_insert _ _ _ p Hp). keval. reflexivity.
Qed.

Lemma sched_check_sleeping (c : ptr) (cur : nat) (k : kernel) :
  ptable_lock k = true ->
  sched_check cur (sleep_enter c cur k) = None.
Proof.
  intros Hl. unfold sched_check.
  replace (ptable_lock (sleep_enter c cur k)) with true
    by (by destruct k).
  cbn [negb].
  rewrite bool_decide_eq_false_2; [done|].
  destruct (ptable k !! cur) as [p|] eqn:Hp.
  - by rewrite (sleep_enter_slot c cur k p Hp).
  - unfold sleep_enter, slot, write_state, upd. cbn.
    rewrite !list_lookup_total_alt, !list_lookup_alter_eq, Hp. done.
Qed.

(** One pass of the loop in the sleeping situation. *)
Lemma wait_loop_must_wait (env : environment) (cur : nat) (k : kernel) :
  ptable_lock k = true -> must_wait cur k ->
  wait_loop env cur k =
  match env with
  | [] => Switched (sleep_enter (Slot cur) cur k)
  | others :: env' =>
      wait_loop env' cur (sleep_leave cur (others (sleep_enter (Slot cur) cur k)))
  end.
Proof.
  intros Hl (Hnone & Hkid & Hkill). rewrite wait_loop_unfold.
  destruct (wait_scan_no_zombie cur k Hnone) as (hk & -> & Hiff).
  assert (hk = true) as ->.
  { apply Hiff. destruct Hkid as (q & Hq & _ & Hpar & Hthr). by exists q. }
  rewrite (bool_decide_eq_false_2 (killed _ ≠ 0)) by (intros H; by apply H).
  cbn [negb orb]. by rewrite sched_check_sleeping.
Qed.

Lemma wait_loop_blocks (env : environment) : forall (cur : nat) (k : kernel),
  ptable_lock k = true -> must_wait cur k ->
  Forall (keeps_waiting cur) env ->
  exists k', wait_loop env cur k = Switched k'.
Proof.
  induction env as [|others env IH]; intros cur k Hl Hw Henv;
    rewrite wait_loop_must_wait by done.
  - by eexists.
  - apply Forall_cons in Henv as [Ho Henv].
    destruct (Ho k Hl Hw) as [Hl' Hw']. by apply IH.
Qed.

(** C2 (as amended).  [wait] scans the table first.  If a child of the
    caller that is not a thread is a Zombie, [wait] reaps the first such
    child, whether or not the caller is kill-flagged: it frees the child's
    kernel stack, clears [kstack], [pid], [parent], [name] and [killed],
    sets the state to UNUSED and returns the child's pid.  If no such child
    is a Zombie, it returns -1 at once, with the table unchanged, when the
    caller is kill-flagged, or when the caller has no child that is not a
    thread and no free slot still names the caller as its parent.  When
    the caller is not kill-flagged and has a child that is not a thread,
    none of them a Zombie, it sleeps on the caller's own address and
    retries the scan each time it is resumed; as long as it is resumed in
    the same situation it does not return.  (Nothing is stated of a caller
    without children that is still named by a free slot.) *)
Theorem wait_reaps_fails_or_sleeps (cur : nat) (k : kernel) (c : proc) :
  ptable k !! cur = Some c ->
  (forall env i p,
     list_find (zombie_child cur) (ptable k) = Some (i, p) ->
     exists k', wait env cur k = Ret (pid p) k' /\
       ptable k' = <[i := reaped_by_wait p]> (ptable k) /\
       reaped_by_wait p =
         set_state UNUSED (set_killed 0 (set_name EmptyString
           (set_parent Null (set_pid 0 (set_kstack 0 p))))) /\
       kmem k' = kstack p :: kmem k /\
       state_writes k' = mkStateWrite i UNUSED true :: state_writes k /\
       ptable_lock k' = false) /\
  (forall env,
     list_find (zombie_child cur) (ptable k) = None ->
     (~ has_child cur k /\ ~ stale_child cur k) \/ killed c <> 0 ->
     wait env cur k = Ret (-1) (release k)) /\
  (must_wait cur k ->
     wait [] cur k = Switched (sleep_enter (Slot cur) cur (acquire k)) /\
     chan (slot (sleep_enter (Slot cur) cur (acquire k)) cur) = Slot cur /\
     state (slot (sleep_enter (Slot cur) cur (acquire k)) cur) = SLEEPING /\
     (forall others env,
        wait (others :: env) cur k =
        wait_loop env cur
          (sleep_leave cur (others (sleep_enter (Slot cur) cur (acquire k))))) /\
     (forall env, Forall (keeps_waiting cur) env ->
        exists k', wait env cur k = Switched k')).
Proof.
  intros Hc. split; [|split].
  - intros env i p Hfind. unfold wait. rewrite wait_loop_unfold.
    rewrite (wait_scan_first cur (acquire k) i p Hfind).
    apply list_find_Some in Hfind as (Hp & _ & _).
    rewrite (wait_reap_eval i (acquire k) p Hp).
    eexists; split; [reflexivity|]. cbn. repeat split; done.
  - intros env Hnone Hcase. unfold wait. rewrite wait_loop_unfold.
    destruct (wait_scan_no_zombie cur (acquire k) Hnone) as (hk & -> & Hiff).
    assert (Hcond : negb hk || bool_decide (killed (slot (acquire k) cur) ≠ 0)
                    = true).
    { destruct Hcase as [[Hnokid Hnostale]|Hkill].
      - destruct hk; [|done]. exfalso.
        destruct (proj1 Hiff eq_refl) as (q & Hq & Hpar & Hthr).
        destruct (decide (state q = UNUSED)) as [Hs|Hs].
        + apply Hnostale. by exists q.
        + apply Hnokid. by exists q.
      - rewrite (bool_decide_eq_true_2 (killed _ ≠ 0)).
        + by rewrite orb_true_r.
        + by rewrite (slot_lookup (acquire k) cur c Hc). }
    rewrite Hcond. done.
  - intros Hw.
    assert (Hw' : must_wait cur (acquire k)) by exact Hw.
    assert (Hl : ptable_lock (acquire k) = true) by done.
    split; [|split; [|split; [|split]]].
    + unfold wait. by rewrite wait_loop_must_wait.
    + by rewrite (sleep_enter_slot _ cur (acquire k) c Hc).
    + by rewrite (sleep_enter_slot _ cur (acquire k) c Hc).
    + intros others env. unfold wait. by rewrite wait_loop_must_wait.
    + intros env Henv. unfold wait. by apply wait_loop_blocks.
Qed.

(** The amended C2 on the sample kernel: the process in slot 1, kill-flagged
    or not, reaps its zombie child in slot 3. *)
Lemma wait_reaps_fails_or_sleeps_witness :
  exists k', wait [] 1 sample_kernel = Ret 4 k' /\
             kmem k' = 8000 :: kmem sample_kernel /\
             ptable_lock k' = false.
Proof.
  destruct (wait_reaps_fails_or_sleeps 1 sample_kernel
              (unit_of RUNNING 2 (Slot 0) 200 6000 0 0 Null 0) eq_refl)
    as (Hreap & _ & _).
  destruct (Hreap [] 3%nat (unit_of ZOMBIE 4 (Slot 1) 300 8000 0 0 Null 0) eq_refl)
    as (k' & H1 & _ & _ & H2 & _ & H3).
  exists k'. exact (conj H1 (conj H2 H3)).
Defined.

(** C2 as stated fails: a kill-flagged caller does not get -1 when one of
    its children is a Zombie; [wait] reaps that child and returns its pid. *)
Lemma wait_killed_caller_still_reaps :
  killed (slot sample_kernel_killed 1) <> 0 /\
  (exists k', wait [] 1 sample_kernel_killed = Ret 4 k') /\
  ~ (exists k', wait [] 1 sample_kernel_killed = Ret (-1) k').
Proof.
  split; [|split].
  - vm_compute. discriminate.
  - eexists. vm_compute. reflexivity.
  - intros [k' H]. vm_compute in H. discriminate H.
Qed.

(** ** Teardown of a shared address space *)

(** What the two reaping paths do with the page directory.  A reap by
    [wait] calls [freevm] on the reaped unit's page directory if and only
    if the handle is not null and, at reap time, no other slot that is
    neither UNUSED nor ZOMBIE holds the same handle; it then calls it once.
    A reap by [join] never calls [freevm]. *)
Theorem teardown_only_in_wait (cur : nat) (k : kernel) (c : proc) :
  ptable k !! cur = Some c ->
  (forall env i p,
     list_find (zombie_child cur) (ptable k) = Some (i, p) ->
     exists k', wait env cur k = Ret (pid p) k' /\
       (pgdir p <> 0 /\ ~ (exists j, live_sharer k i j) ->
          vm_freed k' = pgdir p :: vm_freed k) /\
       (pgdir p = 0 \/ (exists j, live_sharer k i j) ->
          vm_freed k' = vm_freed k)) /\
  (forall uvm_ok dst env i p,
     list_find (zombie_thread_child cur) (ptable k) = Some (i, p) ->
     exists v k', join uvm_ok dst env cur k = Ret v k' /\
                  vm_freed k' = vm_freed k).
Proof.
  intros Hc. split.
  - intros env i p Hfind. unfold wait. rewrite wait_loop_unfold.
    rewrite (wait_scan_first cur (acquire k) i p Hfind).
    apply list_find_Some in Hfind as (Hp & _ & _).
    rewrite (wait_reap_eval i (acquire k) p Hp).
    eexists; split; [reflexivity|]. cbn [vm_freed fst snd].
    assert (Hslot : slot (acquire k) i = p) by (by apply slot_lookup).
    split.
    + intros [Hpd Hno].
      rewrite check_and_free_torn; [by rewrite Hslot| by rewrite Hslot |exact Hno].
    + intros Hcase. rewrite check_and_free_kept; [done|].
      rewrite Hslot. exact Hcase.
  - intros uvm_ok dst env i p Hfind.
    destruct (join_found_cases uvm_ok dst env cur k c i p Hc Hfind)
      as (v & k' & Hj & Hv). by exists v, k'.
Qed.

(** On the sample kernel: the process in slot 1 reaps its zombie child in
    slot 3, the only user of page directory 300. *)
Lemma teardown_only_in_wait_witness :
  exists k', wait [] 1 sample_kernel = Ret 4 k' /\ vm_freed k' = [300].
Proof.
  destruct (teardown_only_in_wait 1 sample_kernel
              (unit_of RUNNING 2 (Slot 0) 200 6000 0 0 Null 0) eq_refl)
    as (Hwait & _).
  destruct (Hwait [] 3%nat (unit_of ZOMBIE 4 (Slot 1) 300 8000 0 0 Null 0) eq_refl)
    as (k' & H1 & Htorn & _).
  exists k'. split; [exact H1|].
  apply Htorn. split; [discriminate|].
  intros (j & Hne & Hlt & Hpd & Hs1 & Hs2).
  do 5 (destruct j as [|j]; [vm_compute in Hpd; try discriminate Hpd;
                            try (by apply Hne) | ]).
  vm_compute in Hlt. lia.
Defined.

(** C1, at the run on which the code misses it.  The comment in [join]
    says that the address space is freed when the last process or thread
    using it exits and that this logic is in [exit] and [wait]; [exit] has
    no such logic and [join] calls no teardown.  On the table with a zombie
    process and its live thread sharing page directory 200: init reaps the
    process with [wait] (no teardown, the thread is live), the thread
    exits, and init reaps it with [join].  At that last reap no other live
    unit references the handle, every unit of the address space has been
    reaped, and [freevm] has not been called at all: the address space is
    never torn down. *)
Lemma teardown_missed_when_join_reaps_last :
  exists k1 k2 k3,
    wait [] 0 shared_kernel = Ret 2 k1 /\
    exit [] 2 k1 = Switched k2 /\
    ~ (exists j, live_sharer k2 2 j) /\
    join uvm_all 0 [] 0 k2 = Ret 3 k3 /\
    map (fun q => (pgdir q, state q)) (ptable k3) =
      [(100, RUNNING); (200, UNUSED); (200, UNUSED)] /\
    vm_freed k3 = [].
Proof.
  eexists _, _, _.
  split; [vm_compute; reflexivity|].
  split; [vm_compute; reflexivity|].
  split.
  - intros (j & Hne & Hlt & Hpd & Hs1 & Hs2).
    do 3 (destruct j as [|j]; [vm_compute in Hpd, Hs1, Hs2;
                              try discriminate Hpd; try (by apply Hs1);
                              try (by apply Hs2); try (by apply Hne) | ]).
    vm_compute in Hlt. lia.
  - split; [vm_compute; reflexivity|]. split; reflexivity.
Qed.

(** ** exit *)

Lemma slot_upd (i j : nat) (f : proc -> proc) (k : kernel) :
  (j < NPROC k)%nat ->
  slot (upd i f k) j = if decide (i = j) then f (slot k j) else slot k j.
Proof.
  intros Hj. unfold slot, upd, NPROC in *. cbn.
  destruct (decide (i = j)) as [->|Hne].
  - by rewrite list_lookup_total_alter_eq.
  - by rewrite list_lookup_total_alter_ne.
Qed.

Lemma slot_write_state (i j : nat) (s : procstate) (k : kernel) :
  (j < NPROC k)%nat ->
  slot (write_state i s k) j =
  if decide (i = j) then set_state s (slot k j) else slot k j.
Proof. intros Hj. unfold write_state. apply (slot_upd i j (set_state s) k Hj). Qed.

Lemma slot_write_parent (i j : nat) (v : ptr) (k : kernel) :
  (j < NPROC k)%nat ->
  slot (write_parent i v k) j =
  if decide (i = j) then set_parent v (slot k j) else slot k j.
Proof. intros Hj. apply (slot_upd i j (set_parent v) k Hj). Qed.

Lemma NPROC_write_parent (i : nat) (v : ptr) (k : kernel) :
  NPROC (write_parent i v k) = NPROC k.
Proof. apply (NPROC_upd i (set_parent v) k). Qed.

Lemma NPROC_wakeup1 (c : ptr) (k : kernel) : NPROC (wakeup1 c k) = NPROC k.
Proof. unfold NPROC. rewrite wakeup1_ptable. apply length_fmap. Qed.

Lemma slot_wakeup1 (c : ptr) (k : kernel) (j : nat) :
  (j < NPROC k)%nat -> slot (wakeup1 c k) j = woken c (slot k j).
Proof.
  intros Hj. unfold slot, NPROC in *. rewrite wakeup1_ptable.
  destruct (lookup_lt_is_Some_2 (ptable k) j Hj) as [q Hq].
  by rewrite !list_lookup_total_alt, list_lookup_fmap, Hq.
Qed.

Lemma woken_idem (c : ptr) (p : proc) : woken c (woken c p) = woken c p.
Proof.
  unfold woken. destruct (bool_decide (state p = SLEEPING) && _) eqn:H; [|by rewrite H].
  by cbn.
Qed.

Lemma woken_parent (c : ptr) (p : proc) : parent (woken c p) = parent p.
Proof. unfold woken. by destruct (_ && _). Qed.

Lemma woken_set_parent (c v : ptr) (p : proc) :
  woken c (set_parent v p) = set_parent v (woken c p).
Proof. unfold woken. cbn. by destruct (_ && _). Qed.

Lemma woken_zombie (c : ptr) (p : proc) :
  bool_decide (state (woken c p) = ZOMBIE) = bool_decide (state p = ZOMBIE).
Proof.
  unfold woken.
  destruct (decide (state p = SLEEPING)) as [Hs|Hs].
  - destruct (_ && _); [|done]. cbn. rewrite Hs.
    by rewrite !bool_decide_eq_false_2.
  - by rewrite (bool_decide_eq_false_2 (state p = SLEEPING)).
Qed.

Lemma orphan_zombie_from_ext (n : nat) : forall i cur k k',
  (forall m, (i <= m)%nat -> orphan_zombie cur (slot k' m) = orphan_zombie cur (slot k m)) ->
  orphan_zombie_from n i cur k' = orphan_zombie_from n i cur k.
Proof.
  induction n as [|n IH]; intros i cur k k' Hext; [done|].
  cbn [orphan_zombie_from]. rewrite Hext by lia. f_equal.
  apply IH. intros m Hm. apply Hext. lia.
Qed.

Lemma reparent_from_frame (n : nat) : forall i cur k,
  NPROC (reparent_from n i cur k) = NPROC k /\
  ptable_lock (reparent_from n i cur k) = ptable_lock k /\
  initproc (reparent_from n i cur k) = initproc k /\
  nextpid (reparent_from n i cur k) = nextpid k /\
  kmem (reparent_from n i cur k) = kmem k /\
  vm_freed (reparent_from n i cur k) = vm_freed k /\
  uwrites (reparent_from n i cur k) = uwrites k /\
  fs_calls (reparent_from n i cur k) = fs_calls k.
Proof.
  induction n as [|n IH]; intros i cur k; [done|].
  cbn [reparent_from].
  destruct (bool_decide (parent _ = _)); [|apply IH].
  destruct (bool_decide (state _ = _)).
  - destruct (IH (S i) cur (wakeup1 (initproc (write_parent i (initproc k) k))
                               (write_parent i (initproc k) k)))
      as (H1 & H2 & H3 & H4 & H5 & H6 & H7 & H8).
    rewrite H1, H2, H3, H4, H5, H6, H7, H8.
    rewrite NPROC_wakeup1, NPROC_write_parent.
    pose proof (wakeup1_from_frame
                  (NPROC (write_parent i (initproc k) k)) 0
                  (initproc (write_parent i (initproc k) k))
                  (write_parent i (initproc k) k)) as Hf.
    cbv zeta in Hf. destruct Hf as (_ & F2 & F3 & F4 & F5 & F6 & F7 & F8 & _).
    unfold wakeup1. rewrite F2, F3, F4, F5, F6, F7, F8. done.
  - destruct (IH (S i) cur (write_parent i (initproc k) k))
      as (H1 & H2 & H3 & H4 & H5 & H6 & H7 & H8).
    rewrite H1, H2, H3, H4, H5, H6, H7, H8. by rewrite NPROC_write_parent.
Qed.

Lemma reparent_from_slot (n : nat) : forall i cur k j,
  (i + n <= NPROC k)%nat -> (j < NPROC k)%nat ->
  slot (reparent_from n i cur k) j =
  (if orphan_zombie_from n i cur k then woken (initproc k) else id)
    (if bool_decide (i <= j < i + n)%nat
     then (if bool_decide (parent (slot k j) = Slot cur)
           then set_parent (initproc k) (slot k j) else slot k j)
     else slot k j).
Proof.
  induction n as [|n IH]; intros i cur k j Hlen Hj.
  - cbn. by rewrite bool_decide_eq_false_2 by lia.
  - cbn [reparent_from orphan_zombie_from]. unfold orphan_zombie at 1.
    destruct (decide (parent (slot k i) = Slot cur)) as [Hpar|Hpar].
    + rewrite (bool_decide_eq_true_2 (parent (slot k i) = Slot cur)) by done.
      set (k1 := write_parent i (initproc k) k).
      assert (Hk1 : forall m, (m < NPROC k)%nat ->
                slot k1 m = if decide (i = m)
                            then set_parent (initproc k) (slot k m)
                            else slot k m).
      { intros m Hm. unfold k1. by rewrite slot_write_parent. }
      assert (Hn1 : NPROC k1 = NPROC k) by apply NPROC_write_parent.
      destruct (decide (state (slot k i) = ZOMBIE)) as [Hz|Hz].
      * rewrite (bool_decide_eq_true_2 (state (slot k i) = ZOMBIE)) by done.
        cbn [andb orb].
        set (k2 := wakeup1 (initproc k1) k1).
        assert (Hn2 : NPROC k2 = NPROC k)
          by (unfold k2; by rewrite NPROC_wakeup1).
        assert (Hk2 : forall m, (m < NPROC k)%nat ->
                  slot k2 m = woken (initproc k) (slot k1 m)).
        { intros m Hm. unfold k2. rewrite slot_wakeup1 by lia. done. }
        rewrite IH by lia.
        assert (Hi2 : initproc k2 = initproc k).
        { unfold k2, wakeup1.
          pose proof (wakeup1_from_frame (NPROC k1) 0 (initproc k1) k1) as Hf.
          cbv zeta in Hf. destruct Hf as (_ & _ & _ & -> & _). done. }
        rewrite Hi2, Hk2, Hk1 by done.
        assert (Hw : forall q,
          (if orphan_zombie_from n (S i) cur k2 then woken (initproc k) else id)
            (woken (initproc k) q) = woken (initproc k) q).
        { intros q. destruct (orphan_zombie_from _ _ _ _); [apply woken_idem|done]. }
        destruct (decide (i = j)) as [->|Hne].
        -- rewrite bool_decide_eq_false_2 by lia.
           rewrite (bool_decide_eq_true_2 (_ <= _ < _)%nat) by lia.
           rewrite (bool_decide_eq_true_2 (parent (slot k j) = Slot cur)) by done.
           apply Hw.
        -- destruct (decide (S i <= j < S i + n)%nat) as [Hin|Hout].
           ++ rewrite (bool_decide_eq_true_2 (S i <= j < S i + n)%nat) by done.
              rewrite (bool_decide_eq_true_2 (i <= j < i + S n)%nat) by lia.
              rewrite woken_parent.
              destruct (bool_decide (parent (slot k j) = Slot cur)); [|apply Hw].
              rewrite <- woken_set_parent. apply Hw.
           ++ rewrite (bool_decide_eq_false_2 (S i <= j < S i + n)%nat) by done.
              rewrite (bool_decide_eq_false_2 (i <= j < i + S n)%nat) by lia.
              apply Hw.
      * rewrite (bool_decide_eq_false_2 (state (slot k i) = ZOMBIE)) by done.
        cbn [andb orb]. fold k1.
        rewrite IH by lia.
        assert (Hi1 : initproc k1 = initproc k) by done.
        rewrite Hi1, Hk1 by done.
        assert (Hoz : orphan_zombie_from n (S i) cur k1
                      = orphan_zombie_from n (S i) cur k).
        { apply orphan_zombie_from_ext. intros m Hm.
          destruct (decide (m < NPROC k)%nat) as [Hlt|Hge].
          - rewrite Hk1 by done. by rewrite decide_False by lia.
          - unfold slot. rewrite !list_lookup_total_alt.
            unfold NPROC in *.
            rewrite !lookup_ge_None_2; [done|lia|].
            unfold k1, write_parent, upd. cbn. rewrite length_alter. lia. }
        rewrite Hoz.
        destruct (decide (i = j)) as [->|Hne].
        -- rewrite bool_decide_eq_false_2 by lia.
           rewrite (bool_decide_eq_true_2 (_ <= _ < _)%nat) by lia.
           by rewrite (bool_decide_eq_true_2 (parent (slot k j) = Slot cur)).
        -- destruct (decide (S i <= j < S i + n)%nat) as [Hin|Hout].
           ++ rewrite (bool_decide_eq_true_2 (S i <= j < S i + n)%nat) by done.
              by rewrite (bool_decide_eq_true_2 (i <= j < i + S n)%nat) by lia.
           ++ rewrite (bool_decide_eq_false_2 (S i <= j < S i + n)%nat) by done.
              by rewrite (bool_decide_eq_false_2 (i <= j < i + S n)%nat) by lia.
    + rewrite (bool_decide_eq_false_2 (parent (slot k i) = Slot cur)) by done.
      cbn [andb orb]. rewrite IH by lia.
      destruct (decide (i = j)) as [->|Hne].
      * rewrite bool_decide_eq_false_2 by lia.
        rewrite (bool_decide_eq_true_2 (_ <= _ < _)%nat) by lia.
        by rewrite (bool_decide_eq_false_2 (parent (slot k j) = Slot cur)).
      * destruct (decide (S i <= j < S i + n)%nat) as [Hin|Hout].
        -- rewrite (bool_decide_eq_true_2 (S i <= j < S i + n)%nat) by done.
           by rewrite (bool_decide_eq_true_2 (i <= j < i + S n)%nat) by lia.
        -- rewrite (bool_decide_eq_false_2 (S i <= j < S i + n)%nat) by done.
           by rewrite (bool_decide_eq_false_2 (i <= j < i + S n)%nat) by lia.
Qed.

Lemma orphan_zombie_from_true (n : nat) : forall i cur k,
  orphan_zombie_from n i cur k = true <->
  exists m, (i <= m < i + n)%nat /\ orphan_zombie cur (slot k m) = true.
Proof.
  induction n as [|n IH]; intros i cur k; cbn [orphan_zombie_from].
  - split; [done|]. intros (m & Hm & _). lia.
  - rewrite orb_true_iff, IH. split.
    + intros [H|(m & Hm & H)]; [exists i|exists m]; (split; [lia|done]).
    + intros (m & Hm & H). destruct (decide (m = i)) as [->|Hne]; [by left|].
      right. exists m. split; [lia|done].
Qed.

Lemma close_files_from_mk (n : nat) :
  forall (fd cur : nat) (l : list proc) (P : proc) lck npid init km vm uw sw
         fsc con pw,
  (cur < length l)%nat ->
  close_files_from n fd cur
    (mkKernel (<[cur := P]> l) lck npid init km vm uw sw fsc con pw) =
  mkKernel (<[cur := set_ofile (close_ofile n fd (ofile P)) P]> l)
           lck npid init km vm uw sw (close_calls n fd (ofile P) fsc) con pw.
Proof.
  induction n as [|n IH];
    intros fd cur l P lck npid init km vm uw sw fsc con pw Hcur.
  - cbn [close_files_from close_ofile close_calls]. by destruct P.
  - cbn [close_files_from close_ofile close_calls].
    rewrite slot_mk, lookup_total_insert_eq by done.
    destruct (bool_decide (ofile P !!! fd ≠ 0)).
    + keval. rewrite IH by done. by destruct P.
    + by apply IH.
Qed.

Lemma exit_prepare_mk (cur : nat) (k : kernel) (c : proc) :
  ptable k !! cur = Some c ->
  exit_prepare cur k =
  mkKernel (<[cur := closed c]> (ptable k)) true (nextpid k) (initproc k)
           (kmem k) (vm_freed k) (uwrites k) (state_writes k)
           (End_op :: Iput (cwd c) :: Begin_op
              :: close_calls (length (ofile c)) 0 (ofile c) (fs_calls k))
           (console k) (parent_writes k).
Proof.
  intros Hc. unfold exit_prepare.
  assert (Hcur : (cur < length (ptable k))%nat) by (by eapply lookup_lt_Some).
  destruct k as [l lck npid init km vm uw sw fsc con pw].
  cbn [ptable ptable_lock nextpid initproc kmem vm_freed uwrites state_writes
       fs_calls console parent_writes] in *.
  cbv zeta. rewrite slot_mk, (list_lookup_total_correct l cur c Hc).
  assert (Hk0 : mkKernel l lck npid init km vm uw sw fsc con pw =
                mkKernel (<[cur := c]> l) lck npid init km vm uw sw fsc con pw)
    by (by rewrite list_insert_id).
  rewrite Hk0, close_files_from_mk by done.
  keval. unfold closed. by destruct c.
Qed.

Lemma exit_unfold (env : environment) (cur : nat) (k : kernel) :
  exit env cur k =
  if bool_decide (Slot cur = initproc k) then Panic "init exiting" k
  else
    match sched_check cur (exit_handoff cur k) with
    | Some msg => Panic msg (exit_handoff cur k)
    | None =>
        match env with
        | [] => Switched (exit_handoff cur k)
        | others :: _ => Panic "zombie exit" (others (exit_handoff cur k))
        end
    end.
Proof. reflexivity. Qed.

Lemma orphan_zombie_true (cur : nat) (p : proc) :
  orphan_zombie cur p = true <-> parent p = Slot cur /\ state p = ZOMBIE.
Proof.
  unfold orphan_zombie. by rewrite andb_true_iff, !bool_decide_eq_true.
Qed.

Lemma orphan_zombie_woken (cur : nat) (c : ptr) (p : proc) :
  orphan_zombie cur (woken c p) = orphan_zombie cur p.
Proof. unfold orphan_zombie. by rewrite woken_parent, woken_zombie. Qed.

(** Every write to a state made by [wakeup1] and by the reparenting loop
    is logged with the lock flag of the state they start from. *)
Lemma wakeup1_from_state_writes (n : nat) : forall i c k,
  exists new,
    state_writes (wakeup1_from n i c k) = new ++ state_writes k /\
    Forall (fun w => sw_locked w = ptable_lock k) new.
Proof.
  induction n as [|n IH]; intros i c k; cbn [wakeup1_from].
  - by exists [].
  - destruct (_ && _).
    + destruct (IH (S i) c (write_state i RUNNABLE k)) as (new & Heq & Hall).
      exists (new ++ [mkStateWrite i RUNNABLE (ptable_lock k)]).
      rewrite Heq, <- app_assoc. split; [done|].
      apply Forall_app. split; [exact Hall|]. by apply Forall_singleton.
    + apply IH.
Qed.

Lemma reparent_from_state_writes (n : nat) : forall i cur k,
  exists new,
    state_writes (reparent_from n i cur k) = new ++ state_writes k /\
    Forall (fun w => sw_locked w = ptable_lock k) new.
Proof.
  induction n as [|n IH]; intros i cur k; cbn [reparent_from].
  - by exists [].
  - destruct (bool_decide (parent _ = _)); [|apply IH].
    destruct (bool_decide (state _ = _)).
    + set (k1 := write_parent i (initproc k) k).
      destruct (wakeup1_from_state_writes (NPROC k1) 0 (initproc k1) k1)
        as (new1 & Heq1 & Hall1).
      fold (wakeup1 (initproc k1) k1) in Heq1.
      destruct (IH (S i) cur (wakeup1 (initproc k1) k1)) as (new2 & Heq2 & Hall2).
      exists (new2 ++ new1). rewrite Heq2, Heq1, <- app_assoc. split; [done|].
      apply Forall_app. split; [|exact Hall1].
      pose proof (wakeup1_from_frame (NPROC k1) 0 (initproc k1) k1) as Hf.
      cbv zeta in Hf. destruct Hf as (_ & Hl & _).
      fold (wakeup1 (initproc k1) k1) in Hl. by rewrite Hl in Hall2.
    + apply (IH (S i) cur (write_parent i (initproc k) k)).
Qed.

(** Every write to a parent field made by the reparenting loop is logged
    with the lock flag of the state the loop starts from: one write of
    [initproc] for each slot whose parent is the caller, in table order. *)
Lemma wakeup1_from_parent_writes (n : nat) : forall i c k,
  parent_writes (wakeup1_from n i c k) = parent_writes k.
Proof.
  induction n as [|n IH]; intros i c k; cbn [wakeup1_from]; [done|].
  rewrite IH. by destruct (_ && _).
Qed.

Lemma filter_ext_elem {A : Type} (P Q : A -> Prop)
    `{!forall x, Decision (P x)} `{!forall x, Decision (Q x)} (l : list A) :
  (forall x, x ∈ l -> (P x <-> Q x)) -> filter P l = filter Q l.
Proof.
  induction l as [|a l IH]; intros Hext; [done|].
  rewrite !filter_cons.
  rewrite IH by (intros x Hx; apply Hext; by right).
  destruct (decide (P a)) as [Ha|Ha], (decide (Q a)) as [Hb|Hb]; try done.
  - exfalso. apply Hb. apply Hext; [by left|done].
  - exfalso. apply Ha. apply Hext; [by left|done].
Qed.

Lemma reparent_from_parent_writes (n : nat) : forall i cur k,
  (i + n <= NPROC k)%nat ->
  parent_writes (reparent_from n i cur k) =
  ((fun j => mkParentWrite j (initproc k) (ptable_lock k)) <$>
     reverse (filter (fun j => parent (slot k j) = Slot cur) (seq i n)))
  ++ parent_writes k.
Proof.
  induction n as [|n IH]; intros i cur k Hlen; [done|].
  cbn [reparent_from seq]. rewrite filter_cons.
  destruct (decide (parent (slot k i) = Slot cur)) as [Hpar|Hpar].
  - rewrite (bool_decide_eq_true_2 (parent (slot k i) = Slot cur)) by done.
    set (k1 := write_parent i (initproc k) k).
    set (k2 := if bool_decide (state (slot k i) = ZOMBIE)
               then wakeup1 (initproc k1) k1 else k1).
    assert (Hn2 : NPROC k2 = NPROC k).
    { unfold k2. destruct (bool_decide _);
        [rewrite NPROC_wakeup1|]; apply NPROC_write_parent. }
    assert (Hf : ptable_lock k2 = ptable_lock k /\ initproc k2 = initproc k /\
                 parent_writes k2 =
                   mkParentWrite i (initproc k) (ptable_lock k) :: parent_writes k).
    { unfold k2. destruct (bool_decide _); [|done].
      pose proof (wakeup1_from_frame (NPROC k1) 0 (initproc k1) k1) as Hf.
      cbv zeta in Hf. destruct Hf as (_ & Hl & _ & Hi & _).
      unfold wakeup1. by rewrite Hl, Hi, wakeup1_from_parent_writes. }
    destruct Hf as (Hl2 & Hi2 & Hp2).
    assert (Hs2 : forall m, (i < m < NPROC k)%nat ->
              parent (slot k2 m) = parent (slot k m)).
    { intros m Hm.
      assert (Hk1 : slot k1 m = slot k m).
      { unfold k1. rewrite slot_write_parent by lia.
        by rewrite decide_False by lia. }
      unfold k2. destruct (bool_decide _); [|by rewrite Hk1].
      rewrite slot_wakeup1 by (unfold k1; rewrite NPROC_write_parent; lia).
      by rewrite woken_parent, Hk1. }
    change (reparent_from n (S i) cur
              (if bool_decide (state (slot k i) = ZOMBIE)
               then wakeup1 (initproc k1) k1 else k1))
      with (reparent_from n (S i) cur k2).
    rewrite IH by lia. rewrite Hl2, Hi2, Hp2.
    rewrite (filter_ext_elem (fun j => parent (slot k2 j) = Slot cur)
               (fun j => parent (slot k j) = Slot cur)).
    2:{ intros m Hm. apply elem_of_seq in Hm. rewrite Hs2 by lia. done. }
    rewrite reverse_cons, fmap_app, <- app_assoc. done.
  - rewrite (bool_decide_eq_false_2 (parent (slot k i) = Slot cur)) by done.
    by rewrite IH by lia.
Qed.

Lemma exit_handoff_parent_writes (cur : nat) (k : kernel) (c : proc) :
  ptable k !! cur = Some c ->
  parent_writes (exit_handoff cur k) =
  ((fun j => mkParentWrite j (initproc k) true) <$> reverse (abandoned cur k))
  ++ parent_writes k.
Proof.
  intros Hc. unfold exit_handoff. cbv zeta.
  rewrite (exit_prepare_mk cur k c Hc).
  assert (Hcur : (cur < length (ptable k))%nat) by (by eapply lookup_lt_Some).
  set (K6 := mkKernel _ _ _ _ _ _ _ _ _ _ _).
  assert (H6n : NPROC K6 = NPROC k) by (unfold NPROC, K6; cbn; apply length_insert).
  assert (H6s : forall j, slot K6 j = if decide (cur = j) then closed c else slot k j).
  { intros j. unfold slot, K6. cbn. destruct (decide (cur = j)) as [<-|Hne].
    - by apply lookup_total_insert_eq.
    - by apply lookup_total_insert_ne. }
  set (k7 := wakeup1 (parent (slot K6 cur)) K6).
  assert (H7n : NPROC k7 = NPROC k) by (unfold k7; by rewrite NPROC_wakeup1).
  assert (H7s : forall j, (j < NPROC k)%nat ->
            parent (slot k7 j) = parent (slot k j)).
  { intros j Hj. unfold k7. rewrite slot_wakeup1 by lia.
    rewrite woken_parent, H6s.
    destruct (decide (cur = j)) as [<-|]; [|done].
    by rewrite (slot_lookup k cur c Hc). }
  pose proof (wakeup1_from_frame (NPROC K6) 0 (parent (slot K6 cur)) K6) as H7f.
  cbv zeta in H7f. fold (wakeup1 (parent (slot K6 cur)) K6) in H7f. fold k7 in H7f.
  destruct H7f as (_ & H7l & _ & H7i & _).
  assert (H7p : parent_writes k7 = parent_writes k).
  { unfold k7, wakeup1. by rewrite wakeup1_from_parent_writes. }
  change (parent_writes (write_state cur ZOMBIE (reparent_from (NPROC k7) 0 cur k7)))
    with (parent_writes (reparent_from (NPROC k7) 0 cur k7)).
  rewrite reparent_from_parent_writes by lia.
  rewrite H7l, H7i, H7p, H7n. unfold abandoned.
  rewrite (filter_ext_elem (fun j => parent (slot k7 j) = Slot cur)
             (fun j => parent (slot k j) = Slot cur)).
  2:{ intros m Hm. apply elem_of_seq in Hm. rewrite H7s by lia. done. }
  done.
Qed.

Lemma exit_handoff_facts (cur : nat) (k : kernel) (c : proc) :
  ptable k !! cur = Some c ->
  ptable_lock (exit_handoff cur k) = true /\
  NPROC (exit_handoff cur k) = NPROC k /\
  vm_freed (exit_handoff cur k) = vm_freed k /\
  kmem (exit_handoff cur k) = kmem k /\
  nextpid (exit_handoff cur k) = nextpid k /\
  uwrites (exit_handoff cur k) = uwrites k /\
  (exists new, state_writes (exit_handoff cur k) = new ++ state_writes k /\
               Forall (fun w => sw_locked w = true) new) /\
  forall j, (j < NPROC k)%nat ->
    slot (exit_handoff cur k) j =
    (if decide (cur = j) then set_state ZOMBIE else id)
      (reparented cur (initproc k) (bool_decide (leaves_zombie cur k))
         (woken (parent c) (if decide (cur = j) then closed c else slot k j))).
Proof.
  intros Hc. unfold exit_handoff. cbv zeta.
  rewrite (exit_prepare_mk cur k c Hc).
  assert (Hcur : (cur < length (ptable k))%nat) by (by eapply lookup_lt_Some).
  set (K6 := mkKernel _ _ _ _ _ _ _ _ _ _ _).
  assert (H6n : NPROC K6 = NPROC k) by (unfold NPROC, K6; cbn; apply length_insert).
  assert (H6s : forall j, slot K6 j = if decide (cur = j) then closed c else slot k j).
  { intros j. unfold slot, K6. cbn. destruct (decide (cur = j)) as [<-|Hne].
    - by apply lookup_total_insert_eq.
    - by apply lookup_total_insert_ne. }
  rewrite (H6s cur), decide_True by done.
  change (parent (closed c)) with (parent c).
  set (k7 := wakeup1 (parent c) K6).
  assert (H7n : NPROC k7 = NPROC k) by (unfold k7; by rewrite NPROC_wakeup1).
  assert (H7s : forall j, (j < NPROC k)%nat ->
            slot k7 j = woken (parent c) (if decide (cur = j) then closed c else slot k j)).
  { intros j Hj. unfold k7. rewrite slot_wakeup1 by lia. by rewrite H6s. }
  pose proof (wakeup1_from_frame (NPROC K6) 0 (parent c) K6) as H7f.
  cbv zeta in H7f. fold (wakeup1 (parent c) K6) in H7f. fold k7 in H7f.
  destruct H7f as (_ & H7l & H7p & H7i & H7k & H7v & H7u & _).
  destruct (reparent_from_frame (NPROC k7) 0 cur k7)
    as (H8n & H8l & H8i & H8p & H8k & H8v & H8u & _).
  set (k8 := reparent_from (NPROC k7) 0 cur k7) in *.
  assert (Hflag : orphan_zombie_from (NPROC k7) 0 cur k7
                  = bool_decide (leaves_zombie cur k)).
  { apply eq_true_iff_eq. rewrite orphan_zombie_from_true, bool_decide_eq_true.
    unfold leaves_zombie. rewrite Exists_exists. split.
    - intros (m & Hm & Hoz). rewrite H7s in Hoz by lia.
      rewrite orphan_zombie_woken in Hoz.
      destruct (decide (cur = m)) as [<-|Hne].
      + exists c. split; [by eapply list_elem_of_lookup_2|].
        by apply orphan_zombie_true in Hoz.
      + exists (slot k m). split; [|by apply orphan_zombie_true].
        unfold slot. apply list_elem_of_lookup. exists m.
        apply list_lookup_lookup_total_lt. unfold NPROC in *. lia.
    - intros (q & Hq & Hoz). apply list_elem_of_lookup in Hq as [m Hm].
      assert (Hlt : (m < NPROC k)%nat) by (by eapply lookup_lt_Some).
      exists m. split; [lia|]. rewrite H7s, orphan_zombie_woken by done.
      apply orphan_zombie_true.
      destruct (decide (cur = m)) as [<-|Hne].
      + assert (q = c) as -> by congruence. exact Hoz.
      + by rewrite (slot_lookup k m q Hm). }
  split; [|split; [|split; [|split; [|split; [|split; [|split]]]]]].
  7:{ destruct (wakeup1_from_state_writes (NPROC K6) 0 (parent c) K6)
        as (new1 & Heq1 & Hall1).
      fold (wakeup1 (parent c) K6) in Heq1. fold k7 in Heq1.
      destruct (reparent_from_state_writes (NPROC k7) 0 cur k7)
        as (new2 & Heq2 & Hall2).
      fold k8 in Heq2. rewrite H7l in Hall2.
      exists (mkStateWrite cur ZOMBIE true :: new2 ++ new1).
      unfold write_state. cbn [state_writes with_state_writes].
      rewrite H8l, H7l. change (ptable_lock K6) with true.
      split.
      - change (state_writes (upd cur (set_state ZOMBIE) k8))
          with (state_writes k8).
        rewrite Heq2, Heq1. cbn. by rewrite <- app_assoc.
      - apply Forall_cons. split; [done|].
        apply Forall_app. split; [exact Hall2|exact Hall1]. }
  - unfold write_state. cbn. by rewrite H8l, H7l.
  - rewrite NPROC_write_state. by rewrite H8n.
  - unfold write_state. cbn. by rewrite H8v, H7v.
  - unfold write_state. cbn. by rewrite H8k, H7k.
  - unfold write_state. cbn. by rewrite H8p, H7p.
  - unfold write_state. cbn. by rewrite H8u, H7u.
  - intros j Hj. rewrite slot_write_state by lia.
    unfold k8. rewrite reparent_from_slot by lia.
    rewrite Hflag, H7i, H7s by done.
    rewrite (bool_decide_eq_true_2 (0 <= j < 0 + NPROC k7)%nat) by lia.
    change (initproc K6) with (initproc k).
    unfold reparented.
    by destruct (decide (cur = j)), (bool_decide (leaves_zombie cur k)).
Qed.

Lemma woken_fields (c : ptr) (p : proc) :
  parent (woken c p) = parent p /\ pid (woken c p) = pid p /\
  pgdir (woken c p) = pgdir p /\ chan (woken c p) = chan p /\
  killed (woken c p) = killed p /\ is_thread (woken c p) = is_thread p /\
  kstack (woken c p) = kstack p /\ user_stack (woken c p) = user_stack p /\
  state (woken c p) =
    if bool_decide (state p = SLEEPING) && bool_decide (chan p = c)
    then RUNNABLE else state p.
Proof. unfold woken. by destruct (_ && _). Qed.

Lemma reparented_woken_fields (cur : nat) (init pc : ptr) (wake : bool) (p : proc) :
  let p' := reparented cur init wake (woken pc p) in
  parent p' = (if bool_decide (parent p = Slot cur) then init else parent p) /\
  pid p' = pid p /\ pgdir p' = pgdir p /\ chan p' = chan p /\
  killed p' = killed p /\ is_thread p' = is_thread p /\
  kstack p' = kstack p /\ user_stack p' = user_stack p /\
  state p' =
    if bool_decide (state p = SLEEPING)
       && (bool_decide (chan p = pc) || (wake && bool_decide (chan p = init)))
    then RUNNABLE else state p.
Proof.
  cbv zeta. unfold reparented.
  destruct (woken_fields pc p) as (W1 & W2 & W3 & W4 & W5 & W6 & W7 & W8 & W9).
  rewrite W1.
  set (q := if bool_decide (parent p = Slot cur)
            then set_parent init (woken pc p) else woken pc p).
  assert (Hq : parent q = (if bool_decide (parent p = Slot cur) then init else parent p)
               /\ pid q = pid p /\ pgdir q = pgdir p /\ chan q = chan p /\
               killed q = killed p /\ is_thread q = is_thread p /\
               kstack q = kstack p /\ user_stack q = user_stack p /\
               state q = state (woken pc p)).
  { unfold q. destruct (bool_decide (parent p = Slot cur)); cbn; by repeat split. }
  destruct Hq as (Q1 & Q2 & Q3 & Q4 & Q5 & Q6 & Q7 & Q8 & Q9).
  destruct wake.
  - destruct (woken_fields init q) as (V1 & V2 & V3 & V4 & V5 & V6 & V7 & V8 & V9).
    rewrite V1, V2, V3, V4, V5, V6, V7, V8, V9, Q1, Q2, Q3, Q4, Q5, Q6, Q7, Q8, Q9, W9.
    repeat split; try done.
    destruct (decide (state p = SLEEPING)) as [Hs|Hs].
    + rewrite (bool_decide_eq_true_2 (state p = SLEEPING)) by done. cbn [andb].
      destruct (bool_decide (chan p = pc)); cbn [orb andb].
      * by rewrite (bool_decide_eq_false_2 (RUNNABLE = SLEEPING)).
      * rewrite (bool_decide_eq_true_2 (state p = SLEEPING)) by done. done.
    + rewrite (bool_decide_eq_false_2 (state p = SLEEPING)) by done. cbn [andb].
      by rewrite (bool_decide_eq_false_2 (state p = SLEEPING)) by done.
  - rewrite Q1, Q2, Q3, Q4, Q5, Q6, Q7, Q8, Q9, W9. cbn [andb].
    by rewrite orb_false_r.
Qed.

(** C3.  Called by the root unit, [exit] panics.  Called by any other
    unit, it never returns: it reaches [sched()] with the table lock held
    and the caller ZOMBIE, and if the caller were ever resumed it panics.
    Every assignment to a state that the call makes (the wakeups and the
    caller's ZOMBIE) is made with the table lock held, and so is every
    assignment to a parent field: the call assigns the root unit to the
    parent field of each slot whose parent is the caller, once each, in
    table order, and assigns no other parent.
    In the state handed to the scheduler every unit whose parent was the
    caller has the root unit as parent; every unit that was SLEEPING on the
    caller's parent is RUNNABLE, and so is every unit that was SLEEPING on
    the root unit if one of the abandoned units was already a ZOMBIE; no
    other unit changes state, and the identity of every unit is as before. *)
Theorem exit_never_returns (env : environment) (cur : nat) (k : kernel) (c : proc) :
  ptable k !! cur = Some c ->
  (Slot cur = initproc k -> exit env cur k = Panic "init exiting" k) /\
  (Slot cur <> initproc k ->
     exists kz,
       exit env cur k =
         match env with
         | [] => Switched kz
         | others :: _ => Panic "zombie exit" (others kz)
         end /\
       (forall v k', exit env cur k <> Ret v k') /\
       ptable_lock kz = true /\
       (exists new, state_writes kz = new ++ state_writes k /\
                    Forall (fun w => sw_locked w = true) new) /\
       parent_writes kz =
         ((fun j => mkParentWrite j (initproc k) true) <$>
            reverse (abandoned cur k)) ++ parent_writes k /\
       length (ptable kz) = length (ptable k) /\
       state (slot kz cur) = ZOMBIE /\
       forall j, (j < length (ptable k))%nat ->
         parent (slot kz j) =
           (if bool_decide (parent (slot k j) = Slot cur)
            then initproc k else parent (slot k j)) /\
         (j <> cur ->
            (state (slot k j) = SLEEPING /\
             (chan (slot k j) = parent c \/
              (chan (slot k j) = initproc k /\ leaves_zombie cur k)) ->
             state (slot kz j) = RUNNABLE) /\
            (~ (state (slot k j) = SLEEPING /\
                (chan (slot k j) = parent c \/
                 (chan (slot k j) = initproc k /\ leaves_zombie cur k))) ->
             state (slot kz j) = state (slot k j))) /\
         pid (slot kz j) = pid (slot k j) /\
         pgdir (slot kz j) = pgdir (slot k j) /\
         chan (slot kz j) = chan (slot k j) /\
         killed (slot kz j) = killed (slot k j) /\
         is_thread (slot kz j) = is_thread (slot k j) /\
         kstack (slot kz j) = kstack (slot k j)).
Proof.
  intros Hc. rewrite exit_unfold. split.
  - intros Hroot. by rewrite bool_decide_eq_true_2.
  - intros Hroot. rewrite bool_decide_eq_false_2 by done.
    destruct (exit_handoff_facts cur k c Hc)
      as (Hl & Hn & _ & _ & _ & _ & Hsw & Hslot).
    assert (Hcur : (cur < NPROC k)%nat) by (by eapply lookup_lt_Some).
    assert (Hz : state (slot (exit_handoff cur k) cur) = ZOMBIE).
    { rewrite Hslot by done. by rewrite decide_True. }
    assert (Hchk : sched_check cur (exit_handoff cur k) = None).
    { unfold sched_check. rewrite Hl, Hz. cbn [negb].
      by rewrite bool_decide_eq_false_2. }
    rewrite Hchk. exists (exit_handoff cur k).
    split; [done|]. split; [by destruct env|].
    split; [done|]. split; [exact Hsw|].
    split; [exact (exit_handoff_parent_writes cur k c Hc)|].
    split; [exact Hn|]. split; [done|].
    intros j Hj. rewrite Hslot by done.
    assert (Hp : (if decide (cur = j) then closed c else slot k j) =
                 (if decide (cur = j) then closed (slot k j) else slot k j)).
    { destruct (decide (cur = j)) as [<-|]; [|done].
      by rewrite (slot_lookup k cur c Hc). }
    rewrite Hp. clear Hp.
    set (p := slot k j).
    set (p1 := if decide (cur = j) then closed p else p).
    assert (Hp1 : parent p1 = parent p /\ pid p1 = pid p /\ pgdir p1 = pgdir p /\
                  chan p1 = chan p /\ killed p1 = killed p /\
                  is_thread p1 = is_thread p /\ kstack p1 = kstack p /\
                  state p1 = state p).
    { unfold p1. by destruct (decide (cur = j)). }
    destruct Hp1 as (E1 & E2 & E3 & E4 & E5 & E6 & E7 & E9).
    destruct (reparented_woken_fields cur (initproc k) (parent c)
                (bool_decide (leaves_zombie cur k)) p1)
      as (R1 & R2 & R3 & R4 & R5 & R6 & R7 & _ & R9).
    rewrite E1 in R1. rewrite E2 in R2. rewrite E3 in R3. rewrite E4 in R4, R9.
    rewrite E5 in R5. rewrite E6 in R6. rewrite E7 in R7. rewrite E9 in R9.
    destruct (decide (cur = j)) as [Heq|Hne].
    + cbn [parent pid pgdir chan killed is_thread kstack set_state].
      split; [exact R1|]. split; [intros Hne; by destruct Hne|].
      by repeat split.
    + cbn [id]. split; [exact R1|]. split; [|by repeat split].
      intros _. rewrite R9. split.
      * intros (Hs & Hch).
        rewrite (bool_decide_eq_true_2 (state p = SLEEPING)) by done. cbn [andb].
        destruct Hch as [Hch|[Hch Hlz]].
        -- by rewrite (bool_decide_eq_true_2 (chan p = parent c)).
        -- rewrite (bool_decide_eq_true_2 (leaves_zombie cur k)) by done.
           rewrite (bool_decide_eq_true_2 (chan p = initproc k)) by done.
           by rewrite orb_true_r.
      * intros Hno.
        destruct (bool_decide (state p = SLEEPING)
                  && (bool_decide (chan p = parent c)
                      || bool_decide (leaves_zombie cur k)
                         && bool_decide (chan p = initproc k))) eqn:Hb; [|done].
        exfalso. apply Hno.
        apply andb_prop in Hb as [Hs Hb]. apply bool_decide_eq_true_1 in Hs.
        split; [done|]. apply orb_prop in Hb as [Hb|Hb].
        -- left. by apply bool_decide_eq_true_1 in Hb.
        -- right. apply andb_prop in Hb as [Hb1 Hb2].
           by apply bool_decide_eq_true_1 in Hb1, Hb2.
Qed.

(** C3 on the sample kernel: the process in slot 1 exits; its zombie thread
    and zombie child go to init, both under the table lock, and init, which
    was asleep in wait, is woken. *)
Lemma exit_never_returns_witness :
  exists kz, exit [] 1 sample_kernel = Switched kz /\
             parent_writes kz =
               [mkParentWrite 3 (Slot 0) true; mkParentWrite 2 (Slot 0) true] /\
             state (slot kz 1) = ZOMBIE /\
             parent (slot kz 2) = Slot 0 /\
             state (slot kz 0) = RUNNABLE.
Proof.
  destruct (exit_never_returns [] 1 sample_kernel
              (unit_of RUNNING 2 (Slot 0) 200 6000 0 0 Null 0) eq_refl)
    as (_ & Hexit).
  destruct (Hexit ltac:(discriminate))
    as (kz & H1 & _ & _ & _ & Hpw & _ & Hz & Hslots).
  exists kz. split; [exact H1|]. split; [exact Hpw|]. split; [exact Hz|]. split.
  - destruct (Hslots 2%nat ltac:(vm_compute; lia)) as (Hpar & _).
    exact Hpar.
  - destruct (Hslots 0%nat ltac:(vm_compute; lia)) as (_ & Hst & _).
    destruct (Hst ltac:(discriminate)) as (Hwake & _).
    apply Hwake. split; [reflexivity|]. left. reflexivity.
Defined.

(** ** Ticket lock *)

Lemma wrap32_succ (x : Z) : wrap32 (wrap32 x + 1) = wrap32 (x + 1).
Proof. unfold wrap32. by rewrite Z.add_mod_idemp_l. Qed.

Lemma wrap32_inj_near (p q : nat) :
  (q <= p)%nat -> Z.of_nat p - Z.of_nat q < 2 ^ 32 ->
  wrap32 (Z.of_nat p) = wrap32 (Z.of_nat q) -> p = q.
Proof.
  unfold wrap32. intros Hle Hlt Hmod.
  pose proof (Z.div_mod (Z.of_nat p) (2 ^ 32) ltac:(lia)) as Hp.
  pose proof (Z.div_mod (Z.of_nat q) (2 ^ 32) ltac:(lia)) as Hq.
  rewrite Hmod in Hp.
  assert (Hd : Z.of_nat p - Z.of_nat q
               = 2 ^ 32 * (Z.of_nat p / 2 ^ 32 - Z.of_nat q / 2 ^ 32)) by lia.
  assert (Z.of_nat p / 2 ^ 32 - Z.of_nat q / 2 ^ 32 = 0) by nia.
  lia.
Qed.

Lemma drew_app tr1 tr2 : drew (tr1 ++ tr2) = drew tr1 ++ drew tr2.
Proof. apply omap_app. Qed.
Lemma entered_app tr1 tr2 : entered (tr1 ++ tr2) = entered tr1 ++ entered tr2.
Proof. apply omap_app. Qed.
Lemma released_app tr1 tr2 : released (tr1 ++ tr2) = released tr1 ++ released tr2.
Proof. apply omap_app. Qed.

Lemma lock_inv_start (n : nat) : lock_inv (lock_start n) [].
Proof.
  split; cbn; try done; try lia; try apply NoDup_nil_2.
  - intros i t Hi. by apply lookup_replicate_1 in Hi as [? _].
  - intros i Hi. by apply lookup_replicate_1 in Hi as [? _].
Qed.

(** Outstanding tickets belong to distinct threads, so there are at most
    as many as there are threads. *)
Lemma lock_inv_outstanding (s : lock_sys) (tr : list lock_event) :
  lock_inv s tr ->
  (length (drew tr) - length (released tr) <= length (thr s))%nat.
Proof.
  intros I.
  assert (Hsub : drop (length (released tr)) (drew tr) ⊆+ seq 0 (length (thr s))).
  { apply NoDup_submseteq; [apply (inv_nodup _ _ I)|].
    intros x Hx. apply elem_of_seq. split; [lia|]. cbn.
    apply list_elem_of_lookup in Hx as [m Hm]. rewrite lookup_drop in Hm.
    by eapply (inv_ids _ _ I). }
  apply submseteq_length in Hsub.
  rewrite length_drop, length_seq in Hsub. exact Hsub.
Qed.

Lemma lock_step_inv (i : nat) (s : lock_sys) (tr : list lock_event) :
  Z.of_nat (length (thr s)) < 2 ^ 32 ->
  lock_inv s tr ->
  lock_inv (fst (lock_step i s)) (tr ++ snd (lock_step i s)) /\
  length (thr (fst (lock_step i s))) = length (thr s).
Proof.
  intros Hn I. unfold lock_step.
  destruct (thr s !! i) as [[|t|]|] eqn:Hi.
  - (* Idle: draws a ticket *)
    cbn [ticket_lock_acquire_draw xadd fst snd lk thr].
    assert (Hilt : (i < length (thr s))%nat) by (by eapply lookup_lt_Some).
    split; [|by rewrite length_insert].
    assert (Hnotin : i ∉ drop (length (released tr)) (drew tr)).
    { intros Hin. apply list_elem_of_lookup in Hin as [m Hm].
      rewrite lookup_drop in Hm.
      assert (Hlt : (length (released tr) + m < length (drew tr))%nat)
        by (by eapply lookup_lt_Some).
      destruct (decide (length (entered tr) <= length (released tr) + m)%nat)
        as [Hge|Hlt'].
      - destruct (inv_queue _ _ I (length (released tr) + m)%nat ltac:(lia))
          as (i' & Hd & Hs). congruence.
      - pose proof (inv_RE _ _ I). pose proof (inv_ER _ _ I).
        assert (m = 0)%nat as -> by lia.
        destruct (inv_holder _ _ I ltac:(lia)) as (i' & Hd & Hs).
        rewrite Nat.add_0_r in Hm. congruence. }
    split; rewrite ?drew_app, ?entered_app, ?released_app; cbn;
      rewrite ?app_nil_r, ?length_app; cbn.
    + rewrite (inv_ticket _ _ I), wrap32_succ. f_equal. lia.
    + apply (inv_turn _ _ I).
    + rewrite take_app_le by apply (inv_EN _ _ I). apply (inv_fifo _ _ I).
    + apply (inv_RE _ _ I).
    + apply (inv_ER _ _ I).
    + pose proof (inv_EN _ _ I). lia.
    + rewrite drop_app_le
        by (pose proof (inv_RE _ _ I); pose proof (inv_EN _ _ I); lia).
      apply NoDup_app. split; [apply (inv_nodup _ _ I)|].
      split; [|apply NoDup_singleton].
      intros x Hx Hx'. apply list_elem_of_singleton in Hx'. by subst.
    + intros p j Hp. rewrite length_insert.
      destruct (decide (p < length (drew tr))%nat) as [Hlt|Hge].
      * rewrite lookup_app_l in Hp by done. by eapply (inv_ids _ _ I).
      * rewrite lookup_app_r in Hp by lia.
        apply list_lookup_singleton_Some in Hp as [_ <-]. done.
    + intros p Hp.
      destruct (decide (p < length (drew tr))%nat) as [Hlt|Hge].
      * destruct (inv_queue _ _ I p ltac:(lia)) as (j & Hd & Hs).
        exists j. rewrite lookup_app_l by done. split; [done|].
        rewrite list_lookup_insert_ne by congruence. done.
      * assert (p = length (drew tr)) as -> by lia.
        exists i. rewrite lookup_app_r, Nat.sub_diag by lia. split; [done|].
        rewrite list_lookup_insert_eq by done.
        by rewrite (inv_ticket _ _ I).
    + intros j t Hj.
      destruct (decide (i = j)) as [<-|Hne].
      * exists (length (drew tr)). pose proof (inv_EN _ _ I).
        split; [lia|]. by rewrite lookup_app_r, Nat.sub_diag by lia.
      * rewrite list_lookup_insert_ne in Hj by done.
        destruct (inv_spinning _ _ I j t Hj) as (p & Hp & Hd).
        exists p. split; [lia|]. by rewrite lookup_app_l by lia.
    + intros j Hj.
      destruct (decide (i = j)) as [<-|Hne].
      * rewrite list_lookup_insert_eq in Hj by done. done.
      * rewrite list_lookup_insert_ne in Hj by done.
        destruct (inv_holding _ _ I j Hj) as (HE & Hd).
        split; [done|]. pose proof (inv_EN _ _ I).
        by rewrite lookup_app_l by lia.
    + intros HE. destruct (inv_holder _ _ I HE) as (j & Hd & Hs).
      exists j. pose proof (inv_EN _ _ I).
      rewrite lookup_app_l by lia. split; [done|].
      rewrite list_lookup_insert_ne by congruence. done.
  - (* Spinning: tests turn against my_ticket *)
    unfold ticket_lock_acquire_spin.
    destruct (decide (turn (lk s) = t)) as [Hturn|Hturn].
    + (* enters *)
      rewrite bool_decide_eq_true_2 by done. cbn [negb fst snd lk thr].
      assert (Hilt : (i < length (thr s))%nat) by (by eapply lookup_lt_Some).
      split; [|by rewrite length_insert].
      destruct (inv_spinning _ _ I i t Hi) as (p & Hp & Hd).
      destruct (inv_queue _ _ I p Hp) as (i' & Hd' & Hs').
      assert (i' = i) as -> by congruence.
      assert (t = wrap32 (Z.of_nat p)) as -> by congruence.
      pose proof (lock_inv_outstanding s tr I) as Hout.
      pose proof (inv_RE _ _ I) as HRE. pose proof (inv_ER _ _ I) as HER.
      assert (HpR : p = length (released tr)).
      { apply wrap32_inj_near; [lia|lia|].
        by rewrite <- (inv_turn _ _ I). }
      assert (HER' : length (entered tr) = length (released tr)) by lia.
      split; rewrite ?drew_app, ?entered_app, ?released_app; cbn;
        rewrite ?app_nil_r, ?length_app; cbn.
      * apply (inv_ticket _ _ I).
      * apply (inv_turn _ _ I).
      * rewrite Nat.add_1_r.
        rewrite (take_S_r _ _ i) by (rewrite HER', <- HpR; done).
        f_equal. apply (inv_fifo _ _ I).
      * lia.
      * lia.
      * lia.
      * apply (inv_nodup _ _ I).
      * intros q j Hq. rewrite length_insert. by eapply (inv_ids _ _ I).
      * intros q Hq.
        destruct (inv_queue _ _ I q ltac:(lia)) as (j & Hdq & Hsq).
        exists j. split; [done|].
        rewrite list_lookup_insert_ne; [done|].
        intros <-.
        assert (q - length (released tr) = p - length (released tr))%nat; [|lia].
        eapply (NoDup_lookup _ _ _ i (inv_nodup _ _ I));
          rewrite lookup_drop.
        -- replace (length (released tr) + (q - length (released tr)))%nat
             with q by lia. done.
        -- replace (length (released tr) + (p - length (released tr)))%nat
             with p by lia. done.
      * intros j t' Hj.
        destruct (decide (i = j)) as [<-|Hne].
        -- rewrite list_lookup_insert_eq in Hj by done. done.
        -- rewrite list_lookup_insert_ne in Hj by done.
           destruct (inv_spinning _ _ I j t' Hj) as (q & Hq & Hdq).
           exists q. split; [|done].
           assert (q <> p) by (intros ->; congruence). lia.
      * intros j Hj.
        destruct (decide (i = j)) as [<-|Hne].
        -- split; [lia|]. by rewrite <- HpR.
        -- rewrite list_lookup_insert_ne in Hj by done.
           destruct (inv_holding _ _ I j Hj) as (HE & _). lia.
      * intros _. exists i. rewrite <- HpR. split; [done|].
        by rewrite list_lookup_insert_eq.
    + (* keeps spinning *)
      rewrite bool_decide_eq_false_2 by done. cbn [negb fst snd].
      split; [|done].
      destruct I. split; rewrite ?drew_app, ?entered_app, ?released_app; cbn;
        rewrite ?app_nil_r; done.
  - (* Holding: releases *)
    cbn [ticket_lock_release xadd fst snd lk thr].
    assert (Hilt : (i < length (thr s))%nat) by (by eapply lookup_lt_Some).
    split; [|by rewrite length_insert].
    destruct (inv_holding _ _ I i Hi) as (HE & HdR).
    split; rewrite ?drew_app, ?entered_app, ?released_app; cbn;
      rewrite ?app_nil_r, ?length_app; cbn.
    + apply (inv_ticket _ _ I).
    + rewrite (inv_turn _ _ I), wrap32_succ. f_equal. lia.
    + apply (inv_fifo _ _ I).
    + lia.
    + lia.
    + apply (inv_EN _ _ I).
    + rewrite Nat.add_1_r.
      apply (sublist_NoDup _ (drop (length (released tr)) (drew tr)));
        [apply (inv_nodup _ _ I)|].
      replace (S (length (released tr))) with (length (released tr) + 1)%nat
        by lia.
      rewrite <- drop_drop. apply sublist_drop.
    + intros q j Hq. rewrite length_insert. by eapply (inv_ids _ _ I).
    + intros q Hq.
      destruct (inv_queue _ _ I q Hq) as (j & Hdq & Hsq).
      exists j. split; [done|].
      rewrite list_lookup_insert_ne by congruence. done.
    + intros j t Hj.
      destruct (decide (i = j)) as [<-|Hne].
      * rewrite list_lookup_insert_eq in Hj by done. done.
      * rewrite list_lookup_insert_ne in Hj by done.
        by apply (inv_spinning _ _ I j t).
    + intros j Hj.
      destruct (decide (i = j)) as [<-|Hne].
      * rewrite list_lookup_insert_eq in Hj by done. done.
      * rewrite list_lookup_insert_ne in Hj by done.
        destruct (inv_holding _ _ I j Hj) as (_ & Hd). congruence.
    + lia.
  - (* no such thread *)
    cbn [fst snd]. rewrite app_nil_r. done.
Qed.

Lemma lock_run_inv (schedule : list nat) : forall (s : lock_sys) (tr : list lock_event),
  Z.of_nat (length (thr s)) < 2 ^ 32 ->
  lock_inv s tr ->
  lock_inv (fst (lock_run schedule s)) (tr ++ snd (lock_run schedule s)).
Proof.
  induction schedule as [|i rest IH]; intros s tr Hn I.
  - cbn. by rewrite app_nil_r.
  - cbn [lock_run].
    destruct (lock_step_inv i s tr Hn I) as [I1 Hlen].
    destruct (lock_step i s) as [s1 e1]. cbn [fst snd] in *.
    specialize (IH s1 (tr ++ e1) ltac:(by rewrite Hlen) I1).
    destruct (lock_run rest s1) as [s2 e2]. cbn [fst snd] in *.
    by rewrite app_assoc.
Qed.

(** C8.  [ticket_lock_acquire] draws its ticket with one [xadd] that
    returns the old [ticket] and leaves [ticket + 1] (mod 2^32) in the
    lock, and leaves its loop exactly when [turn] equals the ticket drawn;
    [ticket_lock_release] adds 1 to [turn] with one [xadd].  For fewer than
    2^32 threads, each running acquire/release in a loop, under every
    interleaving of these atomic steps: the threads complete their acquires
    in the order in which they drew their tickets (so if the first [K]
    tickets went to [K] distinct threads, the first [K] acquires are by
    distinct threads), at most one thread holds the lock, completed
    acquires are never behind releases nor more than one ahead, and when
    every thread is outside acquire and release the numbers of tickets
    drawn, acquires completed and releases are equal. *)
Theorem ticket_lock_fifo (n : nat) (schedule : list nat)
    (s : lock_sys) (tr : list lock_event) :
  Z.of_nat n < 2 ^ 32 ->
  lock_run schedule (lock_start n) = (s, tr) ->
  (forall l, ticket_lock_acquire_draw l =
             (ticket l, mkTicketLock (wrap32 (ticket l + 1)) (turn l))) /\
  (forall l t, ticket_lock_acquire_spin l t = false <-> turn l = t) /\
  (forall l, ticket_lock_release l =
             mkTicketLock (ticket l) (wrap32 (turn l + 1))) /\
  entered tr = take (length (entered tr)) (drew tr) /\
  (forall K, NoDup (take K (drew tr)) -> NoDup (take K (entered tr))) /\
  (forall i j, thr s !! i = Some Holding -> thr s !! j = Some Holding -> i = j) /\
  (length (released tr) <= length (entered tr) <= S (length (released tr)))%nat /\
  (quiescent s ->
     length (entered tr) = length (released tr) /\
     length (drew tr) = length (entered tr)).
Proof.
  intros Hn Hrun.
  assert (I : lock_inv s tr).
  { pose proof (lock_run_inv schedule (lock_start n) []) as HI.
    rewrite Hrun in HI. cbn [fst snd app] in HI. apply HI.
    - cbn. by rewrite length_replicate.
    - apply lock_inv_start. }
  split; [done|]. split.
  { intros l t. unfold ticket_lock_acquire_spin.
    rewrite negb_false_iff. apply bool_decide_eq_true. }
  split; [done|]. split; [apply (inv_fifo _ _ I)|]. split.
  { intros K HK. pose proof (inv_fifo _ _ I) as Hf.
    set (E := length (entered tr)) in Hf. rewrite Hf, take_take.
    apply (sublist_NoDup _ (take K (drew tr))); [done|].
    rewrite Nat.min_comm, <- take_take. apply sublist_take. }
  split.
  { intros i j Hi Hj.
    destruct (inv_holding _ _ I i Hi) as (_ & Hdi).
    destruct (inv_holding _ _ I j Hj) as (_ & Hdj). congruence. }
  split; [split; [apply (inv_RE _ _ I)|apply (inv_ER _ _ I)]|].
  intros Hq. unfold quiescent in Hq. rewrite Forall_lookup in Hq.
  pose proof (inv_RE _ _ I) as HRE. pose proof (inv_ER _ _ I) as HER.
  pose proof (inv_EN _ _ I) as HEN.
  assert (HE : length (entered tr) = length (released tr)).
  { destruct (decide (length (entered tr) = S (length (released tr)))) as [H|H];
      [|lia].
    destruct (inv_holder _ _ I H) as (i & _ & Hs).
    by specialize (Hq i _ Hs). }
  split; [done|].
  destruct (decide (length (entered tr) < length (drew tr))%nat) as [H|H]; [|lia].
  destruct (inv_queue _ _ I (length (entered tr)) ltac:(lia)) as (i & _ & Hs).
  by specialize (Hq i _ Hs).
Qed.

(** C8 on two threads: 0 and 1 draw their tickets, 1 spins, 0 enters and
    releases, then 1 enters and releases. *)
Lemma ticket_lock_fifo_witness :
  entered (snd (lock_run [0; 1; 1; 0; 0; 1; 1]%nat (lock_start 2))) =
    [0; 1]%nat /\
  (length (released (snd (lock_run [0; 1; 1; 0; 0; 1; 1]%nat (lock_start 2))))
   <= length (entered (snd (lock_run [0; 1; 1; 0; 0; 1; 1]%nat (lock_start 2)))))%nat.
Proof.
  destruct (ticket_lock_fifo 2 [0; 1; 1; 0; 0; 1; 1]%nat
              (fst (lock_run [0; 1; 1; 0; 0; 1; 1]%nat (lock_start 2)))
              (snd (lock_run [0; 1; 1; 0; 0; 1; 1]%nat (lock_start 2))))
    as (_ & _ & _ & Hfifo & _ & _ & [HRE _] & _);
    [lia | apply surjective_pairing |].
  split; [|exact HRE].
  rewrite Hfifo. vm_compute. reflexivity.
Defined.
(** ** fork *)

Lemma fork_finish_mk (cur np : nat) (l : list proc) (P c : proc)
    lck npid init km vm uw sw fsc con pw :
  (np < length l)%nat -> np <> cur -> l !! cur = Some c ->
  fork_finish cur np
    (mkKernel (<[np := P]> l) lck npid init km vm uw sw fsc con pw) =
  (pid P,
   mkKernel
     (<[np := set_state RUNNABLE
               (set_name (name c)
                  (set_cwd (cwd c)
                     (set_ofile (dup_ofile (length (ofile c)) 0 (ofile c) (ofile P))
                        (set_tf (mkTf 0 (eip (tf c)) (esp (tf c)) (tf_rest (tf c)))
                           (set_parent (Slot cur) (set_sz (sz c) P))))))]> l)
     false npid init km vm uw (mkStateWrite np RUNNABLE true :: sw)
     (Idup (cwd c) :: dup_calls (length (ofile c)) 0 (ofile c) fsc) con
     (mkParentWrite np (Slot cur) lck :: pw)).
Proof.
  intros Hnp Hne Hc. unfold fork_finish. cbv zeta. keval.
  rewrite ?(list_lookup_total_correct l cur c Hc). keval.
  rewrite ?(list_lookup_total_correct l cur c Hc). keval.
  rewrite (dup_files_from_mk _ 0 cur np l _ c) by done.
  keval. rewrite !(list_lookup_total_correct l cur c Hc).
  destruct P. reflexivity.
Qed.

Lemma fork_abort_mk (np : nat) (l : list proc) (P : proc)
    lck npid init km vm uw sw fsc con pw :
  (np < length l)%nat ->
  fork_abort np (mkKernel (<[np := P]> l) lck npid init km vm uw sw fsc con pw) =
  (-1,
   mkKernel (<[np := set_state UNUSED (set_kstack 0 P)]> l) lck npid init
            (kstack P :: km) vm uw (mkStateWrite np UNUSED lck :: sw) fsc con
            pw).
Proof.
  intros Hnp. unfold fork_abort. cbv zeta. keval. reflexivity.
Qed.

(** The whole of [fork] when a slot and a kernel stack are available. *)
Lemma fork_eval (copyuvm : Z -> Z -> Z) (cur : nat) (k : kernel)
    (np : nat) (p0 c : proc) (pg : Z) (rest : list Z) :
  list_find (fun q => state q = UNUSED) (ptable k) = Some (np, p0) ->
  kmem k = pg :: rest -> pg <> 0 ->
  ptable k !! cur = Some c -> state c <> UNUSED ->
  fork copyuvm cur k =
    if bool_decide (copyuvm (pgdir c) (sz c) = 0) then
      (-1,
       mkKernel (<[np := rolled_back (nextpid k) 0 p0]> (ptable k))
                false (wrap_int (nextpid k + 1)) (initproc k) (pg :: rest)
                (vm_freed k) (uwrites k)
                (mkStateWrite np UNUSED false :: mkStateWrite np EMBRYO true
                   :: state_writes k)
                (fs_calls k) (console k) (parent_writes k))
    else
      (nextpid k,
       mkKernel
         (<[np := forked cur c p0 pg (nextpid k) (copyuvm (pgdir c) (sz c))]>
            (ptable k))
         false (wrap_int (nextpid k + 1)) (initproc k) rest (vm_freed k)
         (uwrites k)
         (mkStateWrite np RUNNABLE true :: mkStateWrite np EMBRYO true
            :: state_writes k)
         (Idup (cwd c) :: dup_calls (length (ofile c)) 0 (ofile c) (fs_calls k))
         (console k)
         (mkParentWrite np (Slot cur) false :: parent_writes k)).
Proof.
  intros Hfind Hmem Hpg Hc Hst. unfold fork.
  assert (Hfind' := Hfind).
  apply list_find_Some in Hfind' as (Hp0 & Hp0st & _).
  assert (Hnp : (np < length (ptable k))%nat) by (by eapply lookup_lt_Some).
  assert (Hne : np <> cur) by (intros ->; congruence).
  rewrite (allocproc_ok k np p0 pg rest) by done.
  destruct k as [l lck npid init km vm uw sw fsc con pw].
  cbn [ptable ptable_lock nextpid initproc kmem vm_freed uwrites state_writes
       fs_calls console parent_writes] in *.
  cbv beta iota zeta. keval.
  rewrite !(list_lookup_total_correct l cur c Hc).
  destruct (bool_decide (copyuvm (pgdir c) (sz c) = 0)) eqn:Hcopy.
  - apply bool_decide_eq_true in Hcopy. rewrite Hcopy.
    rewrite (fork_abort_mk np l) by done.
    unfold rolled_back, embryo. destruct p0. reflexivity.
  - rewrite (fork_finish_mk cur np l _ c) by done.
    unfold forked, embryo. destruct p0. reflexivity.
Qed.

(** X1.  When a slot and a kernel stack are available and the address space
    can be copied, [fork] returns the new pid (the old [nextpid]) and leaves
    in the first UNUSED slot a RUNNABLE process that is not a thread: it has
    the copy as its address space, the caller's size, name, working
    directory and trap frame with [eax = 0], and the caller as parent.  No
    other slot changes, nothing is freed or written to user memory, and
    the RUNNABLE state is published with the table lock held. *)
Theorem fork_builds_process (copyuvm : Z -> Z -> Z) (cur : nat) (k : kernel)
    (np : nat) (p0 c : proc) (pg : Z) (rest : list Z) (r : Z) (k' : kernel) :
  list_find (fun q => state q = UNUSED) (ptable k) = Some (np, p0) ->
  kmem k = pg :: rest -> pg <> 0 ->
  ptable k !! cur = Some c -> state c <> UNUSED ->
  copyuvm (pgdir c) (sz c) <> 0 ->
  fork copyuvm cur k = (r, k') ->
  r = nextpid k /\ r = pid (slot k' np) /\
  pgdir (slot k' np) = copyuvm (pgdir c) (sz c) /\
  sz (slot k' np) = sz c /\
  tf (slot k' np) = mkTf 0 (eip (tf c)) (esp (tf c)) (tf_rest (tf c)) /\
  parent (slot k' np) = Slot cur /\
  is_thread (slot k' np) = 0 /\ user_stack (slot k' np) = 0 /\
  state (slot k' np) = RUNNABLE /\ kstack (slot k' np) = pg /\
  name (slot k' np) = name c /\ cwd (slot k' np) = cwd c /\
  ofile (slot k' np) = dup_ofile (length (ofile c)) 0 (ofile c) (ofile p0) /\
  state_writes k' =
    mkStateWrite np RUNNABLE true :: mkStateWrite np EMBRYO true
      :: state_writes k /\
  (forall j, j <> np -> ptable k' !! j = ptable k !! j) /\
  length (ptable k') = length (ptable k) /\
  nextpid k' = wrap_int (nextpid k + 1) /\
  vm_freed k' = vm_freed k /\ uwrites k' = uwrites k /\
  kmem k' = rest /\ ptable_lock k' = false.
Proof.
  intros Hfind Hmem Hpg Hc Hst Hcopy Hfork.
  rewrite (fork_eval copyuvm cur k np p0 c pg rest) in Hfork by done.
  rewrite bool_decide_eq_false_2 in Hfork by done.
  injection Hfork as <- <-.
  apply list_find_Some in Hfind as (Hp0 & _ & _).
  assert (Hnp : (np < length (ptable k))%nat) by (by eapply lookup_lt_Some).
  rewrite slot_mk, lookup_total_insert_eq by done.
  cbn [ptable ptable_lock nextpid kmem vm_freed uwrites state_writes].
  rewrite length_insert. unfold forked, embryo. peval.
  repeat split; try done.
  intros j Hj. by rewrite list_lookup_insert_ne.
Qed.

(** X1 on the sample kernel: the running process in slot 1 forks. *)
Lemma fork_builds_process_witness :
  fst (fork (fun pd _ => pd + 1000) 1 sample_kernel) = 5 /\
  pgdir (slot (snd (fork (fun pd _ => pd + 1000) 1 sample_kernel)) 4) = 1200 /\
  is_thread (slot (snd (fork (fun pd _ => pd + 1000) 1 sample_kernel)) 4) = 0 /\
  state (slot (snd (fork (fun pd _ => pd + 1000) 1 sample_kernel)) 4) = RUNNABLE.
Proof.
  destruct (fork_builds_process (fun pd _ => pd + 1000) 1 sample_kernel
              4%nat proc0 (unit_of RUNNING 2 (Slot 0) 200 6000 0 0 Null 0)
              9000 [9001]
              (fst (fork (fun pd _ => pd + 1000) 1 sample_kernel))
              (snd (fork (fun pd _ => pd + 1000) 1 sample_kernel)))
    as (H1 & _ & H3 & _ & _ & _ & H7 & _ & H9 & _);
    [reflexivity | reflexivity | discriminate | reflexivity | discriminate
    | discriminate | apply surjective_pairing |].
  exact (conj H1 (conj H3 (conj H7 H9))).
Defined.

(** X2.  When the address space cannot be copied ([copyuvm] answers 0),
    [fork] returns -1, gives the kernel stack back (the free pages are as
    before the call) and puts the slot back to UNUSED with [kstack = 0].  No
    other slot changes and no file is duplicated; the pid drawn for the
    slot is used up, and the write of UNUSED is made without the table
    lock. *)
Theorem fork_copy_failure (copyuvm : Z -> Z -> Z) (cur : nat) (k : kernel)
    (np : nat) (p0 c : proc) (pg : Z) (rest : list Z) (r : Z) (k' : kernel) :
  list_find (fun q => state q = UNUSED) (ptable k) = Some (np, p0) ->
  kmem k = pg :: rest -> pg <> 0 ->
  ptable k !! cur = Some c -> state c <> UNUSED ->
  copyuvm (pgdir c) (sz c) = 0 ->
  fork copyuvm cur k = (r, k') ->
  r = -1 /\
  state (slot k' np) = UNUSED /\ kstack (slot k' np) = 0 /\
  pgdir (slot k' np) = 0 /\ pid (slot k' np) = nextpid k /\
  (forall j, j <> np -> ptable k' !! j = ptable k !! j) /\
  length (ptable k') = length (ptable k) /\
  kmem k' = kmem k /\ fs_calls k' = fs_calls k /\
  nextpid k' = wrap_int (nextpid k + 1) /\
  state_writes k' =
    mkStateWrite np UNUSED false :: mkStateWrite np EMBRYO true
      :: state_writes k /\
  vm_freed k' = vm_freed k /\ ptable_lock k' = false.
Proof.
  intros Hfind Hmem Hpg Hc Hst Hcopy Hfork.
  rewrite (fork_eval copyuvm cur k np p0 c pg rest) in Hfork by done.
  rewrite bool_decide_eq_true_2 in Hfork by done.
  injection Hfork as <- <-.
  apply list_find_Some in Hfind as (Hp0 & _ & _).
  assert (Hnp : (np < length (ptable k))%nat) by (by eapply lookup_lt_Some).
  rewrite slot_mk, lookup_total_insert_eq by done.
  cbn [ptable ptable_lock nextpid kmem vm_freed uwrites state_writes fs_calls].
  rewrite length_insert. unfold rolled_back, embryo. peval.
  repeat split; try done.
  intros j Hj. by rewrite list_lookup_insert_ne.
Qed.

(** X2 on the sample kernel, with an address space that cannot be copied. *)
Lemma fork_copy_failure_witness :
  fst (fork (fun _ _ => 0) 1 sample_kernel) = -1 /\
  state (slot (snd (fork (fun _ _ => 0) 1 sample_kernel)) 4) = UNUSED /\
  kmem (snd (fork (fun _ _ => 0) 1 sample_kernel)) = kmem sample_kernel.
Proof.
  destruct (fork_copy_failure (fun _ _ => 0) 1 sample_kernel
              4%nat proc0 (unit_of RUNNING 2 (Slot 0) 200 6000 0 0 Null 0)
              9000 [9001]
              (fst (fork (fun _ _ => 0) 1 sample_kernel))
              (snd (fork (fun _ _ => 0) 1 sample_kernel)))
    as (H1 & H2 & _ & _ & _ & _ & _ & H8 & _);
    [reflexivity | reflexivity | discriminate | reflexivity | discriminate
    | reflexivity | apply surjective_pairing |].
  exact (conj H1 (conj H2 H8)).
Defined.
(** ** Failure paths of clone and fork *)

Lemma clone_abort_mk (np : nat) (msg : string) (l : list proc) (P : proc)
    lck npid init km vm uw sw fsc con pw :
  (np < length l)%nat ->
  clone_abort np msg
    (mkKernel (<[np := P]> l) lck npid init km vm uw sw fsc con pw) =
  (-1,
   mkKernel (<[np := set_user_stack 0 (set_is_thread 0
                       (set_state UNUSED (set_kstack 0 P)))]> l)
            lck npid init (kstack P :: km) vm uw
            (mkStateWrite np UNUSED lck :: sw) fsc (msg :: con) pw).
Proof.
  intros Hnp. unfold clone_abort. cbv zeta. keval. reflexivity.
Qed.

(** X3.  When no slot is UNUSED, [fork] and [clone] both return -1 and
    leave the process table, the pid counter, the free pages and user
    memory as they were; [clone] does not look at its stack argument. *)
Theorem full_table_no_creation (PGSIZE : Z) (uvm_ok : Z -> Z -> Z -> bool)
    (copyuvm : Z -> Z -> Z) (fcn arg1 arg2 stack : Z) (cur : nat) (k : kernel) :
  list_find (fun q => state q = UNUSED) (ptable k) = None ->
  fork copyuvm cur k = (-1, release (acquire k)) /\
  exists k', clone PGSIZE uvm_ok fcn arg1 arg2 stack cur k = (-1, k') /\
     ptable k' = ptable k /\ nextpid k' = nextpid k /\ kmem k' = kmem k /\
     uwrites k' = uwrites k /\ state_writes k' = state_writes k /\
     fs_calls k' = fs_calls k /\ ptable_lock k' = false /\
     console k' =
       "kernel clone: allocproc failed"%string
         :: "kernel clone: called with stack=0x%x, fcn=0x%x"%string
         :: console k.
Proof.
  intros Hfull. unfold fork, clone.
  rewrite (allocproc_full k Hfull).
  rewrite (allocproc_full (cprintf _ k)) by done.
  split; [done|]. eexists. split; [reflexivity|]. by destruct k.
Qed.

(** X3 on a table whose four slots are all in use. *)
Lemma full_table_no_creation_witness :
  fork (fun pd _ => pd + 1000) 1 full_kernel =
    (-1, release (acquire full_kernel)) /\
  fst (clone 4096 uvm_all 1000 11 22 8192 1 full_kernel) = -1.
Proof.
  destruct (full_table_no_creation 4096 uvm_all (fun pd _ => pd + 1000)
              1000 11 22 8192 1 full_kernel) as (H1 & k' & H2 & _);
    [reflexivity|].
  split; [exact H1|]. exact (f_equal fst H2).
Defined.

(** X4.  When one of the three words cannot be written to the stack,
    [clone] returns -1, gives the kernel stack back and puts the slot back
    to UNUSED with [kstack], [is_thread] and [user_stack] cleared; the slot
    keeps the caller's [pgdir] and the pid it was given.  The words
    written before the failing one stay in the caller's memory. *)
Theorem clone_copyout_failure (PGSIZE : Z) (uvm_ok : Z -> Z -> Z -> bool)
    (fcn arg1 arg2 stack : Z) (cur : nat) (k : kernel)
    (np : nat) (p0 c : proc) (pg : Z) (rest : list Z) (r : Z) (k' : kernel) :
  list_find (fun q => state q = UNUSED) (ptable k) = Some (np, p0) ->
  kmem k = pg :: rest -> pg <> 0 ->
  ptable k !! cur = Some c -> state c <> UNUSED ->
  12 <= PGSIZE -> 0 <= stack -> stack + PGSIZE <= 2 ^ 32 ->
  uvm_ok (pgdir c) (stack + PGSIZE - 4) 4
    && uvm_ok (pgdir c) (stack + PGSIZE - 8) 4
    && uvm_ok (pgdir c) (stack + PGSIZE - 12) 4 = false ->
  clone PGSIZE uvm_ok fcn arg1 arg2 stack cur k = (r, k') ->
  r = -1 /\
  state (slot k' np) = UNUSED /\ kstack (slot k' np) = 0 /\
  is_thread (slot k' np) = 0 /\ user_stack (slot k' np) = 0 /\
  pgdir (slot k' np) = pgdir c /\ pid (slot k' np) = nextpid k /\
  (forall j, j <> np -> ptable k' !! j = ptable k !! j) /\
  kmem k' = kmem k /\ fs_calls k' = fs_calls k /\
  vm_freed k' = vm_freed k /\
  nextpid k' = wrap_int (nextpid k + 1) /\
  state_writes k' =
    mkStateWrite np UNUSED false :: mkStateWrite np EMBRYO true
      :: state_writes k /\
  uwrites k' =
    (if uvm_ok (pgdir c) (stack + PGSIZE - 4) 4 then
       if uvm_ok (pgdir c) (stack + PGSIZE - 8) 4 then
         [mkUwrite (pgdir c) (stack + PGSIZE - 8) arg2;
          mkUwrite (pgdir c) (stack + PGSIZE - 4) 4294967295]
       else [mkUwrite (pgdir c) (stack + PGSIZE - 4) 4294967295]
     else []) ++ uwrites k.
Proof.
  intros Hfind Hmem Hpg Hc Hst HP Hs Htop Hbad Hclone.
  destruct (clone_frame_addresses PGSIZE stack HP Hs Htop) as (Ha1 & Ha2 & Ha3).
  unfold clone in Hclone.
  assert (Hfind' := Hfind).
  apply list_find_Some in Hfind' as (Hp0 & Hp0st & _).
  assert (Hnp : (np < length (ptable k))%nat) by (by eapply lookup_lt_Some).
  assert (Hne : np <> cur) by (intros ->; congruence).
  rewrite (allocproc_ok (cprintf _ k) np p0 pg rest) in Hclone by done.
  destruct k as [l lck npid init km vm uw sw fsc con pw].
  cbn [ptable ptable_lock nextpid initproc kmem vm_freed uwrites state_writes
       fs_calls console parent_writes cprintf with_console] in *.
  rewrite (clone_share_mk cur np l _ c) in Hclone by done.
  cbv beta iota zeta in Hclone.
  rewrite slot_mk, lookup_total_insert_eq in Hclone by done.
  cbn [pgdir set_tf set_parent set_sz set_pgdir] in Hclone.
  rewrite Ha1, copyout_mk in Hclone.
  destruct (uvm_ok (pgdir c) (stack + PGSIZE - 4) 4) eqn:Hok1;
    cbv beta iota in Hclone.
  2:{ rewrite (bool_decide_eq_true_2 (-1 < 0)) in Hclone by lia.
      rewrite (clone_abort_mk np _ l) in Hclone by done.
      injection Hclone as <- <-.
      rewrite slot_mk, lookup_total_insert_eq by done.
      cbn [ptable ptable_lock nextpid kmem vm_freed uwrites state_writes
           fs_calls app].
      unfold embryo. peval. subst km.
      repeat split; try done.
      intros j Hj. by rewrite list_lookup_insert_ne. }
  rewrite (bool_decide_eq_false_2 (0 < 0)) in Hclone by lia.
  rewrite slot_mk, lookup_total_insert_eq in Hclone by done.
  cbn [pgdir set_tf set_parent set_sz set_pgdir] in Hclone.
  rewrite Ha2, copyout_mk in Hclone.
  destruct (uvm_ok (pgdir c) (stack + PGSIZE - 8) 4) eqn:Hok2;
    cbv beta iota in Hclone.
  2:{ rewrite (bool_decide_eq_true_2 (-1 < 0)) in Hclone by lia.
      rewrite (clone_abort_mk np _ l) in Hclone by done.
      injection Hclone as <- <-.
      rewrite slot_mk, lookup_total_insert_eq by done.
      cbn [ptable ptable_lock nextpid kmem vm_freed uwrites state_writes
           fs_calls app].
      unfold embryo. peval. subst km.
      repeat split; try done.
      intros j Hj. by rewrite list_lookup_insert_ne. }
  rewrite (bool_decide_eq_false_2 (0 < 0)) in Hclone by lia.
  rewrite slot_mk, lookup_total_insert_eq in Hclone by done.
  cbn [pgdir set_tf set_parent set_sz set_pgdir] in Hclone.
  rewrite Ha3, copyout_mk in Hclone.
  destruct (uvm_ok (pgdir c) (stack + PGSIZE - 12) 4) eqn:Hok3;
    [discriminate Hbad|].
  cbv beta iota in Hclone.
  rewrite (bool_decide_eq_true_2 (-1 < 0)) in Hclone by lia.
  rewrite (clone_abort_mk np _ l) in Hclone by done.
  injection Hclone as <- <-.
  rewrite slot_mk, lookup_total_insert_eq by done.
  cbn [ptable ptable_lock nextpid kmem vm_freed uwrites state_writes
       fs_calls app].
  unfold embryo. peval. subst km.
  repeat split; try done.
  intros j Hj. by rewrite list_lookup_insert_ne.
Qed.

(** X4 on the sample kernel, when no user address is writable. *)
Lemma clone_copyout_failure_witness :
  fst (clone 4096 uvm_none 1000 11 22 8192 1 sample_kernel) = -1 /\
  state (slot (snd (clone 4096 uvm_none 1000 11 22 8192 1 sample_kernel)) 4)
    = UNUSED /\
  kmem (snd (clone 4096 uvm_none 1000 11 22 8192 1 sample_kernel)) =
    kmem sample_kernel.
Proof.
  destruct (clone_copyout_failure 4096 uvm_none 1000 11 22 8192 1 sample_kernel
              4%nat proc0 (unit_of RUNNING 2 (Slot 0) 200 6000 0 0 Null 0)
              9000 [9001]
              (fst (clone 4096 uvm_none 1000 11 22 8192 1 sample_kernel))
              (snd (clone 4096 uvm_none 1000 11 22 8192 1 sample_kernel)))
    as (H1 & H2 & _ & _ & _ & _ & _ & _ & H9 & _);
    [reflexivity | reflexivity | discriminate | reflexivity | discriminate
    | lia | lia | lia | reflexivity | apply surjective_pairing |].
  exact (conj H1 (conj H2 H9)).
Defined.

(** ** Successive allocations *)

Lemma allocproc_Some_inv (k : kernel) (i : nat) (k1 : kernel) :
  allocproc k = (Some i, k1) ->
  exists p pg rest,
    list_find (fun q => state q = UNUSED) (ptable k) = Some (i, p) /\
    kmem k = pg :: rest /\ pg <> 0.
Proof.
  intros Halloc.
  destruct (list_find (fun q => state q = UNUSED) (ptable k))
    as [[j p]|] eqn:Hfind.
  2:{ rewrite (allocproc_full k Hfind) in Halloc. discriminate. }
  destruct (kmem k) as [|pg rest] eqn:Hmem.
  { rewrite (allocproc_nomem k j p Hfind) in Halloc; [discriminate|].
    unfold kalloc. by rewrite Hmem. }
  destruct (decide (pg = 0)) as [->|Hpg].
  { rewrite (allocproc_nomem k j p Hfind) in Halloc; [discriminate|].
    unfold kalloc. by rewrite Hmem. }
  rewrite (allocproc_ok k j p pg rest Hfind Hmem Hpg) in Halloc.
  injection Halloc as -> _. by exists p, pg, rest.
Qed.

(** X5.  Two allocations in a row that both succeed hand out two different
    slots, the second at a higher index, with consecutive pids (the old
    [nextpid] and its successor) and the first two free pages as kernel
    stacks; both slots are EMBRYO, so neither can be handed out again. *)
Theorem allocproc_twice (k k1 k2 : kernel) (i j : nat) :
  allocproc k = (Some i, k1) ->
  allocproc k1 = (Some j, k2) ->
  (i < j)%nat /\
  pid (slot k2 i) = nextpid k /\
  pid (slot k2 j) = wrap_int (nextpid k + 1) /\
  pid (slot k2 i) <> pid (slot k2 j) /\
  state (slot k2 i) = EMBRYO /\ state (slot k2 j) = EMBRYO /\
  kmem k = kstack (slot k2 i) :: kstack (slot k2 j) :: kmem k2 /\
  nextpid k2 = wrap_int (wrap_int (nextpid k + 1) + 1).
Proof.
  intros H1 H2.
  destruct (allocproc_Some_inv k i k1 H1) as (p & pg & rest & Hf1 & Hm1 & Hpg1).
  rewrite (allocproc_ok k i p pg rest Hf1 Hm1 Hpg1) in H1.
  injection H1 as <-.
  destruct (allocproc_Some_inv _ j k2 H2) as (q & pg2 & rest2 & Hf2 & Hm2 & Hpg2).
  rewrite (allocproc_ok _ j q pg2 rest2 Hf2 Hm2 Hpg2) in H2.
  injection H2 as <-.
  cbn [ptable nextpid kmem] in *. subst rest.
  apply list_find_Some in Hf1 as (Hp & Hpst & Hfirst).
  apply list_find_Some in Hf2 as (Hq & Hqst & Hfirst2).
  assert (Hi : (i < length (ptable k))%nat) by (by eapply lookup_lt_Some).
  assert (Hne : i <> j).
  { intros <-. rewrite list_lookup_insert_eq in Hq by done.
    injection Hq as <-. unfold embryo in Hqst. by destruct p. }
  rewrite list_lookup_insert_ne in Hq by done.
  assert (Hj : (j < length (ptable k))%nat) by (by eapply lookup_lt_Some).
  assert (Hlt : (i < j)%nat).
  { destruct (decide (i < j)%nat) as [|Hge]; [done|].
    exfalso. apply (Hfirst j q); [done|lia|done]. }
  rewrite !slot_mk.
  assert (Hj' : (j < length (<[i := set_context (mkCtx 0 Forkret)
                     (set_kret Trapret (set_kstack pg (embryo (nextpid k) p)))]>
                   (ptable k)))%nat) by (by rewrite length_insert).
  rewrite (lookup_total_insert_ne _ j i) by done.
  rewrite (lookup_total_insert_eq _ j) by done.
  rewrite (lookup_total_insert_eq _ i) by done.
  unfold embryo. peval.
  repeat split; try done.
  unfold wrap_int. intros Heq.
  assert (Hm : (nextpid k + 1 + 2 ^ 31) mod 2 ^ 32 = (nextpid k + 2 ^ 31) mod 2 ^ 32
               \/ True) by (by right).
  clear Hm.
  pose proof (Z.mod_pos_bound (nextpid k + 1 + 2 ^ 31) (2 ^ 32) ltac:(lia)).
  assert (Hd : (nextpid k + 1 + 2 ^ 31) mod 2 ^ 32 - 2 ^ 31 = nextpid k) by lia.
  assert (Hz : (nextpid k + 1 + 2 ^ 31 - (nextpid k + 2 ^ 31)) mod 2 ^ 32 = 1)
    by (replace (nextpid k + 1 + 2 ^ 31 - (nextpid k + 2 ^ 31)) with 1 by lia;
        reflexivity).
  rewrite Zminus_mod in Hz.
  replace ((nextpid k + 1 + 2 ^ 31) mod 2 ^ 32) with (nextpid k + 2 ^ 31) in Hz
    by lia.
  rewrite Zminus_mod_idemp_r in Hz.
  rewrite Z.sub_diag in Hz. discriminate Hz.
Qed.

(** X5 on the sample kernel extended by a second free slot. *)
Lemma allocproc_twice_witness :
  (4 < 5)%nat /\
  pid (slot (snd (allocproc (snd (allocproc two_free_kernel)))) 4) = 5 /\
  pid (slot (snd (allocproc (snd (allocproc two_free_kernel)))) 5) = 6.
Proof.
  destruct (allocproc_twice two_free_kernel
              (snd (allocproc two_free_kernel))
              (snd (allocproc (snd (allocproc two_free_kernel)))) 4 5)
    as (H1 & H2 & H3 & _); [by vm_compute | by vm_compute |].
  exact (conj H1 (conj H2 H3)).
Defined.
(** ** A unit's life: creation, exit, reaping *)

Lemma lookup_slot (k : kernel) (j : nat) :
  (j < NPROC k)%nat -> ptable k !! j = Some (slot k j).
Proof. intros Hj. by apply list_lookup_lookup_total_lt. Qed.

Lemma woken_set_state_zombie (c : ptr) (p : proc) :
  set_state ZOMBIE (woken c p) = set_state ZOMBIE p.
Proof.
  unfold woken.
  by destruct (bool_decide (state p = SLEEPING) && bool_decide (chan p = c)),
              p.
Qed.

Lemma childless_no_zombie (t : nat) (k : kernel) :
  (forall x, x ∈ ptable k -> parent x <> Slot t) ->
  bool_decide (leaves_zombie t k) = false.
Proof.
  intros Hno. apply bool_decide_eq_false_2. unfold leaves_zombie.
  rewrite Exists_exists. intros (x & Hx & Hp & _). by apply (Hno x).
Qed.

(** The table in which a unit without children calls [sched()] from
    [exit]: the unit is a Zombie with its files closed, and the units
    sleeping on its parent are RUNNABLE. *)
Lemma exit_childless (t : nat) (k : kernel) (q : proc) :
  ptable k !! t = Some q ->
  (forall x, x ∈ ptable k -> parent x <> Slot t) ->
  ptable (exit_handoff t k) =
    <[t := set_state ZOMBIE (closed q)]> (woken (parent q) <$> ptable k).
Proof.
  intros Hq Hno.
  destruct (exit_handoff_facts t k q Hq) as (_ & Hn & _ & _ & _ & _ & _ & Hslot).
  assert (Ht : (t < NPROC k)%nat) by (by eapply lookup_lt_Some).
  apply list_eq. intros j.
  destruct (decide (j < NPROC k)%nat) as [Hj|Hj].
  - rewrite lookup_slot by (by rewrite Hn).
    rewrite Hslot by done. rewrite (childless_no_zombie t k Hno).
    destruct (decide (t = j)) as [<-|Hne].
    + rewrite list_lookup_insert_eq by (by rewrite length_fmap).
      f_equal. unfold reparented.
      rewrite woken_parent.
      rewrite bool_decide_eq_false_2.
      * apply woken_set_state_zombie.
      * unfold closed. cbn [parent set_cwd set_ofile].
        apply Hno. by eapply list_elem_of_lookup_2.
    + rewrite list_lookup_insert_ne by done.
      rewrite list_lookup_fmap, (lookup_slot k j Hj). cbn [fmap option_fmap option_map id].
      f_equal. unfold reparented. rewrite woken_parent.
      rewrite bool_decide_eq_false_2; [done|].
      apply Hno. eapply list_elem_of_lookup_2. by apply lookup_slot.
  - rewrite !lookup_ge_None_2; [done| |].
    + rewrite length_insert, length_fmap. unfold NPROC in Hj. lia.
    + unfold NPROC in Hn, Hj. lia.
Qed.

(** [exit] of a unit that is not the initial process stops in [sched()]. *)
Lemma exit_switches (t : nat) (k : kernel) (q : proc) :
  ptable k !! t = Some q -> Slot t <> initproc k ->
  exit [] t k = Switched (exit_handoff t k).
Proof.
  intros Hq Hroot. rewrite exit_unfold.
  rewrite bool_decide_eq_false_2 by done.
  destruct (exit_handoff_facts t k q Hq) as (Hl & _ & _ & _ & _ & _ & _ & Hslot).
  assert (Ht : (t < NPROC k)%nat) by (by eapply lookup_lt_Some).
  unfold sched_check. rewrite Hl, Hslot by done.
  rewrite decide_True by done. cbn [negb state set_state].
  by rewrite bool_decide_eq_false_2.
Qed.

Lemma woken_zombie_child (cur : nat) (c : ptr) (x : proc) :
  zombie_child cur (woken c x) <-> zombie_child cur x.
Proof.
  unfold zombie_child.
  destruct (woken_fields c x) as (-> & _ & _ & _ & _ & -> & _ & _ & ->).
  destruct (bool_decide (state x = SLEEPING) && bool_decide (chan x = c))
    eqn:Hb; [|done].
  apply andb_prop in Hb as [Hs _]. apply bool_decide_eq_true_1 in Hs.
  rewrite Hs. split; intros (_ & _ & ?); discriminate.
Qed.

Lemma woken_zombie_thread_child (cur : nat) (c : ptr) (x : proc) :
  zombie_thread_child cur (woken c x) <-> zombie_thread_child cur x.
Proof.
  unfold zombie_thread_child.
  destruct (woken_fields c x) as (-> & _ & _ & _ & _ & -> & _ & _ & ->).
  destruct (bool_decide (state x = SLEEPING) && bool_decide (chan x = c))
    eqn:Hb; [|done].
  apply andb_prop in Hb as [Hs _]. apply bool_decide_eq_true_1 in Hs.
  rewrite Hs. split; intros (_ & _ & ?); discriminate.
Qed.

(** After the exit of the unit in slot [t], the first unit that satisfies
    [P] is that one, when no unit satisfied [P] before. *)
Lemma list_find_after_exit (P : proc -> Prop) `{!forall x, Decision (P x)}
    (c : ptr) (l : list proc) (t : nat) (q z : proc) :
  (forall x, P (woken c x) <-> P x) ->
  list_find P l = None -> l !! t = Some q -> P z ->
  list_find P (<[t := z]> (woken c <$> l)) = Some (t, z).
Proof.
  intros Hw Hnone Hq Hz.
  assert (Ht : (t < length l)%nat) by (by eapply lookup_lt_Some).
  apply list_find_Some. split; [|split; [done|]].
  - by rewrite list_lookup_insert_eq by (by rewrite length_fmap).
  - intros j y Hy Hjt.
    rewrite list_lookup_insert_ne in Hy by lia.
    rewrite list_lookup_fmap in Hy.
    destruct (l !! j) as [x|] eqn:Hx; [|discriminate].
    injection Hy as <-. rewrite Hw.
    apply list_find_None in Hnone. rewrite Forall_forall in Hnone.
    apply Hnone. by eapply list_elem_of_lookup_2.
Qed.

Lemma exit_handoff_frame (t : nat) (k : kernel) (q : proc) :
  ptable k !! t = Some q ->
  kmem (exit_handoff t k) = kmem k /\
  vm_freed (exit_handoff t k) = vm_freed k /\
  nextpid (exit_handoff t k) = nextpid k /\
  uwrites (exit_handoff t k) = uwrites k.
Proof.
  intros Hq.
  by destruct (exit_handoff_facts t k q Hq) as (_ & _ & -> & -> & -> & -> & _).
Qed.

(** A thread exits without children and its parent joins. *)
Lemma exit_join_eval (uvm_ok : Z -> Z -> Z -> bool) (dst : Z)
    (env : environment) (cur t : nat) (k : kernel) (c q : proc) :
  ptable k !! cur = Some c -> ptable k !! t = Some q ->
  parent q = Slot cur -> is_thread q <> 0 ->
  (forall x, x ∈ ptable k -> parent x <> Slot t) ->
  list_find (zombie_thread_child cur) (ptable k) = None ->
  uvm_ok (pgdir c) dst 4 = true ->
  exists k',
    join uvm_ok dst env cur (release (exit_handoff t k)) = Ret (pid q) k' /\
    ptable k' =
      <[t := reaped_by_join (set_state ZOMBIE (closed q))]>
        (woken (Slot cur) <$> ptable k) /\
    uwrites k' = mkUwrite (pgdir c) dst (user_stack q) :: uwrites k /\
    kmem k' = kstack q :: kmem k /\
    vm_freed k' = vm_freed k /\ nextpid k' = nextpid k /\
    ptable_lock k' = false.
Proof.
  intros Hc Hq Hpar Hthr Hno Hnone Hok.
  assert (Hne : cur <> t).
  { intros ->. apply (Hno q); [by eapply list_elem_of_lookup_2|done]. }
  assert (Ht : (t < length (ptable k))%nat) by (by eapply lookup_lt_Some).
  pose proof (exit_childless t k q Hq Hno) as Htab. rewrite Hpar in Htab.
  destruct (exit_handoff_frame t k q Hq) as (Hkm & Hvm & Hnp & Huw).
  set (kz := exit_handoff t k) in *. clearbody kz.
  destruct kz as [lz lckz npz initz kmz vmz uwz swz fscz conz pwz].
  cbn [ptable kmem vm_freed nextpid uwrites] in Htab, Hkm, Hvm, Hnp, Huw.
  subst lz kmz vmz npz uwz. rewrite release_mk.
  rewrite (join_found_eval uvm_ok dst env cur _ (woken (Slot cur) c) t
             (set_state ZOMBIE (closed q))).
  - destruct (woken_fields (Slot cur) c) as (_ & _ & -> & _).
    rewrite Hok. eexists. split; [reflexivity|].
    cbn [ptable uwrites kmem vm_freed nextpid ptable_lock].
    rewrite list_insert_insert_eq. repeat split.
  - cbn [ptable]. rewrite list_lookup_insert_ne by done.
    by rewrite list_lookup_fmap, Hc.
  - cbn [ptable].
    apply (list_find_after_exit _ _ _ _ q);
      [intros x; apply woken_zombie_thread_child | done | done
      | unfold zombie_thread_child, closed; by peval].
Qed.

Lemma woken_live (c : ptr) (x : proc) :
  (state (woken c x) <> UNUSED /\ state (woken c x) <> ZOMBIE) <->
  (state x <> UNUSED /\ state x <> ZOMBIE).
Proof.
  destruct (woken_fields c x) as (_ & _ & _ & _ & _ & _ & _ & _ & ->).
  destruct (bool_decide (state x = SLEEPING) && bool_decide (chan x = c))
    eqn:Hb; [|done].
  apply andb_prop in Hb as [Hs _]. apply bool_decide_eq_true_1 in Hs.
  rewrite Hs. split; intros _; split; discriminate.
Qed.

(** The live users of the exiting unit's address space are the same before
    and after its exit. *)
Lemma live_sharer_after_exit (k kz : kernel) (c : ptr) (t : nat) (q z : proc) :
  ptable k !! t = Some q -> pgdir z = pgdir q ->
  ptable kz = <[t := z]> (woken c <$> ptable k) ->
  (exists j, live_sharer kz t j) <-> (exists j, live_sharer k t j).
Proof.
  intros Hq Hz Htab.
  assert (Ht : (t < length (ptable k))%nat) by (by eapply lookup_lt_Some).
  assert (Hn : NPROC kz = NPROC k).
  { unfold NPROC. by rewrite Htab, length_insert, length_fmap. }
  assert (Hst : slot kz t = z).
  { unfold slot. rewrite Htab.
    apply list_lookup_total_correct.
    by rewrite list_lookup_insert_eq by (by rewrite length_fmap). }
  assert (Hso : forall j, j <> t -> (j < NPROC k)%nat ->
                          slot kz j = woken c (slot k j)).
  { intros j Hj Hlt. unfold slot. rewrite Htab.
    apply list_lookup_total_correct.
    rewrite list_lookup_insert_ne by done.
    by rewrite list_lookup_fmap, (lookup_slot k j Hlt). }
  unfold live_sharer.
  split; intros (j & Hj & Hlt & Hpd & Hlive); exists j.
  - rewrite Hn in Hlt. rewrite Hso, Hst in Hpd by done.
    rewrite Hso in Hlive by done. apply woken_live in Hlive.
    destruct (woken_fields c (slot k j)) as (_ & _ & Hp & _).
    rewrite Hp, Hz in Hpd. rewrite (slot_lookup k t q Hq).
    split; [done|]. split; [done|]. split; [done|]. exact Hlive.
  - rewrite Hn, Hso, Hst by done.
    destruct (woken_fields c (slot k j)) as (_ & _ & -> & _).
    rewrite (slot_lookup k t q Hq) in Hpd. rewrite Hz.
    split; [done|]. split; [done|]. split; [done|].
    by apply woken_live.
Qed.

Lemma wait_found_eval (env : environment) (cur : nat) (k : kernel)
    (i : nat) (p : proc) :
  list_find (zombie_child cur) (ptable k) = Some (i, p) ->
  wait env cur k =
    Ret (pid p)
      (mkKernel (<[i := reaped_by_wait p]> (ptable k)) false (nextpid k)
                (initproc k) (kstack p :: kmem k)
                (vm_freed (check_and_free_shared_pgdir i (acquire k)))
                (uwrites k)
                (mkStateWrite i UNUSED true :: state_writes k)
                (fs_calls k) (console k)
                (mkParentWrite i Null true :: parent_writes k)).
Proof.
  intros Hfind. unfold wait. rewrite wait_loop_unfold.
  rewrite (wait_scan_first cur (acquire k) i p Hfind).
  apply list_find_Some in Hfind as (Hp & _ & _).
  by rewrite (wait_reap_eval i (acquire k) p Hp).
Qed.

(** A process exits without children and its parent waits. *)
Lemma exit_wait_eval (env : environment) (cur t : nat) (k : kernel)
    (c q : proc) :
  ptable k !! cur = Some c -> ptable k !! t = Some q ->
  parent q = Slot cur -> is_thread q = 0 ->
  (forall x, x ∈ ptable k -> parent x <> Slot t) ->
  list_find (zombie_child cur) (ptable k) = None ->
  exists k',
    wait env cur (release (exit_handoff t k)) = Ret (pid q) k' /\
    ptable k' =
      <[t := reaped_by_wait (set_state ZOMBIE (closed q))]>
        (woken (Slot cur) <$> ptable k) /\
    kmem k' = kstack q :: kmem k /\
    (pgdir q <> 0 -> ~ (exists j, live_sharer k t j) ->
       vm_freed k' = pgdir q :: vm_freed k) /\
    (pgdir q = 0 \/ (exists j, live_sharer k t j) ->
       vm_freed k' = vm_freed k) /\
    uwrites k' = uwrites k /\ nextpid k' = nextpid k /\
    ptable_lock k' = false.
Proof.
  intros Hc Hq Hpar Hthr Hno Hnone.
  assert (Ht : (t < length (ptable k))%nat) by (by eapply lookup_lt_Some).
  pose proof (exit_childless t k q Hq Hno) as Htab. rewrite Hpar in Htab.
  destruct (exit_handoff_frame t k q Hq) as (Hkm & Hvm & Hnp & Huw).
  set (kz := exit_handoff t k) in *. clearbody kz.
  destruct kz as [lz lckz npz initz kmz vmz uwz swz fscz conz pwz].
  cbn [ptable kmem vm_freed nextpid uwrites] in Htab, Hkm, Hvm, Hnp, Huw.
  subst lz kmz vmz npz uwz. rewrite release_mk.
  rewrite (wait_found_eval env cur _ t (set_state ZOMBIE (closed q))).
  2:{ cbn [ptable].
      apply (list_find_after_exit _ _ _ _ q);
        [intros x; apply woken_zombie_child | done | done
        | unfold zombie_child, closed; by peval]. }
  rewrite acquire_mk.
  cbn [ptable nextpid initproc kmem uwrites state_writes fs_calls console parent_writes].
  set (kz := mkKernel _ true _ _ _ _ _ _ _ _ _).
  assert (Hsh : (exists j, live_sharer kz t j) <-> (exists j, live_sharer k t j)).
  { apply (live_sharer_after_exit k kz (Slot cur) t q
             (set_state ZOMBIE (closed q))); [done| |done].
    unfold closed. by peval. }
  assert (Hst : slot kz t = set_state ZOMBIE (closed q)).
  { unfold kz. rewrite slot_mk.
    by rewrite lookup_total_insert_eq by (by rewrite length_fmap). }
  assert (Hpd : pgdir (slot kz t) = pgdir q).
  { rewrite Hst. unfold closed. by peval. }
  eexists. split; [unfold closed; peval; reflexivity|].
  cbn [ptable uwrites kmem vm_freed nextpid ptable_lock].
  rewrite list_insert_insert_eq.
  split; [done|]. split; [done|]. split; [|split; [|done]].
  - intros Hnz Hnobody.
    rewrite check_and_free_torn; [by rewrite Hpd|by rewrite Hpd|].
    by rewrite Hsh.
  - intros Hcase. rewrite check_and_free_kept; [done|].
    rewrite Hpd, Hsh. exact Hcase.
Qed.

(** X6.  When a thread without children exits and its creator, which has
    no other thread waiting to be reaped, then calls [join], that call
    returns the thread's pid without sleeping, stores the thread's
    [user_stack] at the caller's location, gives the kernel stack back and
    empties the slot; the shared address space is not freed.  The other
    slots are as before the exit, except that units sleeping on the
    creator are RUNNABLE. *)
Theorem exit_then_join (uvm_ok : Z -> Z -> Z -> bool) (dst : Z)
    (env : environment) (cur t : nat) (k : kernel) (c q : proc) :
  ptable k !! cur = Some c -> ptable k !! t = Some q ->
  parent q = Slot cur -> is_thread q <> 0 ->
  Slot t <> initproc k ->
  (forall x, x ∈ ptable k -> parent x <> Slot t) ->
  list_find (zombie_thread_child cur) (ptable k) = None ->
  uvm_ok (pgdir c) dst 4 = true ->
  exists kz k',
    exit [] t k = Switched kz /\
    join uvm_ok dst env cur (release kz) = Ret (pid q) k' /\
    uwrites k' = mkUwrite (pgdir c) dst (user_stack q) :: uwrites k /\
    kmem k' = kstack q :: kmem k /\
    vm_freed k' = vm_freed k /\
    state (slot k' t) = UNUSED /\ pid (slot k' t) = 0 /\
    kstack (slot k' t) = 0 /\ is_thread (slot k' t) = 0 /\
    user_stack (slot k' t) = 0 /\ parent (slot k' t) = Null /\
    (forall j, j <> t -> ptable k' !! j = woken (Slot cur) <$> ptable k !! j) /\
    ptable_lock k' = false.
Proof.
  intros Hc Hq Hpar Hthr Hroot Hno Hnone Hok.
  destruct (exit_join_eval uvm_ok dst env cur t k c q Hc Hq Hpar Hthr Hno
              Hnone Hok) as (k' & Hj & Htab & Huw & Hkm & Hvm & _ & Hl).
  exists (exit_handoff t k), k'.
  split; [by apply (exit_switches t k q)|].
  split; [exact Hj|].
  assert (Ht : (t < length (ptable k))%nat) by (by eapply lookup_lt_Some).
  assert (Hst : slot k' t = reaped_by_join (set_state ZOMBIE (closed q))).
  { unfold slot. rewrite Htab. apply list_lookup_total_correct.
    by rewrite list_lookup_insert_eq by (by rewrite length_fmap). }
  rewrite Hst. unfold reaped_by_join, reaped_by_wait. peval.
  repeat split; try done.
  intros j Hne. rewrite Htab, list_lookup_insert_ne by done.
  by rewrite list_lookup_fmap.
Qed.

(** X6 on the table where init has a zombie process and a running thread:
    the thread in slot 2 exits and init joins it. *)
Lemma exit_then_join_witness :
  exists kz k',
    exit [] 2 shared_kernel = Switched kz /\
    join uvm_all 40 [] 0 (release kz) = Ret 3 k' /\
    state (slot k' 2) = UNUSED.
Proof.
  destruct (exit_then_join uvm_all 40 [] 0 2 shared_kernel
              (shared_table !!! 0%nat) (shared_table !!! 2%nat))
    as (kz & k' & H1 & H2 & _ & _ & _ & H6 & _);
    [reflexivity | reflexivity | reflexivity | discriminate | discriminate
    | | reflexivity | reflexivity |].
  - intros x Hx. apply list_elem_of_lookup_1 in Hx as [j Hj].
    do 3 (destruct j as [|j]; [injection Hj as <-; discriminate|]).
    discriminate Hj.
  - exists kz, k'. exact (conj H1 (conj H2 H6)).
Defined.

(** X7.  When a process without children exits and its parent, which has
    no other child waiting to be reaped, then calls [wait], that call
    returns the child's pid without sleeping, gives the kernel stack back
    and empties the slot.  The child's address space is freed exactly when
    it has one and no live unit shares it. *)
Theorem exit_then_wait (env : environment) (cur t : nat) (k : kernel)
    (c q : proc) :
  ptable k !! cur = Some c -> ptable k !! t = Some q ->
  parent q = Slot cur -> is_thread q = 0 ->
  Slot t <> initproc k ->
  (forall x, x ∈ ptable k -> parent x <> Slot t) ->
  list_find (zombie_child cur) (ptable k) = None ->
  exists kz k',
    exit [] t k = Switched kz /\
    wait env cur (release kz) = Ret (pid q) k' /\
    kmem k' = kstack q :: kmem k /\
    (pgdir q <> 0 -> ~ (exists j, live_sharer k t j) ->
       vm_freed k' = pgdir q :: vm_freed k) /\
    (pgdir q = 0 \/ (exists j, live_sharer k t j) ->
       vm_freed k' = vm_freed k) /\
    state (slot k' t) = UNUSED /\ pid (slot k' t) = 0 /\
    kstack (slot k' t) = 0 /\ parent (slot k' t) = Null /\
    (forall j, j <> t -> ptable k' !! j = woken (Slot cur) <$> ptable k !! j) /\
    uwrites k' = uwrites k /\ ptable_lock k' = false.
Proof.
  intros Hc Hq Hpar Hthr Hroot Hno Hnone.
  destruct (exit_wait_eval env cur t k c q Hc Hq Hpar Hthr Hno Hnone)
    as (k' & Hw & Htab & Hkm & Hv1 & Hv2 & Huw & _ & Hl).
  exists (exit_handoff t k), k'.
  split; [by apply (exit_switches t k q)|].
  split; [exact Hw|].
  assert (Ht : (t < length (ptable k))%nat) by (by eapply lookup_lt_Some).
  assert (Hst : slot k' t = reaped_by_wait (set_state ZOMBIE (closed q))).
  { unfold slot. rewrite Htab. apply list_lookup_total_correct.
    by rewrite list_lookup_insert_eq by (by rewrite length_fmap). }
  rewrite Hst. unfold reaped_by_wait. peval.
  repeat split; try done.
  intros j Hne. rewrite Htab, list_lookup_insert_ne by done.
  by rewrite list_lookup_fmap.
Qed.

(** X7 on the family table: the process in slot 2 exits and its parent in
    slot 1 waits; the address space 300 had no other user. *)
Lemma exit_then_wait_witness :
  exists kz k',
    exit [] 2 family_kernel = Switched kz /\
    wait [] 1 (release kz) = Ret 3 k' /\
    kmem k' = 7000 :: kmem family_kernel /\
    state (slot k' 2) = UNUSED.
Proof.
  destruct (exit_then_wait [] 1 2 family_kernel
              (family_table !!! 1%nat) (family_table !!! 2%nat))
    as (kz & k' & H1 & H2 & H3 & _ & _ & H6 & _);
    [reflexivity | reflexivity | reflexivity | reflexivity | discriminate
    | | reflexivity |].
  - intros x Hx. apply list_elem_of_lookup_1 in Hx as [j Hj].
    do 5 (destruct j as [|j]; [injection Hj as <-; discriminate|]).
    discriminate Hj.
  - exists kz, k'. exact (conj H1 (conj H2 (conj H3 H6))).
Defined.
(** ** Round trips: create, run to exit, reap *)

Lemma elem_of_insert_inv (l : list proc) (i : nat) (z x : proc) :
  x ∈ <[i := z]> l -> x = z \/ x ∈ l.
Proof.
  intros Hx. apply list_elem_of_lookup_1 in Hx as [j Hj].
  destruct (decide (i = j)) as [<-|Hne].
  - destruct (decide (i < length l)%nat) as [Hi|Hi].
    + rewrite list_lookup_insert_eq in Hj by done. left. congruence.
    + rewrite list_insert_ge in Hj by lia. right.
      by eapply list_elem_of_lookup_2.
  - rewrite list_lookup_insert_ne in Hj by done. right.
    by eapply list_elem_of_lookup_2.
Qed.

Lemma list_find_insert_None (P : proc -> Prop) `{!forall x, Decision (P x)}
    (l : list proc) (i : nat) (z : proc) :
  list_find P l = None -> ~ P z -> list_find P (<[i := z]> l) = None.
Proof.
  intros Hnone Hz. apply list_find_None. apply list_find_None in Hnone.
  by apply Forall_insert.
Qed.

(** The scheduler switches to a RUNNABLE unit, which runs to its [exit]. *)
Lemma visit_runs_to_exit (t : nat) (k : kernel) (q : proc) :
  ptable k !! t = Some q -> state q = RUNNABLE -> Slot t <> initproc k ->
  scheduler_visit runs_to_exit t (acquire k) =
  exit_handoff t (release (write_state t RUNNING (acquire k))).
Proof.
  intros Hq Hst Hroot.
  assert (Ht : (t < length (ptable k))%nat) by (by eapply lookup_lt_Some).
  unfold scheduler_visit.
  assert (Hs : slot (acquire k) t = q) by (by apply slot_lookup).
  rewrite Hs, Hst. rewrite bool_decide_eq_false_2 by (by intros H).
  unfold runs_to_exit.
  rewrite (exit_switches t _ (set_state RUNNING q)); [done| |done].
  destruct k as [l lck npid init km vm uw sw fsc con pw]. keval.
  cbn [ptable] in *. rewrite list_lookup_alter_eq, Hq. done.
Qed.

(** A RUNNABLE thread is scheduled and runs to its [exit]; then its
    creator joins. *)
Lemma run_exit_join_eval (uvm_ok : Z -> Z -> Z -> bool) (dst : Z)
    (env : environment) (cur t : nat) (k : kernel) (c q : proc) :
  ptable k !! cur = Some c -> ptable k !! t = Some q ->
  state q = RUNNABLE ->
  parent q = Slot cur -> is_thread q <> 0 ->
  Slot t <> initproc k ->
  (forall x, x ∈ ptable k -> parent x <> Slot t) ->
  list_find (zombie_thread_child cur) (ptable k) = None ->
  uvm_ok (pgdir c) dst 4 = true ->
  exists k',
    join uvm_ok dst env cur
         (release (scheduler_visit runs_to_exit t (acquire k))) =
      Ret (pid q) k' /\
    ptable k' =
      <[t := reaped_by_join (closed q)]> (woken (Slot cur) <$> ptable k) /\
    uwrites k' = mkUwrite (pgdir c) dst (user_stack q) :: uwrites k /\
    kmem k' = kstack q :: kmem k /\
    vm_freed k' = vm_freed k /\ nextpid k' = nextpid k /\
    ptable_lock k' = false.
Proof.
  intros Hc Hq Hst Hpar Hthr Hroot Hno Hnone Hok.
  assert (Hne : cur <> t).
  { intros ->. apply (Hno q); [by eapply list_elem_of_lookup_2|done]. }
  assert (Ht : (t < length (ptable k))%nat) by (by eapply lookup_lt_Some).
  rewrite (visit_runs_to_exit t k q Hq Hst Hroot).
  destruct k as [l lck npid init km vm uw sw fsc con pw].
  cbn [ptable uwrites kmem vm_freed nextpid initproc] in *.
  rewrite acquire_mk, write_state_mk, release_mk.
  rewrite (alter_insert _ l t q Hq).
  destruct (exit_join_eval uvm_ok dst env cur t
              (mkKernel (<[t := set_state RUNNING q]> l) false npid init km vm
                        uw (mkStateWrite t RUNNING true :: sw) fsc con pw)
              c (set_state RUNNING q))
    as (k' & Hj & Htab & Huw & Hkm & Hvm & Hnp & Hl).
  - cbn [ptable]. by rewrite list_lookup_insert_ne.
  - cbn [ptable]. by rewrite list_lookup_insert_eq.
  - done.
  - done.
  - cbn [ptable]. intros x Hx.
    apply elem_of_insert_inv in Hx as [->|Hx]; [|by apply Hno].
    cbn [parent set_state]. apply Hno. by eapply list_elem_of_lookup_2.
  - cbn [ptable]. apply list_find_insert_None; [done|].
    unfold zombie_thread_child. cbn [state set_state]. by intros (_ & _ & ?).
  - done.
  - exists k'. cbn [ptable uwrites kmem vm_freed nextpid pid kstack user_stack
                    set_state] in *.
    split; [exact Hj|].
    rewrite list_fmap_insert, list_insert_insert_eq in Htab.
    split; [|done].
    rewrite Htab. reflexivity.
Qed.

(** X8.  Create, run, reap: a thread made by [clone] that is scheduled, runs
    to [exit] and is then joined by its creator.  [join] returns the pid
    that [clone] returned and stores at the caller's location the stack
    address that was passed to [clone]; afterwards the slot is UNUSED again
    and the free pages are what they were before [clone], and the address
    space has not been freed. *)
Theorem clone_exit_join_roundtrip (PGSIZE : Z) (uvm_ok : Z -> Z -> Z -> bool)
    (fcn arg1 arg2 stack dst : Z) (env : environment) (cur : nat) (k : kernel)
    (np : nat) (p0 c : proc) (pg : Z) (rest : list Z) :
  list_find (fun q => state q = UNUSED) (ptable k) = Some (np, p0) ->
  kmem k = pg :: rest -> pg <> 0 ->
  ptable k !! cur = Some c -> state c <> UNUSED ->
  12 <= PGSIZE -> 0 <= stack -> stack + PGSIZE <= 2 ^ 32 ->
  uvm_ok (pgdir c) (stack + PGSIZE - 4) 4 = true ->
  uvm_ok (pgdir c) (stack + PGSIZE - 8) 4 = true ->
  uvm_ok (pgdir c) (stack + PGSIZE - 12) 4 = true ->
  uvm_ok (pgdir c) dst 4 = true ->
  Slot np <> initproc k ->
  (forall x, x ∈ ptable k -> parent x <> Slot np) ->
  list_find (zombie_thread_child cur) (ptable k) = None ->
  exists r k1 k3,
    clone PGSIZE uvm_ok fcn arg1 arg2 stack cur k = (r, k1) /\
    join uvm_ok dst env cur
         (release (scheduler_visit runs_to_exit np (acquire k1))) = Ret r k3 /\
    r = nextpid k /\
    head (uwrites k3) = Some (mkUwrite (pgdir c) dst stack) /\
    kmem k3 = kmem k /\ vm_freed k3 = vm_freed k /\
    state (slot k3 np) = UNUSED /\ kstack (slot k3 np) = 0 /\
    is_thread (slot k3 np) = 0 /\ user_stack (slot k3 np) = 0 /\
    (forall j, j <> np -> ptable k3 !! j = woken (Slot cur) <$> ptable k !! j) /\
    nextpid k3 = wrap_int (nextpid k + 1) /\ ptable_lock k3 = false.
Proof.
  intros Hfind Hmem Hpg Hc Hst HP Hs Htop Hok1 Hok2 Hok3 Hokd Hroot Hno Hnone.
  pose proof (clone_eval PGSIZE uvm_ok fcn arg1 arg2 stack cur k np p0 c pg rest
                Hfind Hmem Hpg Hc Hst HP Hs Htop Hok1 Hok2 Hok3) as Hclone.
  apply list_find_Some in Hfind as (Hp0 & Hp0st & _).
  assert (Hnp : (np < length (ptable k))%nat) by (by eapply lookup_lt_Some).
  assert (Hne : np <> cur) by (intros ->; congruence).
  set (q := cloned PGSIZE fcn stack cur c p0 pg (nextpid k)) in *.
  match type of Hclone with _ = (_, ?kk) => set (k1 := kk) in * end.
  assert (Hq : parent q = Slot cur /\ is_thread q = 1 /\ state q = RUNNABLE /\
               pid q = nextpid k /\ kstack q = pg /\ user_stack q = stack).
  { unfold q, cloned, embryo. by peval. }
  destruct Hq as (Hq1 & Hq2 & Hq3 & Hq4 & Hq5 & Hq6).
  destruct (run_exit_join_eval uvm_ok dst env cur np k1 c q)
    as (k3 & Hj & Htab & Huw & Hkm & Hvm & Hnext & Hl).
  - unfold k1. cbn [ptable]. by rewrite list_lookup_insert_ne.
  - unfold k1. cbn [ptable]. by rewrite list_lookup_insert_eq.
  - done.
  - done.
  - rewrite Hq2. done.
  - done.
  - unfold k1. cbn [ptable]. intros x Hx.
    apply elem_of_insert_inv in Hx as [->|Hx]; [|by apply Hno].
    rewrite Hq1. congruence.
  - unfold k1. cbn [ptable]. apply list_find_insert_None; [done|].
    unfold zombie_thread_child. rewrite Hq3. by intros (_ & _ & ?).
  - done.
  - exists (nextpid k), k1, k3. split; [exact Hclone|].
    rewrite Hq4 in Hj. split; [exact Hj|]. split; [done|].
    assert (Hslot : slot k3 np = reaped_by_join (closed q)).
    { unfold slot. rewrite Htab. apply list_lookup_total_correct.
      rewrite list_lookup_insert_eq; [done|].
      unfold k1. cbn [ptable]. by rewrite length_fmap, length_insert. }
    rewrite Hslot, Huw, Hkm, Hvm, Hnext, Hq5, Hq6, Hmem.
    split; [done|]. split; [done|]. split; [done|].
    unfold reaped_by_join, reaped_by_wait, closed. peval.
    repeat split; try done.
    intros j Hj'. rewrite Htab. unfold k1. cbn [ptable].
    rewrite list_fmap_insert.
    rewrite !list_lookup_insert_ne by done. by rewrite list_lookup_fmap.
Qed.

(** X8 on the sample kernel: the process in slot 1 clones onto the stack at
    8192; the thread runs and exits; the process joins with its result
    location at 40. *)
Lemma clone_exit_join_roundtrip_witness :
  exists r k1 k3,
    clone 4096 uvm_all 1000 11 22 8192 1 lone_kernel = (r, k1) /\
    join uvm_all 40 [] 1
         (release (scheduler_visit runs_to_exit 2 (acquire k1))) = Ret r k3 /\
    r = 3 /\
    head (uwrites k3) = Some (mkUwrite 200 40 8192) /\
    kmem k3 = kmem lone_kernel.
Proof.
  destruct (clone_exit_join_roundtrip 4096 uvm_all 1000 11 22 8192 40 [] 1
              lone_kernel 2%nat proc0 (lone_table !!! 1%nat) 9000 [9001])
    as (r & k1 & k3 & H1 & H2 & H3 & H4 & H5 & _);
    [reflexivity | reflexivity | discriminate | reflexivity | discriminate
    | lia | lia | lia | reflexivity | reflexivity | reflexivity | reflexivity
    | discriminate | | reflexivity |].
  - intros x Hx. apply list_elem_of_lookup_1 in Hx as [j Hj].
    do 3 (destruct j as [|j]; [injection Hj as <-; discriminate|]).
    discriminate Hj.
  - exists r, k1, k3. exact (conj H1 (conj H2 (conj H3 (conj H4 H5)))).
Defined.

Lemma live_sharer_insert (k k' : kernel) (t j : nat) (q z : proc) :
  ptable k !! t = Some q -> pgdir z = pgdir q ->
  ptable k' = <[t := z]> (ptable k) ->
  live_sharer k' t j <-> live_sharer k t j.
Proof.
  intros Hq Hz Htab.
  assert (Ht : (t < length (ptable k))%nat) by (by eapply lookup_lt_Some).
  assert (Hn : NPROC k' = NPROC k).
  { unfold NPROC. by rewrite Htab, length_insert. }
  assert (Hst : pgdir (slot k' t) = pgdir (slot k t)).
  { unfold slot. rewrite Htab, lookup_total_insert_eq by done.
    by rewrite (list_lookup_total_correct _ _ _ Hq). }
  unfold live_sharer. rewrite Hn, Hst.
  split; intros (Hj & Hrest); (split; [done|]).
  - unfold slot in *. by rewrite Htab, lookup_total_insert_ne in Hrest by done.
  - unfold slot in *. by rewrite Htab, lookup_total_insert_ne by done.
Qed.

(** A RUNNABLE process is scheduled and runs to its [exit]; then its
    parent waits. *)
Lemma run_exit_wait_eval (env : environment) (cur t : nat) (k : kernel)
    (c q : proc) :
  ptable k !! cur = Some c -> ptable k !! t = Some q ->
  state q = RUNNABLE ->
  parent q = Slot cur -> is_thread q = 0 ->
  Slot t <> initproc k ->
  (forall x, x ∈ ptable k -> parent x <> Slot t) ->
  list_find (zombie_child cur) (ptable k) = None ->
  exists k',
    wait env cur (release (scheduler_visit runs_to_exit t (acquire k))) =
      Ret (pid q) k' /\
    ptable k' =
      <[t := reaped_by_wait (closed q)]> (woken (Slot cur) <$> ptable k) /\
    kmem k' = kstack q :: kmem k /\
    (pgdir q <> 0 -> ~ (exists j, live_sharer k t j) ->
       vm_freed k' = pgdir q :: vm_freed k) /\
    (pgdir q = 0 \/ (exists j, live_sharer k t j) ->
       vm_freed k' = vm_freed k) /\
    uwrites k' = uwrites k /\ nextpid k' = nextpid k /\
    ptable_lock k' = false.
Proof.
  intros Hc Hq Hst Hpar Hthr Hroot Hno Hnone.
  assert (Hne : cur <> t).
  { intros ->. apply (Hno q); [by eapply list_elem_of_lookup_2|done]. }
  assert (Ht : (t < length (ptable k))%nat) by (by eapply lookup_lt_Some).
  rewrite (visit_runs_to_exit t k q Hq Hst Hroot).
  set (kr := release (write_state t RUNNING (acquire k))).
  assert (Hkr : ptable kr = <[t := set_state RUNNING q]> (ptable k) /\
                kmem kr = kmem k /\ vm_freed kr = vm_freed k /\
                uwrites kr = uwrites k /\ nextpid kr = nextpid k).
  { unfold kr. destruct k as [l lck npid init km vm uw sw fsc con pw]. keval.
    cbn [ptable kmem vm_freed uwrites nextpid] in *.
    by rewrite (alter_insert _ l t q Hq). }
  destruct Hkr as (Hkt & Hkk & Hkv & Hku & Hkn).
  assert (Hsh : (exists j, live_sharer kr t j) <-> (exists j, live_sharer k t j)).
  { split; intros (j & Hj); exists j;
      by apply (live_sharer_insert k kr t j q (set_state RUNNING q)). }
  clearbody kr.
  destruct (exit_wait_eval env cur t kr c (set_state RUNNING q))
    as (k' & Hw & Htab & Hkm & Hv1 & Hv2 & Huw & Hnp & Hl).
  - rewrite Hkt. by rewrite list_lookup_insert_ne.
  - rewrite Hkt. by rewrite list_lookup_insert_eq.
  - done.
  - done.
  - rewrite Hkt. intros x Hx.
    apply elem_of_insert_inv in Hx as [->|Hx]; [|by apply Hno].
    cbn [parent set_state]. apply Hno. by eapply list_elem_of_lookup_2.
  - rewrite Hkt. apply list_find_insert_None; [done|].
    unfold zombie_child. cbn [state set_state]. by intros (_ & _ & ?).
  - exists k'. cbn [pid kstack pgdir set_state] in *.
    rewrite Hkk in Hkm. rewrite Hkv in Hv1, Hv2. rewrite Hku in Huw.
    rewrite Hkn in Hnp. rewrite Hsh in Hv1, Hv2.
    split; [exact Hw|].
    rewrite Hkt, list_fmap_insert, list_insert_insert_eq in Htab.
    split; [|done].
    rewrite Htab. reflexivity.
Qed.

(** X9.  Create, run, reap: a process made by [fork] that is scheduled,
    runs to [exit] and is then waited for by its parent.  [wait] returns
    the pid that [fork] returned; afterwards the slot is UNUSED again, the
    free pages are what they were before [fork], and the copy of the
    address space, which no other unit uses, has been freed. *)
Theorem fork_exit_wait_roundtrip (copyuvm : Z -> Z -> Z) (env : environment)
    (cur : nat) (k : kernel) (np : nat) (p0 c : proc) (pg : Z) (rest : list Z) :
  list_find (fun q => state q = UNUSED) (ptable k) = Some (np, p0) ->
  kmem k = pg :: rest -> pg <> 0 ->
  ptable k !! cur = Some c -> state c <> UNUSED ->
  copyuvm (pgdir c) (sz c) <> 0 ->
  (forall x, x ∈ ptable k -> state x <> UNUSED -> state x <> ZOMBIE ->
             pgdir x <> copyuvm (pgdir c) (sz c)) ->
  Slot np <> initproc k ->
  (forall x, x ∈ ptable k -> parent x <> Slot np) ->
  list_find (zombie_child cur) (ptable k) = None ->
  exists r k1 k3,
    fork copyuvm cur k = (r, k1) /\
    wait env cur
         (release (scheduler_visit runs_to_exit np (acquire k1))) = Ret r k3 /\
    r = nextpid k /\
    kmem k3 = kmem k /\
    vm_freed k3 = copyuvm (pgdir c) (sz c) :: vm_freed k /\
    state (slot k3 np) = UNUSED /\ kstack (slot k3 np) = 0 /\
    pid (slot k3 np) = 0 /\
    (forall j, j <> np -> ptable k3 !! j = woken (Slot cur) <$> ptable k !! j) /\
    uwrites k3 = uwrites k /\
    nextpid k3 = wrap_int (nextpid k + 1) /\ ptable_lock k3 = false.
Proof.
  intros Hfind Hmem Hpg Hc Hst Hcopy Hfresh Hroot Hno Hnone.
  pose proof (fork_eval copyuvm cur k np p0 c pg rest
                Hfind Hmem Hpg Hc Hst) as Hfork.
  rewrite bool_decide_eq_false_2 in Hfork by done.
  apply list_find_Some in Hfind as (Hp0 & Hp0st & _).
  assert (Hnp : (np < length (ptable k))%nat) by (by eapply lookup_lt_Some).
  assert (Hne : np <> cur) by (intros ->; congruence).
  set (pd := copyuvm (pgdir c) (sz c)) in *.
  set (q := forked cur c p0 pg (nextpid k) pd) in *.
  match type of Hfork with _ = (_, ?kk) => set (k1 := kk) in * end.
  assert (Hq : parent q = Slot cur /\ is_thread q = 0 /\ state q = RUNNABLE /\
               pid q = nextpid k /\ kstack q = pg /\ pgdir q = pd).
  { unfold q, forked, embryo. by peval. }
  destruct Hq as (Hq1 & Hq2 & Hq3 & Hq4 & Hq5 & Hq6).
  destruct (run_exit_wait_eval env cur np k1 c q)
    as (k3 & Hw & Htab & Hkm & Hv1 & _ & Huw & Hnext & Hl).
  - unfold k1. cbn [ptable]. by rewrite list_lookup_insert_ne.
  - unfold k1. cbn [ptable]. by rewrite list_lookup_insert_eq.
  - done.
  - done.
  - done.
  - done.
  - unfold k1. cbn [ptable]. intros x Hx.
    apply elem_of_insert_inv in Hx as [->|Hx]; [|by apply Hno].
    rewrite Hq1. congruence.
  - unfold k1. cbn [ptable]. apply list_find_insert_None; [done|].
    unfold zombie_child. rewrite Hq3. by intros (_ & _ & ?).
  - exists (nextpid k), k1, k3. split; [exact Hfork|].
    rewrite Hq4 in Hw. split; [exact Hw|]. split; [done|].
    assert (Hslot : slot k3 np = reaped_by_wait (closed q)).
    { unfold slot. rewrite Htab. apply list_lookup_total_correct.
      rewrite list_lookup_insert_eq; [done|].
      unfold k1. cbn [ptable]. by rewrite length_fmap, length_insert. }
    rewrite Hslot, Huw, Hkm, Hnext, Hq5, Hmem.
    split; [done|]. split.
    { rewrite Hv1; [by rewrite Hq6| by rewrite Hq6 |].
      intros (j & Hj & Hlt & Hpd & Hs1 & Hs2).
      unfold k1, slot, NPROC in Hlt, Hpd, Hs1, Hs2. cbn [ptable] in *.
      rewrite length_insert in Hlt.
      rewrite lookup_total_insert_eq in Hpd by done.
      rewrite lookup_total_insert_ne in Hpd, Hs1, Hs2 by done.
      rewrite Hq6 in Hpd.
      apply (Hfresh (ptable k !!! j)); try done.
      apply list_elem_of_lookup_2 with j.
      by apply list_lookup_lookup_total_lt. }
    unfold reaped_by_wait, closed. peval.
    repeat split; try done.
    intros j Hj'. rewrite Htab. unfold k1. cbn [ptable].
    rewrite list_fmap_insert.
    rewrite !list_lookup_insert_ne by done. by rewrite list_lookup_fmap.
Qed.

(** X9 on the lone process of slot 1. *)
Lemma fork_exit_wait_roundtrip_witness :
  exists r k1 k3,
    fork (fun pd _ => pd + 1000) 1 lone_kernel = (r, k1) /\
    wait [] 1 (release (scheduler_visit runs_to_exit 2 (acquire k1))) =
      Ret r k3 /\
    r = 3 /\ kmem k3 = kmem lone_kernel /\ vm_freed k3 = [1200].
Proof.
  destruct (fork_exit_wait_roundtrip (fun pd _ => pd + 1000) [] 1
              lone_kernel 2%nat proc0 (lone_table !!! 1%nat) 9000 [9001])
    as (r & k1 & k3 & H1 & H2 & H3 & H4 & H5 & _);
    [reflexivity | reflexivity | discriminate | reflexivity | discriminate
    | discriminate | | discriminate | | reflexivity |].
  - intros x Hx. apply list_elem_of_lookup_1 in Hx as [j Hj].
    do 3 (destruct j as [|j]; [injection Hj as <-; intros; discriminate|]).
    discriminate Hj.
  - intros x Hx. apply list_elem_of_lookup_1 in Hx as [j Hj].
    do 3 (destruct j as [|j]; [injection Hj as <-; discriminate|]).
    discriminate Hj.
  - exists r, k1, k3. exact (conj H1 (conj H2 (conj H3 (conj H4 H5)))).
Defined.
(** ** Sleeping in join, and being woken *)

Lemma join_scan_no_zombie (uvm_ok : Z -> Z -> Z -> bool) (dst : Z)
    (cur : nat) (k : kernel) :
  list_find (zombie_thread_child cur) (ptable k) = None ->
  exists hk,
    join_scan uvm_ok dst (NPROC k) 0 cur false k = Scan_end hk /\
    (hk = true <->
     exists q, q ∈ ptable k /\ parent q = Slot cur /\ is_thread q <> 0).
Proof.
  intros Hfind. apply list_find_None in Hfind. rewrite Forall_forall in Hfind.
  rewrite join_scan_scan_from.
  destruct (scan_from_none (join_sel cur)
              (fun j k0 => join_reap uvm_ok dst j cur k0) (NPROC k) 0 false k)
    as (hk & Heq & Hiff).
  - intros j q _ Hq [Hs Hz]. apply join_sel_true in Hs as [? ?].
    apply (Hfind q); [by eapply list_elem_of_lookup_2|done].
  - lia.
  - exists hk. split; [done|]. rewrite Hiff. split.
    + intros [H|(j & q & _ & Hq & Hs)]; [done|].
      exists q. split; [by eapply list_elem_of_lookup_2|by apply join_sel_true].
    + intros (q & Hq & Hs). right.
      apply list_elem_of_lookup in Hq as [j Hj].
      exists j, q. split; [|split; [done|by apply join_sel_true]].
      apply lookup_lt_Some in Hj. unfold NPROC. lia.
Qed.

(** X10.  [join] counts only children that are threads.  With no thread
    among the caller's children, or with the kill flag set and no thread
    to reap, it returns -1 at once and changes nothing, whatever child
    processes there are.  With a thread child, none a Zombie, and the kill
    flag clear, it goes to sleep on the caller's own slot with the table
    lock held, and it scans again each time it is resumed. *)
Theorem join_fails_or_sleeps (uvm_ok : Z -> Z -> Z -> bool) (dst : Z)
    (cur : nat) (k : kernel) (c : proc) :
  ptable k !! cur = Some c ->
  list_find (zombie_thread_child cur) (ptable k) = None ->
  (forall env,
     (~ exists q, q ∈ ptable k /\ parent q = Slot cur /\ is_thread q <> 0)
       \/ killed c <> 0 ->
     join uvm_ok dst env cur k = Ret (-1) (release k)) /\
  ((exists q, q ∈ ptable k /\ parent q = Slot cur /\ is_thread q <> 0) ->
   killed c = 0 ->
   join uvm_ok dst [] cur k =
     Switched (sleep_enter (Slot cur) cur (acquire k)) /\
   chan (slot (sleep_enter (Slot cur) cur (acquire k)) cur) = Slot cur /\
   state (slot (sleep_enter (Slot cur) cur (acquire k)) cur) = SLEEPING /\
   ptable_lock (sleep_enter (Slot cur) cur (acquire k)) = true /\
   forall others env,
     join uvm_ok dst (others :: env) cur k =
     join_loop uvm_ok dst env cur
       (sleep_leave cur (others (sleep_enter (Slot cur) cur (acquire k))))).
Proof.
  intros Hc Hnone.
  assert (Hslot : slot (acquire k) cur = c) by (by apply slot_lookup).
  destruct (join_scan_no_zombie uvm_ok dst cur (acquire k) Hnone)
    as (hk & Hscan & Hiff).
  split.
  - intros env Hcase. unfold join. rewrite join_loop_unfold, Hscan, Hslot.
    destruct Hcase as [Hnokid|Hkilled].
    + destruct hk; [|done]. exfalso. apply Hnokid. by apply Hiff.
    + rewrite (bool_decide_eq_true_2 (killed c ≠ 0)) by done.
      by rewrite orb_true_r.
  - intros Hkid Hkill.
    assert (hk = true) as -> by (by apply Hiff).
    assert (Hchk : sched_check cur (sleep_enter (Slot cur) cur (acquire k))
                   = None) by (by apply sched_check_sleeping).
    split; [|split; [|split; [|split]]].
    + unfold join. rewrite join_loop_unfold, Hscan, Hslot.
      rewrite (bool_decide_eq_false_2 (killed c ≠ 0)) by (intros H; by apply H).
      cbn [negb orb]. by rewrite Hchk.
    + rewrite (sleep_enter_slot (Slot cur) cur (acquire k) c) by done. done.
    + rewrite (sleep_enter_slot (Slot cur) cur (acquire k) c) by done. done.
    + done.
    + intros others env. unfold join at 1.
      rewrite join_loop_unfold, Hscan, Hslot.
      rewrite (bool_decide_eq_false_2 (killed c ≠ 0)) by (intros H; by apply H).
      cbn [negb orb]. by rewrite Hchk.
Qed.

(** X10 on the family table: the process in slot 1 joins while its thread
    is still running; init, which has only a process child, gets -1. *)
Lemma join_fails_or_sleeps_witness :
  join uvm_all 40 [] 0 family_kernel = Ret (-1) (release family_kernel) /\
  join uvm_all 40 [] 1 family_kernel =
    Switched (sleep_enter (Slot 1) 1 (acquire family_kernel)).
Proof.
  destruct (join_fails_or_sleeps uvm_all 40 0 family_kernel
              (family_table !!! 0%nat)) as (H1 & _);
    [reflexivity | reflexivity |].
  destruct (join_fails_or_sleeps uvm_all 40 1 family_kernel
              (family_table !!! 1%nat)) as (_ & H2);
    [reflexivity | reflexivity |].
  split.
  - apply H1. left. intros (q & Hq & Hp & Ht).
    apply list_elem_of_lookup_1 in Hq as [j Hj].
    do 5 (destruct j as [|j];
          [injection Hj as <-; try discriminate Hp; by apply Ht|]).
    discriminate Hj.
  - apply H2; [|reflexivity].
    exists (family_table !!! 3%nat).
    split; [|split; [reflexivity|discriminate]].
    apply list_elem_of_lookup_2 with 3%nat. reflexivity.
Defined.

Lemma visit_runs_to_exit_held (t : nat) (k : kernel) (q : proc) :
  ptable k !! t = Some q -> state q = RUNNABLE -> Slot t <> initproc k ->
  scheduler_visit runs_to_exit t k =
  exit_handoff t (release (write_state t RUNNING k)).
Proof.
  intros Hq Hst Hroot.
  assert (Ht : (t < length (ptable k))%nat) by (by eapply lookup_lt_Some).
  unfold scheduler_visit.
  rewrite (slot_lookup k t q Hq), Hst.
  rewrite bool_decide_eq_false_2 by (by intros H).
  unfold runs_to_exit.
  rewrite (exit_switches t _ (set_state RUNNING q)); [done| |done].
  destruct k as [l lck npid init km vm uw sw fsc con pw]. keval.
  cbn [ptable] in *. rewrite list_lookup_alter_eq, Hq. done.
Qed.

(** The state in which a unit without children calls [sched()] from [exit],
    field by field. *)
Lemma exit_handoff_explicit (t : nat) (k : kernel) (q : proc) :
  ptable k !! t = Some q ->
  (forall x, x ∈ ptable k -> parent x <> Slot t) ->
  exists init' sw' fsc' con' pw',
    exit_handoff t k =
    mkKernel (<[t := set_state ZOMBIE (closed q)]>
                (woken (parent q) <$> ptable k))
             true (nextpid k) init' (kmem k) (vm_freed k) (uwrites k)
             sw' fsc' con' pw'.
Proof.
  intros Hq Hno.
  pose proof (exit_childless t k q Hq Hno) as Htab.
  destruct (exit_handoff_facts t k q Hq) as (Hl & _ & Hvm & Hkm & Hnp & Huw & _).
  destruct (exit_handoff t k) as [lz lckz npz initz kmz vmz uwz swz fscz conz pwz].
  cbn [ptable ptable_lock kmem vm_freed nextpid uwrites] in *.
  subst. by exists initz, swz, fscz, conz, pwz.
Qed.

Lemma woken_sleeper (cur : nat) (c : proc) :
  woken (Slot cur) (set_state SLEEPING (set_chan (Slot cur) c)) =
  set_state RUNNABLE (set_chan (Slot cur) c).
Proof.
  unfold woken. cbn [state chan set_state set_chan].
  rewrite !bool_decide_eq_true_2 by done. by destruct c.
Qed.

(** X11.  No wakeup is lost between [exit] and [join].  The caller of
    [join] has a RUNNABLE thread child and nothing to reap, so it goes to
    sleep.  The scheduler switches to the thread, which runs to [exit];
    that wakes the caller, the scheduler switches back to it, and its
    [join] returns the thread's pid, with the thread's stack address
    stored at the caller's location, the kernel stack given back and the
    slot UNUSED.  The caller is RUNNING again and sleeps on nothing. *)
Theorem join_woken_by_exit (uvm_ok : Z -> Z -> Z -> bool) (dst : Z)
    (cur t : nat) (k : kernel) (c q : proc) :
  ptable k !! cur = Some c -> killed c = 0 ->
  ptable k !! t = Some q -> state q = RUNNABLE ->
  parent q = Slot cur -> is_thread q <> 0 ->
  Slot t <> initproc k ->
  (forall x, x ∈ ptable k -> parent x <> Slot t) ->
  list_find (zombie_thread_child cur) (ptable k) = None ->
  uvm_ok (pgdir c) dst 4 = true ->
  (exists ks, join uvm_ok dst [] cur k = Switched ks) /\
  exists k',
    join uvm_ok dst
         [fun k0 => dispatch cur (scheduler_visit runs_to_exit t k0)] cur k =
      Ret (pid q) k' /\
    uwrites k' = mkUwrite (pgdir c) dst (user_stack q) :: uwrites k /\
    kmem k' = kstack q :: kmem k /\
    vm_freed k' = vm_freed k /\
    state (slot k' t) = UNUSED /\ kstack (slot k' t) = 0 /\
    state (slot k' cur) = RUNNING /\ chan (slot k' cur) = Null /\
    ptable_lock k' = false.
Proof.
  intros Hc Hkill Hq Hst Hpar Hthr Hroot Hno Hnone Hok.
  assert (Hne : cur <> t).
  { intros ->. apply (Hno q); [by eapply list_elem_of_lookup_2|done]. }
  assert (Hcur : (cur < length (ptable k))%nat) by (by eapply lookup_lt_Some).
  assert (Ht : (t < length (ptable k))%nat) by (by eapply lookup_lt_Some).
  assert (Hkid : exists x, x ∈ ptable k /\ parent x = Slot cur /\ is_thread x <> 0).
  { exists q. split; [by eapply list_elem_of_lookup_2|done]. }
  assert (Hc' : slot (acquire k) cur = c) by (by apply slot_lookup).
  destruct (join_scan_no_zombie uvm_ok dst cur (acquire k) Hnone)
    as (hk & Hscan & Hiff).
  assert (hk = true) as -> by (by apply Hiff).
  assert (Hchk : sched_check cur (sleep_enter (Slot cur) cur (acquire k))
                 = None) by (by apply sched_check_sleeping).
  split.
  { eexists. unfold join. rewrite join_loop_unfold, Hscan, Hc'.
    rewrite (bool_decide_eq_false_2 (killed c ≠ 0)) by (intros H; by apply H).
    cbn [negb orb]. by rewrite Hchk. }
  unfold join. rewrite join_loop_unfold, Hscan, Hc'.
  rewrite (bool_decide_eq_false_2 (killed c ≠ 0)) by (intros H; by apply H).
  cbn [negb orb]. rewrite Hchk. clear Hscan Hiff Hchk Hc'.
  (* the caller is asleep *)
  set (sc := set_state SLEEPING (set_chan (Slot cur) c)).
  assert (Hks : exists sw1,
            sleep_enter (Slot cur) cur (acquire k) =
            mkKernel (<[cur := sc]> (ptable k)) true (nextpid k) (initproc k)
                     (kmem k) (vm_freed k) (uwrites k) sw1 (fs_calls k)
                     (console k) (parent_writes k)).
  { destruct k as [l lck npid init km vm uw sw fsc con pw]. unfold sleep_enter.
    keval. cbn [ptable] in *.
    rewrite (alter_insert _ l cur c Hc), alter_insert_eq by done.
    by eexists. }
  destruct Hks as (sw1 & ->).
  destruct k as [l lck npid init km vm uw sw fsc con pw].
  cbn [ptable nextpid initproc kmem vm_freed uwrites fs_calls console parent_writes] in *.
  (* the thread runs to its exit *)
  rewrite (visit_runs_to_exit_held t _ q);
    [|cbn [ptable]; by rewrite list_lookup_insert_ne|done|done].
  rewrite write_state_mk, release_mk.
  rewrite (alter_insert _ _ t q) by (by rewrite list_lookup_insert_ne).
  edestruct (exit_handoff_explicit t) as (init' & sw' & fsc' & con' & pw' & ->).
  { cbn [ptable]. by rewrite list_lookup_insert_eq by (by rewrite length_insert). }
  { cbn [ptable]. intros x Hx.
    apply elem_of_insert_inv in Hx as [->|Hx].
    - cbn [parent set_state]. rewrite Hpar. congruence.
    - apply elem_of_insert_inv in Hx as [->|Hx]; [|by apply Hno].
      unfold sc. cbn [parent set_state set_chan].
      apply Hno. by eapply list_elem_of_lookup_2. }
  cbn [ptable nextpid kmem vm_freed uwrites parent set_state].
  rewrite Hpar, !list_fmap_insert, list_insert_insert_eq.
  unfold sc at 1. rewrite woken_sleeper. clear sc.
  set (L := woken (Slot cur) <$> l).
  assert (HL : length L = length l) by (unfold L; by rewrite length_fmap).
  set (Zq := set_state ZOMBIE (closed (set_state RUNNING q))).
  rewrite (list_insert_insert_ne L t cur) by done.
  (* the scheduler switches back to the caller *)
  unfold dispatch, scheduler_visit. rewrite slot_mk.
  rewrite lookup_total_insert_eq by (rewrite length_insert; lia).
  cbn [state set_state]. rewrite bool_decide_eq_false_2 by (by intros H).
  rewrite write_state_mk.
  rewrite alter_insert_eq by (rewrite length_insert; lia).
  unfold sleep_leave. rewrite upd_mk.
  rewrite alter_insert_eq by (rewrite length_insert; lia).
  set (c4 := set_chan Null (set_state RUNNING
                (set_state RUNNABLE (set_chan (Slot cur) c)))).
  (* the second scan finds the Zombie *)
  rewrite join_loop_unfold.
  rewrite (join_scan_first uvm_ok dst cur _ t Zq).
  2:{ cbn [ptable]. apply list_find_Some. split; [|split].
      - rewrite list_lookup_insert_ne by done.
        by rewrite list_lookup_insert_eq by lia.
      - unfold Zq, zombie_thread_child, closed. by peval.
      - intros j y Hy Hjt.
        destruct (decide (j = cur)) as [->|Hjc].
        + rewrite list_lookup_insert_eq in Hy by (rewrite length_insert; lia).
          injection Hy as <-. unfold zombie_thread_child, c4. peval.
          by intros (_ & _ & ?).
        + rewrite !list_lookup_insert_ne in Hy by (done || lia).
          unfold L in Hy. rewrite list_lookup_fmap in Hy.
          destruct (l !! j) as [x|] eqn:Hx; [|discriminate].
          injection Hy as <-. rewrite woken_zombie_thread_child.
          apply list_find_None in Hnone. rewrite Forall_forall in Hnone.
          apply Hnone. by eapply list_elem_of_lookup_2. }
  rewrite (join_reap_eval uvm_ok dst t cur _ Zq c4).
  2:{ cbn [ptable]. rewrite list_lookup_insert_ne by done.
      by rewrite list_lookup_insert_eq by lia. }
  2:{ cbn [ptable].
      by rewrite list_lookup_insert_eq by (rewrite length_insert; lia). }
  replace (pgdir c4) with (pgdir c) by (unfold c4; by peval).
  rewrite Hok. cbn [fst snd].
  eexists. split; [unfold Zq, closed; peval; reflexivity|].
  cbn [ptable uwrites kmem vm_freed ptable_lock].
  rewrite !slot_mk.
  rewrite lookup_total_insert_eq by (rewrite !length_insert; lia).
  rewrite lookup_total_insert_ne by done.
  rewrite lookup_total_insert_eq by (rewrite length_insert; lia).
  unfold reaped_by_join, reaped_by_wait, Zq, closed, c4. peval.
  repeat split.
Qed.

(** X11 on the family table: the process in slot 1 joins its thread in
    slot 3, whose stack is at 12288 and whose kernel stack is page 8000. *)
Lemma join_woken_by_exit_witness :
  (exists ks, join uvm_all 40 [] 1 family_kernel = Switched ks) /\
  exists k',
    join uvm_all 40
         [fun k0 => dispatch 1 (scheduler_visit runs_to_exit 3 k0)] 1
         family_kernel = Ret 4 k' /\
    uwrites k' = [mkUwrite 200 40 12288] /\
    kmem k' = 8000 :: kmem family_kernel.
Proof.
  destruct (join_woken_by_exit uvm_all 40 1 3 family_kernel
              (family_table !!! 1%nat) (family_table !!! 3%nat))
    as (H1 & k' & H2 & H3 & H4 & _);
    [reflexivity | reflexivity | reflexivity | reflexivity | reflexivity
    | discriminate | discriminate | | reflexivity | reflexivity |].
  - intros x Hx. apply list_elem_of_lookup_1 in Hx as [j Hj].
    do 5 (destruct j as [|j]; [injection Hj as <-; discriminate|]).
    discriminate Hj.
  - split; [exact H1|]. exists k'. exact (conj H2 (conj H3 H4)).
Defined.

(** X12.  [kill] gets a caller out of [join]: the caller sleeps in [join]
    with a thread child that has not exited; another unit calls [kill]
    with the caller's pid, which sets the kill flag and makes the sleeper
    RUNNABLE; once the scheduler has switched back to it, [join] returns
    -1.  Nothing is reaped: only the caller's slot has changed. *)
Theorem kill_wakes_joiner (uvm_ok : Z -> Z -> Z -> bool) (dst : Z)
    (cur : nat) (k : kernel) (c : proc) :
  ptable k !! cur = Some c -> killed c = 0 ->
  (exists q, q ∈ ptable k /\ parent q = Slot cur /\ is_thread q <> 0) ->
  list_find (zombie_thread_child cur) (ptable k) = None ->
  list_find (fun p => pid p = pid c) (ptable k) = Some (cur, c) ->
  exists k',
    join uvm_ok dst
         [fun k0 => dispatch cur (acquire (snd (kill (pid c) (release k0))))]
         cur k = Ret (-1) k' /\
    killed (slot k' cur) = 1 /\ state (slot k' cur) = RUNNING /\
    chan (slot k' cur) = Null /\
    (forall j, j <> cur -> ptable k' !! j = ptable k !! j) /\
    kmem k' = kmem k /\ vm_freed k' = vm_freed k /\ uwrites k' = uwrites k /\
    ptable_lock k' = false.
Proof.
  intros Hc Hkill Hkid Hnone Hpid.
  assert (Hcur : (cur < length (ptable k))%nat) by (by eapply lookup_lt_Some).
  assert (Hc' : slot (acquire k) cur = c) by (by apply slot_lookup).
  destruct (join_scan_no_zombie uvm_ok dst cur (acquire k) Hnone)
    as (hk & Hscan & Hiff).
  assert (hk = true) as -> by (by apply Hiff).
  assert (Hchk : sched_check cur (sleep_enter (Slot cur) cur (acquire k))
                 = None) by (by apply sched_check_sleeping).
  unfold join. rewrite join_loop_unfold, Hscan, Hc'.
  rewrite (bool_decide_eq_false_2 (killed c ≠ 0)) by (intros H; by apply H).
  cbn [negb orb]. rewrite Hchk. clear Hscan Hiff Hchk Hc'.
  set (sc := set_state SLEEPING (set_chan (Slot cur) c)).
  assert (Hks : exists sw1,
            sleep_enter (Slot cur) cur (acquire k) =
            mkKernel (<[cur := sc]> (ptable k)) true (nextpid k) (initproc k)
                     (kmem k) (vm_freed k) (uwrites k) sw1 (fs_calls k)
                     (console k) (parent_writes k)).
  { destruct k as [l lck npid init km vm uw sw fsc con pw]. unfold sleep_enter.
    keval. cbn [ptable] in *.
    rewrite (alter_insert _ l cur c Hc), alter_insert_eq by done.
    by eexists. }
  destruct Hks as (sw1 & ->).
  destruct k as [l lck npid init km vm uw sw fsc con pw].
  cbn [ptable nextpid initproc kmem vm_freed uwrites fs_calls console parent_writes] in *.
  rewrite release_mk.
  (* kill finds the sleeper *)
  unfold kill. rewrite acquire_mk, NPROC_mk.
  apply list_find_Some in Hpid as (_ & _ & Hfirst).
  edestruct (kill_from_found (length (<[cur := sc]> l)) 0 (pid c)
               (mkKernel (<[cur := sc]> l) true npid init km vm uw sw1 fsc con pw)
               cur sc)
    as (kk & -> & Hkt & Hkl & Hkn & Hkm & Hkv & Hku).
  { rewrite length_insert. lia. }
  { cbn [ptable]. by rewrite list_lookup_insert_eq. }
  { done. }
  { intros j' x Hj' Hx. cbn [ptable] in Hx.
    rewrite list_lookup_insert_ne in Hx by lia.
    apply (Hfirst j' x Hx). lia. }
  cbn [snd ptable nextpid kmem vm_freed uwrites] in *.
  destruct kk as [lk lckk npk initk kmk vmk uwk swk fsck conk pwk].
  cbn [ptable ptable_lock nextpid kmem vm_freed uwrites] in *. subst.
  rewrite list_insert_insert_eq.
  unfold kill_mark, sc at 1. cbn [state set_state set_chan].
  rewrite bool_decide_eq_true_2 by done.
  (* the scheduler switches back to the caller *)
  rewrite acquire_mk. unfold dispatch, scheduler_visit. rewrite slot_mk.
  rewrite lookup_total_insert_eq by done.
  cbn [state set_state]. rewrite bool_decide_eq_false_2 by (by intros H).
  rewrite write_state_mk, alter_insert_eq by done.
  unfold sleep_leave. rewrite upd_mk, alter_insert_eq by done.
  set (c5 := set_chan Null (set_state RUNNING
                (set_state RUNNABLE (set_killed 1 sc)))).
  (* the second scan finds nothing to reap and sees the kill flag *)
  rewrite join_loop_unfold.
  edestruct (join_scan_no_zombie uvm_ok dst cur) as (hk & -> & _).
  { cbn [ptable]. apply list_find_insert_None; [exact Hnone|].
    unfold zombie_thread_child, c5. peval. by intros (_ & _ & ?). }
  rewrite slot_mk, lookup_total_insert_eq by done.
  rewrite (bool_decide_eq_true_2 (killed c5 ≠ 0)) by (unfold c5; by peval).
  rewrite orb_true_r, release_mk.
  eexists. split; [reflexivity|].
  cbn [ptable kmem vm_freed uwrites ptable_lock].
  rewrite slot_mk, lookup_total_insert_eq by done.
  unfold c5, sc. peval.
  repeat split; try done.
  intros j Hj. by rewrite list_lookup_insert_ne.
Qed.

(** X12 on the family table: the process in slot 1 (pid 2) is killed while
    it sleeps in [join]. *)
Lemma kill_wakes_joiner_witness :
  exists k',
    join uvm_all 40
         [fun k0 => dispatch 1 (acquire (snd (kill 2 (release k0))))]
         1 family_kernel = Ret (-1) k' /\
    killed (slot k' 1) = 1 /\ state (slot k' 1) = RUNNING.
Proof.
  destruct (kill_wakes_joiner uvm_all 40 1 family_kernel
              (family_table !!! 1%nat))
    as (k' & H1 & H2 & H3 & _);
    [reflexivity | reflexivity | | reflexivity | reflexivity |].
  - exists (family_table !!! 3%nat).
    split; [|split; [reflexivity|discriminate]].
    apply list_elem_of_lookup_2 with 3%nat. reflexivity.
  - exists k'. exact (conj H1 (conj H2 H3)).
Defined.
(** ** The scheduler and yield *)

Lemma runs_to_yield_mk (i : nat) (l : list proc) lck npid init km vm uw sw
    fsc con pw :
  runs_to_yield i (mkKernel l lck npid init km vm uw sw fsc con pw) =
  mkKernel (alter (set_state RUNNABLE) i l) true npid init km vm uw
           (mkStateWrite i RUNNABLE true :: sw) fsc con pw.
Proof.
  unfold runs_to_yield, yield. cbv zeta. keval.
  unfold sched_check. cbn [ptable_lock negb]. rewrite slot_mk.
  destruct (decide (i < length l)%nat) as [Hi|Hi].
  - destruct (lookup_lt_is_Some_2 l i Hi) as [p Hp].
    rewrite (alter_insert _ l i p Hp), lookup_total_insert_eq by done.
    cbn [state set_state]. by rewrite bool_decide_eq_false_2.
  - rewrite list_lookup_total_alt, list_lookup_alter_eq.
    rewrite lookup_ge_None_2 by lia. cbn [fmap option_fmap option_map default].
    by rewrite bool_decide_eq_false_2.
Qed.

Lemma scheduler_from_yield (n : nat) :
  forall (i : nat) (l : list proc) npid init km vm uw sw fsc con pw,
  scheduler_from runs_to_yield n i
    (mkKernel l true npid init km vm uw sw fsc con pw) =
  mkKernel l true npid init km vm uw
    (rev (flat_map ran_and_yielded
            (filter (fun j => state (l !!! j) = RUNNABLE) (seq i n))) ++ sw)
    fsc con pw.
Proof.
  induction n as [|n IH]; intros i l npid init km vm uw sw fsc con pw.
  - reflexivity.
  - cbn [scheduler_from seq]. unfold scheduler_visit. rewrite slot_mk.
    destruct (decide (state (l !!! i) = RUNNABLE)) as [Hr|Hr].
    + rewrite bool_decide_eq_false_2 by (intros H; by apply H).
      rewrite filter_cons_True by done.
      rewrite write_state_mk, runs_to_yield_mk.
      assert (Hl : alter (set_state RUNNABLE) i (alter (set_state RUNNING) i l)
                   = l).
      { destruct (l !! i) as [p|] eqn:Hp.
        - rewrite (alter_insert _ l i p Hp).
          rewrite alter_insert_eq by (by eapply lookup_lt_Some).
          apply list_insert_id.
          rewrite (list_lookup_total_correct l i p Hp) in Hr.
          rewrite Hp. f_equal. destruct p. cbn in *. by subst.
        - rewrite list_lookup_total_alt, Hp in Hr. discriminate Hr. }
      rewrite Hl, IH. cbn [flat_map ran_and_yielded app].
      f_equal. cbn [rev]. by rewrite <- !app_assoc.
    + rewrite bool_decide_eq_true_2 by done.
      rewrite filter_cons_False by done. apply IH.
Qed.

(** X13.  One pass of the scheduler over units that yield as soon as they
    run: every slot that is RUNNABLE is switched to exactly once, in table
    order, whether it holds a process or a thread; each is marked RUNNING
    with the table lock held and has made itself RUNNABLE again, under the
    lock, when it switches back.  The table is the same after the pass,
    and the lock is released. *)
Theorem scheduler_round_robin (k : kernel) :
  ptable (scheduler_pass runs_to_yield k) = ptable k /\
  state_writes (scheduler_pass runs_to_yield k) =
    rev (flat_map ran_and_yielded (runnable_slots k)) ++ state_writes k /\
  ptable_lock (scheduler_pass runs_to_yield k) = false /\
  kmem (scheduler_pass runs_to_yield k) = kmem k /\
  nextpid (scheduler_pass runs_to_yield k) = nextpid k /\
  (runnable_slots k = [] ->
     scheduler_pass runs_to_yield k = release k).
Proof.
  unfold scheduler_pass, runnable_slots.
  destruct k as [l lck npid init km vm uw sw fsc con pw].
  rewrite acquire_mk, NPROC_mk, scheduler_from_yield, release_mk.
  cbn [ptable state_writes ptable_lock kmem nextpid].
  unfold slot, NPROC. cbn [ptable].
  repeat split. intros ->. reflexivity.
Qed.
(** ** System calls: sbrk, clone and join *)

(** X14.  The size of the address space is kept per unit, not per address
    space.  When a unit grows its memory with [sbrk], the call returns the
    old size and only the caller's [sz] becomes the new size: a thread that
    shares the address space keeps the old one.  So a stack that lies in
    the pages just obtained passes the check of [sys_clone] when the
    caller of [sbrk] asks, and is rejected with -1 when the sharing thread
    asks. *)
Theorem sbrk_size_not_shared (PGSIZE : Z) (uvm_ok : Z -> Z -> Z -> bool)
    (allocuvm deallocuvm : Z -> Z -> Z -> Z) (argint : nat -> option Z)
    (argptr : nat -> Z -> option Z)
    (cur th : nat) (k : kernel) (c q : proc) (n fcn arg1 arg2 stack : Z) :
  ptable k !! cur = Some c -> ptable k !! th = Some q -> cur <> th ->
  pgdir q = pgdir c -> sz q = sz c ->
  argint 0%nat = Some n -> 0 < n ->
  0 <= sz c < 2 ^ 31 ->
  allocuvm (pgdir c) (sz c) (wrap32 (sz c + n)) = sz c + n ->
  argptr 0%nat 4 = Some fcn -> argptr 1%nat 4 = Some arg1 ->
  argptr 2%nat 4 = Some arg2 -> argptr 3%nat 4 = Some stack ->
  0 < PGSIZE -> sz c <= stack -> stack + PGSIZE <= sz c + n ->
  sz c + n < 2 ^ 32 ->
  exists k1,
    sys_sbrk allocuvm deallocuvm argint cur k = (sz c, k1) /\
    sz (slot k1 cur) = sz c + n /\
    sz (slot k1 th) = sz c /\ pgdir (slot k1 th) = pgdir (slot k1 cur) /\
    (forall j, j <> cur -> ptable k1 !! j = ptable k !! j) /\
    sys_clone PGSIZE uvm_ok argptr cur k1 =
      clone PGSIZE uvm_ok fcn arg1 arg2 stack cur k1 /\
    sys_clone PGSIZE uvm_ok argptr th k1 =
      (-1, cprintf "clone: stack invalid (outside user space or wraps around)"
                   k1).
Proof.
  intros Hc Hq Hne Hpd Hsz Hn Hpos Hrange Halloc Ha0 Ha1 Ha2 Ha3 HP Hlo Hhi Htop.
  assert (Hcur : (cur < length (ptable k))%nat) by (by eapply lookup_lt_Some).
  unfold sys_sbrk, growproc. rewrite Hn.
  rewrite (slot_lookup k cur c Hc).
  rewrite (bool_decide_eq_true_2 (n > 0)) by lia.
  rewrite Halloc. rewrite (bool_decide_eq_false_2 (sz c + n = 0)) by lia.
  rewrite (bool_decide_eq_false_2 (0 < 0)) by lia.
  assert (Hw : wrap_int (sz c) = sz c).
  { unfold wrap_int. rewrite Z.mod_small; lia. }
  rewrite Hw. eexists. split; [reflexivity|].
  assert (Hs1 : slot (upd cur (set_sz (sz c + n)) k) cur = set_sz (sz c + n) c).
  { apply slot_lookup. rewrite lookup_upd, decide_True by done. by rewrite Hc. }
  assert (Hs2 : slot (upd cur (set_sz (sz c + n)) k) th = q).
  { apply slot_lookup. rewrite lookup_upd, decide_False by done. done. }
  rewrite Hs1, Hs2. cbn [sz pgdir set_sz].
  split; [done|]. split; [done|]. split; [done|]. split.
  { intros j Hj. by rewrite lookup_upd, decide_False by done. }
  unfold sys_clone. rewrite Ha0, Ha1, Ha2, Ha3, Hs1, Hs2. cbn [sz set_sz].
  assert (Hws : wrap32 (stack + PGSIZE) = stack + PGSIZE).
  { unfold wrap32. rewrite Z.mod_small; lia. }
  rewrite Hws, Hsz. split.
  - rewrite (bool_decide_eq_false_2 (stack >= sz c + n)) by lia.
    rewrite (bool_decide_eq_false_2 (stack + PGSIZE > sz c + n)) by lia.
    rewrite (bool_decide_eq_false_2 (stack + PGSIZE < stack)) by lia.
    reflexivity.
  - rewrite (bool_decide_eq_true_2 (stack >= sz c)) by lia. reflexivity.
Qed.

(** X14 on the family table: the process in slot 1 grows by two pages and
    the thread in slot 3 shares its address space. *)
Lemma sbrk_size_not_shared_witness :
  exists k1,
    sys_sbrk (fun _ _ n => n) (fun _ _ n => n) (fun _ => Some 8192) 1
             family_kernel = (16384, k1) /\
    sz (slot k1 1) = 24576 /\ sz (slot k1 3) = 16384 /\
    fst (sys_clone 4096 uvm_all (fun _ _ => Some 16384) 3 k1) = -1.
Proof.
  destruct (sbrk_size_not_shared 4096 uvm_all (fun _ _ n => n) (fun _ _ n => n)
              (fun _ => Some 8192) (fun _ _ => Some 16384) 1 3 family_kernel
              (family_table !!! 1%nat) (family_table !!! 3%nat)
              8192 16384 16384 16384 16384)
    as (k1 & H1 & H2 & H3 & _ & _ & _ & H7);
    [reflexivity | reflexivity | discriminate | reflexivity | reflexivity
    | reflexivity | lia | by vm_compute | by vm_compute
    | reflexivity | reflexivity | reflexivity | reflexivity
    | lia | by vm_compute | by vm_compute | by vm_compute |].
  exists k1. split; [exact H1|]. split; [exact H2|]. split; [exact H3|].
  exact (f_equal fst H7).
Defined.
(** ** String and memory functions *)

Lemma strlen_from_sound (m : list Z) (s : nat) (fuel : nat) :
  forall n r, strlen_from fuel m s n = Some r ->
  (n <= r)%nat /\ m !! (s + r)%nat = Some 0 /\
  forall j, (n <= j < r)%nat -> exists b, m !! (s + j)%nat = Some b /\ b <> 0.
Proof.
  induction fuel as [|fuel IH]; intros n r H; [discriminate|].
  cbn [strlen_from] in H.
  destruct (m !! (s + n)%nat) as [b|] eqn:Hb; [|discriminate].
  destruct (decide (b = 0)) as [->|Hnz].
  - rewrite bool_decide_eq_true_2 in H by done. injection H as <-.
    split; [lia|]. split; [done|]. intros j Hj. lia.
  - rewrite bool_decide_eq_false_2 in H by done.
    destruct (IH (S n) r H) as (Hle & Hz & Hnon).
    split; [lia|]. split; [done|]. intros j Hj.
    destruct (decide (j = n)) as [->|Hne]; [by exists b|].
    apply Hnon. lia.
Qed.

Lemma strlen_from_complete (m : list Z) (s : nat) (fuel : nat) :
  forall n r, (n <= r)%nat -> (r - n < fuel)%nat ->
  m !! (s + r)%nat = Some 0 ->
  (forall j, (n <= j < r)%nat -> exists b, m !! (s + j)%nat = Some b /\ b <> 0) ->
  strlen_from fuel m s n = Some r.
Proof.
  induction fuel as [|fuel IH]; intros n r Hle Hfuel Hz Hnon; [lia|].
  cbn [strlen_from].
  destruct (decide (n = r)) as [->|Hne].
  - by rewrite Hz, bool_decide_eq_true_2.
  - destruct (Hnon n ltac:(lia)) as (b & -> & Hb).
    rewrite bool_decide_eq_false_2 by done.
    apply IH; [lia|lia|done|]. intros j Hj. apply Hnon. lia.
Qed.

(** X15.  [strlen] answers [r] exactly when the byte at offset [r] from
    [s] is the first NUL at or after [s]; in particular it faults (by
    running off the end of memory) exactly when no NUL follows [s]. *)
Theorem strlen_first_nul (m : list Z) (s r : nat) :
  strlen m s = Some r <->
  m !! (s + r)%nat = Some 0 /\
  forall j, (j < r)%nat -> exists b, m !! (s + j)%nat = Some b /\ b <> 0.
Proof.
  unfold strlen. split.
  - intros H. destruct (strlen_from_sound m s _ 0 r H) as (_ & Hz & Hnon).
    split; [done|]. intros j Hj. apply Hnon. lia.
  - intros [Hz Hnon]. apply strlen_from_complete; [lia| |done|].
    + apply lookup_lt_Some in Hz. lia.
    + intros j Hj. apply Hnon. lia.
Qed.

Lemma string_at_strlen (m : list Z) (s : nat) (bs : list Z) :
  string_at m s bs -> strlen m s = Some (length bs).
Proof.
  intros [Hbs Hz]. unfold strlen.
  apply strlen_from_complete; [lia| |done|].
  - apply lookup_lt_Some in Hz. lia.
  - intros j Hj. destruct (lookup_lt_is_Some_2 bs j ltac:(lia)) as [b Hb].
    exists b. by apply Hbs.
Qed.

(** The copy loop, for the bytes [bs] that remain to be copied. *)
Lemma strcpy_from_spec (bs : list Z) :
  forall (fuel : nat) (m : list Z) (s t : nat),
  string_at m t bs ->
  (s <= t \/ t + length bs < s)%nat ->
  (s + length bs < length m)%nat ->
  (length bs < fuel)%nat ->
  exists m',
    strcpy_from fuel m s t = Some m' /\
    length m' = length m /\
    (forall j b, (bs ++ [0]) !! j = Some b -> m' !! (s + j)%nat = Some b) /\
    (forall a, (a < s \/ s + length bs < a)%nat -> m' !! a = m !! a).
Proof.
  induction bs as [|b bs IH]; intros fuel m s t [Hbs Hz] Hpos Hroom Hfuel.
  - destruct fuel as [|fuel]; [cbn in Hfuel; lia|].
    cbn [strcpy_from]. cbn [length] in *. rewrite Nat.add_0_r in Hz, Hroom.
    rewrite Hz. rewrite bool_decide_eq_true_2 by done.
    rewrite bool_decide_eq_true_2 by done.
    eexists. split; [done|]. split; [by rewrite length_insert|]. split.
    + intros j c Hj. destruct j as [|j]; [|discriminate].
      injection Hj as <-. rewrite Nat.add_0_r.
      by rewrite list_lookup_insert_eq.
    + intros a Ha. rewrite list_lookup_insert_ne by lia. done.
  - destruct fuel as [|fuel]; [cbn in Hfuel; lia|].
    cbn [strcpy_from]. cbn [length] in *.
    destruct (Hbs 0%nat b eq_refl) as [Hb0 Hbnz]. rewrite Nat.add_0_r in Hb0.
    rewrite Hb0. rewrite bool_decide_eq_true_2 by lia.
    rewrite bool_decide_eq_false_2 by done.
    destruct (IH fuel (<[s := b]> m) (S s) (S t)) as (m' & Hrun & Hlen & Hcopy & Hout).
    + split.
      * intros j c Hj. destruct (Hbs (S j) c Hj) as [Hm Hc].
        pose proof (lookup_lt_Some _ _ _ Hj) as Hjl.
        split; [|done]. rewrite list_lookup_insert_ne by lia.
        by replace (S t + j)%nat with (t + S j)%nat by lia.
      * rewrite list_lookup_insert_ne by lia.
        by replace (S t + length bs)%nat with (t + S (length bs))%nat by lia.
    + lia.
    + rewrite length_insert. lia.
    + lia.
    + exists m'. split; [done|]. split; [by rewrite Hlen, length_insert|]. split.
      * intros j c Hj. destruct j as [|j].
        -- injection Hj as <-. rewrite Nat.add_0_r.
           rewrite Hout by lia. by rewrite list_lookup_insert_eq by lia.
        -- replace (s + S j)%nat with (S s + j)%nat by lia. by apply Hcopy.
      * intros a Ha. rewrite Hout by lia. by rewrite list_lookup_insert_ne by lia.
Qed.

(** X16.  [strcpy] of a terminated string to a place with room for it,
    at a lower address than the source or clear of it: it stops, the
    destination then holds the same string with its terminator (so
    [strlen] of the destination is the length of the source), and no byte
    outside the destination has changed. *)
Theorem strcpy_copies (m : list Z) (s t : nat) (bs : list Z) :
  string_at m t bs ->
  (s <= t \/ t + length bs < s)%nat ->
  (s + length bs < length m)%nat ->
  exists m',
    strcpy m s t = Some m' /\
    string_at m' s bs /\
    strlen m' s = Some (length bs) /\
    length m' = length m /\
    (forall a, (a < s \/ s + length bs < a)%nat -> m' !! a = m !! a).
Proof.
  intros Hstr Hpos Hroom.
  destruct (strcpy_from_spec bs (S (length m)) m s t Hstr Hpos Hroom)
    as (m' & Hrun & Hlen & Hcopy & Hout); [lia|].
  assert (Hs : string_at m' s bs).
  { split.
    - intros j b Hj. split.
      + apply Hcopy. by apply lookup_app_l_Some.
      + destruct Hstr as [Hbs _]. by destruct (Hbs j b Hj).
    - apply Hcopy. rewrite lookup_app_r by lia.
      by rewrite Nat.sub_diag. }
  exists m'. split; [done|]. split; [done|].
  split; [by apply string_at_strlen|]. done.
Qed.

(** X16 on the string AB copied from offset 4 to offset 0. *)
Lemma strcpy_copies_witness :
  exists m',
    strcpy [1; 1; 1; 1; 65; 66; 0] 0 4 = Some m' /\
    strlen m' 0 = Some 2%nat.
Proof.
  destruct (strcpy_copies [1; 1; 1; 1; 65; 66; 0] 0 4 [65; 66])
    as (m' & H1 & _ & H3 & _).
  - split.
    + intros j b Hj.
      do 2 (destruct j as [|j]; [injection Hj as <-; by split|]).
      discriminate Hj.
    + reflexivity.
  - left. lia.
  - cbn. lia.
  - exists m'. exact (conj H1 H3).
Defined.

Lemma string_at_cons (m : list Z) (s : nat) (b : Z) (bs : list Z) :
  string_at m s (b :: bs) ->
  m !! s = Some b /\ b <> 0 /\ string_at m (S s) bs.
Proof.
  intros [Hbs Hz]. destruct (Hbs 0%nat b eq_refl) as [Hb Hnz].
  rewrite Nat.add_0_r in Hb. split; [done|]. split; [done|]. split.
  - intros j c Hj. destruct (Hbs (S j) c Hj) as [Hm Hc]. split; [|done].
    by replace (S s + j)%nat with (s + S j)%nat by lia.
  - cbn [length] in Hz.
    by replace (S s + length bs)%nat with (s + S (length bs))%nat by lia.
Qed.

Lemma string_at_nil (m : list Z) (s : nat) :
  string_at m s [] -> m !! s = Some 0.
Proof. intros [_ Hz]. cbn [length] in Hz. by rewrite Nat.add_0_r in Hz. Qed.

Lemma strcmp_from_spec (bs1 : list Z) :
  forall (fuel : nat) (m : list Z) (p q : nat) (bs2 : list Z),
  string_at m p bs1 -> string_at m q bs2 -> (length bs1 < fuel)%nat ->
  exists r, strcmp_from fuel m p q = Some r /\ (r = 0 <-> bs1 = bs2).
Proof.
  induction bs1 as [|a bs1 IH]; intros fuel m p q bs2 H1 H2 Hfuel;
    (destruct fuel as [|fuel]; [cbn in Hfuel; lia|]); cbn [strcmp_from].
  - rewrite (string_at_nil m p H1).
    rewrite (bool_decide_eq_false_2 (0 ≠ 0)) by (intros H; by apply H).
    cbn [andb]. destruct bs2 as [|b bs2].
    + rewrite (string_at_nil m q H2). by exists 0.
    + destruct (string_at_cons m q b bs2 H2) as (-> & Hb & _).
      exists (0 - b). split; [done|]. split; [lia|discriminate].
  - destruct (string_at_cons m p a bs1 H1) as (-> & Ha & H1').
    rewrite (bool_decide_eq_true_2 (a ≠ 0)) by done. cbn [andb].
    destruct bs2 as [|b bs2].
    + rewrite (string_at_nil m q H2).
      rewrite bool_decide_eq_false_2 by done.
      exists (a - 0). split; [done|]. split; [lia|discriminate].
    + destruct (string_at_cons m q b bs2 H2) as (-> & Hb & H2').
      destruct (decide (a = b)) as [->|Hab].
      * rewrite bool_decide_eq_true_2 by done.
        destruct (IH fuel m (S p) (S q) bs2 H1' H2') as (r & -> & Hr);
          [cbn in Hfuel; lia|].
        exists r. split; [done|]. rewrite Hr. split; [by intros ->|].
        intros H. by injection H.
      * rewrite bool_decide_eq_false_2 by done.
        exists (a - b). split; [done|]. split; [lia|].
        intros H. injection H as H _. done.
Qed.

(** X17.  [strcmp] of two terminated strings stops and answers 0 exactly
    when the two strings are the same. *)
Theorem strcmp_zero_iff_equal (m : list Z) (p q : nat) (bs1 bs2 : list Z) :
  string_at m p bs1 -> string_at m q bs2 ->
  exists r, strcmp m p q = Some r /\ (r = 0 <-> bs1 = bs2).
Proof.
  intros H1 H2. apply strcmp_from_spec; [done|done|].
  destruct H1 as [_ Hz]. apply lookup_lt_Some in Hz. lia.
Qed.

(** X17 on the strings AB and AC. *)
Lemma strcmp_zero_iff_equal_witness :
  exists r, strcmp [65; 66; 0; 65; 67; 0] 0 3 = Some r /\ r <> 0.
Proof.
  destruct (strcmp_zero_iff_equal [65; 66; 0; 65; 67; 0] 0 3 [65; 66] [65; 67])
    as (r & H1 & H2).
  - split; [|reflexivity]. intros j b Hj.
    do 2 (destruct j as [|j]; [injection Hj as <-; by split|]).
    discriminate Hj.
  - split; [|reflexivity]. intros j b Hj.
    do 2 (destruct j as [|j]; [injection Hj as <-; by split|]).
    discriminate Hj.
  - exists r. split; [exact H1|]. intros Hr. apply H2 in Hr. discriminate Hr.
Defined.

Lemma strchr_from_spec (bs : list Z) :
  forall (fuel : nat) (m : list Z) (s : nat) (c : Z),
  string_at m s bs -> (length bs < fuel)%nat ->
  strchr_from fuel m s c =
  Some (match list_find (fun b => b = c) bs with
        | Some (i, _) => Some (s + i)%nat
        | None => None
        end).
Proof.
  induction bs as [|b bs IH]; intros fuel m s c Hs Hfuel;
    (destruct fuel as [|fuel]; [cbn in Hfuel; lia|]); cbn [strchr_from].
  - rewrite (string_at_nil m s Hs). by rewrite bool_decide_eq_true_2.
  - destruct (string_at_cons m s b bs Hs) as (-> & Hb & Hs').
    rewrite bool_decide_eq_false_2 by done.
    cbn [list_find]. destruct (decide (b = c)) as [->|Hbc].
    + rewrite bool_decide_eq_true_2 by done. by rewrite Nat.add_0_r.
    + rewrite bool_decide_eq_false_2 by done.
      rewrite (IH fuel m (S s) c Hs') by (cbn in Hfuel; lia).
      destruct (list_find (fun b0 => b0 = c) bs) as [[i x]|]; [|done].
      cbn. do 2 f_equal. lia.
Qed.

(** X18.  [strchr] on a terminated string stops and answers the address of
    the first byte equal to [c], or the null pointer when the string has
    none.  It never finds the terminator: asked for the NUL byte it
    answers the null pointer. *)
Theorem strchr_first_occurrence (m : list Z) (s : nat) (c : Z) (bs : list Z) :
  string_at m s bs ->
  strchr m s c =
    Some (match list_find (fun b => b = c) bs with
          | Some (i, _) => Some (s + i)%nat
          | None => None
          end) /\
  strchr m s 0 = Some None.
Proof.
  intros Hs.
  assert (Hfuel : (length bs < S (length m))%nat).
  { destruct Hs as [_ Hz]. apply lookup_lt_Some in Hz. lia. }
  split; [by apply strchr_from_spec|].
  unfold strchr. rewrite (strchr_from_spec bs _ m s 0 Hs Hfuel).
  destruct (list_find (fun b => b = 0) bs) as [[i x]|] eqn:Hf; [|done].
  apply list_find_Some in Hf as (Hx & -> & _).
  destruct Hs as [Hbs _]. by destruct (Hbs i 0 Hx).
Qed.

(** X18 on the string ABA. *)
Lemma strchr_first_occurrence_witness :
  strchr [7; 65; 66; 65; 0] 1 66 = Some (Some 2%nat) /\
  strchr [7; 65; 66; 65; 0] 1 0 = Some None.
Proof.
  apply (strchr_first_occurrence [7; 65; 66; 65; 0] 1 66 [65; 66; 65]).
  split; [|reflexivity]. intros j b Hj.
  do 3 (destruct j as [|j]; [injection Hj as <-; by split|]).
  discriminate Hj.
Defined.

Lemma memset_from_spec (n : nat) :
  forall (m : list Z) (dst : nat) (c : Z),
  (dst + n <= length m)%nat ->
  exists m',
    memset_from n m dst c = Some m' /\
    length m' = length m /\
    forall a, m' !! a =
              if bool_decide (dst <= a < dst + n)%nat
              then Some (c mod 256) else m !! a.
Proof.
  induction n as [|n IH]; intros m dst c Hroom; cbn [memset_from].
  - exists m. split; [done|]. split; [done|]. intros a.
    by rewrite bool_decide_eq_false_2 by lia.
  - rewrite bool_decide_eq_true_2 by lia.
    destruct (IH (<[dst := c mod 256]> m) (S dst) c) as (m' & -> & Hlen & Hm').
    { rewrite length_insert. lia. }
    exists m'. split; [done|]. split; [by rewrite Hlen, length_insert|].
    intros a. rewrite Hm'.
    destruct (decide (a = dst)) as [->|Hne].
    + rewrite bool_decide_eq_false_2 by lia.
      rewrite bool_decide_eq_true_2 by lia.
      by rewrite list_lookup_insert_eq by lia.
    + rewrite list_lookup_insert_ne by done.
      destruct (decide (S dst <= a < S dst + n)%nat).
      * by rewrite !bool_decide_eq_true_2 by lia.
      * by rewrite !bool_decide_eq_false_2 by lia.
Qed.

(** X19.  [memset] of [n] bytes that lie inside the memory stops; each of
    them then holds the low eight bits of [c], and every other byte is as
    before. *)
Theorem memset_fills (m : list Z) (dst : nat) (c n : Z) :
  0 <= n -> Z.of_nat dst + n <= Z.of_nat (length m) ->
  exists m',
    memset m dst c n = Some m' /\
    length m' = length m /\
    (forall a, Z.of_nat dst <= Z.of_nat a < Z.of_nat dst + n ->
               m' !! a = Some (c mod 256)) /\
    (forall a, ~ (Z.of_nat dst <= Z.of_nat a < Z.of_nat dst + n) ->
               m' !! a = m !! a).
Proof.
  intros Hn Hroom. unfold memset.
  destruct (memset_from_spec (Z.to_nat n) m dst c) as (m' & Hrun & Hlen & Hm');
    [lia|].
  exists m'. split; [done|]. split; [done|]. split.
  - intros a Ha. rewrite Hm'. by rewrite bool_decide_eq_true_2 by lia.
  - intros a Ha. rewrite Hm'. by rewrite bool_decide_eq_false_2 by lia.
Qed.

(** X19 on a memory of five bytes. *)
Lemma memset_fills_witness :
  exists m', memset [1; 2; 3; 4; 5] 1 (256 + 7) 3 = Some m' /\
             m' !! 2%nat = Some 7 /\ m' !! 4%nat = Some 5.
Proof.
  destruct (memset_fills [1; 2; 3; 4; 5] 1 (256 + 7) 3)
    as (m' & H1 & _ & H3 & H4); [lia | cbn; lia|].
  exists m'. split; [exact H1|]. split.
  - rewrite (H3 2%nat) by lia. reflexivity.
  - rewrite (H4 4%nat) by lia. reflexivity.
Defined.

Lemma mod_succ_wrap (j d : nat) :
  (0 < d)%nat -> (j mod d = d - 1)%nat -> (S j mod d = 0)%nat.
Proof.
  intros Hd Hj.
  pose proof (Nat.div_mod_eq j d) as Hdm.
  symmetry. apply (Nat.mod_unique (S j) d (S (j / d)) 0); [done|].
  rewrite Hj in Hdm. nia.
Qed.

Lemma mod_succ_step (j d : nat) :
  (0 < d)%nat -> (j mod d <> d - 1)%nat -> (S j mod d = S (j mod d))%nat.
Proof.
  intros Hd Hj.
  pose proof (Nat.div_mod_eq j d) as Hdm.
  pose proof (Nat.mod_upper_bound j d ltac:(lia)) as Hub.
  symmetry. apply (Nat.mod_unique (S j) d (j / d) (S (j mod d))); [lia|].
  nia.
Qed.

Lemma memmove_from_spec (n : nat) :
  forall (m : list Z) (dst src : nat),
  (dst + n <= length m)%nat -> (src + n <= length m)%nat ->
  exists m',
    memmove_from n m dst src = Some m' /\
    length m' = length m /\
    (forall a, ~ (dst <= a < dst + n)%nat -> m' !! a = m !! a) /\
    ((dst <= src)%nat ->
       forall j, (j < n)%nat -> m' !! (dst + j)%nat = m !! (src + j)%nat) /\
    ((src < dst)%nat ->
       forall j, (j < n)%nat ->
         m' !! (dst + j)%nat = m !! (src + j mod (dst - src))%nat).
Proof.
  induction n as [|n IH]; intros m dst src Hd Hs; cbn [memmove_from].
  - exists m. split; [done|]. split; [done|]. split; [done|].
    split; intros _ j Hj; lia.
  - destruct (lookup_lt_is_Some_2 m src ltac:(lia)) as [b Hb]. rewrite Hb.
    rewrite bool_decide_eq_true_2 by lia.
    destruct (IH (<[dst := b]> m) (S dst) (S src))
      as (m' & -> & Hlen & Hout & Hlow & Hhigh).
    { rewrite length_insert. lia. }
    { rewrite length_insert. lia. }
    exists m'. split; [done|]. split; [by rewrite Hlen, length_insert|].
    split; [|split].
    + intros a Ha. rewrite Hout by lia. by rewrite list_lookup_insert_ne by lia.
    + intros Hle j Hj. destruct j as [|j].
      * rewrite !Nat.add_0_r. rewrite Hout by lia.
        by rewrite list_lookup_insert_eq by lia.
      * replace (dst + S j)%nat with (S dst + j)%nat by lia.
        rewrite Hlow by lia. rewrite list_lookup_insert_ne by lia.
        f_equal. lia.
    + intros Hlt j Hj.
      assert (Hdpos : (0 < dst - src)%nat) by lia.
      destruct j as [|j].
      * rewrite Nat.Div0.mod_0_l, !Nat.add_0_r. rewrite Hout by lia.
        by rewrite list_lookup_insert_eq by lia.
      * replace (dst + S j)%nat with (S dst + j)%nat by lia.
        rewrite Hhigh by lia.
        replace (S dst - S src)%nat with (dst - src)%nat by lia.
        pose proof (Nat.mod_upper_bound j (dst - src) ltac:(lia)) as Hub.
        destruct (decide (j mod (dst - src) = dst - src - 1)%nat) as [Hw|Hw].
        -- rewrite (mod_succ_wrap j (dst - src)) by lia.
           rewrite Nat.add_0_r, Hw.
           replace (S src + (dst - src - 1))%nat with dst by lia.
           rewrite list_lookup_insert_eq by lia. by rewrite Hb.
        -- rewrite (mod_succ_step j (dst - src)) by lia.
           rewrite list_lookup_insert_ne by lia. f_equal. lia.
Qed.

(** X20.  [memmove] copies forward, one byte at a time, whatever the
    positions of the two regions.  When the destination starts at or
    below the source, or the regions do not overlap, the destination
    then holds the source's old bytes.  When the destination starts [d]
    bytes above the source inside it, the first [d] bytes of the source
    are repeated through the destination instead.  No byte outside the
    destination changes, and a count that is zero or negative copies
    nothing. *)
Theorem memmove_copies_forward (m : list Z) (dst src : nat) (n : Z) :
  Z.of_nat dst + n <= Z.of_nat (length m) ->
  Z.of_nat src + n <= Z.of_nat (length m) ->
  exists m',
    memmove m dst src n = Some m' /\
    length m' = length m /\
    (forall a, ~ (Z.of_nat dst <= Z.of_nat a < Z.of_nat dst + n) ->
               m' !! a = m !! a) /\
    ((dst <= src)%nat \/ Z.of_nat src + n <= Z.of_nat dst ->
       forall j, Z.of_nat j < n ->
         m' !! (dst + j)%nat = m !! (src + j)%nat) /\
    ((src < dst)%nat ->
       forall j, Z.of_nat j < n ->
         m' !! (dst + j)%nat = m !! (src + j mod (dst - src))%nat) /\
    (n <= 0 -> m' = m).
Proof.
  intros Hd Hs. unfold memmove.
  destruct (decide (n <= 0)) as [Hneg|Hpos].
  { replace (Z.to_nat n) with 0%nat by lia. exists m.
    split; [done|]. split; [done|]. split; [done|].
    split; [intros _ j Hj; lia|]. split; [intros _ j Hj; lia|done]. }
  destruct (memmove_from_spec (Z.to_nat n) m dst src)
    as (m' & Hrun & Hlen & Hout & Hlow & Hhigh); [lia|lia|].
  exists m'. split; [done|]. split; [done|].
  split; [|split; [|split]].
  - intros a Ha. apply Hout. lia.
  - intros [Hle|Hdisj] j Hj.
    + apply Hlow; lia.
    + destruct (decide (dst <= src)%nat) as [Hle|Hgt]; [apply Hlow; lia|].
      rewrite Hhigh by lia. by rewrite Nat.mod_small by lia.
  - intros Hlt j Hj. apply Hhigh; lia.
  - intros Hn. replace (Z.to_nat n) with 0%nat in Hrun by lia.
    cbn in Hrun. congruence.
Qed.

(** X20 on a copy one byte up inside the source: the first byte is
    repeated. *)
Lemma memmove_copies_forward_witness :
  exists m', memmove [1; 2; 3; 4; 5] 1 0 3 = Some m' /\
             m' !! 3%nat = Some 1 /\ m' !! 4%nat = Some 5.
Proof.
  destruct (memmove_copies_forward [1; 2; 3; 4; 5] 1 0 3)
    as (m' & H1 & _ & H3 & _ & H5 & _); [cbn; lia | cbn; lia |].
  exists m'. split; [exact H1|]. split.
  - exact (H5 ltac:(lia) 2%nat ltac:(lia)).
  - rewrite (H3 4%nat) by lia. reflexivity.
Defined.

Lemma decimal_from_ge (ds : list Z) :
  forall n, 0 <= n -> Forall (fun d => 0 <= d <= 9) ds ->
  n <= fold_left (fun x d => x * 10 + d) ds n.
Proof.
  induction ds as [|d ds IH]; intros n Hn Hds; cbn [fold_left]; [lia|].
  apply Forall_cons in Hds as [Hd Hds].
  specialize (IH (n * 10 + d) ltac:(lia) Hds). lia.
Qed.

Lemma atoi_from_spec (ds : list Z) :
  forall (fuel : nat) (m : list Z) (s : nat) (n e : Z),
  Forall (fun d => 0 <= d <= 9) ds ->
  (forall j d, ds !! j = Some d -> m !! (s + j)%nat = Some (48 + d)) ->
  m !! (s + length ds)%nat = Some e -> ~ (48 <= e <= 57) ->
  (length ds < fuel)%nat ->
  0 <= n -> fold_left (fun x d => x * 10 + d) ds n < 2 ^ 31 ->
  atoi_from fuel m s n = Some (fold_left (fun x d => x * 10 + d) ds n).
Proof.
  induction ds as [|d ds IH]; intros fuel m s n e Hds Hm He Hne Hfuel Hn Hbound;
    (destruct fuel as [|fuel]; [cbn in Hfuel; lia|]); cbn [atoi_from fold_left].
  - cbn [length] in He. rewrite Nat.add_0_r in He. rewrite He.
    destruct (decide (48 <= e)); destruct (decide (e <= 57)); try lia.
    + rewrite (bool_decide_eq_true_2 (48 <= e)) by done.
      by rewrite (bool_decide_eq_false_2 (e <= 57)) by done.
    + by rewrite (bool_decide_eq_false_2 (48 <= e)) by done.
  - apply Forall_cons in Hds as [Hd Hds].
    pose proof (Hm 0%nat d eq_refl) as H0. rewrite Nat.add_0_r in H0.
    rewrite H0.
    rewrite (bool_decide_eq_true_2 (48 <= 48 + d)) by lia.
    rewrite (bool_decide_eq_true_2 (48 + d <= 57)) by lia.
    cbn [andb fold_left] in *.
    pose proof (decimal_from_ge ds (n * 10 + d) ltac:(lia) Hds) as Hge.
    assert (Hw : wrap_int (n * 10 + (48 + d) - 48) = n * 10 + d).
    { unfold wrap_int. rewrite Z.mod_small; lia. }
    rewrite Hw. apply (IH fuel m (S s) (n * 10 + d) e); try done.
    + intros j x Hj. replace (S s + j)%nat with (s + S j)%nat by lia.
      by apply Hm.
    + cbn [length] in He.
      by replace (S s + length ds)%nat with (s + S (length ds))%nat by lia.
    + cbn in Hfuel. lia.
    + lia.
Qed.

(** X21.  [atoi] reads the decimal digits at [s] up to the first byte that
    is not a digit and answers their value, as long as that value fits an
    [int]; it skips no blanks and knows no sign, so a string that does not
    start with a digit gives 0. *)
Theorem atoi_decimal (m : list Z) (s : nat) (ds : list Z) (e : Z) :
  Forall (fun d => 0 <= d <= 9) ds ->
  (forall j d, ds !! j = Some d -> m !! (s + j)%nat = Some (48 + d)) ->
  m !! (s + length ds)%nat = Some e -> ~ (48 <= e <= 57) ->
  decimal ds < 2 ^ 31 ->
  atoi m s = Some (decimal ds) /\
  (ds = [] -> atoi m s = Some 0).
Proof.
  intros Hds Hm He Hne Hbound.
  assert (Hrun : atoi m s = Some (decimal ds)).
  { unfold atoi, decimal. apply (atoi_from_spec ds _ m s 0 e); try done.
    apply lookup_lt_Some in He. lia. }
  split; [done|]. intros ->. exact Hrun.
Qed.

(** X21 on the strings 42x and -5. *)
Lemma atoi_decimal_witness :
  atoi [52; 50; 120; 0] 0 = Some 42 /\ atoi [45; 53; 0] 0 = Some 0.
Proof.
  destruct (atoi_decimal [52; 50; 120; 0] 0 [4; 2] 120) as (H1 & _).
  - repeat constructor; lia.
  - intros j d Hj.
    do 2 (destruct j as [|j]; [by injection Hj as <-|]). discriminate Hj.
  - reflexivity.
  - lia.
  - by vm_compute.
  - destruct (atoi_decimal [45; 53; 0] 0 [] 45) as (_ & H2).
    + constructor.
    + intros j d Hj. discriminate Hj.
    + reflexivity.
    + lia.
    + by vm_compute.
    + exact (conj H1 (H2 eq_refl)).
Defined.

Lemma take_line_length (n : nat) : forall input,
  (length (take_line n input) <= n)%nat.
Proof.
  induction n as [|n IH]; intros input; [cbn; lia|].
  destruct input as [|c rest]; cbn [take_line length]; [lia|].
  destruct (bool_decide (c = 10) || bool_decide (c = 13)); cbn [length].
  - lia.
  - specialize (IH rest). lia.
Qed.

Lemma gets_loop_spec (buf : nat) (max : Z) (fuel : nat) :
  forall (m input : list Z) (i : nat),
  (Z.to_nat (max - 1 - Z.of_nat i) <= fuel)%nat ->
  (buf + i + length (take_line (Z.to_nat (max - 1 - Z.of_nat i)) input)
     <= length m)%nat ->
  exists m',
    gets_loop fuel m input buf i max =
      Some (m',
            drop (length (take_line (Z.to_nat (max - 1 - Z.of_nat i)) input))
                 input,
            (i + length (take_line (Z.to_nat (max - 1 - Z.of_nat i)) input))%nat)
    /\ length m' = length m /\
    (forall j c,
       take_line (Z.to_nat (max - 1 - Z.of_nat i)) input !! j = Some c ->
       m' !! (buf + i + j)%nat = Some c) /\
    (forall a, (a < buf + i)%nat -> m' !! a = m !! a) /\
    (forall a,
       (buf + i + length (take_line (Z.to_nat (max - 1 - Z.of_nat i)) input)
          <= a)%nat -> m' !! a = m !! a).
Proof.
  induction fuel as [|fuel IH]; intros m input i Hfuel Hroom.
  - assert (Hr : Z.to_nat (max - 1 - Z.of_nat i) = 0%nat) by lia.
    rewrite Hr in *. cbn [gets_loop take_line length drop] in *.
    exists m. rewrite Nat.add_0_r. split; [done|]. split; [done|].
    split; [intros j c Hj; discriminate Hj|]. by split.
  - cbn [gets_loop].
    destruct (decide (Z.of_nat i + 1 < max)) as [Hlt|Hge].
    2:{ rewrite bool_decide_eq_false_2 by done.
        assert (Hr : Z.to_nat (max - 1 - Z.of_nat i) = 0%nat) by lia.
        rewrite Hr in *. cbn [take_line length drop] in *.
        exists m. rewrite Nat.add_0_r. split; [done|]. split; [done|].
        split; [intros j c Hj; discriminate Hj|]. by split. }
    rewrite bool_decide_eq_true_2 by done.
    assert (Hr : Z.to_nat (max - 1 - Z.of_nat i) =
                 S (Z.to_nat (max - 1 - Z.of_nat (S i)))) by lia.
    rewrite Hr in *. clear Hr.
    set (r := Z.to_nat (max - 1 - Z.of_nat (S i))) in *.
    destruct input as [|c rest].
    { cbn [take_line length drop] in *.
      exists m. rewrite Nat.add_0_r. split; [done|]. split; [done|].
      split; [intros j c Hj; discriminate Hj|]. by split. }
    cbn [take_line] in *.
    destruct (bool_decide (c = 10) || bool_decide (c = 13)) eqn:Hnl.
    + cbn [length drop] in *.
      rewrite bool_decide_eq_true_2 by lia.
      eexists. split; [by rewrite Nat.add_1_r|].
      split; [by rewrite length_insert|]. split; [|split].
      * intros j x Hj. destruct j as [|j]; [|discriminate Hj].
        injection Hj as <-. rewrite Nat.add_0_r.
        by rewrite list_lookup_insert_eq by lia.
      * intros a Ha. by rewrite list_lookup_insert_ne by lia.
      * intros a Ha. by rewrite list_lookup_insert_ne by lia.
    + cbn [length drop] in *.
      rewrite bool_decide_eq_true_2 by lia.
      destruct (IH (<[(buf + i)%nat := c]> m) rest (S i))
        as (m' & Hrun & Hlen & Hline & Hlow & Hhigh).
      { fold r. lia. }
      { fold r. rewrite length_insert. lia. }
      fold r in Hrun, Hline, Hhigh.
      exists m'. split.
      { rewrite Hrun. do 2 f_equal. lia. }
      split; [by rewrite Hlen, length_insert|]. split; [|split].
      * intros j x Hj. destruct j as [|j].
        -- injection Hj as <-. rewrite Nat.add_0_r.
           rewrite Hlow by lia. by rewrite list_lookup_insert_eq by lia.
        -- replace (buf + i + S j)%nat with (buf + S i + j)%nat by lia.
           by apply Hline.
      * intros a Ha. rewrite Hlow by lia.
        by rewrite list_lookup_insert_ne by lia.
      * intros a Ha. rewrite Hhigh by lia.
        by rewrite list_lookup_insert_ne by lia.
Qed.

(** X22.  [gets] takes from the input the bytes up to and including the
    first newline or carriage return, but at most [max - 1] of them, stores
    them at [buf] and puts a NUL after them; the rest of the input is left
    for the next read and no other byte of the memory changes.  The NUL is
    written even when [max] is 1, 0 or negative, where no input is taken:
    one byte at [buf] is then overwritten whatever size was announced. *)
Theorem gets_reads_line (m input : list Z) (buf : nat) (max : Z)
    (line : list Z) :
  line = take_line (Z.to_nat (max - 1)) input ->
  (buf + length line < length m)%nat ->
  exists m',
    gets m input buf max = Some (m', drop (length line) input) /\
    length m' = length m /\
    (forall j c, line !! j = Some c -> m' !! (buf + j)%nat = Some c) /\
    m' !! (buf + length line)%nat = Some 0 /\
    (forall a, (a < buf \/ buf + length line < a)%nat -> m' !! a = m !! a) /\
    Z.of_nat (length line) <= Z.max 0 (max - 1) /\
    (max <= 1 -> line = [] /\ m' = <[buf := 0]> m).
Proof.
  intros Hline Hroom. unfold gets.
  destruct (gets_loop_spec buf max (Z.to_nat max) m input 0)
    as (m1 & Hrun & Hlen & Hbytes & Hlow & Hhigh).
  { lia. }
  { rewrite Z.sub_0_r, <- Hline. lia. }
  rewrite Z.sub_0_r, <- Hline in Hrun, Hbytes, Hhigh.
  rewrite Hrun. cbn [Nat.add] in *.
  rewrite Nat.add_0_r in Hbytes, Hhigh, Hlow.
  rewrite bool_decide_eq_true_2 by lia.
  eexists. split; [reflexivity|]. split; [by rewrite length_insert|].
  split; [|split; [|split; [|split]]].
  - intros j c Hj. pose proof (lookup_lt_Some _ _ _ Hj).
    rewrite list_lookup_insert_ne by lia. by apply Hbytes.
  - by rewrite list_lookup_insert_eq by lia.
  - intros a [Ha|Ha].
    + rewrite list_lookup_insert_ne by lia. apply Hlow. lia.
    + rewrite list_lookup_insert_ne by lia. apply Hhigh. lia.
  - pose proof (take_line_length (Z.to_nat (max - 1)) input) as Hl.
    rewrite <- Hline in Hl. lia.
  - intros Hmax.
    assert (Hnil : line = []).
    { rewrite Hline. replace (Z.to_nat (max - 1)) with 0%nat by lia. done. }
    split; [done|]. subst line. rewrite Hnil in *.
    cbn [length] in *. rewrite Nat.add_0_r. f_equal.
    apply list_eq. intros a.
    destruct (decide (a < buf)%nat); [apply Hlow|apply Hhigh]; lia.
Qed.

(** X22 on an input of two lines and a buffer of eight bytes at offset 1. *)
Lemma gets_reads_line_witness :
  exists m',
    gets [9; 9; 9; 9; 9; 9; 9; 9; 9; 9] [104; 105; 10; 120; 10] 1 8 =
      Some (m', [120; 10]) /\
    m' !! 3%nat = Some 10 /\ m' !! 4%nat = Some 0.
Proof.
  destruct (gets_reads_line [9; 9; 9; 9; 9; 9; 9; 9; 9; 9]
              [104; 105; 10; 120; 10] 1 8 [104; 105; 10])
    as (m' & H1 & _ & H3 & H4 & _); [reflexivity | cbn; lia |].
  exists m'. split; [exact H1|]. split; [|exact H4].
  exact (H3 2%nat 10 eq_refl).
Defined.
(** ** The ticket lock: waiting ends *)

Lemma lock_step_release (j : nat) (s : lock_sys) :
  thr s !! j = Some Holding ->
  lock_step j s =
  (mkLockSys (ticket_lock_release (lk s)) (<[j := Idle]> (thr s)),
   [Ev_release j]).
Proof. intros H. unfold lock_step. by rewrite H. Qed.

Lemma lock_step_enter (j : nat) (s : lock_sys) (t : Z) :
  thr s !! j = Some (Spinning t) -> turn (lk s) = t ->
  lock_step j s =
  (mkLockSys (lk s) (<[j := Holding]> (thr s)), [Ev_enter j]).
Proof.
  intros H Ht. unfold lock_step. rewrite H.
  unfold ticket_lock_acquire_spin. by rewrite bool_decide_eq_true_2.
Qed.

Lemma lock_step_length (j : nat) (s : lock_sys) :
  length (thr (fst (lock_step j s))) = length (thr s).
Proof.
  unfold lock_step. destruct (thr s !! j) as [[|t|]|].
  - cbn. by rewrite length_insert.
  - destruct (ticket_lock_acquire_spin (lk s) t); cbn; [done|].
    by rewrite length_insert.
  - cbn. by rewrite length_insert.
  - done.
Qed.

Lemma length_twice_each (l : list nat) :
  length (twice_each l) = (2 * length l)%nat.
Proof. induction l as [|j l IH]; cbn; lia. Qed.

Lemma elem_of_twice_each (l : list nat) (x : nat) :
  x ∈ twice_each l -> x ∈ l.
Proof.
  induction l as [|j l IH]; cbn; [done|].
  rewrite !elem_of_cons. intros [->|[->|H]]; [by left|by left|right; by apply IH].
Qed.

(** The first step awaited is the release by the holder, or the loop test
    of the thread whose ticket is being served. *)
Lemma awaits_head (s : lock_sys) (tr : list lock_event) (i p : nat) (t : Z) :
  lock_inv s tr -> thr s !! i = Some (Spinning t) ->
  drew tr !! p = Some i -> (length (entered tr) <= p)%nat ->
  exists h w, awaits tr p = h :: w /\
    (thr s !! h = Some Holding \/ thr s !! h = Some (Spinning (turn (lk s)))).
Proof.
  intros I Hi Hp HEp.
  pose proof (inv_RE _ _ I) as HRE. pose proof (inv_ER _ _ I) as HER.
  assert (Hpd : (p < length (drew tr))%nat) by (by eapply lookup_lt_Some).
  unfold awaits. rewrite Hp.
  destruct (decide (length (entered tr) = length (released tr))) as [He|He].
  - assert (Hturn : turn (lk s) = wrap32 (Z.of_nat (length (entered tr)))).
    { rewrite (inv_turn _ _ I). by rewrite He. }
    destruct (inv_queue _ _ I (length (entered tr)) ltac:(lia))
      as (x & Hx & Hsx).
    destruct (decide (length (entered tr) = p)) as [Hep|Hep].
    + rewrite drop_ge by (rewrite length_take; lia).
      exists i, []. split; [done|]. right.
      rewrite Hep in Hx. assert (x = i) as -> by congruence.
      rewrite Hturn. exact Hsx.
    + rewrite (drop_S _ x) by (rewrite lookup_take_lt by lia; exact Hx).
      eexists x, _. split; [reflexivity|]. right. by rewrite Hturn.
  - destruct (inv_holder _ _ I ltac:(lia)) as (h & Hh & Hsh).
    rewrite Hh. eexists h, _. split; [reflexivity|]. by left.
Qed.

(** What one step of any thread does to the steps awaited: a step by the
    thread awaited first removes it from the front, a step by any other
    thread changes nothing. *)
Lemma lock_step_awaits (j : nat) (s : lock_sys) (tr : list lock_event)
    (i p : nat) (t : Z) :
  Z.of_nat (length (thr s)) < 2 ^ 32 -> lock_inv s tr ->
  thr s !! i = Some (Spinning t) ->
  drew tr !! p = Some i -> (length (entered tr) <= p)%nat ->
  i ∈ entered (snd (lock_step j s)) \/
  (thr (fst (lock_step j s)) !! i = Some (Spinning t) /\
   drew (tr ++ snd (lock_step j s)) !! p = Some i /\
   (length (entered (tr ++ snd (lock_step j s))) <= p)%nat /\
   (awaits tr p = j :: awaits (tr ++ snd (lock_step j s)) p \/
    (awaits (tr ++ snd (lock_step j s)) p = awaits tr p /\
     forall w, awaits tr p <> j :: w))).
Proof.
  intros Hn I Hi Hp HEp.
  pose proof (lock_step_inv j s tr Hn I) as [I1 _].
  pose proof (inv_RE _ _ I) as HRE. pose proof (inv_ER _ _ I) as HER.
  assert (Hpd : (p < length (drew tr))%nat) by (by eapply lookup_lt_Some).
  destruct (awaits_head s tr i p t I Hi Hp HEp) as (h & w0 & Hw0 & Hh).
  unfold lock_step in *.
  destruct (thr s !! j) as [[|t'|]|] eqn:Hj.
  - (* Idle: draws a ticket *)
    cbn [ticket_lock_acquire_draw xadd fst snd lk thr] in *. right.
    assert (Hij : j <> i) by (intros ->; congruence).
    rewrite list_lookup_insert_ne by done.
    rewrite drew_app, entered_app. cbn. rewrite app_nil_r.
    rewrite lookup_app_l by done.
    split; [done|]. split; [done|]. split; [done|]. right. split.
    + unfold awaits. rewrite drew_app, entered_app, released_app. cbn.
      rewrite !app_nil_r, take_app_le by lia.
      rewrite !lookup_app_l by lia. done.
    + intros w Hw. rewrite Hw0 in Hw. injection Hw as -> _.
      destruct Hh as [Hh|Hh]; congruence.
  - destruct (ticket_lock_acquire_spin (lk s) t') eqn:Hspin.
    + (* keeps spinning *)
      cbn [fst snd] in *. right.
      rewrite drew_app, entered_app. cbn. rewrite !app_nil_r.
      split; [done|]. split; [done|]. split; [done|]. right. split.
      * unfold awaits. rewrite drew_app, entered_app, released_app. cbn.
        by rewrite !app_nil_r.
      * intros w Hw. rewrite Hw0 in Hw. injection Hw as -> _.
        destruct Hh as [Hh|Hh]; [congruence|].
        assert (t' = turn (lk s)) as -> by congruence.
        unfold ticket_lock_acquire_spin in Hspin.
        by rewrite bool_decide_eq_true_2 in Hspin.
    + (* leaves the loop *)
      cbn [fst snd lk thr] in *.
      pose proof (inv_fifo _ _ I1) as Hfifo.
      pose proof (inv_ER _ _ I1) as HER1.
      rewrite drew_app, entered_app in Hfifo.
      rewrite entered_app, released_app in HER1.
      cbn in Hfifo, HER1. rewrite !app_nil_r, ?length_app in Hfifo, HER1.
      cbn in Hfifo, HER1.
      assert (He : length (entered tr) = length (released tr)) by lia.
      assert (HjE : drew tr !! length (entered tr) = Some j).
      { rewrite <- (lookup_take_lt (drew tr) (length (entered tr) + 1)) by lia.
        rewrite <- Hfifo. by apply list_lookup_middle. }
      destruct (decide (j = i)) as [->|Hij].
      { left. cbn. apply list_elem_of_singleton. done. }
      right.
      assert (Hep : length (entered tr) <> p) by (intros <-; congruence).
      rewrite list_lookup_insert_ne by done.
      rewrite drew_app, entered_app. cbn. rewrite app_nil_r, length_app. cbn.
      split; [done|]. split; [done|]. split; [lia|]. left.
      unfold awaits. rewrite drew_app, entered_app, released_app. cbn.
      rewrite !app_nil_r, length_app. cbn.
      rewrite decide_True by done. rewrite decide_False by lia.
      rewrite <- He, HjE.
      rewrite (drop_S _ j (length (entered tr)))
        by (rewrite lookup_take_lt by lia; exact HjE).
      rewrite Nat.add_1_r. done.
  - (* Holding: releases *)
    cbn [fst snd lk thr] in *.
    destruct (inv_holding _ _ I j Hj) as (HeS & HjR). right.
    assert (Hij : j <> i) by (intros ->; congruence).
    rewrite list_lookup_insert_ne by done.
    rewrite drew_app, entered_app. cbn. rewrite !app_nil_r.
    split; [done|]. split; [done|]. split; [done|]. left.
    unfold awaits. rewrite drew_app, entered_app, released_app. cbn.
    rewrite !app_nil_r, length_app. cbn.
    rewrite decide_False by lia. rewrite decide_True by lia.
    rewrite HjR. done.
  - (* no such thread *)
    cbn [fst snd] in *. rewrite app_nil_r. right.
    split; [done|]. split; [done|]. split; [done|]. right. split; [done|].
    intros w Hw. rewrite Hw0 in Hw. injection Hw as -> _.
    destruct Hh as [Hh|Hh]; congruence.
Qed.

(** Along any schedule in which the awaited steps occur in their order,
    the spinning thread completes its acquire. *)
Lemma lock_enters_along (more : list nat) :
  forall (s : lock_sys) (tr : list lock_event) (i p : nat) (t : Z),
  Z.of_nat (length (thr s)) < 2 ^ 32 -> lock_inv s tr ->
  thr s !! i = Some (Spinning t) ->
  drew tr !! p = Some i -> (length (entered tr) <= p)%nat ->
  sublist (awaits tr p) more ->
  i ∈ entered (snd (lock_run more s)).
Proof.
  induction more as [|j rest IH]; intros s tr i p t Hn I Hi Hp HEp Hsub.
  - apply sublist_nil_r in Hsub.
    destruct (awaits_head s tr i p t I Hi Hp HEp) as (h & w & Hw & _).
    congruence.
  - cbn [lock_run].
    pose proof (lock_step_inv j s tr Hn I) as [I1 Hlen].
    destruct (lock_step_awaits j s tr i p t Hn I Hi Hp HEp)
      as [Hin|(Hi1 & Hp1 & HE1 & Haw)].
    + destruct (lock_step j s) as [s1 e1].
      destruct (lock_run rest s1) as [s2 e2]. cbn [fst snd] in *.
      rewrite entered_app. apply elem_of_app. by left.
    + destruct (lock_step j s) as [s1 e1]. cbn [fst snd] in *.
      assert (Hsub' : sublist (awaits (tr ++ e1) p) rest).
      { destruct Haw as [Hcons|[Hsame Hhead]].
        - rewrite Hcons in Hsub.
          apply sublist_cons_r in Hsub as [Hs|(l' & Hl' & Hs)].
          + etrans; [|exact Hs]. apply sublist_cons. reflexivity.
          + injection Hl' as <-. exact Hs.
        - rewrite Hsame.
          apply sublist_cons_r in Hsub as [Hs|(l' & Hl' & Hs)]; [done|].
          by apply Hhead in Hl'. }
      specialize (IH s1 (tr ++ e1) i p t ltac:(by rewrite Hlen) I1 Hi1 Hp1 HE1 Hsub').
      destruct (lock_run rest s1) as [s2 e2]. cbn [fst snd] in *.
      rewrite entered_app. apply elem_of_app. by right.
Qed.

(** A schedule made of rounds, in each of which every thread takes a step,
    contains every sequence of steps that is not longer than the number of
    rounds. *)
Lemma sublist_rounds (n : nat) (w : list nat) : forall rounds : list (list nat),
  Forall (fun j => (j < n)%nat) w -> (length w <= length rounds)%nat ->
  Forall (fun r => forall j, (j < n)%nat -> j ∈ r) rounds ->
  sublist w (concat rounds).
Proof.
  induction w as [|x w IH]; intros rounds Hw Hlen Hr.
  - apply sublist_nil_l.
  - destruct rounds as [|r rs]; [cbn in Hlen; lia|].
    apply Forall_cons in Hw as [Hx Hw]. apply Forall_cons in Hr as [Hr0 Hr].
    cbn [concat]. destruct (list_elem_of_split r x (Hr0 x Hx)) as (l1 & l2 & ->).
    rewrite <- app_assoc. apply sublist_inserts_l. cbn. apply sublist_skip.
    apply sublist_inserts_l. apply IH; [done|cbn in Hlen; lia|done].
Qed.

Lemma lock_run_length (schedule : list nat) : forall (s0 s : lock_sys) tr,
  lock_run schedule s0 = (s, tr) -> length (thr s) = length (thr s0).
Proof.
  induction schedule as [|j rest IH]; intros s0 s tr Hrun.
  - cbn in Hrun. by injection Hrun as <- _.
  - cbn [lock_run] in Hrun.
    pose proof (lock_step_length j s0) as Hs1.
    destruct (lock_step j s0) as [s1 e1]. cbn [fst] in Hs1.
    destruct (lock_run rest s1) as [s2 e2] eqn:Hr.
    injection Hrun as <- _. rewrite <- Hs1. by apply (IH s1 s2 e2).
Qed.

(** X23.  Nobody waits for ever at the ticket lock.  In any state that
    fewer than 2^32 threads can reach, a thread that is spinning in
    [ticket_lock_acquire] holds a ticket that has not been served, and the
    steps it waits for are at most twice the number of threads: the release
    by the holder, the loop test and the release of each thread whose
    ticket comes before its own, and its own loop test.  Under every
    continuation of the schedule in which these steps occur in this order,
    whatever other steps of whatever threads come before, between and
    after them, the thread completes its acquire.  In particular it has
    completed its acquire after [2 * nthreads] rounds in each of which
    every thread takes at least one step. *)
Theorem ticket_lock_no_starvation (n : nat) (schedule : list nat)
    (s : lock_sys) (tr : list lock_event) (i : nat) (t : Z) :
  Z.of_nat n < 2 ^ 32 ->
  lock_run schedule (lock_start n) = (s, tr) ->
  thr s !! i = Some (Spinning t) ->
  exists p,
    drew tr !! p = Some i /\
    (length (entered tr) <= p < length (drew tr))%nat /\
    (length (awaits tr p) <= 2 * n)%nat /\
    (forall more, sublist (awaits tr p) more ->
       i ∈ entered (snd (lock_run more s))) /\
    (forall rounds : list (list nat),
       (2 * n <= length rounds)%nat ->
       Forall (fun r => forall j, (j < n)%nat -> j ∈ r) rounds ->
       i ∈ entered (snd (lock_run (concat rounds) s))).
Proof.
  intros Hn Hrun Hi.
  assert (Hlen0 : length (thr (lock_start n)) = n).
  { cbn. by rewrite length_replicate. }
  assert (I : lock_inv s tr).
  { pose proof (lock_run_inv schedule (lock_start n) []) as HI.
    rewrite Hrun in HI. cbn [fst snd app] in HI. apply HI.
    - by rewrite Hlen0.
    - apply lock_inv_start. }
  assert (Hlen : length (thr s) = n).
  { rewrite <- Hlen0. by eapply lock_run_length. }
  destruct (inv_spinning _ _ I i t Hi) as (p & Hp & Hdp).
  pose proof (lock_inv_outstanding s tr I) as Hout.
  pose proof (inv_RE _ _ I) as HRE. pose proof (inv_ER _ _ I) as HER.
  assert (Hsize : (length (awaits tr p) <= 2 * n)%nat).
  { unfold awaits. rewrite Hdp, !length_app, length_twice_each, length_drop,
      length_take. cbn [option_list option_rect length].
    rewrite Hlen in Hout.
    destruct (decide (length (entered tr) = length (released tr))) as [He|He].
    - cbn [length]. lia.
    - destruct (inv_holder _ _ I ltac:(lia)) as (h & -> & _). cbn. lia. }
  assert (Hall : forall more, sublist (awaits tr p) more ->
                   i ∈ entered (snd (lock_run more s))).
  { intros more Hsub.
    apply (lock_enters_along more s tr i p t); try done; [by rewrite Hlen|lia]. }
  exists p. split; [done|]. split; [done|]. split; [done|]. split; [done|].
  intros rounds Hr Hfair. apply Hall.
  apply (sublist_rounds n); [|lia|done].
  apply Forall_forall. intros x Hx. rewrite <- Hlen.
  assert (Hd : x ∈ drew tr).
  { unfold awaits in Hx. rewrite !elem_of_app in Hx.
    destruct Hx as [Hx|[Hx|Hx]].
    - destruct (decide _); [by apply elem_of_nil in Hx|].
      destruct (drew tr !! length (released tr)) as [y|] eqn:Hy;
        [|by apply elem_of_nil in Hx].
      apply list_elem_of_singleton in Hx as ->.
      by eapply list_elem_of_lookup_2.
    - apply elem_of_twice_each in Hx.
      apply list_elem_of_lookup in Hx as [m Hm]. rewrite lookup_drop in Hm.
      apply lookup_take_Some in Hm as [Hm _]. by eapply list_elem_of_lookup_2.
    - rewrite Hdp in Hx. apply list_elem_of_singleton in Hx as ->.
      by eapply list_elem_of_lookup_2. }
  apply list_elem_of_lookup in Hd as [m Hm]. by eapply (inv_ids _ _ I).
Qed.

(** X23 on two threads: both have drawn a ticket, thread 1, with the second
    ticket, spins, and completes its acquire once thread 0 has completed
    its own and released, also when it spins once more in between. *)
Lemma ticket_lock_no_starvation_witness :
  1%nat ∈ entered (snd (lock_run [0; 1; 0; 1]%nat
                          (fst (lock_run [0; 1; 1]%nat (lock_start 2))))).
Proof.
  destruct (ticket_lock_no_starvation 2 [0; 1; 1]%nat
              (fst (lock_run [0; 1; 1]%nat (lock_start 2)))
              (snd (lock_run [0; 1; 1]%nat (lock_start 2))) 1 1)
    as (p & Hp & _ & _ & Hmore & _);
    [lia | apply surjective_pairing | reflexivity |].
  apply Hmore.
  destruct p as [|[|p]]; [discriminate Hp| |discriminate Hp].
  apply (sublist_skip 0%nat), sublist_cons, (sublist_skip 0%nat),
    (sublist_skip 1%nat), sublist_nil.
Defined.
(** ** The shared counter under the ticket lock *)

Lemma total_stored_insert (ws : list worker) :
  forall (w : nat) (x y : worker),
  ws !! w = Some x ->
  total_stored (<[w := y]> ws) = total_stored ws - stored x + stored y.
Proof.
  induction ws as [|a ws IH]; intros w x y Hw; [discriminate|].
  destruct w as [|w].
  - injection Hw as ->. cbn [total_stored]. cbn. lia.
  - cbn in Hw. specialize (IH w x y Hw).
    change (<[S w := y]> (a :: ws)) with (a :: <[w := y]> ws).
    cbn [total_stored]. lia.
Qed.

Lemma wrap_int_succ (a : Z) : wrap_int (wrap_int a + 1) = wrap_int (a + 1).
Proof.
  unfold wrap_int. f_equal.
  replace ((a + 2 ^ 31) mod 2 ^ 32 - 2 ^ 31 + 1 + 2 ^ 31)
    with ((a + 2 ^ 31) mod 2 ^ 32 + 1) by lia.
  rewrite Zplus_mod_idemp_l. f_equal. lia.
Qed.

Lemma lock_view_insert_same (ws : list worker) (w : nat) (x y : worker) :
  ws !! w = Some x -> lock_view y = lock_view x ->
  lock_view <$> <[w := y]> ws = lock_view <$> ws.
Proof.
  intros Hw Hv. rewrite list_fmap_insert, Hv.
  apply list_insert_id. by rewrite list_lookup_fmap, Hw.
Qed.

(** At most one thread is between its acquire and its release. *)
Lemma one_in_critical_section (s : test_sys) (tr : list lock_event)
    (a b : nat) (x y : worker) :
  lock_inv (lock_of s) tr ->
  workers s !! a = Some x -> workers s !! b = Some y ->
  lock_view x = Holding -> lock_view y = Holding -> a = b.
Proof.
  intros I Ha Hb Hx Hy.
  assert (H1 : thr (lock_of s) !! a = Some Holding).
  { cbn [lock_of thr]. by rewrite list_lookup_fmap, Ha, <- Hx. }
  assert (H2 : thr (lock_of s) !! b = Some Holding).
  { cbn [lock_of thr]. by rewrite list_lookup_fmap, Hb, <- Hy. }
  destruct (inv_holding _ _ I a H1) as (_ & Hda).
  destruct (inv_holding _ _ I b H2) as (_ & Hdb). congruence.
Qed.

Ltac at_insert H :=
  apply list_lookup_insert_Some in H as [(<- & H & _)|(? & H)].

Lemma test_step_inv (NUM : nat) (w : nat) (s : test_sys) :
  Z.of_nat (length (workers s)) < 2 ^ 32 ->
  test_inv NUM s ->
  test_inv NUM (test_step NUM w s) /\
  length (workers (test_step NUM w s)) = length (workers s).
Proof.
  intros Hn Hinv. pose proof Hinv as [[tr I] Hcnt Hld Hbd Hin Hfin].
  unfold test_step.
  assert (Hthr : length (thr (lock_of s)) = length (workers s)).
  { cbn [lock_of thr]. by rewrite length_fmap. }
  destruct (workers s !! w) as [[p i]|] eqn:Hw; [|by split].
  assert (Hview : thr (lock_of s) !! w = Some (lock_view (mkWorker p i))).
  { cbn [lock_of thr]. by rewrite list_lookup_fmap, Hw. }
  destruct (lock_step_inv w (lock_of s) tr ltac:(by rewrite Hthr) I)
    as [I1 _].
  unfold lock_step in I1. rewrite Hview in I1.
  destruct p as [|t| |v| |].
  - (* at the loop test *)
    destruct (decide (i < NUM)%nat) as [Hlt|Hge].
    + rewrite bool_decide_eq_true_2 by done.
      cbn [lock_view pc lock_of lk thr ticket_lock_acquire_draw xadd fst snd]
        in *.
      split; [|cbn [workers]; by rewrite length_insert].
      split; cbn [workers shared_counter counter_lock].
      * eexists. unfold lock_of. cbn [counter_lock workers].
        rewrite list_fmap_insert. exact I1.
      * rewrite (total_stored_insert _ w _ _ Hw). rewrite Hcnt. f_equal.
        unfold stored. cbn. lia.
      * intros w' v' i' H. at_insert H; [discriminate H|]. by eapply Hld.
      * intros w' x' H. at_insert H; [subst x'; cbn; lia|]. by eapply Hbd.
      * intros w' x' H Hv. at_insert H; [subst x'; cbn; lia|]. by eapply Hin.
      * intros w' i' H. at_insert H; [discriminate H|]. by eapply Hfin.
    + rewrite bool_decide_eq_false_2 by done.
      split; [|cbn [workers]; by rewrite length_insert].
      pose proof (Hbd w _ Hw) as Hle. cbn in Hle.
      split; cbn [workers shared_counter counter_lock].
      * exists tr. unfold lock_of. cbn [counter_lock workers].
        by rewrite (lock_view_insert_same _ w _ _ Hw).
      * rewrite (total_stored_insert _ w _ _ Hw). rewrite Hcnt. f_equal.
        unfold stored. cbn. lia.
      * intros w' v' i' H. at_insert H; [discriminate H|]. by eapply Hld.
      * intros w' x' H. at_insert H; [subst x'; cbn; lia|]. by eapply Hbd.
      * intros w' x' H Hv. at_insert H; [subst x'; by destruct Hv|]. by eapply Hin.
      * intros w' i' H. at_insert H; [|by eapply Hfin].
        injection H as <-. lia.
  - (* spinning *)
    cbn [lock_view pc lock_of lk thr] in *.
    destruct (ticket_lock_acquire_spin (counter_lock s) t) eqn:Hspin.
    + by split.
    + split; [|cbn [workers]; by rewrite length_insert].
      cbn [fst snd] in I1.
      pose proof (Hin w _ Hw ltac:(done)) as Hlt. cbn in Hlt.
      split; cbn [workers shared_counter counter_lock].
      * eexists. unfold lock_of. cbn [counter_lock workers].
        rewrite list_fmap_insert. exact I1.
      * rewrite (total_stored_insert _ w _ _ Hw). rewrite Hcnt. f_equal.
        unfold stored. cbn. lia.
      * intros w' v' i' H. at_insert H; [discriminate H|]. by eapply Hld.
      * intros w' x' H. at_insert H; [subst x'; cbn; lia|]. by eapply Hbd.
      * intros w' x' H Hv. at_insert H; [subst x'; cbn; lia|]. by eapply Hin.
      * intros w' i' H. at_insert H; [discriminate H|]. by eapply Hfin.
  - (* the load *)
    split; [|cbn [workers]; by rewrite length_insert].
    pose proof (Hin w _ Hw ltac:(done)) as Hlt. cbn in Hlt.
    split; cbn [workers shared_counter counter_lock].
    + exists tr. unfold lock_of. cbn [counter_lock workers].
      by rewrite (lock_view_insert_same _ w _ _ Hw).
    + rewrite (total_stored_insert _ w _ _ Hw). rewrite Hcnt. f_equal.
      unfold stored. cbn. lia.
    + intros w' v' i' H. at_insert H; [by injection H as <- _|]. by eapply Hld.
    + intros w' x' H. at_insert H; [subst x'; cbn; lia|]. by eapply Hbd.
    + intros w' x' H Hv. at_insert H; [subst x'; cbn; lia|]. by eapply Hin.
    + intros w' i' H. at_insert H; [discriminate H|]. by eapply Hfin.
  - (* the store *)
    split; [|cbn [workers]; by rewrite length_insert].
    pose proof (Hin w _ Hw ltac:(done)) as Hlt. cbn in Hlt.
    pose proof (Hld w v i Hw) as Hv.
    split; cbn [workers shared_counter counter_lock].
    + exists tr. unfold lock_of. cbn [counter_lock workers].
      by rewrite (lock_view_insert_same _ w _ _ Hw).
    + rewrite (total_stored_insert _ w _ _ Hw). rewrite Hv, Hcnt.
      rewrite wrap_int_succ. f_equal. unfold stored. cbn. lia.
    + intros w' v' i' H. at_insert H; [discriminate H|].
      exfalso.
      assert (w = w') by
        (by eapply (one_in_critical_section s tr w w' _ _ I Hw H)).
      done.
    + intros w' x' H. at_insert H; [subst x'; cbn; lia|]. by eapply Hbd.
    + intros w' x' H Hv'. at_insert H; [subst x'; cbn; lia|]. by eapply Hin.
    + intros w' i' H. at_insert H; [discriminate H|]. by eapply Hfin.
  - (* the release *)
    cbn [lock_view pc lock_of lk thr fst snd] in *.
    split; [|cbn [workers]; by rewrite length_insert].
    pose proof (Hin w _ Hw ltac:(done)) as Hlt. cbn in Hlt.
    split; cbn [workers shared_counter counter_lock].
    + eexists. unfold lock_of. cbn [counter_lock workers].
      rewrite list_fmap_insert. exact I1.
    + rewrite (total_stored_insert _ w _ _ Hw). rewrite Hcnt. f_equal.
      unfold stored. cbn. lia.
    + intros w' v' i' H. at_insert H; [discriminate H|]. by eapply Hld.
    + intros w' x' H. at_insert H; [subst x'; cbn; lia|]. by eapply Hbd.
    + intros w' x' H Hv. at_insert H; [subst x'; by destruct Hv|]. by eapply Hin.
    + intros w' i' H. at_insert H; [discriminate H|]. by eapply Hfin.
  - (* finished *)
    by split.
Qed.

Lemma total_stored_const (c : Z) (ws : list worker) :
  (forall w x, ws !! w = Some x -> stored x = c) ->
  total_stored ws = Z.of_nat (length ws) * c.
Proof.
  induction ws as [|a ws IH]; intros Hall; [cbn; lia|].
  cbn [total_stored length].
  rewrite (Hall 0%nat a eq_refl), IH; [lia|].
  intros w x Hw. by apply (Hall (S w)).
Qed.

Lemma test_inv_start (NUM n : nat) : test_inv NUM (test_start n).
Proof.
  split; cbn [test_start workers shared_counter counter_lock].
  - exists []. unfold lock_of, test_start. cbn [counter_lock workers].
    rewrite fmap_replicate. apply lock_inv_start.
  - rewrite (total_stored_const 0).
    + by rewrite Z.mul_0_r.
    + intros w x Hw. apply lookup_replicate in Hw as [-> _]. done.
  - intros w v i Hw. apply lookup_replicate in Hw as [Hw _]. discriminate Hw.
  - intros w x Hw. apply lookup_replicate in Hw as [-> _]. cbn. lia.
  - intros w x Hw Hv. apply lookup_replicate in Hw as [-> _]. by destruct Hv.
  - intros w i Hw. apply lookup_replicate in Hw as [Hw _]. discriminate Hw.
Qed.

Lemma test_run_inv (NUM : nat) (schedule : list nat) : forall (s : test_sys),
  Z.of_nat (length (workers s)) < 2 ^ 32 ->
  test_inv NUM s ->
  test_inv NUM (test_run NUM schedule s) /\
  length (workers (test_run NUM schedule s)) = length (workers s).
Proof.
  induction schedule as [|w rest IH]; intros s Hn I; [by split|].
  cbn [test_run].
  destruct (test_step_inv NUM w s Hn I) as [I1 Hlen].
  destruct (IH (test_step NUM w s)) as [I2 Hlen2]; [by rewrite Hlen|done|].
  split; [done|]. by rewrite Hlen2.
Qed.

(** X24.  The result [threadtest] expects.  Under every interleaving of
    the atomic steps of fewer than 2^32 incrementer threads (drawing a
    ticket, testing the turn, loading the counter, storing it, releasing),
    the counter always equals the number of stores made so far, a value a
    thread has loaded is still the counter's value when it stores, and at
    most one thread is between acquire and release.  So when every thread
    has left its loop the counter is [nthreads * NUM_INCREMENTS] (as an
    [int]): no increment is lost. *)
Theorem counter_matches_expected (n NUM : nat) (schedule : list nat) :
  Z.of_nat n < 2 ^ 32 ->
  shared_counter (test_run NUM schedule (test_start n)) =
    wrap_int (total_stored (workers (test_run NUM schedule (test_start n)))) /\
  (forall w v i,
     workers (test_run NUM schedule (test_start n)) !! w =
       Some (mkWorker (At_store v) i) ->
     v = shared_counter (test_run NUM schedule (test_start n))) /\
  (forall a b x y,
     workers (test_run NUM schedule (test_start n)) !! a = Some x ->
     workers (test_run NUM schedule (test_start n)) !! b = Some y ->
     lock_view x = Holding -> lock_view y = Holding -> a = b) /\
  (Forall (fun x => pc x = Finished)
          (workers (test_run NUM schedule (test_start n))) ->
   shared_counter (test_run NUM schedule (test_start n)) =
     wrap_int (Z.of_nat n * Z.of_nat NUM) /\
   (Z.of_nat n * Z.of_nat NUM < 2 ^ 31 ->
    shared_counter (test_run NUM schedule (test_start n)) =
      Z.of_nat n * Z.of_nat NUM)).
Proof.
  intros Hn.
  assert (Hlen0 : length (workers (test_start n)) = n).
  { cbn. by rewrite length_replicate. }
  destruct (test_run_inv NUM schedule (test_start n)) as [I Hlen].
  { by rewrite Hlen0. }
  { apply test_inv_start. }
  rewrite Hlen0 in Hlen.
  set (s := test_run NUM schedule (test_start n)) in *.
  destruct I as [[tr I] Hcnt Hld Hbd Hin Hfin].
  split; [done|]. split; [done|]. split.
  { intros a b x y Ha Hb Hx Hy.
    by apply (one_in_critical_section s tr a b x y). }
  intros Hall. rewrite Forall_lookup in Hall.
  assert (Htot : total_stored (workers s) = Z.of_nat n * Z.of_nat NUM).
  { rewrite (total_stored_const (Z.of_nat NUM)); [by rewrite Hlen|].
    intros w [p i] Hw. pose proof (Hall w _ Hw) as Hp. cbn in Hp. subst p.
    rewrite (Hfin w i Hw). unfold stored. cbn. lia. }
  rewrite Hcnt, Htot. split; [done|].
  intros Hsmall. unfold wrap_int. rewrite Z.mod_small; lia.
Qed.

(** X24 on two threads and one increment each, thread 1 waiting while
    thread 0 is in its critical section. *)
Lemma counter_matches_expected_witness :
  shared_counter
    (test_run 1 [0; 1; 1; 0; 0; 0; 0; 1; 1; 1; 1; 0; 1]%nat (test_start 2)) = 2.
Proof.
  destruct (counter_matches_expected 2 1
              [0; 1; 1; 0; 0; 0; 0; 1; 1; 1; 1; 0; 1]%nat)
    as (_ & _ & _ & Hend); [lia|].
  destruct Hend as [_ Hval].
  - vm_compute. repeat constructor.
  - apply Hval. lia.
Defined.
(** ** The thread library: thread_create and thread_join *)

(** X25.  [thread_create] does not leak the stack when it fails.  If
    [malloc] has no block it returns -1 without entering the kernel; if
    the [clone] call fails it returns -1 and has freed the block, so the
    live blocks are those from before the call. *)
Theorem thread_create_failure_frees (malloc : list Z -> Z -> Z)
    (argptr : list Z -> nat -> Z -> option Z)
    (PGSIZE : Z) (uvm_ok : Z -> Z -> Z -> bool)
    (tid start_routine arg1 arg2 : Z) (cur : nat) (u : user) (k : kernel) :
  (malloc (heap u) USER_THREAD_STACK_SIZE = 0 ->
     exists u',
       thread_create malloc argptr PGSIZE uvm_ok tid start_routine arg1 arg2
                     cur u k = (-1, u', k) /\
       heap u' = heap u /\ ustores u' = ustores u) /\
  (malloc (heap u) USER_THREAD_STACK_SIZE <> 0 ->
   fst (sys_clone PGSIZE uvm_ok
          (argptr [start_routine; arg1; arg2;
                   malloc (heap u) USER_THREAD_STACK_SIZE]) cur k) < 0 ->
     exists u',
       thread_create malloc argptr PGSIZE uvm_ok tid start_routine arg1 arg2
                     cur u k =
         (-1, u',
          snd (sys_clone PGSIZE uvm_ok
                 (argptr [start_routine; arg1; arg2;
                          malloc (heap u) USER_THREAD_STACK_SIZE]) cur k)) /\
       heap u' = heap u /\ ustores u' = ustores u).
Proof.
  unfold thread_create. split.
  - intros ->. rewrite bool_decide_eq_true_2 by done. by eexists.
  - intros Hm Hneg. rewrite bool_decide_eq_false_2 by done.
    destruct (sys_clone _ _ _ _ _) as [pid k1]. cbn [fst snd] in *.
    rewrite bool_decide_eq_true_2 by done.
    eexists. split; [reflexivity|].
    cbn [ufree uprintf heap ustores heap_remove].
    by rewrite bool_decide_eq_true_2.
Qed.

Lemma sys_clone_passes (PGSIZE : Z) (uvm_ok : Z -> Z -> Z -> bool)
    (argptr : nat -> Z -> option Z) (cur : nat) (k : kernel) (c : proc)
    (fcn arg1 arg2 stack : Z) :
  ptable k !! cur = Some c ->
  argptr 0%nat 4 = Some fcn -> argptr 1%nat 4 = Some arg1 ->
  argptr 2%nat 4 = Some arg2 -> argptr 3%nat 4 = Some stack ->
  0 <= stack -> 0 < PGSIZE -> stack + PGSIZE <= sz c -> sz c < 2 ^ 32 ->
  sys_clone PGSIZE uvm_ok argptr cur k =
  clone PGSIZE uvm_ok fcn arg1 arg2 stack cur k.
Proof.
  intros Hc H0 H1 H2 H3 Hs HP Htop Hsz.
  unfold sys_clone. rewrite H0, H1, H2, H3, (slot_lookup k cur c Hc).
  assert (Hw : wrap32 (stack + PGSIZE) = stack + PGSIZE).
  { unfold wrap32. rewrite Z.mod_small; lia. }
  rewrite Hw.
  rewrite (bool_decide_eq_false_2 (stack >= sz c)) by lia.
  rewrite (bool_decide_eq_false_2 (stack + PGSIZE > sz c)) by lia.
  by rewrite (bool_decide_eq_false_2 (stack + PGSIZE < stack)) by lia.
Qed.

(** X26.  The stack of a thread lives exactly as long as the thread.
    [thread_create] allocates a block and passes it to [clone] as the
    stack; when the thread has run to [exit], [thread_join] returns the
    pid that [thread_create] returned, reads the block's address from the
    word the kernel stored for it, and frees that block: the live blocks
    and the kernel's free pages are then what they were before
    [thread_create]. *)
Theorem thread_create_join_roundtrip (malloc : list Z -> Z -> Z)
    (argptr : list Z -> nat -> Z -> option Z)
    (PGSIZE : Z) (uvm_ok : Z -> Z -> Z -> bool)
    (tid start_routine arg1 arg2 dst old stack : Z) (env : environment)
    (cur : nat) (u : user) (k : kernel)
    (np : nat) (p0 c : proc) (pg : Z) (rest : list Z) :
  malloc (heap u) USER_THREAD_STACK_SIZE = stack -> 0 < stack ->
  (forall n a, [start_routine; arg1; arg2; stack] !! n = Some a ->
     argptr [start_routine; arg1; arg2; stack] n 4 = Some a) ->
  argptr [dst] 0%nat 4 = Some dst ->
  list_find (fun q => state q = UNUSED) (ptable k) = Some (np, p0) ->
  kmem k = pg :: rest -> pg <> 0 ->
  ptable k !! cur = Some c -> state c <> UNUSED ->
  12 <= PGSIZE -> stack + PGSIZE <= sz c -> sz c < 2 ^ 32 ->
  uvm_ok (pgdir c) (stack + PGSIZE - 4) 4 = true ->
  uvm_ok (pgdir c) (stack + PGSIZE - 8) 4 = true ->
  uvm_ok (pgdir c) (stack + PGSIZE - 12) 4 = true ->
  uvm_ok (pgdir c) dst 4 = true ->
  Slot np <> initproc k ->
  (forall x, x ∈ ptable k -> parent x <> Slot np) ->
  list_find (zombie_thread_child cur) (ptable k) = None ->
  0 < nextpid k ->
  exists u1 k1 u3 k3,
    thread_create malloc argptr PGSIZE uvm_ok tid start_routine arg1 arg2
                  cur u k = (nextpid k, u1, k1) /\
    heap u1 = stack :: heap u /\
    user_stack (slot k1 np) = stack /\
    thread_join argptr uvm_ok dst old env cur u1
                (release (scheduler_visit runs_to_exit np (acquire k1))) =
      (Ret (nextpid k) k3, u3) /\
    heap u3 = heap u /\ kmem k3 = kmem k /\
    state (slot k3 np) = UNUSED /\ vm_freed k3 = vm_freed k.
Proof.
  intros Hmalloc Hstack Hargs Hdst Hfind Hmem Hpg Hc Hst HP Htop Hsz
         Hok1 Hok2 Hok3 Hokd Hroot Hno Hnone Hpid.
  pose proof (clone_eval PGSIZE uvm_ok start_routine arg1 arg2 stack cur k np
                p0 c pg rest Hfind Hmem Hpg Hc Hst HP ltac:(lia) ltac:(lia)
                Hok1 Hok2 Hok3) as Hclone.
  apply list_find_Some in Hfind as (Hp0 & Hp0st & _).
  assert (Hnp : (np < length (ptable k))%nat) by (by eapply lookup_lt_Some).
  assert (Hne : np <> cur) by (intros ->; congruence).
  set (q := cloned PGSIZE start_routine stack cur c p0 pg (nextpid k)) in *.
  match type of Hclone with _ = (_, ?kk) => set (k1 := kk) in * end.
  assert (Hq : parent q = Slot cur /\ is_thread q = 1 /\ state q = RUNNABLE /\
               pid q = nextpid k /\ kstack q = pg /\ user_stack q = stack).
  { unfold q, cloned, embryo. by peval. }
  destruct Hq as (Hq1 & Hq2 & Hq3 & Hq4 & Hq5 & Hq6).
  assert (Hk1np : ptable k1 !! np = Some q).
  { unfold k1. cbn [ptable]. by rewrite list_lookup_insert_eq. }
  assert (Hk1cur : ptable k1 !! cur = Some c).
  { unfold k1. cbn [ptable]. by rewrite list_lookup_insert_ne. }
  assert (Hthr : is_thread q <> 0) by (by rewrite Hq2).
  assert (Hno1 : forall x, x ∈ ptable k1 -> parent x <> Slot np).
  { unfold k1. cbn [ptable]. intros x Hx.
    apply elem_of_insert_inv in Hx as [->|Hx]; [|by apply Hno].
    rewrite Hq1. congruence. }
  assert (Hnone1 : list_find (zombie_thread_child cur) (ptable k1) = None).
  { unfold k1. cbn [ptable]. apply list_find_insert_None; [done|].
    unfold zombie_thread_child. rewrite Hq3. by intros (_ & _ & ?). }
  destruct (run_exit_join_eval uvm_ok dst env cur np k1 c q
              Hk1cur Hk1np Hq3 Hq1 Hthr Hroot Hno1 Hnone1 Hokd)
    as (k3 & Hj & Htab & Huw & Hkm & Hvm & Hnext & Hl).
  assert (Hk3cur : slot k3 cur = woken (Slot cur) c).
  { unfold slot. rewrite Htab. apply list_lookup_total_correct.
    rewrite list_lookup_insert_ne by done.
    by rewrite list_lookup_fmap, Hk1cur. }
  assert (Hk3np : slot k3 np = reaped_by_join (closed q)).
  { unfold slot. rewrite Htab. apply list_lookup_total_correct.
    rewrite list_lookup_insert_eq; [done|].
    unfold k1. cbn [ptable]. by rewrite length_fmap, length_insert. }
  exists (mkUser (stack :: heap u)
                 (if bool_decide (tid ≠ 0) then (tid, nextpid k) :: ustores u
                  else ustores u)
                 (uconsole u)),
         k1, (mkUser (heap u)
                 (if bool_decide (tid ≠ 0) then (tid, nextpid k) :: ustores u
                  else ustores u)
                 (uconsole u)), k3.
  split.
  { unfold thread_create. rewrite Hmalloc.
    rewrite bool_decide_eq_false_2 by lia.
    rewrite (sys_clone_passes PGSIZE uvm_ok _ cur k c start_routine arg1 arg2
               stack); try done; try lia; try (by apply Hargs).
    rewrite Hclone.
    rewrite (bool_decide_eq_false_2 (nextpid k < 0)) by lia.
    rewrite (bool_decide_eq_true_2 (nextpid k > 0)) by lia.
    cbn [andb heap ustores uconsole].
    by destruct (bool_decide (tid ≠ 0)). }
  split; [done|].
  split; [by rewrite (slot_lookup k1 np q Hk1np)|].
  split.
  { unfold thread_join, sys_join. rewrite Hdst, Hj, Hq4.
    rewrite Huw, Hk3cur, Hq6.
    destruct (woken_fields (Slot cur) c) as (_ & _ & -> & _).
    cbn [uread uw_pgdir uw_va uw_val].
    rewrite (bool_decide_eq_true_2 (pgdir c = pgdir c)) by done.
    rewrite (bool_decide_eq_true_2 (dst = dst)) by done.
    rewrite (bool_decide_eq_true_2 (nextpid k > 0)) by lia. cbn [andb].
    rewrite (bool_decide_eq_true_2 (stack ≠ 0)) by lia.
    unfold ufree. cbn [heap ustores uconsole heap_remove].
    by rewrite bool_decide_eq_true_2. }
  split; [done|].
  rewrite Hkm, Hq5, Hvm, Hk3np.
  split; [by rewrite Hmem|]. done.
Qed.

(** X26 on the lone process of slot 1, whose allocator answers 8192. *)
Lemma thread_create_join_roundtrip_witness :
  exists u1 k1 u3 k3,
    thread_create (fun _ _ => 8192) (fun args n _ => args !! n) 4096 uvm_all
                  0 1000 11 22 1 (mkUser [] [] []) lone_kernel = (3, u1, k1) /\
    heap u1 = [8192] /\
    thread_join (fun args n _ => args !! n) uvm_all 40 0 [] 1 u1
                (release (scheduler_visit runs_to_exit 2 (acquire k1))) =
      (Ret 3 k3, u3) /\
    heap u3 = [] /\ kmem k3 = kmem lone_kernel.
Proof.
  destruct (thread_create_join_roundtrip (fun _ _ => 8192)
              (fun args n _ => args !! n) 4096 uvm_all 0 1000 11 22 40 0 8192
              [] 1 (mkUser [] [] []) lone_kernel 2%nat proc0
              (lone_table !!! 1%nat) 9000 [9001])
    as (u1 & k1 & u3 & k3 & H1 & H2 & _ & H4 & H5 & H6 & _);
    [reflexivity | lia | by intros n a Hn | reflexivity | reflexivity
    | reflexivity | discriminate | reflexivity | discriminate
    | lia | by vm_compute | by vm_compute
    | reflexivity | reflexivity | reflexivity | reflexivity
    | discriminate | | reflexivity | by vm_compute |].
  - intros x Hx. apply list_elem_of_lookup_1 in Hx as [j Hj].
    do 3 (destruct j as [|j]; [injection Hj as <-; discriminate|]).
    discriminate Hj.
  - exists u1, k1, u3, k3.
    exact (conj H1 (conj H2 (conj H4 (conj H5 H6)))).
Defined.
(** ** Slots that are not in use, and threads that nobody joins *)

(** X27.  [kill] compares pids without looking at the state of the slot,
    and [allocproc] does not reset the kill flag.  So when the first slot
    that carries the given pid is UNUSED (a slot that was never used or
    has been reaped carries pid 0; a slot given back after a failed
    [fork] or [clone] keeps the pid it had drawn), [kill] answers 0 and
    sets the flag on that slot, and the process that [fork] next creates
    in the slot is born with the flag set. *)
Theorem kill_flag_survives_allocation (copyuvm : Z -> Z -> Z) (id : Z)
    (cur : nat) (k : kernel) (i : nat) (p c : proc) (pg : Z) (rest : list Z) :
  list_find (fun q => pid q = id) (ptable k) = Some (i, p) ->
  list_find (fun q => state q = UNUSED) (ptable k) = Some (i, p) ->
  kmem k = pg :: rest -> pg <> 0 ->
  ptable k !! cur = Some c -> state c <> UNUSED ->
  copyuvm (pgdir c) (sz c) <> 0 ->
  exists k1 k2,
    kill id k = (0, k1) /\
    state (slot k1 i) = UNUSED /\ killed (slot k1 i) = 1 /\
    (forall j, j <> i -> ptable k1 !! j = ptable k !! j) /\
    fork copyuvm cur k1 = (nextpid k, k2) /\
    state (slot k2 i) = RUNNABLE /\ pid (slot k2 i) = nextpid k /\
    parent (slot k2 i) = Slot cur /\ killed (slot k2 i) = 1.
Proof.
  intros Hpid Hfree Hmem Hpg Hc Hst Hcopy.
  assert (Hfree' := Hfree).
  apply list_find_Some in Hfree' as (Hp & Hpst & Hfirst).
  assert (Hi : (i < length (ptable k))%nat) by (by eapply lookup_lt_Some).
  assert (Hne : i <> cur) by (intros ->; congruence).
  apply list_find_Some in Hpid as (_ & Hpp & Hpfirst).
  unfold kill.
  destruct (kill_from_found (NPROC (acquire k)) 0 id (acquire k) i p)
    as (k1 & Hk & Ht & Hl & Hn & Hkm & Hvm & Huw); try done.
  { unfold NPROC. cbn. lia. }
  { intros j' q Hj' Hq. apply (Hpfirst j' q Hq). lia. }
  rewrite Hk. cbn [ptable] in Ht.
  assert (Hmark : kill_mark p = set_killed 1 p).
  { unfold kill_mark. rewrite Hpst. by rewrite bool_decide_eq_false_2. }
  rewrite Hmark in Ht.
  assert (Hf1 : list_find (fun q => state q = UNUSED) (ptable k1)
                = Some (i, set_killed 1 p)).
  { rewrite Ht. apply list_find_Some. split; [|split].
    - by rewrite list_lookup_insert_eq.
    - done.
    - intros j y Hy Hj. rewrite list_lookup_insert_ne in Hy by lia.
      by apply (Hfirst j y). }
  assert (Hc1 : ptable k1 !! cur = Some c).
  { rewrite Ht. by rewrite list_lookup_insert_ne. }
  pose proof (fork_eval copyuvm cur k1 i (set_killed 1 p) c pg rest Hf1
                ltac:(by rewrite Hkm) Hpg Hc1 Hst) as Hfork.
  rewrite bool_decide_eq_false_2 in Hfork by done.
  rewrite Hn in Hfork.
  eexists k1, _. split; [reflexivity|].
  assert (Hs1 : slot k1 i = set_killed 1 p).
  { apply slot_lookup. rewrite Ht. by rewrite list_lookup_insert_eq. }
  rewrite Hs1. split; [done|]. split; [done|]. split.
  { intros j Hj. rewrite Ht. by rewrite list_lookup_insert_ne. }
  split; [exact Hfork|].
  assert (Hi1 : (i < length (ptable k1))%nat).
  { rewrite Ht, length_insert. exact Hi. }
  rewrite slot_mk, lookup_total_insert_eq by done.
  unfold forked, embryo. by peval.
Qed.

(** X27 on the sample kernel, whose free slot 4 carries pid 0: after
    [kill(0)] the process forked into slot 4 is born kill-flagged. *)
Lemma kill_flag_survives_allocation_witness :
  exists k1 k2,
    kill 0 sample_kernel = (0, k1) /\
    fork (fun pd _ => pd + 1000) 1 k1 = (5, k2) /\
    killed (slot k2 4) = 1 /\ state (slot k2 4) = RUNNABLE.
Proof.
  destruct (kill_flag_survives_allocation (fun pd _ => pd + 1000) 0 1
              sample_kernel 4%nat proc0
              (unit_of RUNNING 2 (Slot 0) 200 6000 0 0 Null 0) 9000 [9001])
    as (k1 & k2 & H1 & _ & _ & _ & H5 & H6 & _ & _ & H9);
    [reflexivity | reflexivity | reflexivity | discriminate | reflexivity
    | discriminate | discriminate |].
  exists k1, k2. exact (conj H1 (conj H5 (conj H9 H6))).
Defined.

(** A scan that returns has reaped one selected slot. *)
Lemma scan_from_return sel reap (n : nat) : forall i havekids k v k',
  scan_from sel reap n i havekids k = Scan_return v k' ->
  exists j, (i <= j < i + n)%nat /\ sel (slot k j) = true /\
            reap j k = (v, k').
Proof.
  induction n as [|n IH]; intros i havekids k v k' H; [discriminate|].
  cbn [scan_from] in H.
  destruct (sel (slot k i)) eqn:Hsel; cbn [negb] in H.
  - destruct (bool_decide (state (slot k i) = ZOMBIE)).
    + destruct (reap i k) as [v0 k0] eqn:Hr. injection H as <- <-.
      exists i. split; [lia|]. by split.
    + destruct (IH _ _ _ _ _ H) as (j & Hj & Hs & Hr).
      exists j. split; [lia|]. by split.
  - destruct (IH _ _ _ _ _ H) as (j & Hj & Hs & Hr).
    exists j. split; [lia|]. by split.
Qed.

Lemma lookup_sleep_enter (c : ptr) (cur t : nat) (k : kernel) :
  t <> cur -> ptable (sleep_enter c cur k) !! t = ptable k !! t.
Proof.
  intros Hne. unfold sleep_enter.
  rewrite lookup_write_state, decide_False by done.
  by rewrite lookup_upd, decide_False by done.
Qed.

Lemma lookup_sleep_leave (cur t : nat) (k : kernel) :
  t <> cur -> ptable (sleep_leave cur k) !! t = ptable k !! t.
Proof.
  intros Hne. unfold sleep_leave. by rewrite lookup_upd, decide_False by done.
Qed.

Lemma wait_loop_leaves_threads (cur t : nat) (q : proc) (env : environment) :
  forall k,
  ptable k !! t = Some q -> is_thread q <> 0 -> t <> cur ->
  Forall (fun others => forall k0, ptable (others k0) !! t = ptable k0 !! t)
         env ->
  ptable (outcome_kernel (wait_loop env cur k)) !! t = Some q.
Proof.
  induction env as [|others env IH]; intros k Hq Hthr Hne Henv;
    rewrite wait_loop_unfold;
    (destruct (wait_scan (NPROC k) 0 cur false k) as [v k'|hk] eqn:Hscan;
     [ rewrite wait_scan_scan_from in Hscan;
       apply scan_from_return in Hscan as (j & Hj & Hsel & Hreap);
       apply wait_sel_true in Hsel as [_ Hproc];
       destruct (lookup_lt_is_Some_2 (ptable k) j ltac:(unfold NPROC in Hj; lia))
         as [p Hp];
       rewrite (wait_reap_eval j k p Hp) in Hreap;
       injection Hreap as <- <-; cbn [outcome_kernel ptable];
       rewrite (slot_lookup k j p Hp) in Hproc;
       rewrite list_lookup_insert_ne by (intros ->; congruence); done
     | ]);
    (destruct (negb hk || bool_decide (killed (slot k cur) ≠ 0)); [done|]);
    (destruct (sched_check cur (sleep_enter (Slot cur) cur k));
     [cbn [outcome_kernel]; by rewrite lookup_sleep_enter|]).
  - cbn [outcome_kernel]. by rewrite lookup_sleep_enter.
  - apply Forall_cons in Henv as [Ho Henv]. apply IH; try done.
    by rewrite lookup_sleep_leave, Ho, lookup_sleep_enter.
Qed.

Lemma join_loop_leaves_processes (uvm_ok : Z -> Z -> Z -> bool) (dst : Z)
    (cur t : nat) (q : proc) (env : environment) :
  forall k,
  ptable k !! t = Some q -> is_thread q = 0 -> t <> cur ->
  (cur < NPROC k)%nat ->
  Forall (fun others => forall k0,
            ptable (others k0) !! t = ptable k0 !! t /\
            NPROC (others k0) = NPROC k0) env ->
  ptable (outcome_kernel (join_loop uvm_ok dst env cur k)) !! t = Some q.
Proof.
  induction env as [|others env IH]; intros k Hq Hproc Hne Hcur Henv;
    rewrite join_loop_unfold;
    (destruct (join_scan uvm_ok dst (NPROC k) 0 cur false k) as [v k'|hk]
       eqn:Hscan;
     [ rewrite join_scan_scan_from in Hscan;
       apply scan_from_return in Hscan as (j & Hj & Hsel & Hreap);
       apply join_sel_true in Hsel as [_ Hthr];
       destruct (lookup_lt_is_Some_2 (ptable k) j ltac:(unfold NPROC in Hj; lia))
         as [p Hp];
       destruct (lookup_lt_is_Some_2 (ptable k) cur Hcur) as [c Hc];
       rewrite (join_reap_eval uvm_ok dst j cur k p c Hp Hc) in Hreap;
       rewrite (slot_lookup k j p Hp) in Hthr;
       destruct (uvm_ok (pgdir c) dst 4); injection Hreap as <- <-;
       cbn [outcome_kernel ptable]; [|done];
       rewrite list_lookup_insert_ne by (intros ->; congruence); done
     | ]);
    (destruct (negb hk || bool_decide (killed (slot k cur) ≠ 0)); [done|]);
    (destruct (sched_check cur (sleep_enter (Slot cur) cur k));
     [cbn [outcome_kernel]; by rewrite lookup_sleep_enter|]).
  - cbn [outcome_kernel]. by rewrite lookup_sleep_enter.
  - apply Forall_cons in Henv as [Ho Henv].
    destruct (Ho (sleep_enter (Slot cur) cur k)) as [Ho1 Ho2].
    apply IH; try done.
    + by rewrite lookup_sleep_leave, Ho1, lookup_sleep_enter.
    + unfold sleep_leave. rewrite NPROC_upd, Ho2.
      unfold sleep_enter. by rewrite NPROC_write_state, NPROC_upd.
Qed.

(** X28.  The two reapers keep apart.  Whatever happens while it sleeps,
    [wait] never changes the slot of a thread and [join] never changes the
    slot of a process (other than the caller's own slot).  In particular a
    Zombie thread stays a Zombie, with its kernel stack, through any
    number of [wait] calls of its parent: only [join] reaps it. *)
Theorem reapers_keep_apart (uvm_ok : Z -> Z -> Z -> bool) (dst : Z)
    (env : environment) (cur t : nat) (k : kernel) (q : proc) :
  ptable k !! t = Some q -> t <> cur -> (cur < NPROC k)%nat ->
  Forall (fun others => forall k0,
            ptable (others k0) !! t = ptable k0 !! t /\
            NPROC (others k0) = NPROC k0) env ->
  (is_thread q <> 0 ->
     ptable (outcome_kernel (wait env cur k)) !! t = Some q) /\
  (is_thread q = 0 ->
     ptable (outcome_kernel (join uvm_ok dst env cur k)) !! t = Some q).
Proof.
  intros Hq Hne Hcur Henv. split.
  - intros Hthr. unfold wait. apply wait_loop_leaves_threads; try done.
    eapply Forall_impl; [exact Henv|]. intros others Ho k0. apply Ho.
  - intros Hproc. unfold join. by apply join_loop_leaves_processes.
Qed.

(** X28 on the sample kernel: the process in slot 1 waits and reaps its
    zombie process child; its zombie thread in slot 2 is untouched. *)
Lemma reapers_keep_apart_witness :
  ptable (outcome_kernel (wait [] 1 sample_kernel)) !! 2%nat =
    Some (unit_of ZOMBIE 3 (Slot 1) 200 7000 1 12288 Null 0).
Proof.
  destruct (reapers_keep_apart uvm_all 0 [] 1 2 sample_kernel
              (unit_of ZOMBIE 3 (Slot 1) 200 7000 1 12288 Null 0))
    as (H1 & _);
    [reflexivity | discriminate | vm_compute; lia | constructor |].
  apply H1. discriminate.
Defined.

(** After the exit of slot [p], the first Zombie process that is a child of
    init is the first Zombie process child that [p] has left behind. *)
Lemma orphan_first_for_init (i0 p z : nat) (k : kernel) (P Zc : proc) :
  initproc k = Slot i0 ->
  ptable k !! p = Some P -> p <> i0 ->
  parent P <> Slot i0 \/ (z < p)%nat -> parent P <> Slot p ->
  list_find (zombie_child p) (ptable k) = Some (z, Zc) ->
  list_find (zombie_child i0) (ptable k) = None ->
  exists Zc',
    list_find (zombie_child i0) (ptable (exit_handoff p k)) = Some (z, Zc') /\
    pid Zc' = pid Zc /\ kstack Zc' = kstack Zc /\
    parent Zc' = Slot i0 /\ state Zc' = ZOMBIE.
Proof.
  intros Hinit HP Hpi HPpar HPself Hz Hnone.
  apply list_find_Some in Hz as (Hzl & (Hz1 & Hz2 & Hz3) & Hzfirst).
  assert (Hzn : (z < NPROC k)%nat) by (by eapply lookup_lt_Some).
  assert (Hzp : z <> p) by (intros ->; congruence).
  assert (Hlz : bool_decide (leaves_zombie p k) = true).
  { apply bool_decide_eq_true_2. unfold leaves_zombie. apply Exists_exists.
    exists Zc. split; [by eapply list_elem_of_lookup_2|done]. }
  destruct (exit_handoff_facts p k P HP)
    as (_ & Hn & _ & _ & _ & _ & _ & Hslot).
  assert (Hother : forall j, (j < NPROC k)%nat -> j <> p ->
            slot (exit_handoff p k) j =
            reparented p (Slot i0) true (woken (parent P) (slot k j))).
  { intros j Hj Hjp. rewrite (Hslot j Hj), Hlz, Hinit.
    by rewrite !decide_False by done. }
  assert (Hself : slot (exit_handoff p k) p =
            set_state ZOMBIE
              (reparented p (Slot i0) true (woken (parent P) (closed P)))).
  { rewrite (Hslot p) by (by eapply lookup_lt_Some). rewrite Hlz, Hinit.
    by rewrite !decide_True by done. }
  clear Hslot.
  assert (Hiff : forall x,
            zombie_child i0 (reparented p (Slot i0) true (woken (parent P) x))
            <-> zombie_child p x \/ zombie_child i0 x).
  { intros x.
    destruct (reparented_woken_fields p (Slot i0) (parent P) true x)
      as (R1 & _ & _ & _ & _ & R6 & _ & _ & R9).
    unfold zombie_child. rewrite R1, R6, R9.
    destruct (decide (state x = SLEEPING)) as [Hs|Hs].
    - rewrite Hs.
      destruct (bool_decide (SLEEPING = SLEEPING) && _);
        split; (intros (_ & _ & ?) || intros [(_ & _ & ?)|(_ & _ & ?)]);
        discriminate.
    - rewrite (bool_decide_eq_false_2 (state x = SLEEPING)) by done.
      cbn [andb].
      destruct (decide (parent x = Slot p)) as [Hp|Hp].
      + rewrite bool_decide_eq_true_2 by done. split.
        * intros (_ & ? & ?). by left.
        * intros [(_ & ? & ?)|(_ & ? & ?)]; done.
      + rewrite bool_decide_eq_false_2 by done. split.
        * intros (? & ? & ?). by right.
        * intros [(? & _ & _)|?]; done. }
  set (kz := exit_handoff p k) in *. clearbody kz.
  exists (slot kz z).
  destruct (reparented_woken_fields p (Slot i0) (parent P) true Zc)
    as (R1 & R2 & _ & _ & _ & _ & R7 & _ & R9).
  rewrite (Hother z Hzn Hzp), (slot_lookup k z Zc Hzl).
  split; [|split; [done|split; [done|split]]].
  - apply list_find_Some. split; [|split].
    + rewrite <- (slot_lookup k z Zc Hzl), <- (Hother z Hzn Hzp).
      apply lookup_slot. by rewrite Hn.
    + apply Hiff. by left.
    + intros j y Hy Hjz.
      assert (Hj : (j < NPROC k)%nat) by lia.
      rewrite (lookup_slot kz j) in Hy by (by rewrite Hn).
      injection Hy as <-.
      destruct (decide (j = p)) as [->|Hjp].
      * destruct HPpar as [HPpar|HPpar]; [|lia].
        rewrite Hself.
        destruct (reparented_woken_fields p (Slot i0) (parent P) true
                    (closed P)) as (Q1 & _).
        unfold zombie_child. cbn [parent set_state]. rewrite Q1.
        unfold closed. cbn [parent set_cwd set_ofile].
        rewrite bool_decide_eq_false_2 by done. by intros (? & _).
      * rewrite (Hother j Hj Hjp), Hiff.
        apply list_find_None in Hnone. rewrite Forall_forall in Hnone.
        intros [Hc|Hc].
        -- apply (Hzfirst j (slot k j)); [by apply lookup_slot|lia|done].
        -- apply (Hnone (slot k j)); [|done].
           eapply list_elem_of_lookup_2. by apply lookup_slot.
  - rewrite R1. by rewrite bool_decide_eq_true_2.
  - rewrite R9, Hz3. by rewrite (bool_decide_eq_false_2 (ZOMBIE = SLEEPING)).
Qed.

(** X29.  Orphans go to init.  A process that exits while it has a Zombie
    child (a process, the first one in table order) hands it to the
    initial process; the next [wait] of the initial process, which had
    nothing of its own to reap, returns that child's pid, gives its kernel
    stack back and empties its slot. *)
Theorem orphan_reaped_by_init (env : environment) (i0 p z : nat) (k : kernel)
    (c0 P Zc : proc) :
  initproc k = Slot i0 ->
  ptable k !! i0 = Some c0 -> ptable k !! p = Some P -> p <> i0 ->
  parent P <> Slot i0 \/ (z < p)%nat -> parent P <> Slot p ->
  list_find (zombie_child p) (ptable k) = Some (z, Zc) ->
  list_find (zombie_child i0) (ptable k) = None ->
  exists kz k',
    exit [] p k = Switched kz /\
    parent (slot kz z) = Slot i0 /\ state (slot kz z) = ZOMBIE /\
    wait env i0 (release kz) = Ret (pid Zc) k' /\
    state (slot k' z) = UNUSED /\ kstack (slot k' z) = 0 /\
    kmem k' = kstack Zc :: kmem k /\ ptable_lock k' = false.
Proof.
  intros Hinit Hc0 HP Hpi HPpar HPself Hz Hnone.
  assert (Hroot : Slot p <> initproc k).
  { rewrite Hinit. intros H. injection H as H. by apply Hpi. }
  destruct (orphan_first_for_init i0 p z k P Zc Hinit HP Hpi HPpar HPself Hz
              Hnone) as (Zc' & Hfind & Hpid & Hks & Hpar & Hst).
  pose proof (exit_switches p k P HP Hroot) as Hexit.
  destruct (exit_handoff_frame p k P HP) as (Hkm & _).
  set (kz := exit_handoff p k) in *. clearbody kz.
  destruct kz as [lz lckz npz initz kmz vmz uwz swz fscz conz pwz].
  cbn [ptable kmem] in Hfind, Hkm. subst kmz.
  assert (Hfind' := Hfind).
  apply list_find_Some in Hfind' as (Hzl & _ & _).
  assert (Hzn : (z < length lz)%nat) by (by eapply lookup_lt_Some).
  eexists _, _. split; [exact Hexit|].
  rewrite slot_mk, (list_lookup_total_correct lz z Zc' Hzl).
  split; [done|]. split; [done|].
  rewrite release_mk.
  rewrite (wait_found_eval env i0
             (mkKernel lz false npz initz (kmem k) vmz uwz swz fscz conz pwz)
             z Zc' Hfind).
  rewrite Hpid. split; [reflexivity|].
  rewrite slot_mk. cbn [ptable kmem ptable_lock].
  rewrite lookup_total_insert_eq by done.
  rewrite Hks. unfold reaped_by_wait. by peval.
Qed.

(** X29 on three generations: the process in slot 2 exits; init adopts and
    reaps its Zombie child in slot 3 (pid 4). *)
Lemma orphan_reaped_by_init_witness :
  exists kz k',
    exit [] 2 orphan_kernel = Switched kz /\
    parent (slot kz 3) = Slot 0 /\
    wait [] 0 (release kz) = Ret 4 k' /\
    state (slot k' 3) = UNUSED.
Proof.
  destruct (orphan_reaped_by_init [] 0 2 3 orphan_kernel
              (orphan_table !!! 0%nat) (orphan_table !!! 2%nat)
              (orphan_table !!! 3%nat))
    as (kz & k' & H1 & H2 & _ & H4 & H5 & _);
    [reflexivity | reflexivity | reflexivity | discriminate
    | left; discriminate | discriminate | reflexivity | reflexivity |].
  exists kz, k'. exact (conj H1 (conj H2 (conj H4 H5))).
Defined.

(** The error exits of [clone] put the new slot back to UNUSED and leave
    [np->parent] as it was set (proc.c lines 94 and 108-137); the scan of
    [wait] counts a slot as a child before it looks at the state (lines
    537-540).  A caller without children gets -1 from [wait]; after one of
    its [clone]s has failed it is put to sleep instead. *)
Lemma wait_after_failed_clone_sleeps :
  (exists k', wait [] 1 lone_kernel = Ret (-1) k') /\
  exists k1 k2,
    clone 4096 uvm_none 0 0 0 8192 1 lone_kernel = (-1, k1) /\
    stale_child 1 k1 /\ ~ has_child 1 k1 /\
    wait [] 1 k1 = Switched k2.
Proof.
  split; [eexists; vm_compute; reflexivity|].
  eexists _, _. split; [vm_compute; reflexivity|]. split; [|split].
  - eexists. split; [apply list_elem_of_lookup; by exists 2%nat|]. done.
  - intros (q & Hq & Hs & Hpar & Hthr).
    apply list_elem_of_lookup in Hq as [m Hm].
    do 3 (destruct m as [|m];
          [vm_compute in Hm; injection Hm as <-;
           first [discriminate Hpar | by apply Hs] |]).
    vm_compute in Hm. discriminate Hm.
  - vm_compute. reflexivity.
Qed.
